(* ===== verification/_CoqProject ===== *)
-Q . S2P
Prelude.v
Bytes.v
Format.v
Lines.v
Checksum.v
RingBuffer.v
Logger.v
PacketBuffer.v
EthernetParser.v
IpParser.v
TcpParser.v
UdpParser.v
IcmpParser.v
ArpParser.v
FilterStage.v
DissectorStage.v
StatsStage.v
FlowTracker.v
PublisherJson.v
Effects.v
Publisher.v
Concurrency.v
CaptureSession.v
Ranges.v
Engine.v
Delivery.v
Routing.v
Schema.v
Wire.v
Decode.v
RawSocket.v
HexDump.v
FlowDirection.v
Threads.v
Simulation.v
EndToEnd.v
Shutdown.v
Main.v
Tests.v
