(* ===== verification/Prelude.v ===== *)
(** * Network telemetry engine: verification library

    This library models the packet engine of the repository
    (src/cpp-packet-engine, C++) and proves what makes it correct.  The other
    services of the README (Spring Boot API, Python pipeline, React dashboard)
    have no code at this commit.

    ** The program

    Two threads share a ring of 2048-byte slots, a mutex, two condition
    variables and a stop flag.  The capture thread ([captureLoop]) waits for the
    raw socket with epoll and stores each frame with a time stamp in the
    [PacketBuffer], a thin layer over the [RingBuffer].  The pipeline thread
    (the lambda in [main]) takes a frame, filters it ([filter_stage]), parses it
    ([dissector_stage] and the parsers), derives statistics ([stats_stage]),
    updates the flow table ([flow_tracker]) and publishes a JSON message over
    AMQP ([RabbitMqPublisher]).  A signal handler sets the stop flag and
    notifies both threads.

    ** Files and sources

    - Prelude.v: outcomes of C++ calls, machine-width integers, tactics.
    - Bytes.v: byte memory, pointers into it, loads and copies with bounds, byte
      order, the big-endian readers of parsers/ip_parser.cpp.
    - Format.v: decimal, hexadecimal and dotted-quad text, with readers; Lines.v:
      text in lines.
    - Checksum.v: utils/checksum.cpp.
    - RingBuffer.v: utils/ring_buffer.h and .cpp; the queue it implements.
    - Logger.v: utils/logger.h and .cpp; a reader of the log text.
    - PacketBuffer.v: capture/packet_buffer.h and .cpp; the classes
      [PacketSource], what the pipeline needs of a buffer, and [PacketSink], what
      the capture loop needs of it, with their instances.
    - EthernetParser.v, IpParser.v, TcpParser.v, UdpParser.v, IcmpParser.v,
      ArpParser.v: parsers/*.h and .cpp.
    - FilterStage.v, DissectorStage.v, StatsStage.v, FlowTracker.v:
      pipeline/*.h and .cpp.
    - PublisherJson.v, Publisher.v: publishers/rabbitmq_publisher.cpp and its
      header; PublisherJson.v also has a strict JSON reader.
    - Effects.v: the monad of code that calls the outside world: an object, the
      history of calls with their answers, the log; bounds on what a run costs and
      invariants it keeps.
    - Concurrency.v: the threads and the handler (main.cpp, ring_buffer.cpp) as
      a step relation.
    - CaptureSession.v: capture/capture_session.cpp, over any [PacketSink] and
      with another thread that acts on it between the writes.
    - RawSocket.v: capture/raw_socket.cpp.
    - HexDump.v: utils/hex_dump.cpp.
    - Engine.v: the pipeline thread (main.cpp); Ranges.v and FlowDirection.v:
      facts about the frames that go through it; Delivery.v: what the broker is
      given; Routing.v: the queues it puts the messages in, by its definitions
      (src/infra/rabbitmq/definitions.json); Schema.v: the schema of the documents
      made of the messages (src/infra/mongo/init-collections.js).
    - Wire.v: well-formed frames (ARP, IPv4 with TCP, UDP, ICMP or another
      payload), their encoding and the record the pipeline must make of them;
      Decode.v: what the parsers accept is such an encoding.
    - Threads.v: the two threads of main.cpp as a schedule of whole operations.
    - Simulation.v: the step relation of Concurrency.v refines these schedules.
    - EndToEnd.v: so does the capture loop of CaptureSession.v, run on the buffer
      the pipeline thread takes from.
    - Shutdown.v: how long the capture loop and [publish] go on after a stop
      request.
    - Main.v: main.cpp as a whole: the signal dispositions and the log level, the
      start-up, both threads, the shutdown.
    - Tests.v: the test cases of tests/, evaluated on the model or, for the one
      with two running threads, proved for every interleaving.

    The threads are described at three grains.  Concurrency.v interleaves the
    single steps inside [write] and [read]; CaptureSession.v follows the capture
    thread through its system calls; Threads.v runs whole operations one after
    the other, and is what the theorems about the flow table and the published
    messages are stated over.  Simulation.v and EndToEnd.v connect the first two
    with the third.

    ** How code is modelled

    Integers are [Z] kept at their width by [u8] .. [u64]; conversions and
    unsigned arithmetic that can wrap are written out.  A function that reads
    memory gets the bytes [m] of the object its pointers point into; an access
    outside is the outcome [UB].  A call gives an [outcome]: a value, an
    exception, [Blocked] on a condition variable, [UB], or [OutOfFuel].  Local
    arrays without initialiser are arguments, so theorems hold for whatever they
    contain.  Loads of the stop flag are arguments or answers of the outside
    world.  Byte order is the class [NativeEndian] with both instances.  System
    calls, the AMQP library, the clock, the allocator and the environment are
    parameters that may answer anything, also depending on the whole history;
    what a theorem needs of them is a hypothesis of its statement: a connection
    object that can be allocated (the code does not check for the null pointer it
    gets otherwise, Publisher.v shows that it goes on with it), a descriptor that is not open already, the list of
    interfaces not changing while it is read, how AMQP defines a direct exchange.

    ** What is proved

    - Ring and packet buffer: [write] and [read] are the operations of a bounded
      queue of byte strings, with the blocking and the stop branches; the
      representation invariant is kept; nothing outside the slots is touched.
    - Threads: under every interleaving with spurious wake-ups, mutual
      exclusion, the ring invariant and first-in-first-out delivery; before the
      stop request every run is bounded and ends with everything delivered, so
      no wake-up is lost; shutdown terminates unless the
      notification falls into the window between a thread's test and its wait,
      which is shown to be reachable.
    - Checksum: equal to the RFC 1071 sum, with the 32-bit accumulator; which
      corruptions are detected.
    - Parsers and dissector: every well-formed frame becomes the record with
      exactly its fields, each parser inverting the encoder of its format, and no
      other frame is accepted; packets cut by the receive buffer give none; all
      reads stay inside the frame buffer; the result depends on the frame alone
      when the IPv4 total length covers the header, and a counterexample when it
      does not.
    - Flows: keys determine addresses and ports; the table after any history is
      the summary of each flow's frames; the retransmission flag; every flow has
      one direction; every field of a frame and of a flow record fits its type.
    - Publisher: calls to the AMQP library follow its session protocol on every
      path and everything is released; retry, wait and confirm behaviour of
      [publish]; every message parses as JSON into the fields of its frame; the
      broker is given the messages of extracted frames, whole, in order and none
      twice, and all of them when it accepts; by its definitions they go to the
      queue of the consumer and to no other; they conform to the schema of the
      collection they are stored in.
    - Capture: no received packet is lost but at most the one in hand at the
      stop request, and the time stamps ascend; descriptors are balanced; the
      local addresses.
    - Shutdown: after the stop request the capture loop makes at most 195 more
      calls and waits at most once more; a call of [publish] sleeps and polls for
      at most nine seconds, 4.05 once the flag is set.
    - Text: log lines and hex dumps can be read back, and frame summaries agree
      with the parser; the environment sets the port and the capacity.
    - Whole program: the pipeline publishes exactly the frames of the captured
      packets, in order, for every order of the two threads, every interleaving
      of their steps and every behaviour of the socket, and its loop ends exactly
      when it sees the stop request; [main] installs its handlers, runs both
      threads to their ends with this result, releases everything on every path
      that returns, and its exit codes.

    ** Fuel

    Loops that are not structural get fuel, and the theorems that a function
    returns name an amount that is enough: the checksum loop one round per two
    bytes and three folds of a 32-bit sum; three connection attempts and 100
    polls of a confirm; a row per 16 bytes of a dump; for the capture loop any
    fuel above the number of calls after which the stop flag is set; for the
    pipeline loop the iterations up to the one that sees the stop request; for the
    interface list [k] doublings for fewer than 16 * 2^k interfaces, [k] at most 21
    so that the size of the buffer is an [int].

    ** What is not modelled

    Memory orders of the atomics (each load is an arbitrary input), a second signal
    after the first (it would only repeat the notifications), the calendar
    text of the logger, the non-Linux branch of [captureLoop].  The time a call
    to the operating system or to the AMQP library takes is not known; the bounds
    on waiting count the timeouts passed to them.  The copies of the big-endian
    readers in the parser files are modelled once.  The build files, the container
    configuration, the cluster settings of the broker and the two collections of the database that the
    engine does not feed are not part of the engine; the other programs the README
    describes have no code at this commit. *)

From stdpp Require Export base tactics numbers list list_numbers strings gmap.
Open Scope Z_scope.

(** ** Outcomes of a C++ call

    A call returns a value, throws, blocks on a condition variable, runs into
    undefined behaviour (a read or a write outside an object), or exhausts the
    fuel of the model of a loop.  Theorems that a function returns are stated
    as equations [f x = Ret y]. *)
Inductive exn : Type :=
  | Invalid_argument (what : string)
  | Length_error
  | Bad_alloc
  | Out_of_range.

Inductive outcome (A : Type) : Type :=
  | Ret (a : A)
  | Throw (e : exn)
  | Blocked
  | UB
  | OutOfFuel.
Arguments Ret {A} a.
Arguments Throw {A} e.
Arguments Blocked {A}.
Arguments UB {A}.
Arguments OutOfFuel {A}.

#[global] Instance exn_eq_dec : EqDecision exn.
Proof. solve_decision. Defined.
#[global] Instance outcome_eq_dec {A} `{!EqDecision A} : EqDecision (outcome A).
Proof. solve_decision. Defined.

#[global] Instance outcome_ret : MRet outcome := @Ret.
#[global] Instance outcome_bind : MBind outcome := λ A B k m,
  match m with
  | Ret a => k a
  | Throw e => Throw e
  | Blocked => Blocked
  | UB => UB
  | OutOfFuel => OutOfFuel
  end.

#[global] Instance Ret_inj {A} : Inj (=) (=) (@Ret A).
Proof. by intros x y [= ->]. Qed.

Lemma bind_Ret {A B} (a : A) (k : A → outcome B) : (Ret a ≫= k) = k a.
Proof. reflexivity. Qed.

Lemma bind_eq_Ret {A B} (m : outcome A) (k : A → outcome B) b :
  (m ≫= k) = Ret b ↔ ∃ a, m = Ret a ∧ k a = Ret b.
Proof.
  split; [|by intros (a & -> & ?)].
  destruct m as [a| | | |]; simpl; try discriminate. by exists a.
Qed.

Lemma bind_assoc {A B C} (m : outcome A) (k : A → outcome B) (l : B → outcome C) :
  ((m ≫= k) ≫= l) = (m ≫= λ a, k a ≫= l).
Proof. by destruct m. Qed.

Lemma bind_if {A B} (b : bool) (m1 m2 : outcome A) (k : A → outcome B) :
  ((if b then m1 else m2) ≫= k) = if b then m1 ≫= k else m2 ≫= k.
Proof. by destruct b. Qed.

(** ** Machine integers

    An unsigned w-bit integer is a [Z] in range; the operations of the source
    that can leave the range are written with the explicit wrap-around. *)
Definition u8 (z : Z) : Z := z mod 2 ^ 8.
Definition u16 (z : Z) : Z := z mod 2 ^ 16.
Definition u32 (z : Z) : Z := z mod 2 ^ 32.
Definition u64 (z : Z) : Z := z mod 2 ^ 64.

Abbreviation is_u8 z := (0 ≤ z < 256).
Abbreviation is_u16 z := (0 ≤ z < 65536).
Abbreviation is_u32 z := (0 ≤ z < 4294967296).
Abbreviation is_u64 z := (0 ≤ z < 18446744073709551616).

Lemma u8_small z : is_u8 z → u8 z = z.
Proof. intros. apply Z.mod_small. lia. Qed.
Lemma u16_small z : is_u16 z → u16 z = z.
Proof. intros. apply Z.mod_small. lia. Qed.
Lemma u32_small z : is_u32 z → u32 z = z.
Proof. intros. apply Z.mod_small. lia. Qed.
Lemma u64_small z : is_u64 z → u64 z = z.
Proof. intros. apply Z.mod_small. lia. Qed.
Lemma u8_range z : is_u8 (u8 z).
Proof. apply Z.mod_pos_bound. lia. Qed.
Lemma u16_range z : is_u16 (u16 z).
Proof. apply Z.mod_pos_bound. lia. Qed.
Lemma u32_range z : is_u32 (u32 z).
Proof. apply Z.mod_pos_bound. lia. Qed.
(** [static_cast<int>] *)
Definition i32 (z : Z) : Z := (z + 2 ^ 31) mod 2 ^ 32 - 2 ^ 31.
Lemma i32_small z : - 2 ^ 31 ≤ z < 2 ^ 31 → i32 z = z.
Proof. intros Hz. unfold i32. rewrite Z.mod_small by lia. lia. Qed.

(** An unsigned subtraction below zero. *)
Lemma u64_negative a b : a < b ≤ a + 2 ^ 64 → u64 (a - b) = 2 ^ 64 - (b - a).
Proof.
  intros Hab. unfold u64. rewrite <- (Z.mod_add (a - b) 1 (2 ^ 64)), Z.mod_small by lia. lia.
Qed.

Lemma u64_range z : is_u64 (u64 z).
Proof. apply Z.mod_pos_bound. lia. Qed.

Create HintDb words.
#[export] Hint Resolve u8_range u16_range u32_range u64_range : words.

(** [bytes m]: every element of the memory object is a byte. *)
Abbreviation bytes m := (Forall (λ b : Z, is_u8 b) m).

(** A property of one byte can be checked on the 256 values. *)
Lemma byte_brute (P : Z → bool) :
  forallb P (seqZ 0 256) = true → ∀ b, is_u8 b → P b = true.
Proof.
  intros Hall b Hb. rewrite forallb_forall in Hall. apply Hall.
  apply list_elem_of_In, elem_of_seqZ. lia.
Qed.

(** Disjoint bits: or is addition. *)
Lemma lor_add_disjoint a b n :
  0 ≤ n → 0 ≤ b < 2 ^ n → Z.lor (Z.shiftl a n) b = a * 2 ^ n + b.
Proof.
  intros Hn Hb. rewrite <- Z.shiftl_mul_pow2 by done.
  assert (Z.land (Z.shiftl a n) b = 0) as Hdisj.
  { apply Z.bits_inj'. intros i Hi. rewrite Z.land_spec, Z.bits_0.
    destruct (decide (i < n)).
    - by rewrite Z.shiftl_spec_low.
    - rewrite <- (Z.mod_small b (2 ^ n)) by done.
      rewrite Z.mod_pow2_bits_high by lia. apply andb_false_r. }
  by rewrite <- Z.lxor_lor, Z.add_nocarry_lxor.
Qed.

(** ** Lists as memory objects *)

(** Lists indexed by offsets. *)
Lemma Forall_lookup_total_bytes (m : list Z) i :
  bytes m → is_u8 (m !!! i).
Proof.
  intros Hm. destruct (decide (i < length m)%nat) as [Hi|Hi].
  - by apply (Forall_lookup_total_1 _ _ _ Hm).
  - rewrite list_lookup_total_alt, lookup_ge_None_2 by lia. simpl. lia.
Qed.

(** [splice l o d]: [l] with the elements from offset [o] replaced by [d]. *)
Definition splice (l : list Z) (o : nat) (d : list Z) : list Z :=
  take o l ++ d ++ drop (o + length d) l.

Lemma length_splice l o d :
  (o + length d ≤ length l)%nat → length (splice l o d) = length l.
Proof.
  intros. unfold splice. rewrite !length_app, length_take, length_drop. lia.
Qed.

Lemma take_drop_splice_same l o d :
  (o + length d ≤ length l)%nat → take (length d) (drop o (splice l o d)) = d.
Proof.
  intros. unfold splice.
  rewrite drop_app_length' by (rewrite length_take; lia).
  by rewrite take_app_length.
Qed.

(** A window disjoint from the written one is unchanged. *)
Lemma take_drop_splice_other l o d o' n :
  (o + length d ≤ length l)%nat →
  (o' + n ≤ o ∨ o + length d ≤ o')%nat →
  take n (drop o' (splice l o d)) = take n (drop o' l).
Proof.
  intros Hle Hdis. apply list_eq. intros i.
  destruct (decide (i < n)%nat) as [Hi|Hi].
  2: { by rewrite !lookup_take_ge by lia. }
  rewrite !lookup_take_lt, !lookup_drop by lia. unfold splice.
  destruct Hdis as [?|?].
  - rewrite lookup_app_l by (rewrite length_take; lia).
    rewrite lookup_take_lt by lia. done.
  - rewrite lookup_app_r by (rewrite length_take; lia).
    rewrite length_take, lookup_app_r by lia.
    rewrite lookup_drop. f_equal. lia.
Qed.

Lemma Forall_splice (P : Z → Prop) l o d :
  Forall P l → Forall P d → Forall P (splice l o d).
Proof.
  intros Hl Hd. unfold splice.
  repeat apply Forall_app_2; auto using Forall_take, Forall_drop.
Qed.

(** ** Automation *)

(** Case analysis on the boolean tests of the source. *)
Ltac bool_cases :=
  repeat match goal with
  | |- context [?a <? ?b] => destruct (Z.ltb_spec a b)
  | |- context [?a <=? ?b] => destruct (Z.leb_spec a b)
  | |- context [?a =? ?b] => destruct (Z.eqb_spec a b)
  end; simpl.

(** Turn the boolean tests in the hypotheses into propositions. *)
Ltac bool_hyps :=
  repeat match goal with
  | H : (_ && _)%bool = true |- _ => apply andb_true_iff in H as [? ?]
  | H : (_ || _)%bool = false |- _ => apply orb_false_iff in H as [? ?]
  | H : (_ <? _) = true |- _ => apply Z.ltb_lt in H
  | H : (_ <? _) = false |- _ => apply Z.ltb_ge in H
  | H : (_ <=? _) = true |- _ => apply Z.leb_le in H
  | H : (_ <=? _) = false |- _ => apply Z.leb_gt in H
  | H : (_ =? _) = true |- _ => apply Z.eqb_eq in H
  | H : (_ =? _) = false |- _ => apply Z.eqb_neq in H
  | H : negb _ = true |- _ => apply negb_true_iff in H
  | H : negb _ = false |- _ => apply negb_false_iff in H
  end.

(** Split a successful monadic computation into its steps. *)
Ltac outcome_inv :=
  repeat match goal with
  | H : (_ ≫= _) = Ret _ |- _ =>
      let a := fresh "a" in
      apply bind_eq_Ret in H as (a & ? & H)
  | H : Ret _ = Ret _ |- _ => injection H as H; try subst
  | H : mret _ = Ret _ |- _ => change (mret (M:=outcome)) with (@Ret) in H
  | H : ?f = Ret _ |- _ => discriminate H
  end.
