(* ===== verification/Bytes.v ===== *)
(** * Bytes, pointers and object representations

    The memory model shared by the components: a memory object is a list of
    bytes, a pointer is null or an offset into the object it points to, and a
    read or a copy outside the object is undefined behaviour.  The big-endian
    readers of the parsers and the native representation of integers (used by
    the [memcpy] of the time stamp and by [htonl]) are here. *)

From S2P Require Import Prelude.

(** ** Pointers *)
Inductive ptr : Type :=
  | nullptr
  | Ptr (off : Z).

#[global] Instance ptr_eq_dec : EqDecision ptr.
Proof. solve_decision. Defined.

Definition is_null (p : ptr) : bool :=
  match p with nullptr => true | Ptr _ => false end.

(** [p[i]] *)
Definition load (m : list Z) (p : ptr) (i : Z) : outcome Z :=
  match p with
  | nullptr => UB
  | Ptr o =>
      if 0 <=? o + i then
        match m !! Z.to_nat (o + i) with Some b => Ret b | None => UB end
      else UB
  end.

(** [p + n]: defined up to one past the end of the object. *)
Definition ptr_add (m : list Z) (p : ptr) (n : Z) : outcome ptr :=
  match p with
  | nullptr => UB
  | Ptr o =>
      if (0 <=? o + n) && (o + n <=? Z.of_nat (length m)) then Ret (Ptr (o + n))
      else UB
  end.

(** [std::memcpy] from an object, [n] bytes at offset [o]. *)
Definition mem_read (m : list Z) (o n : Z) : outcome (list Z) :=
  if (0 <=? o) && (0 <=? n) && (o + n <=? Z.of_nat (length m))
  then Ret (take (Z.to_nat n) (drop (Z.to_nat o) m))
  else UB.

(** [std::memcpy] of [d] into an object at offset [o]. *)
Definition mem_write (m : list Z) (o : Z) (d : list Z) : outcome (list Z) :=
  if (0 <=? o) && (o + Z.of_nat (length d) <=? Z.of_nat (length m))
  then Ret (splice m (Z.to_nat o) d)
  else UB.

(** ** Big-endian reads of the parsers *)
Definition readU16Be (m : list Z) (p : ptr) : outcome Z :=
  b0 ← load m p 0;
  b1 ← load m p 1;
  Ret (u16 (Z.lor (Z.shiftl b0 8) b1)).

Definition readU32Be (m : list Z) (p : ptr) : outcome Z :=
  b0 ← load m p 0;
  b1 ← load m p 1;
  b2 ← load m p 2;
  b3 ← load m p 3;
  Ret (Z.lor (Z.lor (Z.lor (u32 (Z.shiftl b0 24)) (u32 (Z.shiftl b1 16)))
               (u32 (Z.shiftl b2 8))) b3).

(** ** Native representation of integers *)
Inductive endianness : Type := LittleEndian | BigEndian.

(** The byte order of the machine, left open. *)
Class NativeEndian := native_endian : endianness.

Definition native_bytes `{NativeEndian} (n : Z) (v : Z) : list Z :=
  match native_endian with
  | LittleEndian => Z_to_little_endian n 8 v
  | BigEndian => reverse (Z_to_little_endian n 8 v)
  end.

Definition native_value `{NativeEndian} (bs : list Z) : Z :=
  match native_endian with
  | LittleEndian => little_endian_to_Z 8 bs
  | BigEndian => little_endian_to_Z 8 (reverse bs)
  end.

(** [htonl]: the value whose native representation is big-endian. *)
Definition htonl `{NativeEndian} (v : Z) : Z :=
  native_value (reverse (Z_to_little_endian 4 8 v)).

(** ** Facts on in-bounds accesses *)

(** The byte at offset [o + i]. *)
Definition byte_at (m : list Z) (o i : Z) : Z := m !!! Z.to_nat (o + i).

Lemma load_in m o i :
  0 ≤ o + i < Z.of_nat (length m) → load m (Ptr o) i = Ret (byte_at m o i).
Proof.
  intros Hi. unfold load, byte_at. rewrite (proj2 (Z.leb_le _ _)) by lia.
  rewrite (list_lookup_lookup_total_lt m (Z.to_nat (o + i))) by lia. done.
Qed.

Lemma load_out m o i :
  ¬ (0 ≤ o + i < Z.of_nat (length m)) → load m (Ptr o) i = UB.
Proof.
  intros Hi. unfold load. bool_cases; [|done].
  by rewrite lookup_ge_None_2 by lia.
Qed.

Lemma ptr_add_in m o n :
  0 ≤ o + n ≤ Z.of_nat (length m) → ptr_add m (Ptr o) n = Ret (Ptr (o + n)).
Proof. intros. unfold ptr_add. bool_cases; try lia. done. Qed.

Lemma byte_at_range m o i : bytes m → is_u8 (byte_at m o i).
Proof. apply Forall_lookup_total_bytes. Qed.
#[export] Hint Resolve byte_at_range : words.

Lemma byte_at_shift m o i j : byte_at m (o + i) j = byte_at m o (i + j).
Proof. unfold byte_at. do 2 f_equal. lia. Qed.

Lemma mem_read_in m o n :
  0 ≤ o → 0 ≤ n → o + n ≤ Z.of_nat (length m) →
  mem_read m o n = Ret (take (Z.to_nat n) (drop (Z.to_nat o) m)).
Proof. intros. unfold mem_read. bool_cases; try lia. done. Qed.

Lemma mem_write_in m o d :
  0 ≤ o → o + Z.of_nat (length d) ≤ Z.of_nat (length m) →
  mem_write m o d = Ret (splice m (Z.to_nat o) d).
Proof. intros. unfold mem_write. bool_cases; try lia. done. Qed.

(** The value of big-endian bytes. *)
Definition be16 (b0 b1 : Z) : Z := b0 * 256 + b1.
Definition be32 (b0 b1 b2 b3 : Z) : Z := ((b0 * 256 + b1) * 256 + b2) * 256 + b3.

Lemma be16_lor b0 b1 :
  is_u8 b0 → is_u8 b1 → u16 (Z.lor (Z.shiftl b0 8) b1) = be16 b0 b1.
Proof.
  intros. rewrite lor_add_disjoint by lia. apply u16_small. unfold be16. lia.
Qed.

Lemma be32_lor b0 b1 b2 b3 :
  is_u8 b0 → is_u8 b1 → is_u8 b2 → is_u8 b3 →
  Z.lor (Z.lor (Z.lor (u32 (Z.shiftl b0 24)) (u32 (Z.shiftl b1 16)))
           (u32 (Z.shiftl b2 8))) b3 = be32 b0 b1 b2 b3.
Proof.
  intros. unfold be32.
  rewrite !Z.shiftl_mul_pow2, !u32_small by lia.
  rewrite <- !Z.shiftl_mul_pow2 by lia.
  replace (Z.shiftl b0 24) with (Z.shiftl (Z.shiftl b0 8) 16)
    by (by rewrite Z.shiftl_shiftl).
  rewrite <- Z.shiftl_lor, (lor_add_disjoint b0 b1 8) by lia.
  replace (Z.shiftl (b0 * 2 ^ 8 + b1) 16)
    with (Z.shiftl (Z.shiftl (b0 * 2 ^ 8 + b1) 8) 8)
    by (by rewrite Z.shiftl_shiftl).
  rewrite <- Z.shiftl_lor, (lor_add_disjoint _ b2 8), (lor_add_disjoint _ b3 8) by lia.
  lia.
Qed.

Lemma be16_range b0 b1 : is_u8 b0 → is_u8 b1 → is_u16 (be16 b0 b1).
Proof. unfold be16. lia. Qed.
Lemma be32_range b0 b1 b2 b3 :
  is_u8 b0 → is_u8 b1 → is_u8 b2 → is_u8 b3 → is_u32 (be32 b0 b1 b2 b3).
Proof. unfold be32. lia. Qed.
#[export] Hint Resolve be16_range be32_range : words.

(** The 16- and 32-bit words of a memory object at offset [o + i]. *)
Definition be16_at (m : list Z) (o i : Z) : Z :=
  be16 (byte_at m o i) (byte_at m o (i + 1)).
Definition be32_at (m : list Z) (o i : Z) : Z :=
  be32 (byte_at m o i) (byte_at m o (i + 1)) (byte_at m o (i + 2)) (byte_at m o (i + 3)).

Lemma be16_at_range m o i : bytes m → is_u16 (be16_at m o i).
Proof. intros. unfold be16_at. auto with words. Qed.
Lemma be32_at_range m o i : bytes m → is_u32 (be32_at m o i).
Proof. intros. unfold be32_at. auto with words. Qed.
#[export] Hint Resolve be16_at_range be32_at_range : words.

Section ReadBe.
Context (m : list Z) (o : Z).
Hypothesis Hbytes : bytes m.

(** An in-bounds read at [p + n] returns the big-endian value. *)
Lemma readU16Be_at n :
  0 ≤ o + n → o + n + 2 ≤ Z.of_nat (length m) →
  (p ← ptr_add m (Ptr o) n; readU16Be m p) = Ret (be16_at m o n).
Proof.
  intros. rewrite ptr_add_in, bind_Ret by lia. unfold readU16Be.
  rewrite !load_in, !bind_Ret, !byte_at_shift, be16_lor by auto with words lia.
  unfold be16_at. by rewrite Z.add_0_r.
Qed.

Lemma readU32Be_at n :
  0 ≤ o + n → o + n + 4 ≤ Z.of_nat (length m) →
  (p ← ptr_add m (Ptr o) n; readU32Be m p) = Ret (be32_at m o n).
Proof.
  intros. rewrite ptr_add_in, bind_Ret by lia. unfold readU32Be.
  rewrite !load_in, !bind_Ret, !byte_at_shift, be32_lor by auto with words lia.
  unfold be32_at. by rewrite Z.add_0_r.
Qed.
End ReadBe.

(** [for (i = 0; i < n; ++i) dst[i] = p[off + i]] *)
Fixpoint load_bytes (m : list Z) (p : ptr) (off : Z) (n : nat) : outcome (list Z) :=
  match n with
  | O => Ret []
  | S n' =>
      b ← load m p off;
      bs ← load_bytes m p (off + 1) n';
      Ret (b :: bs)
  end.

(** The [n] bytes from offset [o]. *)
Definition bytes_at (m : list Z) (o : Z) (n : nat) : list Z := take n (drop (Z.to_nat o) m).

Lemma load_bytes_in m o off n :
  0 ≤ o + off → o + off + Z.of_nat n ≤ Z.of_nat (length m) →
  load_bytes m (Ptr o) off n = Ret (bytes_at m (o + off) n).
Proof.
  revert off. induction n as [|n IH]; intros off H1 H2; [done|].
  cbn [load_bytes]. rewrite load_in, bind_Ret, IH, bind_Ret by lia. f_equal.
  unfold bytes_at. rewrite (drop_S m (byte_at m o off) (Z.to_nat (o + off))).
  - cbn [take]. do 3 f_equal. lia.
  - apply list_lookup_lookup_total_lt. lia.
Qed.

Lemma bytes_at_bytes m o n : bytes m → bytes (bytes_at m o n).
Proof. intros. by apply Forall_take, Forall_drop. Qed.
Lemma length_bytes_at m o n :
  0 ≤ o → o + Z.of_nat n ≤ Z.of_nat (length m) → length (bytes_at m o n) = n.
Proof. intros. unfold bytes_at. rewrite length_take, length_drop. lia. Qed.
#[export] Hint Resolve bytes_at_bytes : words.

(** ** Encoders, for the round trips *)
Definition be16_bytes (v : Z) : list Z := [v / 256; v mod 256].
Definition be32_bytes (v : Z) : list Z :=
  [v / 2 ^ 24 mod 256; v / 2 ^ 16 mod 256; v / 2 ^ 8 mod 256; v mod 256].

Lemma be16_of_bytes v : is_u16 v → be16 (v / 256) (v mod 256) = v.
Proof. intros. unfold be16. Z.to_euclidean_division_equations; lia. Qed.

Lemma be32_of_bytes v :
  is_u32 v →
  be32 (v / 2 ^ 24 mod 256) (v / 2 ^ 16 mod 256) (v / 2 ^ 8 mod 256) (v mod 256) = v.
Proof.
  intros. unfold be32. change (2 ^ 24) with (2 ^ 8 * 2 ^ 8 * 2 ^ 8).
  change (2 ^ 16) with (2 ^ 8 * 2 ^ 8). rewrite <- !Z.div_div by lia.
  Z.to_euclidean_division_equations. lia.
Qed.

Lemma be16_bytes_bytes v : is_u16 v → bytes (be16_bytes v).
Proof. intros. repeat constructor; Z.to_euclidean_division_equations; lia. Qed.
Lemma be32_bytes_bytes v : bytes (be32_bytes v).
Proof. repeat constructor; apply Z.mod_pos_bound; lia. Qed.
#[export] Hint Resolve be16_bytes_bytes be32_bytes_bytes : words.

(** Reading in the middle of an object. *)
Lemma byte_at_mid pre l i :
  0 ≤ i → byte_at (pre ++ l) (Z.of_nat (length pre)) i = l !!! Z.to_nat i.
Proof.
  intros. unfold byte_at.
  replace (Z.to_nat (Z.of_nat (length pre) + i)) with (length pre + Z.to_nat i)%nat by lia.
  rewrite !list_lookup_total_alt. by rewrite lookup_app_r, Nat.add_comm, Nat.add_sub by lia.
Qed.

Lemma byte_at_front l t o i :
  0 ≤ o + i < Z.of_nat (length l) → byte_at (l ++ t) o i = byte_at l o i.
Proof. intros Hi. unfold byte_at. rewrite !list_lookup_total_alt. by rewrite lookup_app_l by lia. Qed.

Lemma byte_at_behind l t i : 0 ≤ i → byte_at (l ++ t) (Z.of_nat (length l)) i = byte_at t 0 i.
Proof. apply byte_at_mid. Qed.

Lemma bytes_at_mid pre l i n :
  0 ≤ i → bytes_at (pre ++ l) (Z.of_nat (length pre) + i) n = take n (drop (Z.to_nat i) l).
Proof.
  intros. unfold bytes_at. rewrite drop_app_ge by lia. do 2 f_equal. lia.
Qed.

Lemma bytes_mid (pre l post : list Z) :
  bytes pre → bytes l → bytes post → bytes (pre ++ l ++ post).
Proof. intros. apply Forall_app_2; [done|]. by apply Forall_app_2. Qed.
#[export] Hint Resolve bytes_mid : words.

(** The nibbles of a byte. *)
Lemma high_nibble b : is_u8 b → Z.land (Z.shiftr b 4) 0x0F = b / 16.
Proof.
  intros Hb. apply Z.eqb_eq.
  by apply (byte_brute (λ b, Z.land (Z.shiftr b 4) 0x0F =? b / 16) eq_refl).
Qed.
Lemma low_nibble b : is_u8 b → Z.land b 0x0F = b mod 16.
Proof.
  intros Hb. apply Z.eqb_eq.
  by apply (byte_brute (λ b, Z.land b 0x0F =? b mod 16) eq_refl).
Qed.

(** ** Facts on native representations *)
Section Native.
Context `{NativeEndian}.

(** Copying an integer to bytes and back, whatever the byte order. *)
Lemma native_value_bytes n v :
  0 ≤ n → native_value (native_bytes n v) = v mod 2 ^ (n * 8).
Proof.
  intros. unfold native_value, native_bytes.
  destruct native_endian; rewrite ?reverse_involutive;
    by apply little_endian_to_Z_to_little_endian.
Qed.

Lemma length_native_bytes n v :
  0 ≤ n → length (native_bytes n v) = Z.to_nat n.
Proof.
  intros. unfold native_bytes.
  destruct native_endian; rewrite ?length_reverse;
    apply Nat2Z.inj; rewrite length_Z_to_little_endian; lia.
Qed.

Lemma little_endian_bytes n v : 0 ≤ n → bytes (Z_to_little_endian n 8 v).
Proof. intros. by apply (Z_to_little_endian_bound n 8). Qed.

Lemma native_bytes_bytes n v : 0 ≤ n → bytes (native_bytes n v).
Proof.
  intros. unfold native_bytes.
  pose proof (little_endian_bytes n v ltac:(done)).
  destruct native_endian; [done|]. by apply Forall_reverse.
Qed.

Lemma native_value_bound bs :
  length bs = 8%nat → bytes bs → is_u64 (native_value bs).
Proof.
  intros Hl Hb. unfold native_value.
  destruct native_endian.
  - pose proof (little_endian_to_Z_bound 8 bs ltac:(lia) Hb). rewrite Hl in *. lia.
  - pose proof (little_endian_to_Z_bound 8 (reverse bs) ltac:(lia) (proj2 (Forall_reverse _ _) Hb)).
    rewrite length_reverse, Hl in *. lia.
Qed.

Lemma native_bytes_value n bs :
  n = Z.of_nat (length bs) → bytes bs → native_bytes n (native_value bs) = bs.
Proof.
  intros -> Hbs. unfold native_value, native_bytes.
  destruct native_endian; rewrite Z_to_little_endian_to_Z;
    rewrite ?length_reverse, ?reverse_involutive; auto using Forall_reverse with lia.
  all: try lia; by apply Forall_reverse.
Qed.

(** The bytes [htonl] leaves in memory are the big-endian ones. *)
Lemma native_bytes_htonl v :
  native_bytes 4 (htonl v) = reverse (Z_to_little_endian 4 8 v).
Proof.
  unfold htonl. apply native_bytes_value.
  - by rewrite length_reverse, length_Z_to_little_endian.
  - apply Forall_reverse. by apply little_endian_bytes.
Qed.
End Native.

Lemma big_endian_4 v :
  reverse (Z_to_little_endian 4 8 v)
  = [v / 2 ^ 24 mod 256; v / 2 ^ 16 mod 256; v / 2 ^ 8 mod 256; v mod 256].
Proof.
  rewrite (Z_to_little_endian_succ 3), (Z_to_little_endian_succ 2),
    (Z_to_little_endian_succ 1), (Z_to_little_endian_succ 0),
    Z_to_little_endian_0 by lia.
  rewrite !Z.shiftr_shiftr by lia. rewrite !Z.land_ones, !Z.shiftr_div_pow2 by lia.
  done.
Qed.

(** ** Extending a memory object

    [defined_as x y]: [y] is [x], unless [x] is undefined behaviour.  A program
    that only reads memory keeps its result when the object it reads grows: a
    result obtained on the bytes of a frame alone does not depend on what lies
    behind them. *)
Definition defined_as {A} (x y : outcome A) : Prop := x = UB ∨ x = y.

#[global] Instance defined_as_refl {A} : Reflexive (@defined_as A).
Proof. intros x. by right. Qed.

Lemma defined_as_bind {A B} (x y : outcome A) (k l : A → outcome B) :
  defined_as x y → (∀ a, defined_as (k a) (l a)) → defined_as (x ≫= k) (y ≫= l).
Proof. intros [->| ->] H; [by left|]. destruct y; simpl; auto; try reflexivity. Qed.

Lemma defined_as_Ret {A} (x y : outcome A) a : defined_as x y → x = Ret a → y = Ret a.
Proof. by intros [->| ->] ?. Qed.

Create HintDb extend.
#[export] Hint Extern 0 (defined_as ?x ?x) => reflexivity : extend.

(** Follow the structure of two copies of a program. *)
Ltac solve_defined :=
  repeat first
    [ reflexivity
    | solve [eauto with extend]
    | apply defined_as_bind; [|intros ?]
    | match goal with |- defined_as (if ?b then _ else _) _ => destruct b end
    | match goal with |- defined_as (match ?x with _ => _ end) _ => destruct x end ].

Section Extend.
Context (m m' : list Z).
Hypothesis Hpre : m `prefix_of` m'.

Lemma load_extend p i : defined_as (load m p i) (load m' p i).
Proof using Hpre.
  destruct p as [|o]; [by left|]. unfold load. destruct (0 <=? o + i); [|by left].
  destruct (m !! Z.to_nat (o + i)) as [b|] eqn:E; [|by left].
  rewrite (prefix_lookup_Some _ _ _ _ E Hpre). reflexivity.
Qed.

Lemma ptr_add_extend p n : defined_as (ptr_add m p n) (ptr_add m' p n).
Proof using Hpre.
  destruct p as [|o]; [by left|]. unfold ptr_add. pose proof (prefix_length _ _ Hpre).
  destruct (0 <=? o + n); [|by left]. simpl.
  destruct (Z.leb_spec (o + n) (Z.of_nat (length m))); [|by left].
  rewrite (proj2 (Z.leb_le _ _)) by lia. reflexivity.
Qed.
#[local] Hint Resolve load_extend ptr_add_extend : extend.

Lemma readU16Be_extend p : defined_as (readU16Be m p) (readU16Be m' p).
Proof using Hpre. unfold readU16Be. solve_defined. Qed.

Lemma readU32Be_extend p : defined_as (readU32Be m p) (readU32Be m' p).
Proof using Hpre. unfold readU32Be. solve_defined. Qed.

Lemma load_bytes_extend p off n : defined_as (load_bytes m p off n) (load_bytes m' p off n).
Proof using Hpre. revert off. induction n as [|n IH]; intros off; simpl; solve_defined. Qed.
End Extend.
#[export] Hint Resolve load_extend ptr_add_extend readU16Be_extend readU32Be_extend
  load_bytes_extend : extend.
