(* ===== verification/Format.v ===== *)
(** * Number and address formatting

    The text produced by [std::to_string], by a stream with [std::hex],
    [std::setfill] and [std::setw], and by [inet_ntop], with the readers that
    invert them: the flow keys, the MAC strings, the hex dump and the JSON
    messages are all built from these. *)

From Stdlib Require Import Ascii.
From S2P Require Import Prelude.
From S2P Require Import Bytes.

(** ** Digits *)
Definition digit_char (d : Z) : ascii :=
  if d <? 10 then ascii_of_nat (Z.to_nat (48 + d))
  else ascii_of_nat (Z.to_nat (87 + d)).

Definition digit_val (c : ascii) : option Z :=
  let n := Z.of_nat (nat_of_ascii c) in
  if (48 <=? n) && (n <=? 57) then Some (n - 48)
  else if (97 <=? n) && (n <=? 102) then Some (n - 87)
  else None.

(** [c] is a digit in base [base]. *)
Definition is_digit (base : Z) (c : ascii) : bool :=
  match digit_val c with Some d => d <? base | None => false end.

(** The digits of [n] in front of [acc], at most [fuel] of them. *)
Fixpoint digits_go (base : Z) (fuel : nat) (n : Z) (acc : string) : string :=
  match fuel with
  | O => acc
  | S f =>
      let acc' := String (digit_char (n mod base)) acc in
      if n / base =? 0 then acc' else digits_go base f (n / base) acc'
  end.

(** [std::to_string] and [operator<<] in [std::dec], for integers of at most
    64 bits (20 decimal digits). *)
Definition to_string (n : Z) : string := digits_go 10 20 n "".

(** Left padding by [std::setfill(c) << std::setw(w)]. *)
Definition pad_left (c : ascii) (w : nat) (s : string) : string :=
  String.app
    (Nat.iter (w - String.length s) (String c) "") s.

(** [std::hex << std::setfill('0') << std::setw(w) << n], 64 bits at most. *)
Definition to_hex (w : nat) (n : Z) : string :=
  pad_left "0"%char w (digits_go 16 16 n "").

(** [inet_ntop(AF_INET, ...)] on the four bytes in memory. *)
Definition inet_ntop4 (bs : list Z) : string :=
  match bs with
  | [a; b; c; d] =>
      to_string a +:+ "." +:+ to_string b +:+ "." +:+ to_string c +:+ "." +:+ to_string d
  | _ => ""
  end.

(** [ipToString] of stats_stage.cpp and [ipToStr] of rabbitmq_publisher.cpp. *)
Definition ipToString `{NativeEndian} (ip_host : Z) : string :=
  let ip_net := htonl ip_host in
  inet_ntop4 (native_bytes 4 ip_net).

(** [s.c_str()] as a C function sees it: the text up to the first zero. *)
Fixpoint c_str (s : string) : string :=
  match s with
  | String c s' => if decide (c = ascii_of_nat 0) then "" else String c (c_str s')
  | EmptyString => ""
  end.

(** [EthernetFrame::macToString], [macToStr] and [formatMAC]: six bytes in hex,
    separated by colons. *)
Fixpoint mac_loop (first : bool) (bs : list Z) : string :=
  match bs with
  | [] => ""
  | b :: bs' => (if first then "" else ":") +:+ to_hex 2 b +:+ mac_loop false bs'
  end.

Definition macToString (mac : list Z) : string := mac_loop true (take 6 mac).

(** ** Reading back *)

(** Reads the longest run of digits, in front of which [a] was already read. *)
Fixpoint read_num (base a : Z) (s : string) : Z * string :=
  match s with
  | String c s' =>
      if is_digit base c
      then read_num base (a * base + default 0 (digit_val c)) s'
      else (a, s)
  | EmptyString => (a, s)
  end.

(** [s] does not start with a digit. *)
Definition no_digit (base : Z) (s : string) : bool :=
  match s with String c _ => negb (is_digit base c) | EmptyString => true end.

Lemma digit_val_char d : 0 ≤ d < 16 → digit_val (digit_char d) = Some d.
Proof.
  intros Hd.
  pose proof (byte_brute
    (λ d, negb (d <? 16) || bool_decide (digit_val (digit_char d) = Some d))
    eq_refl d ltac:(lia)) as Hb.
  simpl in Hb. rewrite (proj2 (Z.ltb_lt d 16)) in Hb by lia. simpl in Hb.
  by apply bool_decide_eq_true in Hb.
Qed.

Lemma is_digit_char base d :
  0 ≤ d < base → base ≤ 16 → is_digit base (digit_char d) = true.
Proof.
  intros. unfold is_digit. rewrite digit_val_char by lia. apply Z.ltb_lt. lia.
Qed.

Lemma length_app_s (a b : string) : String.length (a +:+ b) = (String.length a + String.length b)%nat.
Proof. induction a; [done|]. simpl. unfold String.app in *. simpl. lia. Qed.

Lemma app_nil_r_s (a : string) : a +:+ "" = a.
Proof. induction a; [done|]. unfold String.app in *. simpl. by f_equal. Qed.

Lemma app_assoc_s (a b c : string) : (a +:+ b) +:+ c = a +:+ (b +:+ c).
Proof. induction a; simpl; [done|]. unfold String.app in *. simpl. by f_equal. Qed.

Lemma digits_go_app base fuel n acc rest :
  digits_go base fuel n acc +:+ rest = digits_go base fuel n (acc +:+ rest).
Proof.
  revert n acc. induction fuel as [|f IH]; intros n acc; simpl; [done|].
  destruct (n / base =? 0); [done|]. apply IH.
Qed.

Section Reading.
Context (base : Z).
Hypothesis Hbase : 2 ≤ base ≤ 16.

Lemma read_num_digits_go fuel n a acc :
  0 ≤ n < base ^ Z.of_nat fuel →
  ∃ k, 0 ≤ k ∧
  read_num base a (digits_go base fuel n acc) = read_num base (a * base ^ k + n) acc.
Proof.
  revert n acc. induction fuel as [|f IH]; intros n acc Hn.
  { exists 0. split; [lia|]. simpl. f_equal. simpl in Hn. lia. }
  assert (0 ≤ n mod base < base) by (apply Z.mod_pos_bound; lia).
  pose proof (Z.div_mod n base ltac:(lia)).
  assert (∀ a', read_num base a' (String (digit_char (n mod base)) acc)
           = read_num base (a' * base + n mod base) acc) as Hstep.
  { intros a'. simpl. rewrite is_digit_char, digit_val_char by lia. done. }
  simpl digits_go. destruct (Z.eqb_spec (n / base) 0) as [E|E].
  - exists 1. split; [lia|]. rewrite Hstep. f_equal. nia.
  - destruct (IH (n / base) (String (digit_char (n mod base)) acc)) as (k & Hk & ->).
    { split; [apply Z.div_pos; lia|]. apply Z.div_lt_upper_bound; [lia|].
      rewrite Nat2Z.inj_succ, Z.pow_succ_r in Hn by lia. lia. }
    exists (k + 1). split; [lia|]. rewrite Hstep. f_equal.
    rewrite Z.pow_add_r by lia. nia.
Qed.

Lemma read_num_stop a s : no_digit base s = true → read_num base a s = (a, s).
Proof. destruct s; [done|]. simpl. by intros ->%negb_true_iff. Qed.
End Reading.

(** Reading a printed number followed by a non-digit gives the number back. *)
Lemma read_to_string n rest :
  is_u64 n → no_digit 10 rest = true →
  read_num 10 0 (to_string n +:+ rest) = (n, rest).
Proof.
  intros Hn Hrest. unfold to_string. rewrite digits_go_app.
  destruct (read_num_digits_go 10 ltac:(lia) 20 n 0 ("" +:+ rest)) as (k & _ & ->).
  { simpl. lia. }
  simpl. by apply read_num_stop.
Qed.

Lemma to_string_app_inj n1 n2 r1 r2 :
  is_u64 n1 → is_u64 n2 → no_digit 10 r1 = true → no_digit 10 r2 = true →
  to_string n1 +:+ r1 = to_string n2 +:+ r2 → n1 = n2 ∧ r1 = r2.
Proof.
  intros ? ? ? ? E. apply (f_equal (read_num 10 0)) in E.
  rewrite !read_to_string in E by done. by simplify_eq.
Qed.

Lemma to_string_inj n1 n2 :
  is_u64 n1 → is_u64 n2 → to_string n1 = to_string n2 → n1 = n2.
Proof.
  intros ? ? E. apply (to_string_app_inj n1 n2 "" ""); [done..|by rewrite E].
Qed.

(** A non-empty run of digits: its first character is one. *)
Lemma digits_go_head base fuel n acc :
  2 ≤ base ≤ 16 → no_digit base (digits_go base (S fuel) n acc) = false.
Proof.
  intros Hb. revert n acc. induction fuel as [|f IH]; intros n acc.
  - simpl. assert (0 ≤ n mod base < base) by (apply Z.mod_pos_bound; lia).
    destruct (_ =? 0); simpl; by rewrite is_digit_char by lia.
  - change (digits_go base (S (S f)) n acc) with
      (if n / base =? 0 then String (digit_char (n mod base)) acc
       else digits_go base (S f) (n / base) (String (digit_char (n mod base)) acc)).
    assert (0 ≤ n mod base < base) by (apply Z.mod_pos_bound; lia).
    destruct (_ =? 0); [simpl; by rewrite is_digit_char by lia|apply IH].
Qed.

(** ** Addresses *)

(** The dotted quad, most significant byte first, on either byte order. *)
Definition dotted (ip : Z) : string :=
  to_string (ip / 2 ^ 24 mod 256) +:+ "." +:+ to_string (ip / 2 ^ 16 mod 256) +:+ "."
  +:+ to_string (ip / 2 ^ 8 mod 256) +:+ "." +:+ to_string (ip mod 256).

Lemma ipToString_is_dotted `{NativeEndian} ip : ipToString ip = dotted ip.
Proof.
  unfold ipToString, dotted. rewrite native_bytes_htonl, big_endian_4. done.
Qed.

Lemma byte_mod_u64 z : is_u64 (z mod 256).
Proof. pose proof (Z.mod_pos_bound z 256). lia. Qed.

(** Cancel the same number and separator on both sides. *)
Ltac cancel_number E :=
  rewrite ?app_assoc_s in E;
  apply to_string_app_inj in E as [? E];
  [| (assumption || apply byte_mod_u64 || lia).. | reflexivity | reflexivity];
  apply (inj (String.app _)) in E.

Lemma dotted_app_inj ip1 ip2 r1 r2 :
  is_u32 ip1 → is_u32 ip2 → no_digit 10 r1 = true → no_digit 10 r2 = true →
  dotted ip1 +:+ r1 = dotted ip2 +:+ r2 → ip1 = ip2 ∧ r1 = r2.
Proof.
  intros H1 H2 Hr1 Hr2 E. unfold dotted in E.
  do 3 cancel_number E.
  apply to_string_app_inj in E as [? ->]; [|apply byte_mod_u64|apply byte_mod_u64|done..].
  split; [|done]. rewrite <- (be32_of_bytes ip1), <- (be32_of_bytes ip2) by done. congruence.
Qed.

(** ** MAC addresses *)

(** Two hex digits per byte. *)
Definition hex2 (b : Z) : string :=
  String (digit_char (b / 16)) (String (digit_char (b mod 16)) "").

Lemma to_hex_byte b : is_u8 b → to_hex 2 b = hex2 b.
Proof.
  intros Hb.
  pose proof (byte_brute (λ b, bool_decide (to_hex 2 b = hex2 b)) eq_refl b Hb) as E.
  by apply bool_decide_eq_true in E.
Qed.

Lemma hex2_app_inj a b r1 r2 :
  is_u8 a → is_u8 b → hex2 a +:+ r1 = hex2 b +:+ r2 → a = b ∧ r1 = r2.
Proof.
  intros Ha Hb E. unfold hex2, String.app in E. simpl in E. injection E as E1 E2 E3.
  apply (f_equal digit_val) in E1, E2.
  rewrite !digit_val_char in E1, E2
    by (Z.to_euclidean_division_equations; lia).
  injection E1 as E1. injection E2 as E2. split; [|done].
  rewrite (Z.div_mod a 16), (Z.div_mod b 16) by lia. congruence.
Qed.

Lemma mac_loop_inj first l1 l2 :
  bytes l1 → bytes l2 → length l1 = length l2 →
  mac_loop first l1 = mac_loop first l2 → l1 = l2.
Proof.
  intros H1. revert first l2. induction H1 as [|a l1 Ha H1 IH]; intros first l2 H2 Hl E.
  { by destruct l2. }
  destruct H2 as [|b l2 Hb H2]; [done|]. simpl in E.
  apply (inj (String.app _)) in E. rewrite !to_hex_byte in E by done.
  apply hex2_app_inj in E as [-> E]; [|done..]. f_equal.
  apply (IH false); [done| |done]. simpl in Hl. lia.
Qed.

(** The MAC string determines the address. *)
Lemma macToString_inj m1 m2 :
  bytes m1 → bytes m2 → length m1 = 6%nat → length m2 = 6%nat →
  macToString m1 = macToString m2 → m1 = m2.
Proof.
  intros ? ? L1 L2. unfold macToString. rewrite !take_ge by lia.
  apply mac_loop_inj; congruence.
Qed.

(** ** Text without a zero byte *)

Lemma c_str_app a b : c_str a = a → c_str (a +:+ b) = a +:+ c_str b.
Proof.
  induction a as [|c a IH]; [done|]. cbn [c_str].
  change (String c a +:+ b) with (String c (a +:+ b)). cbn [c_str].
  destruct (decide (c = ascii_of_nat 0)) as [|Hc]; [done|]. intros [= Ha].
  rewrite (IH Ha). done.
Qed.

Lemma c_str_concat a b : c_str a = a → c_str b = b → c_str (a +:+ b) = a +:+ b.
Proof. intros Ha Hb. by rewrite c_str_app, Hb. Qed.
