(* ===== verification/Lines.v ===== *)
(** * Lines of text

    Line feeds, prefixes and widths of the text the logger and the hex dump
    write, shared by their readers. *)

From Stdlib Require Import Ascii.
From S2P Require Import Prelude.
From S2P Require Import Bytes.
From S2P Require Import Format.

Definition newline : string := String (ascii_of_nat 10) "".

Fixpoint skip (n : nat) (s : string) : string :=
  match n, s with
  | S n', String _ s' => skip n' s'
  | _, _ => s
  end.

(** The rest of the text behind the next line feed. *)
Fixpoint next_line (s : string) : string :=
  match s with
  | String c s' => if decide (c = ascii_of_nat 10) then s' else next_line s'
  | EmptyString => ""
  end.

Lemma skip_app s rest : skip (String.length s) (s +:+ rest) = rest.
Proof. induction s as [|c s IH]; [by destruct rest|]. exact IH. Qed.

Lemma skip_prefix p n rest : String.length p = n → skip n (p +:+ rest) = rest.
Proof. intros <-. apply skip_app. Qed.

(** ** Text without a line feed *)

Fixpoint one_line (s : string) : bool :=
  match s with
  | String c s' => negb (Z.of_nat (nat_of_ascii c) =? 10) && one_line s'
  | EmptyString => true
  end.

Lemma one_line_app a b : one_line (a +:+ b) = one_line a && one_line b.
Proof.
  induction a as [|c a IH]; [done|]. simpl. change (String.app a b) with (a +:+ b).
  by rewrite IH, andb_assoc.
Qed.

Lemma next_line_app s rest : one_line s = true → next_line (s +:+ (newline +:+ rest)) = rest.
Proof.
  induction s as [|c s IH]; intros Hs; [done|]. cbn [one_line] in Hs.
  apply andb_true_iff in Hs as [Hc Hs].
  change (String c s +:+ (newline +:+ rest)) with (String c (s +:+ (newline +:+ rest))).
  cbn [next_line]. rewrite decide_False.
  - by apply IH.
  - intros ->. done.
Qed.

Lemma one_line_digit d : 0 ≤ d < 16 → one_line (String (digit_char d) "") = true.
Proof.
  intros Hd. pose proof (byte_brute (λ d, negb (d <? 16) || one_line (String (digit_char d) ""))
    eq_refl d ltac:(lia)) as Hb.
  simpl in Hb. by rewrite (proj2 (Z.ltb_lt d 16)) in Hb by lia.
Qed.

Lemma one_line_cons c s : one_line (String c s) = one_line (String c "") && one_line s.
Proof. simpl. by rewrite andb_true_r. Qed.

Lemma one_line_digits_go base fuel n acc :
  2 ≤ base ≤ 16 → one_line (digits_go base fuel n acc) = one_line acc.
Proof.
  intros Hb. revert n acc. induction fuel as [|f IH]; intros n acc; [done|]. cbn [digits_go].
  assert (0 ≤ n mod base < base) by (apply Z.mod_pos_bound; lia).
  assert (one_line (String (digit_char (n mod base)) acc) = one_line acc) as E
    by (rewrite one_line_cons, one_line_digit by lia; done).
  destruct (n / base =? 0); [done|]. by rewrite IH.
Qed.

Lemma one_line_pad w s : one_line (pad_left "0"%char w s) = one_line s.
Proof.
  unfold pad_left. change (String.app ?a ?b) with (a +:+ b). rewrite one_line_app.
  induction (w - String.length s)%nat as [|k IH]; [done|]. simpl. exact IH.
Qed.

Lemma one_line_to_hex w n : one_line (to_hex w n) = true.
Proof. unfold to_hex. by rewrite one_line_pad, one_line_digits_go. Qed.

(** ** Widths *)

Lemma length_digits_go base k fuel n acc :
  2 ≤ base → 0 ≤ n < base ^ Z.of_nat (S k) →
  (String.length (digits_go base fuel n acc) ≤ S k + String.length acc)%nat.
Proof.
  intros Hb. revert fuel n acc. induction k as [|k IH]; intros fuel n acc Hn;
    (destruct fuel as [|fuel]; [simpl; lia|]); cbn [digits_go].
  - rewrite Z.div_small by (simpl in Hn; lia). simpl. lia.
  - destruct (n / base =? 0); [simpl; lia|].
    etransitivity; [apply IH|simpl; lia].
    rewrite Nat2Z.inj_succ, Z.pow_succ_r in Hn by lia.
    split; [apply Z.div_pos; lia|]. apply Z.div_lt_upper_bound; lia.
Qed.

Lemma length_pad w s : (String.length s ≤ w)%nat → String.length (pad_left "0"%char w s) = w.
Proof.
  intros Hs. unfold pad_left. remember (w - String.length s)%nat as k eqn:Hk.
  assert (w = k + String.length s)%nat as -> by lia. clear. induction k as [|k IH]; [done|].
  simpl. by rewrite IH.
Qed.

