(* ===== verification/Checksum.v ===== *)
(** * The Internet checksum (src/utils/checksum.cpp)

    [internetChecksum] sums big-endian 16-bit words into a [uint32_t], folds
    the carries and complements.  It is proved equal to the one's complement
    sum of RFC 1071, and [verifyIpChecksum] is proved to accept a header that
    carries its checksum and to reject one with a corrupted word. *)

From S2P Require Import Prelude.
From S2P Require Import Bytes.

(** [while (len > 1) { ... }] *)
Fixpoint checksum_sum_loop (fuel : nat) (m : list Z) (data : ptr) (len sum : Z)
    : outcome (ptr * Z * Z) :=
  match fuel with
  | O => OutOfFuel
  | S f =>
      if 1 <? len then
        b0 ← load m data 0;
        b1 ← load m data 1;
        let word := u16 (Z.lor (Z.shiftl b0 8) b1) in
        data' ← ptr_add m data 2;
        checksum_sum_loop f m data' (len - 2) (u32 (sum + word))
      else Ret (data, len, sum)
  end.

(** [while (sum >> 16) { ... }] *)
Fixpoint checksum_fold_loop (fuel : nat) (sum : Z) : outcome Z :=
  match fuel with
  | O => OutOfFuel
  | S f =>
      if Z.shiftr sum 16 =? 0 then Ret sum
      else checksum_fold_loop f (u32 (Z.land sum 0xFFFF + Z.shiftr sum 16))
  end.

(** The odd last byte. *)
Definition checksum_odd_byte (m : list Z) (st : ptr * Z * Z) : outcome Z :=
  let '(data, len, sum) := st in
  if len =? 1 then
    b0 ← load m data 0;
    Ret (u32 (sum + u16 (Z.shiftl b0 8)))
  else Ret sum.

Definition internetChecksum (m : list Z) (data : ptr) (len : Z) : outcome Z :=
  st ← checksum_sum_loop (S (Z.to_nat len)) m data len 0;
  sum ← checksum_odd_byte m st;
  sum' ← checksum_fold_loop 3 sum;
  Ret (u16 (Z.lnot sum')).

Definition verifyIpChecksum (m : list Z) (data : ptr) (len : Z) : outcome bool :=
  c ← internetChecksum m data len;
  Ret (c =? 0).

(** The checksum only depends on the bytes it reads. *)
Lemma internetChecksum_extend m m' p len :
  m `prefix_of` m' → defined_as (internetChecksum m p len) (internetChecksum m' p len).
Proof.
  intros Hpre. unfold internetChecksum. apply defined_as_bind.
  - generalize (S (Z.to_nat len)) as fuel. intros fuel. generalize 0 as sum.
    revert p len. induction fuel as [|f IH]; intros p len sum; cbn [checksum_sum_loop];
      solve_defined.
  - intros [[q l] sum]. unfold checksum_odd_byte. solve_defined.
Qed.

Lemma verifyIpChecksum_extend m m' p len :
  m `prefix_of` m' → defined_as (verifyIpChecksum m p len) (verifyIpChecksum m' p len).
Proof.
  intros. unfold verifyIpChecksum. apply defined_as_bind; [|solve_defined].
  by apply internetChecksum_extend.
Qed.
#[export] Hint Resolve verifyIpChecksum_extend : extend.

(** ** Reference: RFC 1071 *)

(** The 16-bit words of a byte string, an odd last byte padded with zero. *)
Fixpoint words16 (bs : list Z) : list Z :=
  match bs with
  | a :: b :: bs' => be16 a b :: words16 bs'
  | [a] => [be16 a 0]
  | [] => []
  end.

(** One's complement addition: the carry is added back. *)
Definition ones_add (a b : Z) : Z :=
  let s := a + b in if s <? 65536 then s else s - 65535.

Definition rfc1071 (bs : list Z) : Z := 65535 - foldl ones_add 0 (words16 bs).

(** ** Proofs *)

Definition sumZ (l : list Z) : Z := foldr Z.add 0 l.
Arguments sumZ : simpl never.

(** What folding the carries of [s] gives. *)
Definition ones_norm (s : Z) : Z := if s =? 0 then 0 else (s - 1) mod 65535 + 1.

Lemma words16_ind (P : list Z → Prop) :
  P [] → (∀ a, P [a]) → (∀ a b l, P l → P (a :: b :: l)) → ∀ l, P l.
Proof.
  intros H0 H1 H2 l.
  assert (P l ∧ ∀ a, P (a :: l)) as [? _]; [|done].
  induction l as [|b l [IH1 IH2]]; split; auto.
Qed.

Lemma words16_range bs : bytes bs → Forall (λ w, is_u16 w) (words16 bs).
Proof.
  induction bs as [|a|a b bs IH] using words16_ind; intros H; simpl; [done|..].
  - inversion_clear H. constructor; [|done]. apply be16_range; lia.
  - inversion_clear H as [|? ? ? H']. inversion_clear H'. constructor; [|auto].
    by apply be16_range.
Qed.

Lemma sumZ_cons a l : sumZ (a :: l) = a + sumZ l.
Proof. done. Qed.

Lemma sumZ_bound k ws :
  Forall (λ w, 0 ≤ w ≤ k) ws → 0 ≤ sumZ ws ≤ k * Z.of_nat (length ws).
Proof. induction 1; [unfold sumZ|rewrite sumZ_cons]; simpl length; simpl; lia. Qed.

Lemma ones_norm_add a w :
  0 ≤ a → is_u16 w → ones_add (ones_norm a) w = ones_norm (a + w).
Proof.
  intros Ha Hw. unfold ones_add, ones_norm.
  bool_cases; subst; try lia; Z.to_euclidean_division_equations; lia.
Qed.

Lemma ones_sum_norm ws a :
  0 ≤ a → Forall (λ w, is_u16 w) ws →
  foldl ones_add (ones_norm a) ws = ones_norm (a + sumZ ws).
Proof.
  intros Ha Hws. revert a Ha. induction Hws as [|w ws Hw _ IH]; intros a Ha; simpl.
  - unfold sumZ. simpl. by rewrite Z.add_0_r.
  - rewrite sumZ_cons, ones_norm_add, IH, Z.add_assoc by lia. done.
Qed.

(** The folding loop ends within three tests and computes [ones_norm]. *)
Lemma checksum_fold_norm s :
  is_u32 s → checksum_fold_loop 3 s = Ret (ones_norm s).
Proof.
  intros Hs.
  assert (∀ f s, is_u32 s → checksum_fold_loop (S f) s
      = if s <? 65536 then Ret s else checksum_fold_loop f (s mod 65536 + s / 65536)) as step.
  { clear. intros f s Hs. simpl. rewrite Z.shiftr_div_pow2 by lia.
    change 0xFFFF with (Z.ones 16). rewrite Z.land_ones by lia.
    change (2 ^ 16) with 65536. bool_cases; try (Z.to_euclidean_division_equations; lia); [done|].
    f_equal. apply u32_small. Z.to_euclidean_division_equations; lia. }
  unfold ones_norm. rewrite step by done. destruct (Z.ltb_spec s 65536).
  { f_equal. bool_cases; Z.to_euclidean_division_equations; lia. }
  rewrite step by (Z.to_euclidean_division_equations; lia).
  destruct (Z.ltb_spec (s mod 65536 + s / 65536) 65536).
  { f_equal. bool_cases; Z.to_euclidean_division_equations; lia. }
  rewrite step by (Z.to_euclidean_division_equations; lia).
  rewrite (proj2 (Z.ltb_lt _ _)) by (Z.to_euclidean_division_equations; lia).
  f_equal. bool_cases; Z.to_euclidean_division_equations; lia.
Qed.

Lemma window_cons m o n :
  0 ≤ o → 0 < n → o + n ≤ Z.of_nat (length m) →
  take (Z.to_nat n) (drop (Z.to_nat o) m)
  = byte_at m o 0 :: take (Z.to_nat (n - 1)) (drop (Z.to_nat (o + 1)) m).
Proof.
  intros. rewrite (drop_S m (byte_at m o 0)).
  - replace (Z.to_nat n) with (S (Z.to_nat (n - 1))) by lia. simpl. do 2 f_equal.
    replace (Z.to_nat (o + 1)) with (S (Z.to_nat o)) by lia. done.
  - unfold byte_at. rewrite Z.add_0_r. apply list_lookup_lookup_total_lt. lia.
Qed.

Lemma checksum_sum_spec m fuel o len s :
  bytes m → 0 ≤ o → 0 ≤ len < Z.of_nat fuel → o + len ≤ Z.of_nat (length m) → is_u32 s →
  (checksum_sum_loop fuel m (Ptr o) len s ≫= checksum_odd_byte m)
  = Ret (u32 (s + sumZ (words16 (take (Z.to_nat len) (drop (Z.to_nat o) m))))).
Proof.
  intros Hm. revert o len s. induction fuel as [|f IH]; intros o len s Ho Hlen Hin Hs; [lia|].
  cbn [checksum_sum_loop]. destruct (Z.ltb_spec 1 len).
  - rewrite !load_in, !bind_Ret, ptr_add_in, bind_Ret by lia.
    rewrite be16_lor by auto with words.
    rewrite IH by (try lia; auto with words).
    rewrite (window_cons m o len), (window_cons m (o + 1) (len - 1)) by lia.
    rewrite byte_at_shift. change (1 + 0) with 1. cbn [words16]. rewrite sumZ_cons.
    replace (o + 1 + 1) with (o + 2) by lia. replace (len - 1 - 1) with (len - 2) by lia.
    unfold u32. rewrite Zplus_mod_idemp_l. by rewrite Z.add_assoc.
  - rewrite bind_Ret. unfold checksum_odd_byte. destruct (Z.eqb_spec len 1) as [->|].
    + rewrite load_in, bind_Ret by lia. rewrite window_cons by lia. simpl.
      pose proof (byte_at_range m o 0 Hm).
      rewrite Z.shiftl_mul_pow2, u16_small by lia. unfold be16.
      rewrite sumZ_cons. do 2 f_equal. unfold sumZ. simpl. lia.
    + replace len with 0 by lia. unfold sumZ. simpl. rewrite Z.add_0_r, u32_small; done.
Qed.

Lemma u16_lnot s : is_u16 s → u16 (Z.lnot s) = 65535 - s.
Proof. intros. unfold u16, Z.lnot. Z.to_euclidean_division_equations; lia. Qed.

Lemma ones_norm_range s : 0 ≤ s → is_u16 (ones_norm s).
Proof. intros. unfold ones_norm. bool_cases; Z.to_euclidean_division_equations; lia. Qed.

(** The value computed in every case, the wrap-around of the 32-bit sum included. *)
Lemma internetChecksum_value m o len :
  bytes m → 0 ≤ o → 0 ≤ len → o + len ≤ Z.of_nat (length m) →
  internetChecksum m (Ptr o) len
  = Ret (65535 - ones_norm (u32 (sumZ (words16 (take (Z.to_nat len) (drop (Z.to_nat o) m)))))).
Proof.
  intros. unfold internetChecksum. rewrite <- bind_assoc.
  rewrite checksum_sum_spec, bind_Ret by (try lia; done). rewrite Z.add_0_l.
  rewrite checksum_fold_norm, bind_Ret by auto with words.
  rewrite u16_lnot; [done|]. apply ones_norm_range. apply u32_range.
Qed.

Lemma length_words16 bs : Z.of_nat (length (words16 bs)) = (Z.of_nat (length bs) + 1) / 2.
Proof.
  induction bs as [|a|a b bs IH] using words16_ind; [done..|].
  simpl length. rewrite !Nat2Z.inj_succ, IH. Z.to_euclidean_division_equations; lia.
Qed.

(** Up to 131072 bytes the 32-bit sum does not wrap. *)
Lemma words16_sum_u32 bs :
  bytes bs → Z.of_nat (length bs) ≤ 131072 → is_u32 (sumZ (words16 bs)).
Proof.
  intros Hb Hl. pose proof (length_words16 bs).
  assert (0 ≤ sumZ (words16 bs) ≤ 65535 * Z.of_nat (length (words16 bs))).
  { apply sumZ_bound. eapply Forall_impl; [by apply words16_range|]. simpl. lia. }
  Z.to_euclidean_division_equations; lia.
Qed.

Lemma bytes_window (m : list Z) o n : bytes m → bytes (take n (drop o m)).
Proof. intros. by apply Forall_take, Forall_drop. Qed.
#[export] Hint Resolve bytes_window : words.

(** ** A header in the middle of a memory object *)

Lemma window_mid (p h q : list Z) n o :
  n = Z.of_nat (length h) → o = Z.of_nat (length p) →
  take (Z.to_nat n) (drop (Z.to_nat o) (p ++ h ++ q)) = h.
Proof.
  intros -> ->. rewrite !Nat2Z.id, drop_app_length. by rewrite take_app_length.
Qed.

Lemma internetChecksum_mid p h q :
  bytes p → bytes h → bytes q → Z.of_nat (length h) ≤ 131072 →
  internetChecksum (p ++ h ++ q) (Ptr (Z.of_nat (length p))) (Z.of_nat (length h))
  = Ret (65535 - ones_norm (sumZ (words16 h))).
Proof.
  intros. rewrite internetChecksum_value; try lia.
  - rewrite window_mid by done. by rewrite u32_small by (by apply words16_sum_u32).
  - by repeat apply Forall_app_2.
  - rewrite !length_app. lia.
Qed.

Lemma words16_app l1 l2 :
  Nat.even (length l1) = true → words16 (l1 ++ l2) = words16 l1 ++ words16 l2.
Proof.
  induction l1 as [|a|a b l1 IH] using words16_ind; intros He; [done..|].
  simpl. by rewrite IH.
Qed.

Lemma sumZ_app l1 l2 : sumZ (l1 ++ l2) = sumZ l1 + sumZ l2.
Proof. induction l1; simpl; rewrite ?sumZ_cons; [done|lia]. Qed.

(** The sum of a header around one of its aligned words. *)
Lemma words16_sum_mid h1 a b h2 :
  Nat.even (length h1) = true →
  sumZ (words16 (h1 ++ [a; b] ++ h2)) = sumZ (words16 h1) + be16 a b + sumZ (words16 h2).
Proof. intros. rewrite words16_app, sumZ_app by done. simpl. rewrite sumZ_cons. lia. Qed.

Lemma ones_norm_full s : 0 ≤ s → ones_norm s = 65535 ↔ 0 < s ∧ s mod 65535 = 0.
Proof.
  intros. unfold ones_norm. bool_cases; [lia|].
  split; Z.to_euclidean_division_equations; lia.
Qed.

Lemma words16_sum_nonneg h : bytes h → 0 ≤ sumZ (words16 h).
Proof.
  intros Hh. pose proof (words16_range h Hh) as Hw.
  assert (0 ≤ sumZ (words16 h) ≤ 65535 * Z.of_nat (length (words16 h))); [|lia].
  apply sumZ_bound. eapply Forall_impl; [done|]. simpl. lia.
Qed.

Lemma verifyIpChecksum_mid p h q :
  bytes p → bytes h → bytes q → Z.of_nat (length h) ≤ 131072 →
  verifyIpChecksum (p ++ h ++ q) (Ptr (Z.of_nat (length p))) (Z.of_nat (length h))
  = Ret (bool_decide (0 < sumZ (words16 h) ∧ sumZ (words16 h) mod 65535 = 0)).
Proof.
  intros. unfold verifyIpChecksum. rewrite internetChecksum_mid, bind_Ret by done.
  f_equal. pose proof (ones_norm_full (sumZ (words16 h)) (words16_sum_nonneg h ltac:(done))) as E.
  destruct (Z.eqb_spec (65535 - ones_norm (sumZ (words16 h))) 0).
  - symmetry. apply bool_decide_eq_true, E. lia.
  - symmetry. apply bool_decide_eq_false. intros ?%E. lia.
Qed.

(** The checksum of an in-bounds region. *)
Lemma internetChecksum_in (m : list Z) (o len : Z) :
  bytes m → 0 ≤ o → 0 ≤ len ≤ 131072 → o + len ≤ Z.of_nat (length m) →
  internetChecksum m (Ptr o) len
  = Ret (rfc1071 (take (Z.to_nat len) (drop (Z.to_nat o) m))).
Proof.
  intros Hm Ho Hlen Hin. rewrite internetChecksum_value by (try lia; done).
  set (w := take _ _). assert (bytes w) by (unfold w; auto with words).
  rewrite u32_small.
  2: { apply words16_sum_u32; [done|]. unfold w. rewrite length_take, length_drop. lia. }
  unfold rfc1071. pose proof (ones_sum_norm (words16 w) 0 ltac:(lia)) as E.
  change (ones_norm 0) with 0 in E. rewrite E by (by apply words16_range). by rewrite Z.add_0_l.
Qed.

(** Inserting the checksum. *)
Lemma verifyIpChecksum_inserted (p h1 h2 q : list Z) (c : Z) :
  bytes p → bytes h1 → bytes h2 → bytes q →
  Nat.even (length h1) = true →
  Z.of_nat (length (h1 ++ [0; 0] ++ h2)) ≤ 131072 →
  internetChecksum (p ++ (h1 ++ [0; 0] ++ h2) ++ q) (Ptr (Z.of_nat (length p)))
    (Z.of_nat (length (h1 ++ [0; 0] ++ h2))) = Ret c →
  verifyIpChecksum (p ++ (h1 ++ [c / 256; c mod 256] ++ h2) ++ q) (Ptr (Z.of_nat (length p)))
    (Z.of_nat (length (h1 ++ [c / 256; c mod 256] ++ h2))) = Ret true.
Proof.
  intros Hp Hh1 Hh2 Hq Hev Hlen Hc.
  assert (∀ a b, is_u8 a → is_u8 b → bytes (h1 ++ [a; b] ++ h2)).
  { intros. repeat apply Forall_app_2; auto. }
  rewrite internetChecksum_mid, words16_sum_mid in Hc by (auto with lia).
  injection Hc as Hc. unfold be16 in Hc.
  pose proof (words16_sum_nonneg h1 Hh1). pose proof (words16_sum_nonneg h2 Hh2).
  pose proof (ones_norm_range (sumZ (words16 h1) + (0 * 256 + 0) + sumZ (words16 h2)) ltac:(lia)).
  rewrite verifyIpChecksum_mid; [|done| |done|by rewrite !length_app in *].
  2: { apply H; Z.to_euclidean_division_equations; lia. }
  rewrite words16_sum_mid by done. unfold be16.
  replace (c / 256 * 256 + c mod 256) with c by (Z.to_euclidean_division_equations; lia).
  f_equal. apply bool_decide_eq_true. clear H. subst c. unfold ones_norm in *.
  revert H2. bool_cases; intros; split; Z.to_euclidean_division_equations; lia.
Qed.

Lemma verifyIpChecksum_in m o len :
  bytes m → 0 ≤ o → 0 ≤ len ≤ 131072 → o + len ≤ Z.of_nat (length m) →
  verifyIpChecksum m (Ptr o) len
  = Ret (rfc1071 (take (Z.to_nat len) (drop (Z.to_nat o) m)) =? 0).
Proof. intros. unfold verifyIpChecksum. by rewrite internetChecksum_in. Qed.

(** The same on a whole object. *)
Lemma internetChecksum_whole h :
  bytes h → Z.of_nat (length h) ≤ 131072 →
  internetChecksum h (Ptr 0) (Z.of_nat (length h)) = Ret (65535 - ones_norm (sumZ (words16 h))).
Proof.
  intros Hh Hl. pose proof (internetChecksum_mid [] h [] ltac:(done) Hh ltac:(done) Hl) as E.
  by rewrite app_nil_r in E.
Qed.

Lemma verifyIpChecksum_inserted_whole h1 h2 c :
  bytes h1 → bytes h2 → Nat.even (length h1) = true →
  Z.of_nat (length (h1 ++ [0; 0] ++ h2)) ≤ 131072 →
  internetChecksum (h1 ++ [0; 0] ++ h2) (Ptr 0) (Z.of_nat (length (h1 ++ [0; 0] ++ h2))) = Ret c →
  verifyIpChecksum (h1 ++ [c / 256; c mod 256] ++ h2) (Ptr 0)
    (Z.of_nat (length (h1 ++ [c / 256; c mod 256] ++ h2))) = Ret true.
Proof.
  intros H1 H2 He Hl Hc. pose proof (verifyIpChecksum_inserted [] h1 h2 [] c) as E.
  cbn [app length] in E. change (Z.of_nat 0) with 0 in E. rewrite !app_nil_r in E.
  by apply E.
Qed.

(** ** Properties *)

(** C19: on an in-bounds region of at most 131072 bytes, [internetChecksum]
    returns (its loops end, it reads nothing outside the region) the RFC 1071
    checksum of the region: the complement of the one's complement sum of its
    16-bit big-endian words. *)
Theorem internetChecksum_rfc1071 (m : list Z) (o len : Z) :
  bytes m → 0 ≤ o → 0 ≤ len ≤ 131072 → o + len ≤ Z.of_nat (length m) →
  internetChecksum m (Ptr o) len
  = Ret (rfc1071 (take (Z.to_nat len) (drop (Z.to_nat o) m))).
Proof. exact (internetChecksum_in m o len). Qed.

Lemma internetChecksum_rfc1071_witness :
  internetChecksum [9; 0x45; 0x00; 0x00; 0x73; 0xff] (Ptr 1) 5 = Ret (rfc1071 [0x45; 0x00; 0x00; 0x73; 0xff]).
Proof.
  apply (internetChecksum_rfc1071 [9; 0x45; 0x00; 0x00; 0x73; 0xff] 1 5).
  - repeat constructor; lia.
  - lia.
  - lia.
  - simpl. lia.
Defined.

(** C34: a header that verifies no longer verifies when one aligned 16-bit word
    of it is replaced by another one, unless the two words are the two
    representations 0x0000 and 0xffff of zero. *)
Theorem verifyIpChecksum_detects (p h1 h2 q : list Z) (a b a' b' : Z) :
  bytes p → bytes (h1 ++ [a; b] ++ h2) → bytes (h1 ++ [a'; b'] ++ h2) → bytes q →
  Nat.even (length h1) = true →
  Z.of_nat (length (h1 ++ [a; b] ++ h2)) ≤ 131072 →
  [a; b] ≠ [a'; b'] → Z.abs (be16 a b - be16 a' b') ≠ 65535 →
  verifyIpChecksum (p ++ (h1 ++ [a; b] ++ h2) ++ q) (Ptr (Z.of_nat (length p)))
    (Z.of_nat (length (h1 ++ [a; b] ++ h2))) = Ret true →
  verifyIpChecksum (p ++ (h1 ++ [a'; b'] ++ h2) ++ q) (Ptr (Z.of_nat (length p)))
    (Z.of_nat (length (h1 ++ [a'; b'] ++ h2))) = Ret false.
Proof.
  intros Hp Hh Hh' Hq Hev Hlen Hne Habs Hv.
  rewrite verifyIpChecksum_mid, words16_sum_mid in Hv by done.
  injection Hv as Hv%bool_decide_eq_true.
  rewrite verifyIpChecksum_mid; [|done..|by rewrite !length_app in *].
  f_equal. apply bool_decide_eq_false. intros Hv'.
  rewrite words16_sum_mid in Hv' by done.
  assert (∀ x y, bytes (h1 ++ [x; y] ++ h2) → is_u8 x ∧ is_u8 y) as Hxy.
  { intros x y Hx. apply Forall_app in Hx as [_ Hx]. simpl in Hx.
    inversion_clear Hx as [|? ? ? Hx']. by inversion_clear Hx'. }
  apply Hxy in Hh, Hh'. clear Hxy.
  assert (be16 a b ≠ be16 a' b').
  { unfold be16. intros E. apply Hne. assert (a = a' ∧ b = b') as [-> ->] by lia. done. }
  pose proof (be16_range a b). pose proof (be16_range a' b').
  Z.to_euclidean_division_equations; lia.
Qed.

Lemma verifyIpChecksum_detects_witness :
  verifyIpChecksum ([7] ++ ([0x45; 0x00] ++ [0xba; 0x8a] ++ [0x00; 0x73]) ++ [1]) (Ptr 1) 6 = Ret false.
Proof.
  apply (verifyIpChecksum_detects [7] [0x45; 0x00] [0x00; 0x73] [1] 0xba 0x8c 0xba 0x8a).
  - repeat constructor; lia.
  - repeat constructor; lia.
  - repeat constructor; lia.
  - repeat constructor; lia.
  - vm_compute. reflexivity.
  - simpl. lia.
  - discriminate.
  - vm_compute. discriminate.
  - vm_compute. reflexivity.
Defined.
