(* ===== verification/RingBuffer.v ===== *)
(** * The ring buffer (include/utils/ring_buffer.h, src/utils/ring_buffer.cpp)

    A circular buffer of [capacity_] slots of 2048 bytes, kept in one flat byte
    vector with the used size of each slot beside it.  This file models the
    constructor, [write] and [read] as a thread executes them from the moment
    its wait predicate holds, with the two loads of the stop flag, and proves
    that they implement a bounded first-in first-out queue.  The locks and the
    condition variables are in Concurrency.v. *)

From S2P Require Import Prelude.
From S2P Require Import Bytes.

Definition SLOT_SIZE : Z := 2048.

Record RingBuffer : Type := mkRingBuffer {
  head_ : Z;
  tail_ : Z;
  capacity_ : Z;
  buffer_ : list Z;
  slot_sizes_ : list Z;
  count_ : Z;
}.

Definition isEmpty (rb : RingBuffer) : bool := count_ rb =? 0.
Definition isFull (rb : RingBuffer) : bool := count_ rb =? capacity_ rb.
Definition RingBuffer_count (rb : RingBuffer) : Z := count_ rb.
Definition RingBuffer_capacity (rb : RingBuffer) : Z := capacity_ rb.

(** [std::vector<T>(n)] with [sizeof(T) = elem]: throws when [n] is above
    [max_size()] or when the allocator does not grant the bytes. *)
Definition vector_alloc (alloc : Z → bool) (n elem : Z) : outcome unit :=
  if (2 ^ 63 - 1) / elem <? n then Throw Length_error
  else if alloc (n * elem) then Ret tt
  else Throw Bad_alloc.

(** The constructor: the vectors are built before the checks of its body. *)
Definition RingBuffer_make (alloc : Z → bool) (capacity : Z) : outcome RingBuffer :=
  _ ← vector_alloc alloc (u64 (capacity * SLOT_SIZE)) 1;
  _ ← vector_alloc alloc capacity 8;
  if capacity =? 0 then
    Throw (Invalid_argument "RingBuffer capacity must be > 0")
  else if 65536 <? capacity then
    Throw (Invalid_argument "RingBuffer capacity must be <= 65536")
  else Ret {|
    head_ := 0; tail_ := 0; capacity_ := capacity;
    buffer_ := replicate (Z.to_nat (u64 (capacity * SLOT_SIZE))) 0;
    slot_sizes_ := replicate (Z.to_nat capacity) 0;
    count_ := 0;
  |}.

(** The values the two relaxed loads of the stop flag return: in the wait
    predicate when the wait ends, and in the test after it. *)
Record stop_loads : Type := mkStop { stop_wait : bool; stop_after : bool }.

(** The flag is only ever set, so the second load does not see an older value. *)
Definition stop_mono (s : stop_loads) : Prop := stop_wait s = true → stop_after s = true.

#[global] Instance stop_mono_dec s : Decision (stop_mono s).
Proof. unfold stop_mono. apply _. Defined.

(** [v[i] = x] and [v[i]] on a vector. *)
Definition vec_set (v : list Z) (i x : Z) : outcome (list Z) :=
  if (0 <=? i) && (i <? Z.of_nat (length v)) then Ret (<[Z.to_nat i := x]> v) else UB.
Definition vec_get (v : list Z) (i : Z) : outcome Z :=
  if (0 <=? i) && (i <? Z.of_nat (length v)) then Ret (v !!! Z.to_nat i) else UB.

(** [a % b] on [size_t]. *)
Definition size_mod (a b : Z) : outcome Z := if b =? 0 then UB else Ret (a mod b).

Definition RingBuffer_write (rb : RingBuffer) (s : stop_loads) (data : list Z) (size : Z)
    : outcome (bool * RingBuffer) :=
  if (size =? 0) || (SLOT_SIZE <? size) then Ret (false, rb)
  else if negb (negb (isFull rb) || stop_wait s) then Blocked
  else if stop_after s && isFull rb then Ret (false, rb)
  else
    src ← mem_read data 0 size;
    buffer' ← mem_write (buffer_ rb) (head_ rb * SLOT_SIZE) src;
    sizes' ← vec_set (slot_sizes_ rb) (head_ rb) size;
    head' ← size_mod (u64 (head_ rb + 1)) (capacity_ rb);
    Ret (true, {|
      head_ := head'; tail_ := tail_ rb; capacity_ := capacity_ rb;
      buffer_ := buffer'; slot_sizes_ := sizes';
      count_ := u64 (count_ rb + 1);
    |}).

(** What [read] leaves: its result, the output buffer and size, the ring. *)
Record ring_read : Type := mkRingRead {
  rr_ok : bool;
  rr_data : list Z;
  rr_size : Z;
  rr_ring : RingBuffer;
}.

Definition RingBuffer_read (rb : RingBuffer) (s : stop_loads) (out_data : list Z) (out_size : Z)
    : outcome ring_read :=
  if negb (negb (isEmpty rb) || stop_wait s) then Blocked
  else if stop_after s && isEmpty rb then Ret (mkRingRead false out_data out_size rb)
  else
    out_size' ← vec_get (slot_sizes_ rb) (tail_ rb);
    src ← mem_read (buffer_ rb) (tail_ rb * SLOT_SIZE) out_size';
    out_data' ← mem_write out_data 0 src;
    tail' ← size_mod (u64 (tail_ rb + 1)) (capacity_ rb);
    Ret (mkRingRead true out_data' out_size' {|
      head_ := head_ rb; tail_ := tail'; capacity_ := capacity_ rb;
      buffer_ := buffer_ rb; slot_sizes_ := slot_sizes_ rb;
      count_ := u64 (count_ rb - 1);
    |}).

(** ** Abstract specification: a bounded queue of byte strings *)

Definition queue_write (cap : Z) (q : list (list Z)) (s : stop_loads) (f : list Z)
    : outcome (bool * list (list Z)) :=
  if (Z.of_nat (length f) =? 0) || (SLOT_SIZE <? Z.of_nat (length f)) then Ret (false, q)
  else if Z.of_nat (length q) <? cap then Ret (true, q ++ [f])
  else if stop_wait s then Ret (false, q)
  else Blocked.

Definition queue_read (q : list (list Z)) (s : stop_loads)
    : outcome (option (list Z) * list (list Z)) :=
  match q with
  | f :: q' => Ret (Some f, q')
  | [] => if stop_wait s then Ret (None, []) else Blocked
  end.

(** ** Invariant and abstraction function *)

Record ring_ok (rb : RingBuffer) : Prop := {
  ok_capacity : 0 < capacity_ rb ≤ 65536;
  ok_tail : 0 ≤ tail_ rb < capacity_ rb;
  ok_count : 0 ≤ count_ rb ≤ capacity_ rb;
  ok_head : head_ rb = (tail_ rb + count_ rb) mod capacity_ rb;
  ok_buffer : Z.of_nat (length (buffer_ rb)) = capacity_ rb * SLOT_SIZE;
  ok_sizes : Z.of_nat (length (slot_sizes_ rb)) = capacity_ rb;
  ok_slots : Forall (λ n, 0 ≤ n ≤ SLOT_SIZE) (slot_sizes_ rb);
}.

(** The slot that holds the [i]-th oldest entry, and its bytes. *)
Definition slot_index (rb : RingBuffer) (i : Z) : Z := (tail_ rb + i) mod capacity_ rb.
Definition slot_bytes (rb : RingBuffer) (k : Z) : list Z :=
  take (Z.to_nat (slot_sizes_ rb !!! Z.to_nat k))
    (drop (Z.to_nat (k * SLOT_SIZE)) (buffer_ rb)).

(** The entries, oldest first. *)
Definition contents (rb : RingBuffer) : list (list Z) :=
  (λ i, slot_bytes rb (slot_index rb i)) <$> seqZ 0 (count_ rb).

(** ** Lemmas *)

Lemma mod_wrap t i c :
  0 ≤ t < c → 0 ≤ i ≤ c → (t + i) mod c = if t + i <? c then t + i else t + i - c.
Proof.
  intros. bool_cases; [apply Z.mod_small; lia|].
  symmetry. apply (Z.mod_unique _ _ 1); lia.
Qed.

Lemma mod_wrap_step t i c :
  0 ≤ t < c → 0 ≤ i < c → ((t + 1) mod c + i) mod c = (t + (i + 1)) mod c.
Proof. intros. rewrite Zplus_mod_idemp_l. f_equal. lia. Qed.

Lemma slot_index_range rb i : ring_ok rb → 0 ≤ slot_index rb i < capacity_ rb.
Proof. intros [? _]. apply Z.mod_pos_bound. lia. Qed.

Lemma slot_index_head rb i :
  ring_ok rb → 0 ≤ i < count_ rb → count_ rb < capacity_ rb → slot_index rb i ≠ head_ rb.
Proof.
  intros [] ? ?. unfold slot_index. rewrite ok_head0, !mod_wrap by lia. bool_cases; lia.
Qed.

Lemma head_range rb : ring_ok rb → 0 ≤ head_ rb < capacity_ rb.
Proof. intros []. rewrite ok_head0. apply Z.mod_pos_bound. lia. Qed.

Lemma slot_size_range rb k :
  ring_ok rb → 0 ≤ k < capacity_ rb → 0 ≤ slot_sizes_ rb !!! Z.to_nat k ≤ SLOT_SIZE.
Proof.
  intros [] ?. apply (Forall_lookup_total_1 _ _ (Z.to_nat k) ok_slots0). lia.
Qed.

Lemma length_contents rb : ring_ok rb → Z.of_nat (length (contents rb)) = count_ rb.
Proof. intros []. unfold contents. rewrite length_fmap, length_seqZ. lia. Qed.

(** A slot other than the written one keeps its bytes. *)
Lemma slot_bytes_write rb h d t c n k :
  ring_ok rb → 0 ≤ k < capacity_ rb → 0 ≤ h < capacity_ rb → k ≠ h →
  Z.of_nat (length d) ≤ SLOT_SIZE →
  slot_bytes {| head_ := t; tail_ := tail_ rb; capacity_ := capacity_ rb;
     buffer_ := splice (buffer_ rb) (Z.to_nat (h * SLOT_SIZE)) d;
     slot_sizes_ := <[Z.to_nat h := n]> (slot_sizes_ rb); count_ := c |} k
  = slot_bytes rb k.
Proof.
  intros Hok Hk Hh Hne Hd. pose proof (slot_size_range rb k Hok Hk).
  destruct Hok. unfold slot_bytes, SLOT_SIZE in *. simpl.
  rewrite list_lookup_total_insert_ne by lia.
  apply take_drop_splice_other; lia.
Qed.

Lemma slot_bytes_written rb h d t c :
  ring_ok rb → 0 ≤ h < capacity_ rb → Z.of_nat (length d) ≤ SLOT_SIZE →
  slot_bytes {| head_ := t; tail_ := tail_ rb; capacity_ := capacity_ rb;
     buffer_ := splice (buffer_ rb) (Z.to_nat (h * SLOT_SIZE)) d;
     slot_sizes_ := <[Z.to_nat h := Z.of_nat (length d)]> (slot_sizes_ rb); count_ := c |} h
  = d.
Proof.
  intros [] Hh Hd. unfold slot_bytes, SLOT_SIZE in *. simpl.
  rewrite list_lookup_total_insert_eq by lia. rewrite Nat2Z.id.
  apply take_drop_splice_same. lia.
Qed.

Create HintDb ring.
#[export] Hint Resolve slot_index_range head_range slot_index_head : ring.

(** The invariant after an enqueue, and what it enqueues. *)
Lemma ring_enqueue rb d :
  ring_ok rb → count_ rb < capacity_ rb → Z.of_nat (length d) ≤ SLOT_SIZE →
  let rb' := {| head_ := (head_ rb + 1) mod capacity_ rb; tail_ := tail_ rb;
     capacity_ := capacity_ rb;
     buffer_ := splice (buffer_ rb) (Z.to_nat (head_ rb * SLOT_SIZE)) d;
     slot_sizes_ := <[Z.to_nat (head_ rb) := Z.of_nat (length d)]> (slot_sizes_ rb);
     count_ := count_ rb + 1 |} in
  ring_ok rb' ∧ contents rb' = contents rb ++ [d].
Proof.
  intros Hok Hlt Hd rb'. pose proof (head_range rb Hok) as Hh. split.
  - destruct Hok; split; simpl; try done; try lia.
    + rewrite ok_head0, Zplus_mod_idemp_l. f_equal. lia.
    + rewrite length_splice; [done|]. unfold SLOT_SIZE in *. lia.
    + by rewrite length_insert.
    + apply Forall_insert; [done|lia].
  - unfold contents. pose proof (ok_count rb Hok). simpl count_.
    rewrite seqZ_app by lia. rewrite fmap_app. f_equal.
    + apply list_fmap_ext. intros j i Hi%lookup_seqZ. unfold rb'.
      apply slot_bytes_write; auto with ring. apply slot_index_head; auto with lia.
    + rewrite seqZ_cons by lia. rewrite seqZ_nil by lia. cbn [fmap list_fmap].
      f_equal. replace (slot_index rb' (0 + count_ rb)) with (head_ rb).
      * by apply slot_bytes_written.
      * unfold slot_index. simpl. by rewrite (ok_head rb Hok).
Qed.

(** The invariant after a dequeue, and what it dequeues. *)
Lemma ring_dequeue rb :
  ring_ok rb → 0 < count_ rb →
  let rb' := {| head_ := head_ rb; tail_ := (tail_ rb + 1) mod capacity_ rb;
     capacity_ := capacity_ rb; buffer_ := buffer_ rb; slot_sizes_ := slot_sizes_ rb;
     count_ := count_ rb - 1 |} in
  ring_ok rb' ∧ contents rb = slot_bytes rb (tail_ rb) :: contents rb'.
Proof.
  intros Hok Hlt rb'. split.
  - destruct Hok; split; simpl; try done; try lia.
    + apply Z.mod_pos_bound. lia.
    + rewrite Zplus_mod_idemp_l, ok_head0. f_equal. lia.
  - pose proof (ok_tail rb Hok). pose proof (ok_count rb Hok).
    unfold contents. rewrite seqZ_cons by lia. cbn [fmap list_fmap]. f_equal.
    + unfold slot_index. by rewrite Z.add_0_r, Z.mod_small by lia.
    + simpl count_. replace (Z.pred (count_ rb)) with (count_ rb - 1) by lia.
      change (Z.succ 0) with (1 + 0). rewrite <- fmap_add_seqZ, <- list_fmap_compose.
      apply list_fmap_ext. intros j i Hi%lookup_seqZ. unfold compose, slot_index, rb'. simpl.
      rewrite mod_wrap_step by lia. by rewrite (Z.add_comm i 1).
Qed.

Lemma length_slot_bytes rb k :
  ring_ok rb → 0 ≤ k < capacity_ rb →
  Z.of_nat (length (slot_bytes rb k)) = slot_sizes_ rb !!! Z.to_nat k.
Proof.
  intros Hok Hk. pose proof (slot_size_range rb k Hok Hk). destruct Hok.
  unfold slot_bytes, SLOT_SIZE in *. rewrite length_take, length_drop. lia.
Qed.

Lemma vec_get_in v i : 0 ≤ i < Z.of_nat (length v) → vec_get v i = Ret (v !!! Z.to_nat i).
Proof. intros. unfold vec_get. bool_cases; try lia; done. Qed.
Lemma vec_set_in v i x :
  0 ≤ i < Z.of_nat (length v) → vec_set v i x = Ret (<[Z.to_nat i := x]> v).
Proof. intros. unfold vec_set. bool_cases; try lia; done. Qed.

(** The wait predicate and the test after it, on each side of the capacity. *)
Lemma RingBuffer_write_full rb s data size :
  isFull rb = true → stop_mono s → (size =? 0) || (SLOT_SIZE <? size) = false →
  RingBuffer_write rb s data size = if stop_wait s then Ret (false, rb) else Blocked.
Proof.
  intros Hf Hs Hz. unfold RingBuffer_write. rewrite Hz, Hf. simpl.
  destruct (stop_wait s) eqn:E; simpl; [|done]. by rewrite Hs.
Qed.

Lemma RingBuffer_write_room rb s data size :
  ring_ok rb → count_ rb < capacity_ rb →
  0 < size ≤ SLOT_SIZE → size ≤ Z.of_nat (length data) →
  RingBuffer_write rb s data size = Ret (true, {|
    head_ := (head_ rb + 1) mod capacity_ rb; tail_ := tail_ rb; capacity_ := capacity_ rb;
    buffer_ := splice (buffer_ rb) (Z.to_nat (head_ rb * SLOT_SIZE)) (take (Z.to_nat size) data);
    slot_sizes_ := <[Z.to_nat (head_ rb) := Z.of_nat (length (take (Z.to_nat size) data))]> (slot_sizes_ rb);
    count_ := count_ rb + 1 |}).
Proof.
  intros Hok Hlt Hsz Hd. pose proof (head_range rb Hok). unfold RingBuffer_write.
  destruct Hok. unfold SLOT_SIZE in *.
  rewrite (proj2 (Z.eqb_neq size 0)), (proj2 (Z.ltb_ge 2048 size)) by lia.
  unfold isFull. rewrite (proj2 (Z.eqb_neq _ _)) by lia. simpl. rewrite andb_false_r.
  rewrite mem_read_in, bind_Ret, drop_0 by lia.
  assert (length (take (Z.to_nat size) data) = Z.to_nat size) as Hl
    by (rewrite length_take; lia).
  rewrite mem_write_in, bind_Ret, vec_set_in, bind_Ret by lia.
  unfold size_mod. rewrite (proj2 (Z.eqb_neq _ _)), bind_Ret by lia.
  rewrite !u64_small by lia. rewrite Hl, Z2Nat.id by lia. done.
Qed.

(** [write] against the abstract queue. *)
Lemma RingBuffer_write_queue (rb : RingBuffer) (s : stop_loads) (data : list Z) (size : Z) :
  ring_ok rb → stop_mono s → 0 ≤ size ≤ Z.of_nat (length data) →
  match queue_write (capacity_ rb) (contents rb) s (take (Z.to_nat size) data) with
  | Ret (b, q') => ∃ rb', RingBuffer_write rb s data size = Ret (b, rb') ∧
      ring_ok rb' ∧ contents rb' = q' ∧ capacity_ rb' = capacity_ rb
  | o => o = Blocked ∧ RingBuffer_write rb s data size = Blocked
  end.
Proof.
  intros Hok Hs Hsz. unfold queue_write. rewrite length_contents by done.
  rewrite length_take, Nat.min_l, Z2Nat.id by lia.
  destruct ((size =? 0) || (SLOT_SIZE <? size)) eqn:Hz.
  { exists rb. split; [|done]. unfold RingBuffer_write. by rewrite Hz. }
  pose proof (ok_count rb Hok). destruct (Z.ltb_spec (count_ rb) (capacity_ rb)).
  - bool_hyps.
    edestruct (ring_enqueue rb (take (Z.to_nat size) data)) as [Hok' Hc]; [done..| |].
    { rewrite length_take. lia. }
    eexists. rewrite RingBuffer_write_room by (try lia; done). eauto.
  - assert (isFull rb = true) as Hf by (apply Z.eqb_eq; lia).
    rewrite RingBuffer_write_full by done. destruct (stop_wait s); [|done].
    exists rb. done.
Qed.

(** [read] against the abstract queue. *)
Lemma RingBuffer_read_queue (rb : RingBuffer) (s : stop_loads) (out_data : list Z) (out_size : Z) :
  ring_ok rb → stop_mono s → SLOT_SIZE ≤ Z.of_nat (length out_data) →
  match queue_read (contents rb) s with
  | Ret (Some f, q') => ∃ rb',
      RingBuffer_read rb s out_data out_size
      = Ret (mkRingRead true (splice out_data 0 f) (Z.of_nat (length f)) rb') ∧
      ring_ok rb' ∧ contents rb' = q' ∧ capacity_ rb' = capacity_ rb
  | Ret (None, q') =>
      RingBuffer_read rb s out_data out_size = Ret (mkRingRead false out_data out_size rb)
  | o => o = Blocked ∧ RingBuffer_read rb s out_data out_size = Blocked
  end.
Proof.
  intros Hok Hs Hout. pose proof (length_contents rb Hok) as Hlen.
  pose proof (ok_tail rb Hok). pose proof (ok_count rb Hok).
  unfold RingBuffer_read, isEmpty. destruct (Z.eqb_spec (count_ rb) 0) as [E|E].
  - destruct (contents rb); [|simpl in Hlen; lia]. simpl.
    destruct (stop_wait s) eqn:W; simpl; [|done]. by rewrite Hs.
  - destruct (ring_dequeue rb Hok ltac:(lia)) as [Hok' Hc].
    rewrite Hc. cbn [queue_read negb orb]. rewrite andb_false_r.
    pose proof (slot_size_range rb (tail_ rb) Hok ltac:(lia)).
    pose proof (length_slot_bytes rb (tail_ rb) Hok ltac:(lia)) as Hls.
    destruct Hok as [? ? ? ? Hb Hsz ?].
    rewrite vec_get_in, bind_Ret, mem_read_in, bind_Ret by (unfold SLOT_SIZE in *; lia).
    fold (slot_bytes rb (tail_ rb)).
    rewrite mem_write_in, bind_Ret by lia.
    unfold size_mod. rewrite (proj2 (Z.eqb_neq _ _)), bind_Ret by lia.
    rewrite !u64_small by lia. rewrite <- Hls. eexists. split; [done|].
    split_and!; done.
Qed.

(** The constructor builds a ring only for capacities 1 to 65536: the ring
    is then empty, satisfies the invariant and has the requested capacity; it
    does build one for each such capacity whose memory the allocator grants,
    and capacity 0 is refused with [std::invalid_argument]. *)
Lemma RingBuffer_make_spec (alloc : Z → bool) (cap : Z) :
  is_u64 cap →
  (∀ rb, RingBuffer_make alloc cap = Ret rb →
     ring_ok rb ∧ contents rb = [] ∧ capacity_ rb = cap ∧ 0 < cap ≤ 65536) ∧
  (0 < cap ≤ 65536 → alloc (cap * SLOT_SIZE) = true → alloc (cap * 8) = true →
     ∃ rb, RingBuffer_make alloc cap = Ret rb) ∧
  (cap = 0 → alloc 0 = true →
     RingBuffer_make alloc cap
     = Throw (Invalid_argument "RingBuffer capacity must be > 0")).
Proof.
  intros Hcap. unfold RingBuffer_make, SLOT_SIZE. split; [|split].
  - intros rb H. apply bind_eq_Ret in H as ([] & _ & H).
    apply bind_eq_Ret in H as ([] & _ & H). revert H. bool_cases; try discriminate.
    intros [= <-]. assert (0 < cap ≤ 65536) by lia.
    split_and!; try done; try lia. split; simpl; try lia.
    + by rewrite Z.add_0_r, Z.mod_0_l by lia.
    + rewrite length_replicate, u64_small; unfold SLOT_SIZE; lia.
    + rewrite length_replicate. lia.
    + apply Forall_replicate. unfold SLOT_SIZE. lia.
  - intros Hc A1 A2. unfold vector_alloc. rewrite u64_small by lia.
    change ((2 ^ 63 - 1) / 1) with (2 ^ 63 - 1).
    change ((2 ^ 63 - 1) / 8) with 1152921504606846975.
    rewrite (proj2 (Z.ltb_ge _ _)), (proj2 (Z.ltb_ge _ _)), Z.mul_1_r by lia.
    rewrite A1, A2. simpl. bool_cases; try lia. eauto.
  - intros -> A. unfold vector_alloc. change (u64 (0 * 2048)) with 0.
    rewrite !Z.mul_0_l, A. done.
Qed.

Lemma vector_alloc_outcome alloc n elem :
  vector_alloc alloc n elem = Ret tt ∨ ∃ e, vector_alloc alloc n elem = Throw e.
Proof. unfold vector_alloc. destruct (_ <? n); [eauto|]. destruct (alloc _); eauto. Qed.

(** Every other capacity ends in an exception. *)
Lemma RingBuffer_make_throws alloc cap :
  cap = 0 ∨ 65536 < cap → ∃ e, RingBuffer_make alloc cap = Throw e.
Proof.
  intros Hcap. unfold RingBuffer_make.
  destruct (vector_alloc_outcome alloc (u64 (cap * SLOT_SIZE)) 1) as [-> | [e ->]]; [|by exists e].
  destruct (vector_alloc_outcome alloc cap 8) as [-> | [e ->]]; [|by exists e].
  rewrite !bind_Ret. destruct (Z.eqb_spec cap 0); [by eexists|].
  rewrite (proj2 (Z.ltb_lt 65536 cap)) by lia. by eexists.
Qed.

(** ** Properties *)

(** C3: refinement of [write]: on every branch (size rejected, ring full and
    stopping, ring full, room left) it behaves as the abstract bounded queue,
    touches no byte outside its slot and the source, keeps the invariant, and
    enqueues exactly the first [size] bytes of [data]. *)
Theorem RingBuffer_write_refines (rb : RingBuffer) (s : stop_loads) (data : list Z) (size : Z) :
  ring_ok rb → stop_mono s → 0 ≤ size ≤ Z.of_nat (length data) →
  match queue_write (capacity_ rb) (contents rb) s (take (Z.to_nat size) data) with
  | Ret (b, q') => ∃ rb', RingBuffer_write rb s data size = Ret (b, rb') ∧
      ring_ok rb' ∧ contents rb' = q' ∧ capacity_ rb' = capacity_ rb
  | o => o = Blocked ∧ RingBuffer_write rb s data size = Blocked
  end.
Proof. exact (RingBuffer_write_queue rb s data size). Qed.

(** A small ring to run. *)
Definition demo_ring : RingBuffer :=
  {| head_ := 1; tail_ := 1; capacity_ := 2; buffer_ := replicate 4096 0;
     slot_sizes_ := [0; 0]; count_ := 0 |}.

Lemma demo_ring_ok : ring_ok demo_ring.
Proof. split; simpl; try lia; repeat constructor; unfold SLOT_SIZE; lia. Qed.

Lemma RingBuffer_write_refines_witness :
  ∃ rb', RingBuffer_write demo_ring (mkStop false false) [1; 2; 3; 4] 3 = Ret (true, rb') ∧
    ring_ok rb' ∧ contents rb' = [[1; 2; 3]] ∧ capacity_ rb' = 2.
Proof.
  apply (RingBuffer_write_refines demo_ring (mkStop false false) [1; 2; 3; 4] 3).
  - apply demo_ring_ok.
  - unfold stop_mono. simpl. discriminate.
  - simpl. lia.
Defined.

(** C4: refinement of [read]: it returns the oldest entry and its size and
    removes it, reports [false] without touching the output when the ring is
    empty and the stop flag is set, blocks when it is empty otherwise, and keeps
    the invariant. *)
Theorem RingBuffer_read_refines (rb : RingBuffer) (s : stop_loads) (out_data : list Z) (out_size : Z) :
  ring_ok rb → stop_mono s → SLOT_SIZE ≤ Z.of_nat (length out_data) →
  match queue_read (contents rb) s with
  | Ret (Some f, q') => ∃ rb',
      RingBuffer_read rb s out_data out_size
      = Ret (mkRingRead true (splice out_data 0 f) (Z.of_nat (length f)) rb') ∧
      ring_ok rb' ∧ contents rb' = q' ∧ capacity_ rb' = capacity_ rb
  | Ret (None, q') =>
      RingBuffer_read rb s out_data out_size = Ret (mkRingRead false out_data out_size rb)
  | o => o = Blocked ∧ RingBuffer_read rb s out_data out_size = Blocked
  end.
Proof. exact (RingBuffer_read_queue rb s out_data out_size). Qed.

Lemma RingBuffer_read_refines_witness :
  RingBuffer_read demo_ring (mkStop true true) (replicate 2048 7) 5
  = Ret (mkRingRead false (replicate 2048 7) 5 demo_ring).
Proof.
  apply (RingBuffer_read_refines demo_ring (mkStop true true) (replicate 2048 7) 5).
  - apply demo_ring_ok.
  - unfold stop_mono. simpl. reflexivity.
  - rewrite length_replicate. unfold SLOT_SIZE. lia.
Defined.
