(* ===== verification/Logger.v ===== *)
(** * The logger (include/utils/logger.h, src/utils/logger.cpp)

    The stages return the log calls they make, in order; this file says what
    the logger prints for them.  The calendar text of [std::put_time] depends
    on the time zone data of the host and is a parameter. *)

From Stdlib Require Import Ascii.
From S2P Require Import Prelude.
From S2P Require Import Format.
From S2P Require Import Lines.

Inductive LogLevel : Type := INFO | WARN | ERROR.

#[global] Instance LogLevel_eq_dec : EqDecision LogLevel.
Proof. solve_decision. Defined.

Definition level_value (l : LogLevel) : Z :=
  match l with INFO => 0 | WARN => 1 | ERROR => 2 end.

Record Logger : Type := mkLogger { level_ : LogLevel }.

Definition Logger_instance : Logger := mkLogger INFO.
Definition setLevel (lg : Logger) (level : LogLevel) : Logger := mkLogger level.

(** A call of [log_info], [log_warn] or [log_error]. *)
Definition logcall : Type := LogLevel * string.
Definition log_info (msg : string) : logcall := (INFO, msg).
Definition log_warn (msg : string) : logcall := (WARN, msg).
Definition log_error (msg : string) : logcall := (ERROR, msg).

Definition level_tag (l : LogLevel) : string :=
  match l with INFO => "[INFO]  " | WARN => "[WARN]  " | ERROR => "[ERROR] " end.

(** The text behind the tag of a level. *)
Definition strip_tag (l : LogLevel) (s : string) : option string :=
  if decide (String.substring 0 8 s = level_tag l) then Some (skip 8 s) else None.

Section Printing.
(** [std::put_time(std::localtime(&t), "%Y-%m-%d %H:%M:%S")] *)
Context (put_time : Z → string).

(** What [Logger::log] writes to [std::cout] at [now_ms] milliseconds since
    the epoch. *)
Definition Logger_log (lg : Logger) (now_ms : Z) (c : logcall) : string :=
  let '(level, message) := c in
  if level_value level <? level_value (level_ lg) then ""
  else
    "[" +:+ put_time (now_ms / 1000) +:+ "." +:+ pad_left "0"%char 3 (to_string (now_ms mod 1000))
    +:+ "] " +:+ level_tag level +:+ message +:+ newline.

(** The output of a sequence of calls, each with its time. *)
Definition log_output (lg : Logger) (calls : list (Z * logcall)) : string :=
  foldr (λ '(now, c) out, Logger_log lg now c +:+ out) "" calls.

(** ** Reading a log *)

(** The text before the next line feed. *)
Fixpoint first_line (s : string) : string :=
  match s with
  | String c s' => if decide (c = ascii_of_nat 10) then "" else String c (first_line s')
  | EmptyString => ""
  end.

(** Level and message behind the 26 characters of the time. *)
Definition read_entry (line : string) : option logcall :=
  let s := skip 26 line in
  match strip_tag INFO s, strip_tag WARN s, strip_tag ERROR s with
  | Some m, _, _ => Some (INFO, m)
  | _, Some m, _ => Some (WARN, m)
  | _, _, Some m => Some (ERROR, m)
  | _, _, _ => None
  end.

Fixpoint read_log (fuel : nat) (s : string) : option (list logcall) :=
  match fuel, s with
  | _, EmptyString => Some []
  | O, _ => None
  | S fuel', _ => c ← read_entry (first_line s); l ← read_log fuel' (next_line s); Some (c :: l)
  end.

(** ** Lemmas *)

(** Raising the level hides exactly the calls below it: the output is that of
    the most verbose logger on the calls at or above the level, in order. *)
Lemma log_output_level lg calls :
  log_output lg calls
  = log_output (mkLogger INFO)
      (filter (λ '(_, (l, _)), level_value (level_ lg) ≤ level_value l) calls).
Proof.
  induction calls as [|[now [l msg]] calls IH]; [done|].
  change (log_output lg ((now, (l, msg)) :: calls))
    with (Logger_log lg now (l, msg) +:+ log_output lg calls).
  rewrite IH, filter_cons. unfold Logger_log at 1.
  destruct (Z.ltb_spec (level_value l) (level_value (level_ lg))).
  - by rewrite decide_False by lia.
  - rewrite decide_True by lia. by destruct l.
Qed.

(** The calls a logger shows. *)
Definition shown (lg : Logger) (calls : list (Z * logcall)) : list logcall :=
  snd <$> filter (λ '(_, (l, _)), level_value (level_ lg) ≤ level_value l) calls.

(** What is assumed of the calendar text: "%Y-%m-%d %H:%M:%S" has 19 characters,
    none of them a line feed. *)
Definition calendar_ok : Prop := ∀ t, String.length (put_time t) = 19%nat ∧ one_line (put_time t) = true.

Lemma read_entry_tag p l m : String.length p = 26%nat → read_entry (p +:+ (level_tag l +:+ m)) = Some (l, m).
Proof. intros Hp. unfold read_entry. rewrite skip_prefix by done. destruct l, m; vm_compute; reflexivity. Qed.

Lemma first_line_app s rest : one_line s = true → first_line (s +:+ (newline +:+ rest)) = s.
Proof.
  induction s as [|c s IH]; intros Hs; [done|]. cbn [one_line] in Hs.
  apply andb_true_iff in Hs as [Hc Hs].
  change (String c s +:+ (newline +:+ rest)) with (String c (s +:+ (newline +:+ rest))).
  cbn [first_line]. rewrite decide_False; [by rewrite IH|]. intros ->. done.
Qed.

(** The time of an entry, with its brackets. *)
Definition stamp (now_ms : Z) : string :=
  "[" +:+ put_time (now_ms / 1000) +:+ "." +:+ pad_left "0"%char 3 (to_string (now_ms mod 1000)) +:+ "] ".

Lemma stamp_ok now_ms :
  calendar_ok → String.length (stamp now_ms) = 26%nat ∧ one_line (stamp now_ms) = true.
Proof.
  intros Hcal. destruct (Hcal (now_ms / 1000)) as [Hl Ho].
  assert (String.length (pad_left "0"%char 3 (to_string (now_ms mod 1000))) = 3%nat) as H3.
  { apply length_pad. pose proof (Z.mod_pos_bound now_ms 1000 ltac:(lia)).
    pose proof (length_digits_go 10 2 20 (now_ms mod 1000) "" ltac:(lia) ltac:(lia)) as Hd.
    change (String.length "") with 0%nat in Hd. unfold to_string. lia. }
  unfold stamp. split.
  - rewrite !length_app_s, Hl, H3. done.
  - rewrite !one_line_app, Ho, one_line_pad. unfold to_string. by rewrite one_line_digits_go.
Qed.

Lemma read_log_more fuel fuel' s r : (fuel ≤ fuel')%nat → read_log fuel s = Some r → read_log fuel' s = Some r.
Proof.
  revert fuel' s r. induction fuel as [|f IH]; intros [|f'] [|c s] r Hle Hr; try done; try lia.
  cbn [read_log] in *. apply bind_Some in Hr as (e & He & Hr). apply bind_Some in Hr as (l & Hl & Hr).
  apply bind_Some. exists e. split; [done|]. apply bind_Some. exists l. split; [|done].
  apply IH; [lia|done].
Qed.

(** One line of a log. *)
Lemma read_log_line fuel s rest c :
  one_line s = true → read_entry s = Some c →
  read_log (S fuel) (s +:+ (newline +:+ rest)) = (l ← read_log fuel rest; Some (c :: l)).
Proof.
  intros Hs Hc. assert (∃ a t, s +:+ (newline +:+ rest) = String a t) as (a & t & E) by (destruct s; by eexists _, _).
  rewrite E. cbn [read_log]. rewrite <- E, first_line_app, next_line_app, Hc by done. done.
Qed.

Lemma read_log_output lg calls :
  calendar_ok → Forall (λ c, one_line c.2.2 = true) calls →
  read_log (length calls) (log_output lg calls) = Some (shown lg calls).
Proof.
  intros Hcal Hl. induction Hl as [|[now [l msg]] calls Hm Hl IH]; [done|].
  change (log_output lg ((now, (l, msg)) :: calls))
    with (Logger_log lg now (l, msg) +:+ log_output lg calls).
  unfold shown. rewrite filter_cons. unfold Logger_log.
  destruct (Z.ltb_spec (level_value l) (level_value (level_ lg))) as [Hlt|Hge].
  - rewrite decide_False by lia. change ("" +:+ log_output lg calls) with (log_output lg calls).
    by apply read_log_more with (length calls); [simpl; lia|].
  - rewrite decide_True by lia. cbn [length]. simpl in Hm.
    destruct (stamp_ok now Hcal) as [Hsl Hso].
    match goal with |- context [read_log _ ?t] => replace t with
      ((stamp now +:+ (level_tag l +:+ msg)) +:+ (newline +:+ log_output lg calls))
      by (unfold stamp; by rewrite !app_assoc_s) end.
    rewrite (read_log_line _ _ _ (l, msg)).
    + unfold shown in IH. by rewrite IH.
    + rewrite !one_line_app, Hso, Hm. by destruct l.
    + by apply read_entry_tag.
Qed.
End Printing.

(** ** Properties *)

(** C33: the log can be read back: from the text a logger prints for a run of calls
    whose messages are single lines, a reader recovers exactly the calls at or
    above its level, with their levels and messages, in order. *)
Theorem log_readable (put_time : Z → string) (lg : Logger) (calls : list (Z * logcall)) :
  calendar_ok put_time → Forall (λ c, one_line c.2.2 = true) calls →
  read_log (length calls) (log_output put_time lg calls) = Some (shown lg calls).
Proof. exact (read_log_output put_time lg calls). Qed.

Lemma log_readable_witness :
  read_log 3 (log_output (λ _, "2024-01-01 00:00:00") (setLevel Logger_instance WARN)
    [(1, log_info "a"); (2, log_warn "b"); (1007, log_error "c")]) = Some [(WARN, "b"); (ERROR, "c")].
Proof.
  apply (log_readable (λ _, "2024-01-01 00:00:00") (setLevel Logger_instance WARN)
    [(1, log_info "a"); (2, log_warn "b"); (1007, log_error "c")]).
  - intros t. split; reflexivity.
  - repeat constructor.
Defined.
