(* ===== verification/PacketBuffer.v ===== *)
(** * The packet buffer (include/capture/packet_buffer.h, src/capture/packet_buffer.cpp)

    A ring buffer whose slots hold the 8-byte native time stamp of the capture
    followed by the frame.  The interface [PacketSource] states what the
    pipeline relies on when it reads from it, and [PacketSink] with its laws what
    the capture loop relies on when it writes; the packet buffer implements both. *)

From S2P Require Import Prelude.
From S2P Require Import Bytes.
From S2P Require Import Format.
From S2P Require Import Logger.
From S2P Require Import RingBuffer.

Definition TIMESTAMP_SIZE : Z := 8.

Record PacketBuffer : Type := mkPacketBuffer { ring_ : RingBuffer }.

(** What a read leaves: its result, the output buffer, size and time stamp, the
    log calls made and the buffer. *)
Record packet_read (B : Type) : Type := mkPacketRead {
  pr_ok : bool;
  pr_data : list Z;
  pr_size : Z;
  pr_timestamp : Z;
  pr_log : list logcall;
  pr_buf : B;
}.
Arguments mkPacketRead {B}.
Arguments pr_ok {B}.
Arguments pr_data {B}.
Arguments pr_size {B}.
Arguments pr_timestamp {B}.
Arguments pr_log {B}.
Arguments pr_buf {B}.

(** ** What a reader of captured packets may rely on *)

(** [read] takes the loads of the stop flag, the indeterminate contents of its
    local slot buffer, the output buffer with its capacity, and the previous
    values of the two output parameters. *)
Class PacketSource (B : Type) := {
  ps_read : B → stop_loads → list Z → list Z → Z → Z → Z → outcome (packet_read B);
  ps_ok : B → Prop;
  ps_packets : B → list (Z * list Z);
  (** the packets are non-empty byte strings of at most 2040 bytes *)
  ps_packet : ∀ b ts f, ps_ok b → (ts, f) ∈ ps_packets b →
    0 < Z.of_nat (length f) ≤ 2040 ∧ bytes f ∧ is_u64 ts;
  (** a packet that fits is delivered at the start of the output buffer *)
  ps_read_packet : ∀ b s slot out cap sz0 ts0 ts f q,
    ps_ok b → stop_mono s → length slot = 2048%nat → cap ≤ Z.of_nat (length out) →
    ps_packets b = (ts, f) :: q → Z.of_nat (length f) ≤ cap →
    ∃ b', ps_read b s slot out cap sz0 ts0
          = Ret (mkPacketRead true (splice out 0 f) (Z.of_nat (length f)) ts [] b') ∧
      ps_ok b' ∧ ps_packets b' = q;
  (** nothing is delivered at shutdown when no packet is left *)
  ps_read_stopped : ∀ b s slot out cap sz0 ts0,
    ps_ok b → stop_mono s → length slot = 2048%nat →
    ps_packets b = [] → stop_wait s = true →
    ps_read b s slot out cap sz0 ts0 = Ret (mkPacketRead false out sz0 ts0 [] b);
  (** the reader waits for a packet *)
  ps_read_blocked : ∀ b s slot out cap sz0 ts0,
    ps_ok b → length slot = 2048%nat → ps_packets b = [] → stop_wait s = false →
    ps_read b s slot out cap sz0 ts0 = Blocked;
}.

Section PacketBuffer.
Context `{NativeEndian}.

(** The constructor only builds the ring. *)
Definition PacketBuffer_make (alloc : Z → bool) (capacity : Z) : outcome PacketBuffer :=
  ring ← RingBuffer_make alloc capacity;
  Ret (mkPacketBuffer ring).

(** [nowMillis]: the milliseconds of the system clock as a [uint64_t]. *)
Definition nowMillis (clock_ms : Z) : Z := u64 clock_ms.

(** [slot_buf] is the indeterminate initial contents of the local array. *)
Definition PacketBuffer_write (pb : PacketBuffer) (s : stop_loads) (clock_ms : Z)
    (slot_buf frame_data : list Z) (frame_size : Z) : outcome (bool * PacketBuffer) :=
  if (frame_size =? 0) || (SLOT_SIZE - TIMESTAMP_SIZE <? frame_size) then Ret (false, pb)
  else
    let ts := nowMillis clock_ms in
    slot_buf1 ← mem_write slot_buf 0 (native_bytes TIMESTAMP_SIZE ts);
    frame ← mem_read frame_data 0 frame_size;
    slot_buf2 ← mem_write slot_buf1 TIMESTAMP_SIZE frame;
    '(ok, ring) ← RingBuffer_write (ring_ pb) s slot_buf2 (TIMESTAMP_SIZE + frame_size);
    Ret (ok, mkPacketBuffer ring).

Definition PacketBuffer_read (pb : PacketBuffer) (s : stop_loads) (slot_buf out_data : list Z)
    (out_capacity out_size out_timestamp : Z) : outcome (packet_read PacketBuffer) :=
  r ← RingBuffer_read (ring_ pb) s slot_buf 0;
  let pb' := mkPacketBuffer (rr_ring r) in
  if negb (rr_ok r) then Ret (mkPacketRead false out_data out_size out_timestamp [] pb')
  else if rr_size r <? TIMESTAMP_SIZE then
    Ret (mkPacketRead false out_data out_size out_timestamp
      [log_error "packet_buffer: slot_size < TIMESTAMP_SIZE — memory corruption or constant mismatch"]
      pb')
  else
    let out_size' := rr_size r - TIMESTAMP_SIZE in
    if out_capacity <? out_size' then
      Ret (mkPacketRead false out_data out_size' out_timestamp
        [log_error ("packet_buffer: frame size " +:+ to_string out_size' +:+
                    " exceeds buffer capacity " +:+ to_string out_capacity)]
        pb')
    else
      ts ← mem_read (rr_data r) 0 TIMESTAMP_SIZE;
      frame ← mem_read (rr_data r) TIMESTAMP_SIZE out_size';
      out_data' ← mem_write out_data 0 frame;
      Ret (mkPacketRead true out_data' out_size' (native_value ts) [] pb').

Definition PacketBuffer_isEmpty (pb : PacketBuffer) : bool := isEmpty (ring_ pb).
Definition PacketBuffer_isFull (pb : PacketBuffer) : bool := isFull (ring_ pb).
Definition PacketBuffer_count (pb : PacketBuffer) : Z := RingBuffer_count (ring_ pb).
Definition PacketBuffer_capacity (pb : PacketBuffer) : Z := RingBuffer_capacity (ring_ pb).

(** ** Abstract view: a queue of time-stamped frames *)

Definition slot_packet (e : list Z) : Z * list Z :=
  (native_value (take 8 e), drop 8 e).

Definition packets (pb : PacketBuffer) : list (Z * list Z) :=
  slot_packet <$> contents (ring_ pb).

Definition slot_ok (e : list Z) : Prop :=
  TIMESTAMP_SIZE < Z.of_nat (length e) ≤ SLOT_SIZE ∧ bytes e.

Record packet_buffer_ok (pb : PacketBuffer) : Prop := {
  pb_ring : ring_ok (ring_ pb);
  pb_slots : Forall slot_ok (contents (ring_ pb));
}.

Definition packets_write (cap : Z) (q : list (Z * list Z)) (s : stop_loads) (ts : Z) (f : list Z)
    : outcome (bool * list (Z * list Z)) :=
  if (Z.of_nat (length f) =? 0) || (2040 <? Z.of_nat (length f)) then Ret (false, q)
  else if Z.of_nat (length q) <? cap then Ret (true, q ++ [(ts, f)])
  else if stop_wait s then Ret (false, q)
  else Blocked.

(** ** Lemmas *)

Lemma slot_packet_entry ts f :
  is_u64 ts → slot_packet (native_bytes 8 ts ++ f) = (ts, f).
Proof.
  intros. unfold slot_packet.
  rewrite take_app_length', drop_app_length' by (by rewrite length_native_bytes).
  rewrite native_value_bytes by lia. f_equal. by apply Z.mod_small.
Qed.

(** The slot assembled on the stack. *)
Lemma slot_assembled slot d f :
  length slot = 2048%nat → length d = 8%nat → (length f ≤ 2040)%nat →
  take (8 + length f) (splice (splice slot 0 d) 8 f) = d ++ f.
Proof.
  intros Hs Hd Hf. unfold splice. rewrite take_0, app_nil_l.
  rewrite (take_app_length' d _ 8) by done.
  rewrite app_assoc, take_app_length'; [done|]. rewrite length_app. lia.
Qed.

(** The queue of slots and the queue of packets take the same branch. *)
Lemma packets_write_queue cap (q : list (list Z)) s ts f :
  is_u64 ts →
  packets_write cap (slot_packet <$> q) s ts f =
  if (Z.of_nat (length f) =? 0) || (2040 <? Z.of_nat (length f))
  then Ret (false, slot_packet <$> q)
  else queue_write cap q s (native_bytes 8 ts ++ f) ≫=
    λ r : bool * list (list Z), Ret (r.1, slot_packet <$> r.2).
Proof.
  intros Hts. unfold packets_write, queue_write, SLOT_SIZE.
  rewrite length_app, length_native_bytes, length_fmap by lia.
  destruct (_ || _) eqn:Hz; [done|]. bool_hyps.
  rewrite (proj2 (Z.eqb_neq _ 0)), (proj2 (Z.ltb_ge 2048 _)) by lia. cbn [orb].
  destruct (_ <? cap); simpl.
  - by rewrite fmap_app; simpl; rewrite slot_packet_entry.
  - by destruct (stop_wait s).
Qed.

Lemma length_packets pb :
  packet_buffer_ok pb → Z.of_nat (length (packets pb)) = count_ (ring_ pb).
Proof. intros [? _]. unfold packets. rewrite length_fmap. by apply length_contents. Qed.

Lemma queue_write_slots cap q s e b q' :
  queue_write cap q s e = Ret (b, q') → Forall slot_ok q → slot_ok e → Forall slot_ok q'.
Proof.
  unfold queue_write. intros E Hq He.
  destruct (_ || _); [by simplify_eq|]. destruct (_ <? cap).
  - simplify_eq. apply Forall_app_2; auto.
  - destruct (stop_wait s); by simplify_eq.
Qed.

(** An oversized entry: reported, dropped and lost. *)
Lemma PacketBuffer_read_entry pb s slot out cap sz0 ts0 e q :
  packet_buffer_ok pb → stop_mono s → length slot = 2048%nat → cap ≤ Z.of_nat (length out) →
  contents (ring_ pb) = e :: q →
  ∃ pb', packet_buffer_ok pb' ∧ contents (ring_ pb') = q ∧
    PacketBuffer_read pb s slot out cap sz0 ts0 =
    let n := Z.of_nat (length e) - 8 in
    Ret (if cap <? n then
      mkPacketRead false out n ts0
        [log_error ("packet_buffer: frame size " +:+ to_string n +:+
                    " exceeds buffer capacity " +:+ to_string cap)] pb'
    else mkPacketRead true (splice out 0 (slot_packet e).2) n (slot_packet e).1 [] pb').
Proof.
  intros [Hr Hsl] Hs Hslot Hcap Hc.
  pose proof (RingBuffer_read_queue (ring_ pb) s slot 0 Hr Hs
    ltac:(unfold SLOT_SIZE; lia)) as Href.
  rewrite Hc in *. simpl in Href. destruct Href as (rb' & Hrd & Hok' & Hc' & _).
  inversion_clear Hsl as [|? ? [He Heb] Hq]. unfold TIMESTAMP_SIZE, SLOT_SIZE in He.
  exists (mkPacketBuffer rb'). split; [split; simpl; [done|by rewrite Hc']|].
  split; [done|]. unfold PacketBuffer_read. rewrite Hrd, bind_Ret. simpl rr_ok. simpl rr_size.
  simpl rr_ring. simpl rr_data. unfold TIMESTAMP_SIZE. cbn [negb].
  rewrite (proj2 (Z.ltb_ge _ 8)) by lia. cbv zeta.
  destruct (Z.ltb_spec cap (Z.of_nat (length e) - 8)); [done|].
  assert (length (splice slot 0 e) = 2048%nat) as Hl by (rewrite length_splice; lia).
  assert (take (length e) (splice slot 0 e) = e) as Ht.
  { rewrite <- (drop_0 (splice slot 0 e)). apply take_drop_splice_same. lia. }
  rewrite !mem_read_in, !bind_Ret by lia.
  assert (take (Z.to_nat 8) (drop (Z.to_nat 0) (splice slot 0 e)) = take 8 e) as ->.
  { change (Z.to_nat 0) with 0%nat. rewrite drop_0.
    transitivity (take 8 (take (length e) (splice slot 0 e))); [|by rewrite Ht].
    rewrite take_take, Nat.min_l by lia. done. }
  assert (take (Z.to_nat (Z.of_nat (length e) - 8)) (drop (Z.to_nat 8) (splice slot 0 e))
          = drop 8 e) as ->.
  { transitivity (drop 8 (take (length e) (splice slot 0 e))); [|by rewrite Ht].
    rewrite skipn_firstn_comm. f_equal. lia. }
  rewrite mem_write_in, bind_Ret by (rewrite ?length_drop; lia). done.
Qed.

(** The slot of a frame: the time stamp and the bytes. *)
Definition packet_slot (clock : Z) (f : list Z) : list Z := native_bytes 8 (nowMillis clock) ++ f.

(** [write] on a frame of a valid size assembles the slot and hands it on. *)
Lemma PacketBuffer_write_slot pb s clock slot data size :
  length slot = 2048%nat → 0 < size ≤ 2040 → size ≤ Z.of_nat (length data) →
  ∃ sl, length sl = 2048%nat ∧
    take (Z.to_nat (8 + size)) sl = packet_slot clock (take (Z.to_nat size) data) ∧
    PacketBuffer_write pb s clock slot data size =
    ('(ok, ring) ← RingBuffer_write (ring_ pb) s sl (8 + size); Ret (ok, mkPacketBuffer ring)).
Proof.
  intros Hslot Hsize Hlen. set (f := take (Z.to_nat size) data).
  assert (Z.of_nat (length f) = size) as Hf by (unfold f; rewrite length_take; lia).
  set (d := native_bytes 8 (nowMillis clock)).
  assert (length d = 8%nat) as Hd by (unfold d; by rewrite length_native_bytes).
  exists (splice (splice slot 0 d) 8 f). split_and!.
  - rewrite !length_splice; rewrite ?length_splice; lia.
  - replace (Z.to_nat (8 + size)) with (8 + length f)%nat by lia. apply slot_assembled; lia.
  - unfold PacketBuffer_write, SLOT_SIZE, TIMESTAMP_SIZE. change (2048 - 8) with 2040.
    rewrite (proj2 (Z.eqb_neq size 0)), (proj2 (Z.ltb_ge 2040 size)) by lia. cbn [orb]. fold d.
    rewrite mem_write_in, bind_Ret by lia. rewrite mem_read_in, bind_Ret, drop_0 by lia. fold f.
    change (Z.to_nat 0) with 0%nat. rewrite mem_write_in, bind_Ret by (rewrite ?length_splice; lia). done.
Qed.

(** What a write stores when there is room depends on the frame and the clock alone. *)
Definition ring_stored (rb : RingBuffer) (e : list Z) : RingBuffer := {|
  head_ := (head_ rb + 1) mod capacity_ rb; tail_ := tail_ rb; capacity_ := capacity_ rb;
  buffer_ := splice (buffer_ rb) (Z.to_nat (head_ rb * SLOT_SIZE)) e;
  slot_sizes_ := <[Z.to_nat (head_ rb) := Z.of_nat (length e)]> (slot_sizes_ rb);
  count_ := count_ rb + 1 |}.

Lemma PacketBuffer_write_room pb s clock slot data size :
  ring_ok (ring_ pb) → count_ (ring_ pb) < capacity_ (ring_ pb) →
  length slot = 2048%nat → 0 < size ≤ 2040 → size ≤ Z.of_nat (length data) →
  PacketBuffer_write pb s clock slot data size
  = Ret (true, mkPacketBuffer (ring_stored (ring_ pb) (packet_slot clock (take (Z.to_nat size) data)))).
Proof.
  intros Hok Hlt Hslot Hsize Hlen.
  destruct (PacketBuffer_write_slot pb s clock slot data size) as (sl & Hl & Htake & ->); [done..|].
  rewrite RingBuffer_write_room by (unfold SLOT_SIZE; done || lia). by rewrite Htake.
Qed.

(** The ring after a read. *)
Lemma PacketBuffer_read_ring pb s slot out cap sz ts r :
  PacketBuffer_read pb s slot out cap sz ts = Ret r →
  ∃ rr, RingBuffer_read (ring_ pb) s slot 0 = Ret rr ∧ pr_buf r = mkPacketBuffer (rr_ring rr).
Proof.
  intros Hp. unfold PacketBuffer_read in Hp. apply bind_eq_Ret in Hp as (rr & Hr & Hp).
  exists rr. split; [done|]. destruct (negb _); [by simplify_eq|].
  destruct (_ <? TIMESTAMP_SIZE); [by simplify_eq|]. cbv zeta in Hp. destruct (_ <? _); [by simplify_eq|].
  do 3 (apply bind_eq_Ret in Hp as (? & _ & Hp)). by simplify_eq.
Qed.
(** [write] against the queue of packets. *)
Lemma PacketBuffer_write_queue pb s clock slot data size :
  packet_buffer_ok pb → stop_mono s → length slot = 2048%nat → bytes data →
  0 ≤ size ≤ Z.of_nat (length data) →
  match packets_write (capacity_ (ring_ pb)) (packets pb) s (nowMillis clock)
          (take (Z.to_nat size) data) with
  | Ret (b, q') => ∃ pb', PacketBuffer_write pb s clock slot data size = Ret (b, pb') ∧
      packet_buffer_ok pb' ∧ packets pb' = q' ∧
      capacity_ (ring_ pb') = capacity_ (ring_ pb)
  | o => o = Blocked ∧ PacketBuffer_write pb s clock slot data size = Blocked
  end.
Proof.
  intros [Hr Hsl] Hs Hslot Hdata Hsize. unfold packets.
  assert (is_u64 (nowMillis clock)) as Hts by apply u64_range.
  set (f := take (Z.to_nat size) data).
  assert (Z.of_nat (length f) = size) as Hf by (unfold f; rewrite length_take; lia).
  rewrite packets_write_queue, Hf by done.
  destruct ((size =? 0) || (2040 <? size)) eqn:Hz.
  { exists pb. unfold PacketBuffer_write, SLOT_SIZE, TIMESTAMP_SIZE. change (2048 - 8) with 2040. by rewrite Hz. }
  bool_hyps.
  destruct (PacketBuffer_write_slot pb s clock slot data size) as (sl & Hl & Htake & ->); [done|lia..|].
  pose proof (RingBuffer_write_queue (ring_ pb) s sl (8 + size) Hr Hs ltac:(lia)) as Hq.
  rewrite Htake in Hq. unfold packet_slot in Hq. fold f in Hq.
  destruct (queue_write _ _ s _) as [[b q']| | | |] eqn:Eq; simpl; try (by destruct Hq as [? ->]).
  destruct Hq as (rb' & -> & Hok' & <- & Hcap). simpl.
  exists (mkPacketBuffer rb'). split_and!; try done. split; simpl; [done|].
  eapply queue_write_slots; [done..|]. split.
  - rewrite length_app, length_native_bytes by lia. unfold TIMESTAMP_SIZE, SLOT_SIZE. simpl. lia.
  - apply Forall_app_2; [by apply native_bytes_bytes|by apply Forall_take].
Qed.

(** The packet buffer implements the interface of the pipeline. *)
#[export] Program Instance PacketBuffer_source : PacketSource PacketBuffer := {|
  ps_read := PacketBuffer_read;
  ps_ok := packet_buffer_ok;
  ps_packets := packets;
|}.
Next Obligation.
  intros pb ts f [_ Hsl] Hin. unfold packets in Hin.
  apply list_elem_of_fmap in Hin as (e & [= -> ->] & He).
  rewrite Forall_forall in Hsl. destruct (Hsl e He) as [Hl Hb].
  unfold TIMESTAMP_SIZE, SLOT_SIZE in Hl. split_and!.
  - rewrite length_drop. lia.
  - rewrite length_drop. lia.
  - by apply Forall_drop.
  - apply native_value_bound; [rewrite length_take; lia|by apply Forall_take].
  - apply native_value_bound; [rewrite length_take; lia|by apply Forall_take].
Qed.
Next Obligation.
  intros pb s slot out cap sz0 ts0 ts f q Hok Hs Hslot Hcap Hp Hf.
  unfold packets in Hp. destruct (contents (ring_ pb)) as [|e q'] eqn:Hc; [done|].
  simpl in Hp. injection Hp as Hts Hfe Hq.
  destruct (PacketBuffer_read_entry pb s slot out cap sz0 ts0 e q' Hok Hs Hslot Hcap Hc)
    as (pb' & Hok' & Hc' & ->).
  exists pb'. cbv zeta.
  assert (Z.of_nat (length e) - 8 = Z.of_nat (length f)) as ->.
  { destruct Hok as [_ Hsl]. rewrite Hc in Hsl. inversion_clear Hsl as [|? ? [He _]].
    unfold TIMESTAMP_SIZE in He. rewrite <- Hfe, length_drop. lia. }
  rewrite (proj2 (Z.ltb_ge _ _)) by lia. unfold slot_packet, packets. simpl.
  rewrite Hts, Hfe, Hc'. done.
Qed.
Next Obligation.
  intros pb s slot out cap sz0 ts0 [Hr _] Hs Hslot Hp Hw.
  apply fmap_nil_inv in Hp.
  pose proof (RingBuffer_read_queue (ring_ pb) s slot 0 Hr Hs
    ltac:(unfold SLOT_SIZE; lia)) as Hq.
  rewrite Hp in Hq. simpl in Hq. rewrite Hw in Hq.
  unfold PacketBuffer_read. rewrite Hq. by destruct pb.
Qed.
Next Obligation.
  intros pb s slot out cap sz0 ts0 [Hr _] Hslot Hp Hw.
  apply fmap_nil_inv in Hp. pose proof (length_contents _ Hr) as Hl.
  rewrite Hp in Hl. simpl in Hl. unfold PacketBuffer_read, RingBuffer_read, isEmpty.
  rewrite <- Hl, Hw. done.
Qed.
End PacketBuffer.

(** ** What a writer of captured packets may rely on *)

(** [write], and whether a write would have to wait. *)
Class PacketSink (B : Type) := {
  sk_write : B → stop_loads → Z → list Z → list Z → Z → outcome (bool * B);
  sk_full : B → bool;
}.

(** [inv b st]: the state [b] is good and [st] are the packets stored in it so
    far, also those taken out again. *)
Class SinkLaws `{PacketSink B} (inv : B → list (Z * list Z) → Prop) : Prop := {
  sk_write_room : ∀ b st s clock slot data size,
    inv b st → stop_mono s → length slot = 2048%nat → bytes data →
    0 < size ≤ 2040 → size ≤ Z.of_nat (length data) → sk_full b = false →
    ∃ b', sk_write b s clock slot data size = Ret (true, b') ∧
      inv b' (st ++ [(nowMillis clock, take (Z.to_nat size) data)]);
  sk_write_stopped : ∀ b st s clock slot data size,
    inv b st → stop_mono s → length slot = 2048%nat → bytes data →
    0 < size ≤ 2040 → size ≤ Z.of_nat (length data) → sk_full b = true → stop_wait s = true →
    ∃ b', sk_write b s clock slot data size = Ret (false, b') ∧ inv b' st;
}.

#[export] Instance PacketBuffer_sink `{NativeEndian} : PacketSink PacketBuffer := {|
  sk_write := PacketBuffer_write;
  sk_full := PacketBuffer_isFull;
|}.

(** The packets in the buffer are the last ones stored. *)
Definition buffer_inv `{NativeEndian} (pb : PacketBuffer) (st : list (Z * list Z)) : Prop :=
  packet_buffer_ok pb ∧ ∃ gone, st = gone ++ packets pb.

Lemma isFull_room pb :
  packet_buffer_ok pb → PacketBuffer_isFull pb = false → count_ (ring_ pb) < capacity_ (ring_ pb).
Proof.
  intros Hok Hf. pose proof (ok_count _ (pb_ring _ Hok)). unfold PacketBuffer_isFull, isFull in Hf.
  apply Z.eqb_neq in Hf. lia.
Qed.

(** At the stop request a write to a full buffer gives up and leaves it as it is. *)
Lemma PacketBuffer_write_stopped `{NativeEndian} pb s clock slot data size :
  PacketBuffer_isFull pb = true → stop_mono s → stop_wait s = true →
  length slot = 2048%nat → 0 < size ≤ 2040 → size ≤ Z.of_nat (length data) →
  PacketBuffer_write pb s clock slot data size = Ret (false, pb).
Proof.
  intros Hf Hmono Hs Hslot Hsize Hlen.
  destruct (PacketBuffer_write_slot pb s clock slot data size) as (sl & Hl & _ & ->); [done..|].
  rewrite RingBuffer_write_full; [|done|done|unfold SLOT_SIZE; apply orb_false_iff; lia].
  rewrite Hs. by destruct pb.
Qed.

#[export] Instance PacketBuffer_sink_laws `{NativeEndian} : SinkLaws buffer_inv.
Proof.
  split; intros pb st s clock slot data size [Hok [gone ->]] Hmono Hslot Hdata Hsize Hlen Hf.
  - pose proof (PacketBuffer_write_queue pb s clock slot data size Hok Hmono Hslot Hdata ltac:(lia)) as Hw.
    unfold packets_write in Hw. rewrite length_take, Nat.min_l, Z2Nat.id, length_packets in Hw by (done || lia).
    rewrite (proj2 (Z.eqb_neq size 0)), (proj2 (Z.ltb_ge 2040 size)) in Hw by lia.
    rewrite (proj2 (Z.ltb_lt _ _) (isFull_room pb Hok Hf)) in Hw.
    destruct Hw as (pb' & Hw & Hok' & Hp & _). exists pb'. split; [done|]. split; [done|].
    exists gone. by rewrite Hp, app_assoc.
  - intros Hs. exists pb. split; [by apply PacketBuffer_write_stopped|]. split; [done|]. by exists gone.
Qed.

(** ** A buffer, for the witnesses *)

Lemma demo_packet_buffer_ok `{NativeEndian} : packet_buffer_ok (mkPacketBuffer demo_ring).
Proof. split; [apply demo_ring_ok|]. constructor. Qed.

