(* ===== verification/EthernetParser.v ===== *)
(** * Ethernet parser (include/parsers/ethernet_parser.h, src/parsers/ethernet_parser.cpp)

    The frame header and the view of its payload. *)

From S2P Require Import Prelude.
From S2P Require Import Bytes.
From S2P Require Import Format.

Definition ETHERNET_HEADER_SIZE : Z := 14.
Definition ETHERNET_MIN_SIZE : Z := 15.
Definition ETHERTYPE_IPV4 : Z := 0x0800.
Definition ETHERTYPE_ARP : Z := 0x0806.
Definition ETHERTYPE_IPV6 : Z := 0x86DD.

(** [MACAddress] is an array of six bytes. *)
Record EthernetFrame : Type := mkEthernetFrame {
  eth_dst_mac : list Z;
  eth_src_mac : list Z;
  eth_ethertype : Z;
  eth_payload : ptr;
  eth_payload_size : Z;
  eth_valid : bool;
}.

(** [EthernetFrame frame{}] *)
Definition empty_frame : EthernetFrame := {|
  eth_dst_mac := replicate 6 0; eth_src_mac := replicate 6 0; eth_ethertype := 0;
  eth_payload := nullptr; eth_payload_size := 0; eth_valid := false |}.

Definition srcMacString (f : EthernetFrame) : string := macToString (eth_src_mac f).
Definition dstMacString (f : EthernetFrame) : string := macToString (eth_dst_mac f).

(** [ethernet_parser::parse] *)
Definition ethernet_parse (m : list Z) (data : ptr) (size : Z) : outcome EthernetFrame :=
  if is_null data then Ret empty_frame
  else if size <? ETHERNET_MIN_SIZE then Ret empty_frame
  else
    dst_mac ← load_bytes m data 0 6;
    src_mac ← load_bytes m data 6 6;
    b12 ← load m data 12;
    b13 ← load m data 13;
    payload ← ptr_add m data ETHERNET_HEADER_SIZE;
    Ret {| eth_dst_mac := dst_mac; eth_src_mac := src_mac;
           eth_ethertype := u16 (Z.lor (Z.shiftl b12 8) b13);
           eth_payload := payload;
           eth_payload_size := u64 (size - ETHERNET_HEADER_SIZE);
           eth_valid := true |}.

(** ** The frame at an offset of a memory object *)

Definition eth_frame_at (m : list Z) (o size : Z) : EthernetFrame := {|
  eth_dst_mac := bytes_at m o 6; eth_src_mac := bytes_at m (o + 6) 6;
  eth_ethertype := be16_at m o 12;
  eth_payload := Ptr (o + 14); eth_payload_size := size - 14; eth_valid := true |}.

Lemma ethernet_parse_in m o size :
  bytes m → 0 ≤ o → is_u64 size → o + Z.min size 14 ≤ Z.of_nat (length m) →
  ethernet_parse m (Ptr o) size
  = Ret (if size <? 15 then empty_frame else eth_frame_at m o size).
Proof.
  intros Hm Ho Hs Hin. unfold ethernet_parse, ETHERNET_MIN_SIZE, ETHERNET_HEADER_SIZE.
  cbn [is_null]. destruct (Z.ltb_spec size 15); [done|].
  rewrite !load_bytes_in, !load_in, ptr_add_in, !bind_Ret by lia.
  rewrite be16_lor, u64_small, Z.add_0_r by (auto with words lia). done.
Qed.

(** The encoder of the round trip: destination, source, type, payload. *)
Definition encode_ethernet (dst src : list Z) (ethertype : Z) (payload : list Z) : list Z :=
  dst ++ src ++ be16_bytes ethertype ++ payload.

Lemma ethernet_header_at pre dst src ty payload post :
  length dst = 6%nat → length src = 6%nat → is_u16 ty →
  eth_frame_at (pre ++ encode_ethernet dst src ty payload ++ post) (Z.of_nat (length pre))
    (14 + Z.of_nat (length payload))
  = {| eth_dst_mac := dst; eth_src_mac := src; eth_ethertype := ty;
       eth_payload := Ptr (Z.of_nat (length pre) + 14);
       eth_payload_size := Z.of_nat (length payload); eth_valid := true |}.
Proof.
  intros Hd Hs Ht. destruct dst as [|d0 [|d1 [|d2 [|d3 [|d4 [|d5 []]]]]]]; try discriminate.
  destruct src as [|s0 [|s1 [|s2 [|s3 [|s4 [|s5 []]]]]]]; try discriminate.
  unfold eth_frame_at, encode_ethernet. f_equal.
  - rewrite <- (Z.add_0_r (Z.of_nat (length pre))), bytes_at_mid by lia. done.
  - rewrite bytes_at_mid by lia. done.
  - unfold be16_at. rewrite !byte_at_mid by lia. by apply be16_of_bytes.
  - lia.
Qed.

(** The parser keeps its result when the memory behind its region changes. *)
Lemma ethernet_parse_extend m m' p size :
  m `prefix_of` m' → defined_as (ethernet_parse m p size) (ethernet_parse m' p size).
Proof. intros. unfold ethernet_parse. solve_defined. Qed.
#[export] Hint Resolve ethernet_parse_extend : extend.

(** Parsing an encoded frame with a non-empty payload, wherever it lies in
    memory, gives back both addresses and the type, marks the frame valid and
    points at the payload with its exact size. *)
Lemma ethernet_parse_encoded (pre dst src payload post : list Z) (ty : Z) :
  bytes pre → bytes dst → bytes src → bytes payload → bytes post →
  length dst = 6%nat → length src = 6%nat → is_u16 ty →
  0 < Z.of_nat (length payload) < 2 ^ 32 →
  ethernet_parse (pre ++ encode_ethernet dst src ty payload ++ post)
    (Ptr (Z.of_nat (length pre))) (14 + Z.of_nat (length payload))
  = Ret {| eth_dst_mac := dst; eth_src_mac := src; eth_ethertype := ty;
           eth_payload := Ptr (Z.of_nat (length pre) + 14);
           eth_payload_size := Z.of_nat (length payload); eth_valid := true |}.
Proof.
  intros. rewrite ethernet_parse_in.
  - rewrite (proj2 (Z.ltb_ge _ _)) by lia. by rewrite ethernet_header_at.
  - unfold encode_ethernet. repeat apply Forall_app_2; auto with words.
  - lia.
  - lia.
  - unfold encode_ethernet. rewrite !length_app. simpl. lia.
Qed.
