(* ===== verification/IpParser.v ===== *)
(** * IPv4 parser (include/parsers/ip_parser.h, src/parsers/ip_parser.cpp) *)

From S2P Require Import Prelude.
From S2P Require Import Bytes.
From S2P Require Import Checksum.

Inductive Direction : Type := Inbound | Outbound | Unknown.

#[global] Instance Direction_eq_dec : EqDecision Direction.
Proof. solve_decision. Defined.

Record IpHeader : Type := mkIpHeader {
  ip_ihl : Z;
  ip_ttl : Z;
  ip_protocol : Z;
  ip_src_ip : Z;
  ip_dst_ip : Z;
  ip_total_length : Z;
  ip_checksum_ok : bool;
  ip_direction : Direction;
  ip_payload : ptr;
  ip_payload_len : Z;
}.

Definition parseIpHeader (m : list Z) (data : ptr) (len : Z) (direction : Direction)
    : outcome (option IpHeader) :=
  if len <? 20 then Ret None
  else
    b0 ← load m data 0;
    let version := Z.land (Z.shiftr b0 4) 0x0F in
    if negb (version =? 4) then Ret None
    else
      let ihl := Z.land b0 0x0F in
      let header_bytes := ihl * 4 in
      if (ihl <? 5) || (len <? header_bytes) then Ret None
      else
        total_length ← (p ← ptr_add m data 2; readU16Be m p);
        if len <? total_length then Ret None
        else
          ttl ← load m data 8;
          protocol ← load m data 9;
          src_ip ← (p ← ptr_add m data 12; readU32Be m p);
          dst_ip ← (p ← ptr_add m data 16; readU32Be m p);
          checksum_ok ← verifyIpChecksum m data header_bytes;
          payload ← ptr_add m data header_bytes;
          Ret (Some {|
            ip_ihl := ihl; ip_ttl := ttl; ip_protocol := protocol;
            ip_src_ip := src_ip; ip_dst_ip := dst_ip; ip_total_length := total_length;
            ip_checksum_ok := checksum_ok; ip_direction := direction;
            ip_payload := payload;
            ip_payload_len := u64 (total_length - header_bytes);
          |}).

(** ** The header at an offset of a memory object *)

(** Header length in bytes, from the low nibble of the first byte. *)
Definition ip_header_bytes (m : list Z) (o : Z) : Z := byte_at m o 0 mod 16 * 4.

Definition ip_accepts (m : list Z) (o len : Z) : bool :=
  (20 <=? len) && (byte_at m o 0 / 16 =? 4) && (20 <=? ip_header_bytes m o)
  && (ip_header_bytes m o <=? len) && (be16_at m o 2 <=? len).

Definition ip_header_at (m : list Z) (o : Z) (dir : Direction) : IpHeader := {|
  ip_ihl := byte_at m o 0 mod 16; ip_ttl := byte_at m o 8; ip_protocol := byte_at m o 9;
  ip_src_ip := be32_at m o 12; ip_dst_ip := be32_at m o 16; ip_total_length := be16_at m o 2;
  ip_checksum_ok := rfc1071 (bytes_at m o (Z.to_nat (ip_header_bytes m o))) =? 0;
  ip_direction := dir;
  ip_payload := Ptr (o + ip_header_bytes m o);
  ip_payload_len := u64 (be16_at m o 2 - ip_header_bytes m o) |}.

Lemma ip_header_bytes_range m o : 0 ≤ ip_header_bytes m o ≤ 60.
Proof. unfold ip_header_bytes. pose proof (Z.mod_pos_bound (byte_at m o 0) 16). lia. Qed.

(** The parser reads at most the first 60 of its [len] bytes. *)
Lemma parseIpHeader_in m o len dir :
  bytes m → 0 ≤ o → 0 ≤ len → o + Z.min len 60 ≤ Z.of_nat (length m) →
  parseIpHeader m (Ptr o) len dir
  = Ret (if ip_accepts m o len then Some (ip_header_at m o dir) else None).
Proof.
  intros Hm Ho Hlen Hin. unfold parseIpHeader, ip_accepts.
  rewrite (Z.leb_antisym len 20). destruct (Z.ltb_spec len 20); [done|].
  rewrite (load_in m o 0), bind_Ret, high_nibble, low_nibble by auto with words lia.
  pose proof (ip_header_bytes_range m o). fold (ip_header_bytes m o). cbn [negb andb].
  destruct (Z.eqb_spec (byte_at m o 0 / 16) 4); [|done]. cbn [negb andb].
  assert ((byte_at m o 0 mod 16 <? 5) = negb (20 <=? ip_header_bytes m o)) as ->.
  { unfold ip_header_bytes. bool_cases; lia. }
  destruct (Z.leb_spec 20 (ip_header_bytes m o)); [|done]. cbn [negb orb andb].
  rewrite Z.leb_antisym. destruct (Z.ltb_spec len (ip_header_bytes m o)); [done|].
  cbn [negb andb]. rewrite readU16Be_at, bind_Ret by (try done; lia).
  rewrite Z.leb_antisym. destruct (Z.ltb_spec len (be16_at m o 2)); [done|].
  rewrite !load_in, !bind_Ret by lia.
  rewrite !readU32Be_at, !bind_Ret by (try done; lia).
  rewrite verifyIpChecksum_in, bind_Ret, ptr_add_in, bind_Ret by (try done; lia).
  done.
Qed.

Lemma ip_accepts_true m o len :
  ip_accepts m o len = true →
  20 ≤ len ∧ 20 ≤ ip_header_bytes m o ≤ len ∧ be16_at m o 2 ≤ len.
Proof. unfold ip_accepts. intros. bool_hyps. lia. Qed.

(** The encoder of the round trip: the header before and after its checksum
    field, and the packet. *)
Definition ip_head1 (tos total id frag ttl proto : Z) (opts : list Z) : list Z :=
  [64 + (5 + Z.of_nat (length opts) / 4); tos] ++ be16_bytes total ++ be16_bytes id
  ++ be16_bytes frag ++ [ttl; proto].
Definition ip_head2 (src dst : Z) (opts : list Z) : list Z :=
  be32_bytes src ++ be32_bytes dst ++ opts.
Definition encode_ip (tos id frag ttl proto csum src dst : Z) (opts payload : list Z) : list Z :=
  let total := 20 + Z.of_nat (length opts) + Z.of_nat (length payload) in
  (ip_head1 tos total id frag ttl proto opts ++ be16_bytes csum ++ ip_head2 src dst opts) ++ payload.

(** The values a well-formed packet can carry. *)
Record ip_fields_ok (tos id frag ttl proto src dst : Z) (opts payload : list Z) : Prop := {
  ipf_tos : is_u8 tos; ipf_id : is_u16 id; ipf_frag : is_u16 frag;
  ipf_ttl : is_u8 ttl; ipf_proto : is_u8 proto; ipf_src : is_u32 src; ipf_dst : is_u32 dst;
  ipf_opts : bytes opts; ipf_payload : bytes payload;
  ipf_opts_len : Z.of_nat (length opts) mod 4 = 0 ∧ Z.of_nat (length opts) ≤ 40;
  ipf_total : 20 + Z.of_nat (length opts) + Z.of_nat (length payload) < 65536;
}.

Section Encode.
Context (tos id frag ttl proto src dst : Z) (opts payload : list Z).
Hypothesis Hok : ip_fields_ok tos id frag ttl proto src dst opts payload.
Let total := 20 + Z.of_nat (length opts) + Z.of_nat (length payload).
Let h1 := ip_head1 tos total id frag ttl proto opts.
Let h2 := ip_head2 src dst opts.

Lemma ip_heads_bytes : bytes h1 ∧ bytes h2.
Proof.
  destruct Hok. unfold h1, h2, ip_head1, ip_head2. split.
  - repeat apply Forall_app_2; auto with words.
    + repeat constructor; Z.to_euclidean_division_equations; lia.
    + apply be16_bytes_bytes. unfold total. lia.
  - repeat apply Forall_app_2; auto with words.
Qed.

Lemma length_ip_heads :
  length h1 = 10%nat ∧ Z.of_nat (length h2) = 8 + Z.of_nat (length opts).
Proof. split; [done|]. unfold h2, ip_head2. rewrite !length_app. simpl. lia. Qed.

Lemma encode_ip_bytes csum :
  is_u16 csum → bytes (encode_ip tos id frag ttl proto csum src dst opts payload).
Proof.
  intros. destruct ip_heads_bytes. destruct Hok.
  apply Forall_app_2; [|done]. apply Forall_app_2; [done|].
  apply Forall_app_2; [by apply be16_bytes_bytes|done].
Qed.

(** The header read back at its offset, but for the checksum test. *)
Lemma ip_header_at_encoded pre post csum dir :
  let m := pre ++ encode_ip tos id frag ttl proto csum src dst opts payload ++ post in
  let o := Z.of_nat (length pre) in
  let hb := 20 + Z.of_nat (length opts) in
  ip_header_bytes m o = hb ∧ byte_at m o 0 / 16 = 4 ∧ be16_at m o 2 = total ∧
  bytes_at m o (Z.to_nat hb) = h1 ++ be16_bytes csum ++ h2 ∧
  ip_header_at m o dir = {|
    ip_ihl := 5 + Z.of_nat (length opts) / 4; ip_ttl := ttl; ip_protocol := proto;
    ip_src_ip := src; ip_dst_ip := dst; ip_total_length := total;
    ip_checksum_ok := rfc1071 (h1 ++ be16_bytes csum ++ h2) =? 0; ip_direction := dir;
    ip_payload := Ptr (o + hb); ip_payload_len := Z.of_nat (length payload) |}.
Proof.
  intros m o hb. destruct Hok. destruct length_ip_heads as [Hl1 Hl2].
  assert (byte_at m o 0 = 64 + (5 + Z.of_nat (length opts) / 4)) as H0.
  { unfold m, o. by rewrite byte_at_mid. }
  assert (ip_header_bytes m o = hb) as Hhb.
  { unfold ip_header_bytes. rewrite H0. unfold hb. Z.to_euclidean_division_equations; lia. }
  assert (be16_at m o 2 = total) as Htot.
  { unfold be16_at, m, o. rewrite !byte_at_mid by lia. apply be16_of_bytes. unfold total. lia. }
  assert (bytes_at m o (Z.to_nat hb) = h1 ++ be16_bytes csum ++ h2) as Hh.
  { unfold m, o. rewrite <- (Z.add_0_r (Z.of_nat (length pre))), bytes_at_mid by lia.
    rewrite drop_0. unfold encode_ip. fold total h1 h2. rewrite <- app_assoc.
    apply take_app_length'. rewrite !length_app. unfold hb. simpl. lia. }
  split_and!; try done; [rewrite H0; Z.to_euclidean_division_equations; lia|].
  unfold ip_header_at. rewrite Hhb, Hh, Htot. f_equal.
  - rewrite H0. Z.to_euclidean_division_equations; lia.
  - unfold m, o. by rewrite byte_at_mid.
  - unfold m, o. by rewrite byte_at_mid.
  - unfold be32_at, m, o. rewrite !byte_at_mid by lia. by apply be32_of_bytes.
  - unfold be32_at, m, o. rewrite !byte_at_mid by lia. by apply be32_of_bytes.
  - rewrite u64_small; unfold total, hb; lia.
Qed.

(** The checksum written by the sender makes the header verify. *)
Lemma ip_checksum_encoded csum :
  internetChecksum (h1 ++ [0; 0] ++ h2) (Ptr 0) (Z.of_nat (length (h1 ++ [0; 0] ++ h2))) = Ret csum →
  is_u16 csum ∧ (rfc1071 (h1 ++ be16_bytes csum ++ h2) =? 0) = true.
Proof.
  intros Hc. destruct ip_heads_bytes as [Hb1 Hb2]. destruct length_ip_heads as [Hl1 Hl2].
  destruct Hok. assert (Z.of_nat (length (h1 ++ [0; 0] ++ h2)) ≤ 131072) as Hlen.
  { rewrite !length_app. simpl. lia. }
  assert (is_u16 csum) as Hcs.
  { assert (bytes (h1 ++ [0; 0] ++ h2)) as Hb.
    { apply Forall_app_2; [done|]. apply Forall_app_2; [repeat constructor; lia|done]. }
    rewrite internetChecksum_whole in Hc by done. apply (inj Ret) in Hc as <-.
    pose proof (ones_norm_range _ (words16_sum_nonneg _ Hb)). simpl in *. lia. }
  split; [done|].
  pose proof (verifyIpChecksum_inserted_whole h1 h2 csum Hb1 Hb2 ltac:(by rewrite Hl1) Hlen Hc) as Hv.
  fold (be16_bytes csum) in Hv.
  rewrite verifyIpChecksum_in in Hv.
  - apply (inj Ret) in Hv. by rewrite Nat2Z.id, drop_0, take_ge in Hv.
  - apply Forall_app_2; [done|]. apply Forall_app_2; [by apply be16_bytes_bytes|done].
  - done.
  - rewrite !length_app in *. simpl in *. lia.
  - lia.
Qed.
End Encode.

(** The parser keeps its result when the memory behind its region changes. *)
Lemma parseIpHeader_extend m m' p len dir :
  m `prefix_of` m' → defined_as (parseIpHeader m p len dir) (parseIpHeader m' p len dir).
Proof. intros. unfold parseIpHeader. solve_defined. Qed.
#[export] Hint Resolve parseIpHeader_extend : extend.

(** ** Encoded packets *)

(** An encoded packet, padded or not, is accepted. *)
Lemma ip_accepts_encoded tos id frag ttl proto csum src dst opts payload pre post len :
  ip_fields_ok tos id frag ttl proto src dst opts payload →
  20 + Z.of_nat (length opts) + Z.of_nat (length payload) ≤ len →
  ip_accepts (pre ++ encode_ip tos id frag ttl proto csum src dst opts payload ++ post)
    (Z.of_nat (length pre)) len = true.
Proof.
  intros Hok Hlen.
  destruct (ip_header_at_encoded tos id frag ttl proto src dst opts payload Hok pre post csum Unknown)
    as (Hhb & Hv & Htot & _ & _).
  unfold ip_accepts. rewrite Hhb, Hv, Htot. bool_cases; try lia; done.
Qed.

Lemma length_encode_ip tos id frag ttl proto csum src dst opts payload :
  Z.of_nat (length (encode_ip tos id frag ttl proto csum src dst opts payload))
  = 20 + Z.of_nat (length opts) + Z.of_nat (length payload).
Proof. unfold encode_ip, ip_head1, ip_head2. rewrite !length_app. simpl. lia. Qed.

(** Parsing an encoded packet. *)
Lemma parseIpHeader_encoded pre post tos id frag ttl proto csum src dst opts payload len dir :
  let h1 := ip_head1 tos (20 + Z.of_nat (length opts) + Z.of_nat (length payload)) id frag ttl proto opts in
  let h2 := ip_head2 src dst opts in
  ip_fields_ok tos id frag ttl proto src dst opts payload →
  is_u16 csum → bytes pre → bytes post →
  20 + Z.of_nat (length opts) + Z.of_nat (length payload) ≤ len
    ≤ 20 + Z.of_nat (length opts) + Z.of_nat (length payload) + Z.of_nat (length post) →
  parseIpHeader (pre ++ encode_ip tos id frag ttl proto csum src dst opts payload ++ post)
    (Ptr (Z.of_nat (length pre))) len dir
  = Ret (Some {|
      ip_ihl := 5 + Z.of_nat (length opts) / 4; ip_ttl := ttl; ip_protocol := proto;
      ip_src_ip := src; ip_dst_ip := dst;
      ip_total_length := 20 + Z.of_nat (length opts) + Z.of_nat (length payload);
      ip_checksum_ok := rfc1071 (h1 ++ be16_bytes csum ++ h2) =? 0; ip_direction := dir;
      ip_payload := Ptr (Z.of_nat (length pre) + (20 + Z.of_nat (length opts)));
      ip_payload_len := Z.of_nat (length payload) |}).
Proof.
  intros h1 h2 Hok Hcs Hpre Hpost Hlen.
  rewrite parseIpHeader_in.
  - rewrite ip_accepts_encoded by (try done; lia).
    destruct (ip_header_at_encoded _ _ _ _ _ _ _ _ _ Hok pre post csum dir)
      as (_ & _ & _ & _ & ->).
    done.
  - apply Forall_app_2; [done|]. apply Forall_app_2; [|done].
    by apply (encode_ip_bytes _ _ _ _ _ _ _ _ _ Hok).
  - lia.
  - lia.
  - rewrite !length_app, !Nat2Z.inj_add, length_encode_ip. lia.
Qed.
