(* ===== verification/TcpParser.v ===== *)
(** * TCP parser (include/parsers/tcp_parser.h, src/parsers/tcp_parser.cpp) *)

From S2P Require Import Prelude.
From S2P Require Import Bytes.

(** [namespace TcpFlags] *)
Definition FIN : Z := 0x01.
Definition SYN : Z := 0x02.
Definition RST : Z := 0x04.
Definition PSH : Z := 0x08.
Definition ACK : Z := 0x10.
Definition URG : Z := 0x20.
Definition SYN_FIN : Z := Z.lor SYN FIN.
Definition SYN_ACK : Z := Z.lor SYN ACK.
Definition XMAS : Z := Z.lor (Z.lor FIN PSH) URG.
Definition NULL_SCAN : Z := 0x00.

Record TcpHeader : Type := mkTcpHeader {
  tcp_src_port : Z;
  tcp_dst_port : Z;
  tcp_seq_num : Z;
  tcp_data_offset : Z;
  tcp_flags : Z;
  tcp_window_size : Z;
  tcp_payload : ptr;
  tcp_payload_len : Z;
}.

Definition parseTcpHeader (m : list Z) (data : ptr) (len : Z) : outcome (option TcpHeader) :=
  if is_null data || (len <? 20) then Ret None
  else
    src_port ← (p ← ptr_add m data 0; readU16Be m p);
    dst_port ← (p ← ptr_add m data 2; readU16Be m p);
    seq_num ← (p ← ptr_add m data 4; readU32Be m p);
    b12 ← load m data 12;
    let data_offset := Z.land (Z.shiftr b12 4) 0x0F in
    let header_bytes := data_offset * 4 in
    if (data_offset <? 5) || (len <? header_bytes) then Ret None
    else
      b13 ← load m data 13;
      let flags := Z.land b13 0x3F in
      window_size ← (p ← ptr_add m data 14; readU16Be m p);
      payload ← ptr_add m data header_bytes;
      Ret (Some {|
        tcp_src_port := src_port; tcp_dst_port := dst_port; tcp_seq_num := seq_num;
        tcp_data_offset := data_offset; tcp_flags := flags; tcp_window_size := window_size;
        tcp_payload := payload; tcp_payload_len := u64 (len - header_bytes);
      |}).

(** ** The header at an offset of a memory object *)

Definition tcp_header_bytes (m : list Z) (o : Z) : Z := byte_at m o 12 / 16 * 4.

Definition tcp_accepts (m : list Z) (o len : Z) : bool :=
  (20 <=? len) && (20 <=? tcp_header_bytes m o) && (tcp_header_bytes m o <=? len).

Definition tcp_header_at (m : list Z) (o len : Z) : TcpHeader := {|
  tcp_src_port := be16_at m o 0; tcp_dst_port := be16_at m o 2; tcp_seq_num := be32_at m o 4;
  tcp_data_offset := byte_at m o 12 / 16; tcp_flags := byte_at m o 13 mod 64;
  tcp_window_size := be16_at m o 14; tcp_payload := Ptr (o + tcp_header_bytes m o);
  tcp_payload_len := u64 (len - tcp_header_bytes m o) |}.

Lemma low_six_bits b : is_u8 b → Z.land b 0x3F = b mod 64.
Proof.
  intros Hb. apply Z.eqb_eq.
  by apply (byte_brute (λ b, Z.land b 0x3F =? b mod 64) eq_refl).
Qed.

Lemma tcp_header_bytes_range m o : bytes m → 0 ≤ tcp_header_bytes m o ≤ 60.
Proof.
  intros Hm. unfold tcp_header_bytes. pose proof (byte_at_range m o 12 Hm).
  Z.to_euclidean_division_equations; lia.
Qed.

(** The parser reads at most the first 60 bytes, whatever [len] says. *)
Lemma parseTcpHeader_in m o len :
  bytes m → 0 ≤ o → 0 ≤ len → o + Z.min len 60 ≤ Z.of_nat (length m) →
  parseTcpHeader m (Ptr o) len
  = Ret (if tcp_accepts m o len then Some (tcp_header_at m o len) else None).
Proof.
  intros Hm Ho Hlen Hin. unfold parseTcpHeader, tcp_accepts.
  rewrite (Z.leb_antisym len 20). cbn [is_null orb].
  destruct (Z.ltb_spec len 20); [done|].
  pose proof (tcp_header_bytes_range m o Hm). pose proof (byte_at_range m o 12 Hm).
  rewrite !readU16Be_at, !bind_Ret by (try done; lia).
  rewrite readU32Be_at, bind_Ret by (try done; lia).
  rewrite (load_in m o 12), bind_Ret, high_nibble by (auto with words lia).
  fold (tcp_header_bytes m o). cbn [negb andb].
  assert ((byte_at m o 12 / 16 <? 5) = negb (20 <=? tcp_header_bytes m o)) as ->.
  { unfold tcp_header_bytes. bool_cases; lia. }
  destruct (Z.leb_spec 20 (tcp_header_bytes m o)); [|done]. cbn [negb orb andb].
  rewrite Z.leb_antisym. destruct (Z.ltb_spec len (tcp_header_bytes m o)); [done|].
  rewrite load_in, bind_Ret, low_six_bits by (auto with words lia).
  rewrite bind_Ret, ptr_add_in, bind_Ret by lia. done.
Qed.

(** The encoder of the round trip: a segment with its options; [flags] are the
    six flag bits the parser keeps; the quotient of [res] by 4 fills the low
    nibble of byte 12 and its remainder the two bits above the flags. *)
Definition encode_tcp (sport dport seq ack res flags window csum urg : Z) (opts payload : list Z) : list Z :=
  let doff := 5 + Z.of_nat (length opts) / 4 in
  be16_bytes sport ++ be16_bytes dport ++ be32_bytes seq ++ be32_bytes ack
  ++ [doff * 16 + res / 4; res mod 4 * 64 + flags] ++ be16_bytes window ++ be16_bytes csum
  ++ be16_bytes urg ++ opts ++ payload.

Record tcp_fields_ok (sport dport seq ack res flags window csum urg : Z) (opts payload : list Z) : Prop := {
  tf_sport : is_u16 sport; tf_dport : is_u16 dport; tf_seq : is_u32 seq; tf_ack : is_u32 ack;
  tf_res : 0 ≤ res < 64; tf_flags : 0 ≤ flags < 64; tf_window : is_u16 window;
  tf_csum : is_u16 csum; tf_urg : is_u16 urg; tf_opts : bytes opts; tf_payload : bytes payload;
  tf_opts_len : Z.of_nat (length opts) mod 4 = 0 ∧ Z.of_nat (length opts) ≤ 40;
  tf_len : Z.of_nat (length payload) < 65536;
}.

Lemma length_encode_tcp sport dport seq ack res flags window csum urg opts payload :
  Z.of_nat (length (encode_tcp sport dport seq ack res flags window csum urg opts payload))
  = 20 + Z.of_nat (length opts) + Z.of_nat (length payload).
Proof. unfold encode_tcp. rewrite !length_app. simpl. lia. Qed.

Lemma encode_tcp_bytes sport dport seq ack res flags window csum urg opts payload :
  tcp_fields_ok sport dport seq ack res flags window csum urg opts payload →
  bytes (encode_tcp sport dport seq ack res flags window csum urg opts payload).
Proof.
  intros []. unfold encode_tcp. repeat apply Forall_app_2; auto with words.
  repeat constructor; Z.to_euclidean_division_equations; lia.
Qed.

(** Parsing an encoded segment. *)
Lemma parseTcpHeader_encoded pre post sport dport seq ack res flags window csum urg opts payload :
  tcp_fields_ok sport dport seq ack res flags window csum urg opts payload →
  bytes pre → bytes post →
  parseTcpHeader (pre ++ encode_tcp sport dport seq ack res flags window csum urg opts payload ++ post)
    (Ptr (Z.of_nat (length pre))) (20 + Z.of_nat (length opts) + Z.of_nat (length payload))
  = Ret (Some {|
      tcp_src_port := sport; tcp_dst_port := dport; tcp_seq_num := seq;
      tcp_data_offset := 5 + Z.of_nat (length opts) / 4; tcp_flags := flags;
      tcp_window_size := window;
      tcp_payload := Ptr (Z.of_nat (length pre) + (20 + Z.of_nat (length opts)));
      tcp_payload_len := Z.of_nat (length payload) |}).
Proof.
  intros Hok Hpre Hpost. pose proof (encode_tcp_bytes _ _ _ _ _ _ _ _ _ _ _ Hok) as Hb.
  set (m := pre ++ _). set (o := Z.of_nat (length pre)).
  assert (byte_at m o 12 = (5 + Z.of_nat (length opts) / 4) * 16 + res / 4) as H12.
  { unfold m, o. by rewrite byte_at_mid. }
  destruct Hok.
  assert (byte_at m o 12 / 16 = 5 + Z.of_nat (length opts) / 4) as Hdoff.
  { rewrite H12. Z.to_euclidean_division_equations; lia. }
  assert (tcp_header_bytes m o = 20 + Z.of_nat (length opts)) as Hhb.
  { unfold tcp_header_bytes. rewrite Hdoff. Z.to_euclidean_division_equations; lia. }
  rewrite parseTcpHeader_in.
  - unfold tcp_accepts, tcp_header_at. rewrite Hhb, Hdoff.
    rewrite !(proj2 (Z.leb_le _ _)) by lia. simpl andb. cbv iota. do 2 f_equal. f_equal.
    all: try (unfold be16_at, m, o; rewrite !byte_at_mid by lia; by apply be16_of_bytes).
    + unfold be32_at, m, o. rewrite !byte_at_mid by lia. by apply be32_of_bytes.
    + unfold m, o. rewrite byte_at_mid by lia.
      change (_ !!! Z.to_nat 13) with (res mod 4 * 64 + flags).
      Z.to_euclidean_division_equations; lia.
    + rewrite u64_small; lia.
  - by apply bytes_mid.
  - lia.
  - lia.
  - unfold m. rewrite !length_app, !Nat2Z.inj_add, length_encode_tcp. lia.
Qed.

(** The parser keeps its result when the memory behind its region changes. *)
Lemma parseTcpHeader_extend m m' p len :
  m `prefix_of` m' → defined_as (parseTcpHeader m p len) (parseTcpHeader m' p len).
Proof. intros. unfold parseTcpHeader. solve_defined. Qed.
#[export] Hint Resolve parseTcpHeader_extend : extend.
