(* ===== verification/UdpParser.v ===== *)
(** * UDP parser (include/parsers/udp_parser.h, src/parsers/udp_parser.cpp) *)

From S2P Require Import Prelude.
From S2P Require Import Bytes.

Definition UDP_PORT_DNS : Z := 53.

Record UdpHeader : Type := mkUdpHeader {
  udp_src_port : Z;
  udp_dst_port : Z;
  udp_length : Z;
  udp_is_dns : bool;
  udp_payload : ptr;
  udp_payload_len : Z;
}.

Definition parseUdpHeader (m : list Z) (data : ptr) (len : Z) : outcome (option UdpHeader) :=
  if is_null data || (len <? 8) then Ret None
  else
    src_port ← (p ← ptr_add m data 0; readU16Be m p);
    dst_port ← (p ← ptr_add m data 2; readU16Be m p);
    length ← (p ← ptr_add m data 4; readU16Be m p);
    if (length <? 8) || (len <? length) then Ret None
    else
      let is_dns := (src_port =? UDP_PORT_DNS) || (dst_port =? UDP_PORT_DNS) in
      payload ← ptr_add m data 8;
      Ret (Some {|
        udp_src_port := src_port; udp_dst_port := dst_port; udp_length := length;
        udp_is_dns := is_dns; udp_payload := payload; udp_payload_len := u64 (length - 8);
      |}).

Definition udp_accepts (m : list Z) (o len : Z) : bool :=
  (8 <=? len) && (8 <=? be16_at m o 4) && (be16_at m o 4 <=? len).

Definition udp_header_at (m : list Z) (o : Z) : UdpHeader := {|
  udp_src_port := be16_at m o 0; udp_dst_port := be16_at m o 2; udp_length := be16_at m o 4;
  udp_is_dns := (be16_at m o 0 =? 53) || (be16_at m o 2 =? 53);
  udp_payload := Ptr (o + 8); udp_payload_len := be16_at m o 4 - 8 |}.

(** The parser reads at most the first 8 bytes. *)
Lemma parseUdpHeader_in m o len :
  bytes m → 0 ≤ o → 0 ≤ len → o + Z.min len 8 ≤ Z.of_nat (length m) →
  parseUdpHeader m (Ptr o) len
  = Ret (if udp_accepts m o len then Some (udp_header_at m o) else None).
Proof.
  intros Hm Ho Hlen Hin. unfold parseUdpHeader, udp_accepts.
  rewrite (Z.leb_antisym len 8). cbn [is_null orb].
  destruct (Z.ltb_spec len 8); [done|]. pose proof (be16_at_range m o 4 Hm).
  rewrite !readU16Be_at, !bind_Ret by (try done; lia). cbn [negb andb].
  rewrite (Z.leb_antisym (be16_at m o 4) 8).
  destruct (Z.ltb_spec (be16_at m o 4) 8); [done|]. cbn [negb orb andb].
  rewrite Z.leb_antisym. destruct (Z.ltb_spec len (be16_at m o 4)); [done|].
  rewrite ptr_add_in, bind_Ret, u64_small by lia. done.
Qed.

Definition encode_udp (sport dport csum : Z) (payload : list Z) : list Z :=
  be16_bytes sport ++ be16_bytes dport ++ be16_bytes (8 + Z.of_nat (length payload))
  ++ be16_bytes csum ++ payload.

Lemma encode_udp_bytes sport dport csum payload :
  is_u16 sport → is_u16 dport → is_u16 csum → bytes payload →
  8 + Z.of_nat (length payload) < 65536 → bytes (encode_udp sport dport csum payload).
Proof.
  intros. unfold encode_udp. repeat apply Forall_app_2; auto with words.
  apply be16_bytes_bytes. lia.
Qed.

(** Parsing an encoded datagram. *)
Lemma parseUdpHeader_encoded pre post sport dport csum payload len :
  is_u16 sport → is_u16 dport → is_u16 csum →
  bytes pre → bytes payload → bytes post →
  8 + Z.of_nat (length payload) < 65536 →
  8 + Z.of_nat (length payload) ≤ len →
  parseUdpHeader (pre ++ encode_udp sport dport csum payload ++ post) (Ptr (Z.of_nat (length pre))) len
  = Ret (Some {| udp_src_port := sport; udp_dst_port := dport;
      udp_length := 8 + Z.of_nat (length payload);
      udp_is_dns := (sport =? 53) || (dport =? 53);
      udp_payload := Ptr (Z.of_nat (length pre) + 8);
      udp_payload_len := Z.of_nat (length payload) |}).
Proof.
  intros Hs Hd Hc Hpre Hpay Hpost Hl Hlen.
  set (m := pre ++ _). set (o := Z.of_nat (length pre)).
  assert (be16_at m o 0 = sport ∧ be16_at m o 2 = dport ∧
    be16_at m o 4 = 8 + Z.of_nat (length payload)) as (E0 & E2 & E4).
  { unfold be16_at, m, o. rewrite !byte_at_mid by lia.
    split_and!; apply be16_of_bytes; lia. }
  rewrite parseUdpHeader_in.
  - unfold udp_accepts, udp_header_at. rewrite E0, E2, E4.
    rewrite !(proj2 (Z.leb_le _ _)) by lia. simpl andb. cbv iota. do 2 f_equal. f_equal. lia.
  - apply bytes_mid; [done| |done]. by apply encode_udp_bytes.
  - lia.
  - lia.
  - unfold m, encode_udp. rewrite !length_app. simpl. lia.
Qed.

(** The parser keeps its result when the memory behind its region changes. *)
Lemma parseUdpHeader_extend m m' p len :
  m `prefix_of` m' → defined_as (parseUdpHeader m p len) (parseUdpHeader m' p len).
Proof. intros. unfold parseUdpHeader. solve_defined. Qed.
#[export] Hint Resolve parseUdpHeader_extend : extend.
