(* ===== verification/IcmpParser.v ===== *)
(** * ICMP parser (include/parsers/icmp_parser.h, src/parsers/icmp_parser.cpp) *)

From S2P Require Import Prelude.
From S2P Require Import Bytes.

(** [namespace IcmpType] *)
Definition ECHO_REPLY : Z := 0.
Definition DEST_UNREACHABLE : Z := 3.
Definition ECHO_REQUEST : Z := 8.
Definition TTL_EXCEEDED : Z := 11.
Definition ICMP_NORMAL_MTU : Z := 1500.

Record IcmpHeader : Type := mkIcmpHeader {
  icmp_type : Z;
  icmp_code : Z;
  icmp_packet_size : Z;
  icmp_is_oversized : bool;
  icmp_payload : ptr;
  icmp_payload_len : Z;
}.

Definition parseIcmpHeader (m : list Z) (data : ptr) (len ip_total_length : Z)
    : outcome (option IcmpHeader) :=
  if is_null data || (len <? 8) then Ret None
  else
    type ← load m data 0;
    code ← load m data 1;
    let packet_size := ip_total_length in
    let is_oversized := ICMP_NORMAL_MTU <? packet_size in
    payload ← ptr_add m data 8;
    Ret (Some {|
      icmp_type := type; icmp_code := code; icmp_packet_size := packet_size;
      icmp_is_oversized := is_oversized; icmp_payload := payload;
      icmp_payload_len := u64 (len - 8);
    |}).

(** The parser keeps its result when the memory behind its region changes. *)
Lemma parseIcmpHeader_extend m m' p len total :
  m `prefix_of` m' → defined_as (parseIcmpHeader m p len total) (parseIcmpHeader m' p len total).
Proof. intros. unfold parseIcmpHeader. solve_defined. Qed.
#[export] Hint Resolve parseIcmpHeader_extend : extend.

Definition icmp_header_at (m : list Z) (o len ip_total_length : Z) : IcmpHeader := {|
  icmp_type := byte_at m o 0; icmp_code := byte_at m o 1; icmp_packet_size := ip_total_length;
  icmp_is_oversized := 1500 <? ip_total_length;
  icmp_payload := Ptr (o + 8); icmp_payload_len := u64 (len - 8) |}.

(** The parser reads the first two bytes only. *)
Lemma parseIcmpHeader_in m o len total :
  0 ≤ o → 0 ≤ len → o + Z.min len 8 ≤ Z.of_nat (length m) →
  parseIcmpHeader m (Ptr o) len total
  = Ret (if 8 <=? len then Some (icmp_header_at m o len total) else None).
Proof.
  intros Ho Hlen Hin. unfold parseIcmpHeader.
  rewrite (Z.leb_antisym len 8). cbn [is_null orb]. destruct (Z.ltb_spec len 8); [done|].
  rewrite !load_in, ptr_add_in, !bind_Ret by lia. done.
Qed.
