(* ===== verification/ArpParser.v ===== *)
(** * ARP parser (include/parsers/arp_parser.h, src/parsers/arp_parser.cpp) *)

From S2P Require Import Prelude.
From S2P Require Import Bytes.

(** [namespace ArpOper] and the constants of the header. *)
Definition ARP_REQUEST : Z := 1.
Definition ARP_REPLY : Z := 2.
Definition ARP_HTYPE_ETHERNET : Z := 1.
Definition ARP_PTYPE_IPV4 : Z := 0x0800.

Record ArpPacket : Type := mkArpPacket {
  arp_oper : Z;
  arp_pkt_sender_mac : list Z;
  arp_pkt_sender_ip : Z;
  arp_pkt_target_mac : list Z;
  arp_pkt_target_ip : Z;
  arp_is_reply : bool;
}.

Definition parseArpPacket (m : list Z) (data : ptr) (len : Z) : outcome (option ArpPacket) :=
  if is_null data || (len <? 28) then Ret None
  else
    htype ← (p ← ptr_add m data 0; readU16Be m p);
    if negb (htype =? ARP_HTYPE_ETHERNET) then Ret None
    else
      ptype ← (p ← ptr_add m data 2; readU16Be m p);
      if negb (ptype =? ARP_PTYPE_IPV4) then Ret None
      else
        b4 ← load m data 4;
        b5 ← load m data 5;
        if negb (b4 =? 6) || negb (b5 =? 4) then Ret None
        else
          oper ← (p ← ptr_add m data 6; readU16Be m p);
          sender_mac ← load_bytes m data 8 6;
          sender_ip ← (p ← ptr_add m data 14; readU32Be m p);
          target_mac ← load_bytes m data 18 6;
          target_ip ← (p ← ptr_add m data 24; readU32Be m p);
          Ret (Some {|
            arp_oper := oper; arp_pkt_sender_mac := sender_mac; arp_pkt_sender_ip := sender_ip;
            arp_pkt_target_mac := target_mac; arp_pkt_target_ip := target_ip;
            arp_is_reply := oper =? ARP_REPLY;
          |}).

Definition arp_accepts (m : list Z) (o len : Z) : bool :=
  (28 <=? len) && (be16_at m o 0 =? 1) && (be16_at m o 2 =? 0x0800)
  && (byte_at m o 4 =? 6) && (byte_at m o 5 =? 4).

Definition arp_packet_at (m : list Z) (o : Z) : ArpPacket := {|
  arp_oper := be16_at m o 6; arp_pkt_sender_mac := bytes_at m (o + 8) 6;
  arp_pkt_sender_ip := be32_at m o 14; arp_pkt_target_mac := bytes_at m (o + 18) 6;
  arp_pkt_target_ip := be32_at m o 24; arp_is_reply := be16_at m o 6 =? 2 |}.

(** The parser reads the first 28 bytes only. *)
Lemma parseArpPacket_in m o len :
  bytes m → 0 ≤ o → 0 ≤ len → o + Z.min len 28 ≤ Z.of_nat (length m) →
  parseArpPacket m (Ptr o) len
  = Ret (if arp_accepts m o len then Some (arp_packet_at m o) else None).
Proof.
  intros Hm Ho Hlen Hin. unfold parseArpPacket, arp_accepts.
  rewrite (Z.leb_antisym len 28). cbn [is_null orb]. destruct (Z.ltb_spec len 28); [done|].
  rewrite !readU16Be_at, !readU32Be_at, !load_in, !load_bytes_in by (try done; lia).
  rewrite !bind_Ret. unfold ARP_HTYPE_ETHERNET, ARP_PTYPE_IPV4. cbn [negb andb].
  destruct (be16_at m o 0 =? 1); [|done].
  destruct (be16_at m o 2 =? 0x0800); [|done].
  destruct (byte_at m o 4 =? 6); [|done].
  destruct (byte_at m o 5 =? 4); done.
Qed.

Definition encode_arp (oper : Z) (smac : list Z) (sip : Z) (tmac : list Z) (tip : Z) : list Z :=
  [0; 1; 8; 0; 6; 4] ++ be16_bytes oper ++ smac ++ be32_bytes sip ++ tmac ++ be32_bytes tip.

Lemma encode_arp_bytes oper smac sip tmac tip :
  is_u16 oper → bytes smac → bytes tmac → bytes (encode_arp oper smac sip tmac tip).
Proof.
  intros. unfold encode_arp. repeat apply Forall_app_2; auto with words.
  repeat constructor; lia.
Qed.

(** Parsing an encoded packet. *)
Lemma parseArpPacket_encoded pre post oper smac sip tmac tip len :
  is_u16 oper → is_u32 sip → is_u32 tip → bytes smac → bytes tmac →
  length smac = 6%nat → length tmac = 6%nat → bytes pre → bytes post → 28 ≤ len →
  parseArpPacket (pre ++ encode_arp oper smac sip tmac tip ++ post) (Ptr (Z.of_nat (length pre))) len
  = Ret (Some {| arp_oper := oper; arp_pkt_sender_mac := smac; arp_pkt_sender_ip := sip;
      arp_pkt_target_mac := tmac; arp_pkt_target_ip := tip; arp_is_reply := oper =? 2 |}).
Proof.
  intros Ho Hs Ht Hsb Htb Hsl Htl Hpre Hpost Hlen.
  pose proof (encode_arp_bytes oper smac sip tmac tip Ho Hsb Htb) as Hb.
  destruct smac as [|s0 [|s1 [|s2 [|s3 [|s4 [|s5 []]]]]]]; try discriminate.
  destruct tmac as [|t0 [|t1 [|t2 [|t3 [|t4 [|t5 []]]]]]]; try discriminate.
  set (m := pre ++ _). set (o := Z.of_nat (length pre)).
  assert (be16_at m o 0 = 1 ∧ be16_at m o 2 = 0x0800 ∧ byte_at m o 4 = 6 ∧ byte_at m o 5 = 4)
    as (E0 & E2 & E4 & E5).
  { unfold be16_at, m, o. by rewrite !byte_at_mid. }
  assert (be16_at m o 6 = oper ∧ be32_at m o 14 = sip ∧ be32_at m o 24 = tip) as (E6 & E14 & E24).
  { unfold be16_at, be32_at, m, o. rewrite !byte_at_mid by lia.
    split_and!; [by apply be16_of_bytes|by apply be32_of_bytes..]. }
  rewrite parseArpPacket_in.
  - unfold arp_accepts, arp_packet_at. rewrite E0, E2, E4, E5, E6, E14, E24.
    rewrite (proj2 (Z.leb_le 28 len)) by lia. unfold m, o. by rewrite !bytes_at_mid.
  - by apply bytes_mid.
  - lia.
  - lia.
  - unfold m. rewrite !length_app. simpl. lia.
Qed.

(** The parser keeps its result when the memory behind its region changes. *)
Lemma parseArpPacket_extend m m' p len :
  m `prefix_of` m' → defined_as (parseArpPacket m p len) (parseArpPacket m' p len).
Proof. intros. unfold parseArpPacket. solve_defined. Qed.
#[export] Hint Resolve parseArpPacket_extend : extend.
