(* ===== verification/FilterStage.v ===== *)
(** * Filter stage (include/pipeline/filter_stage.h, src/pipeline/filter_stage.cpp)

    Takes the next captured packet and keeps the IPv4 and ARP frames.  The stage
    is written against the interface [PacketSource], which the packet buffer
    implements. *)

From S2P Require Import Prelude.
From S2P Require Import Bytes.
From S2P Require Import Format.
From S2P Require Import Logger.
From S2P Require Import RingBuffer.
From S2P Require Import PacketBuffer.
From S2P Require Import EthernetParser.

Record FilteredFrame : Type := mkFilteredFrame {
  ff_eth : EthernetFrame;
  ff_capture_ts_ms : Z;
}.

(** The result, the frame buffer the views point into, the log calls, the packet
    buffer. *)
Record filter_result (B : Type) : Type := mkFilterResult {
  fr_frame : option FilteredFrame;
  fr_frame_buf : list Z;
  fr_log : list logcall;
  fr_buf : B;
}.
Arguments mkFilterResult {B}.
Arguments fr_frame {B}.
Arguments fr_frame_buf {B}.
Arguments fr_log {B}.
Arguments fr_buf {B}.

(** The tests that follow a successful read of [frame_size] bytes into
    [frame_buf]. *)
Definition filter_frame (frame_buf : list Z) (frame_size buf_capacity ts : Z)
    : outcome (option FilteredFrame * list logcall) :=
  if frame_size <? ETHERNET_MIN_SIZE then
    Ret (None, [log_warn ("filter_stage: frame too short (" +:+ to_string frame_size +:+
                          " bytes) — dropped")])
  else if buf_capacity <? frame_size then
    Ret (None, [log_warn "filter_stage: frame exceeds buffer capacity — dropped"])
  else
    eth ← ethernet_parse frame_buf (Ptr 0) frame_size;
    if negb (eth_valid eth) then
      Ret (None, [log_warn "filter_stage: invalid Ethernet frame — dropped"])
    else if eth_payload_size eth =? 0 then
      Ret (None, [log_warn "filter_stage: empty payload — dropped"])
    else if negb (eth_ethertype eth =? ETHERTYPE_IPV4) && negb (eth_ethertype eth =? ETHERTYPE_ARP) then
      Ret (None, [])
    else Ret (Some (mkFilteredFrame eth ts), []).

Definition filter_stage `{PacketSource B} (packet_buf : B) (s : stop_loads)
    (slot_buf frame_buf : list Z) (buf_capacity : Z) : outcome (filter_result B) :=
  r ← ps_read packet_buf s slot_buf frame_buf buf_capacity 0 0;
  if negb (pr_ok r) then Ret (mkFilterResult None (pr_data r) (pr_log r) (pr_buf r))
  else
    '(f, log) ← filter_frame (pr_data r) (pr_size r) buf_capacity (pr_timestamp r);
    Ret (mkFilterResult f (pr_data r) (pr_log r ++ log) (pr_buf r)).

(** ** What is kept *)

(** The frames that go on: long enough and of type IPv4 or ARP. *)
Definition filter_keeps (f : list Z) : bool :=
  (15 <=? Z.of_nat (length f)) &&
  ((be16_at f 0 12 =? 0x0800) || (be16_at f 0 12 =? 0x0806)).

Definition filtered_frame (ts : Z) (f : list Z) : FilteredFrame :=
  mkFilteredFrame (eth_frame_at f 0 (Z.of_nat (length f))) ts.

Lemma splice_front out f : splice out 0 f = f ++ drop (length f) out.
Proof. unfold splice. by rewrite take_0. Qed.

(** The view of a frame does not depend on what is behind it. *)
Lemma eth_frame_at_app f t n :
  bytes f → bytes t → 15 ≤ n ≤ Z.of_nat (length f) → n < 2 ^ 32 →
  eth_frame_at (f ++ t) 0 n = eth_frame_at f 0 n.
Proof.
  intros Hf Ht Hn Hn2. apply (inj Ret).
  assert (ethernet_parse f (Ptr 0) n = Ret (eth_frame_at f 0 n)) as E.
  { rewrite ethernet_parse_in by (try done; lia). by rewrite (proj2 (Z.ltb_ge _ _)) by lia. }
  symmetry. rewrite <- (defined_as_Ret _ _ _
    (ethernet_parse_extend f (f ++ t) (Ptr 0) n (prefix_app_r _ _ _ (reflexivity _))) E).
  rewrite ethernet_parse_in.
  - by rewrite (proj2 (Z.ltb_ge _ _)) by lia.
  - by apply Forall_app_2.
  - lia.
  - lia.
  - rewrite length_app. lia.
Qed.

(** The tests, on a frame at the start of the frame buffer. *)
Lemma filter_frame_spec f t cap ts :
  bytes f → bytes t → Z.of_nat (length f) ≤ cap < 2 ^ 32 →
  filter_frame (f ++ t) (Z.of_nat (length f)) cap ts = Ret
    (if filter_keeps f then (Some (filtered_frame ts f), [])
     else (None, if Z.of_nat (length f) <? 15 then
       [log_warn ("filter_stage: frame too short (" +:+ to_string (Z.of_nat (length f)) +:+
                  " bytes) — dropped")] else [])).
Proof.
  intros Hf Ht Hcap. unfold filter_frame, filter_keeps, ETHERNET_MIN_SIZE.
  rewrite (Z.leb_antisym _ 15). destruct (Z.ltb_spec (Z.of_nat (length f)) 15); [done|].
  cbn [negb andb]. rewrite (proj2 (Z.ltb_ge cap _)) by lia.
  rewrite ethernet_parse_in.
  - rewrite (proj2 (Z.ltb_ge _ 15)), bind_Ret, eth_frame_at_app by (try done; lia).
    cbn [eth_frame_at eth_valid eth_payload_size eth_ethertype negb].
    rewrite (proj2 (Z.eqb_neq _ 0)) by lia. unfold ETHERTYPE_IPV4, ETHERTYPE_ARP.
    destruct (be16_at f 0 12 =? 0x0800), (be16_at f 0 12 =? 0x0806); done.
  - by apply Forall_app_2.
  - lia.
  - lia.
  - rewrite length_app. lia.
Qed.

(** The stage against the interface: the next packet is consumed, and delivered
    when it is kept. *)
Lemma filter_stage_packet `{PacketSource B} b s slot frame_buf cap ts f q :
  ps_ok b → stop_mono s → length slot = 2048%nat →
  Z.of_nat (length frame_buf) = cap → bytes frame_buf → 2040 ≤ cap < 2 ^ 32 →
  ps_packets b = (ts, f) :: q →
  ∃ b' log, ps_ok b' ∧ ps_packets b' = q ∧
  filter_stage b s slot frame_buf cap = Ret (mkFilterResult
    (if filter_keeps f then Some (filtered_frame ts f) else None)
    (f ++ drop (length f) frame_buf) log b') ∧
  (log = [] ↔ 15 ≤ Z.of_nat (length f)).
Proof.
  intros Hok Hs Hslot Hfb Hb Hcap Hq.
  destruct (ps_packet b ts f Hok) as (Hlen & Hf & _); [rewrite Hq; left|].
  destruct (ps_read_packet b s slot frame_buf cap 0 0 ts f q) as (b' & Hr & Hok' & Hq');
    [done..|lia|done|lia|].
  unfold filter_stage. rewrite Hr, bind_Ret. cbn [pr_ok pr_data pr_size pr_timestamp pr_log pr_buf negb].
  rewrite splice_front, filter_frame_spec by (auto using Forall_drop with lia).
  rewrite bind_Ret. unfold filter_keeps.
  rewrite (Z.leb_antisym _ 15). destruct (Z.ltb_spec (Z.of_nat (length f)) 15); cbn [negb andb].
  - eexists b', _. split_and!; [done..|]. simpl. split; [done|lia].
  - destruct (_ || _); eexists b', _; split_and!; try done; simpl; split; (done || lia).
Qed.

(** ** A packet, for the witnesses *)

(** A DNS datagram from 10.0.0.1 to 10.0.0.2, and a packet buffer that holds it. *)
Definition demo_packet : list Z :=
  [2; 0; 0; 0; 0; 2; 2; 0; 0; 0; 0; 1; 8; 0;
   69; 0; 0; 28; 0; 0; 0; 0; 64; 17; 102; 207; 10; 0; 0; 1; 10; 0; 0; 2;
   3; 232; 0; 53; 0; 8; 0; 0].

Definition demo_one_packet : PacketBuffer := mkPacketBuffer
  {| head_ := 0; tail_ := 1; capacity_ := 2;
     buffer_ := replicate 2048 0 ++ [5; 0; 0; 0; 0; 0; 0; 0] ++ demo_packet ++ replicate 1998 0;
     slot_sizes_ := [0; 50]; count_ := 1 |}.

Lemma demo_one_packet_ok : packet_buffer_ok demo_one_packet.
Proof.
  split.
  - split; simpl; try lia; repeat constructor; unfold SLOT_SIZE; lia.
  - repeat constructor; vm_compute; discriminate.
Qed.

