(* ===== verification/DissectorStage.v ===== *)
(** * Dissector stage (include/pipeline/dissector_stage.h, src/pipeline/dissector_stage.cpp)

    Dispatches a filtered frame to the ARP, IPv4, TCP, UDP and ICMP parsers and
    resolves the direction of the packet.  The frame lies at the start of the
    pipeline's frame buffer; the bytes behind it are left over from earlier
    frames. *)

From S2P Require Import Prelude.
From S2P Require Import Bytes.
From S2P Require Import Checksum.
From S2P Require Import Logger.
From S2P Require Import EthernetParser.
From S2P Require Import IpParser.
From S2P Require Import TcpParser.
From S2P Require Import UdpParser.
From S2P Require Import IcmpParser.
From S2P Require Import ArpParser.
From S2P Require Import FilterStage.

Record IpTcpFrame : Type := mkIpTcpFrame {
  itf_eth : EthernetFrame; itf_ip : IpHeader; itf_tcp : TcpHeader; itf_capture_ts_ms : Z }.
Record IpUdpFrame : Type := mkIpUdpFrame {
  iuf_eth : EthernetFrame; iuf_ip : IpHeader; iuf_udp : UdpHeader; iuf_capture_ts_ms : Z }.
Record IpIcmpFrame : Type := mkIpIcmpFrame {
  iif_eth : EthernetFrame; iif_ip : IpHeader; iif_icmp : IcmpHeader; iif_capture_ts_ms : Z }.
Record ArpFrame : Type := mkArpFrame {
  af_eth : EthernetFrame; af_arp : ArpPacket; af_capture_ts_ms : Z }.
Record IpOtherFrame : Type := mkIpOtherFrame {
  iof_eth : EthernetFrame; iof_ip : IpHeader; iof_capture_ts_ms : Z }.

(** [std::variant<IpTcpFrame, IpUdpFrame, IpIcmpFrame, ArpFrame, IpOtherFrame>] *)
Inductive DissectedFrame : Type :=
  | DTcp (f : IpTcpFrame)
  | DUdp (f : IpUdpFrame)
  | DIcmp (f : IpIcmpFrame)
  | DArp (f : ArpFrame)
  | DOther (f : IpOtherFrame).

(** [LocalIpSet] is a set of addresses in host order. *)
Definition resolveDirection (src_ip dst_ip : Z) (local_ips : gset Z) : Direction :=
  if decide (dst_ip ∈ local_ips) then Inbound
  else if decide (src_ip ∈ local_ips) then Outbound
  else Unknown.

(** The address at [payload[i..i+3]], assembled in place. *)
Definition peek_ip (m : list Z) (p : ptr) (i : Z) : outcome Z :=
  b0 ← load m p i;
  b1 ← load m p (i + 1);
  b2 ← load m p (i + 2);
  b3 ← load m p (i + 3);
  Ret (Z.lor (Z.lor (Z.lor (u32 (Z.shiftl b0 24)) (u32 (Z.shiftl b1 16)))
               (u32 (Z.shiftl b2 8))) b3).

(** The transport layer of an accepted IPv4 header. *)
Definition dissect_transport (m : list Z) (eth : EthernetFrame) (ip : IpHeader) (ts : Z)
    : outcome (option DissectedFrame * list logcall) :=
  if ip_protocol ip =? 6 then
    tcp ← parseTcpHeader m (ip_payload ip) (ip_payload_len ip);
    match tcp with
    | None => Ret (None, [log_warn "dissector_stage: TCP parse failed — dropped"])
    | Some tcp => Ret (Some (DTcp (mkIpTcpFrame eth ip tcp ts)), [])
    end
  else if ip_protocol ip =? 17 then
    udp ← parseUdpHeader m (ip_payload ip) (ip_payload_len ip);
    match udp with
    | None => Ret (None, [log_warn "dissector_stage: UDP parse failed — dropped"])
    | Some udp => Ret (Some (DUdp (mkIpUdpFrame eth ip udp ts)), [])
    end
  else if ip_protocol ip =? 1 then
    icmp ← parseIcmpHeader m (ip_payload ip) (ip_payload_len ip) (ip_total_length ip);
    match icmp with
    | None => Ret (None, [log_warn "dissector_stage: ICMP parse failed — dropped"])
    | Some icmp => Ret (Some (DIcmp (mkIpIcmpFrame eth ip icmp ts)), [])
    end
  else Ret (Some (DOther (mkIpOtherFrame eth ip ts)), []).

Definition dissector_stage (m : list Z) (filtered : FilteredFrame) (local_ips : gset Z)
    : outcome (option DissectedFrame * list logcall) :=
  let eth := ff_eth filtered in
  let ts := ff_capture_ts_ms filtered in
  if eth_ethertype eth =? ETHERTYPE_ARP then
    arp ← parseArpPacket m (eth_payload eth) (eth_payload_size eth);
    match arp with
    | None => Ret (None, [log_warn "dissector_stage: ARP parse failed — dropped"])
    | Some arp => Ret (Some (DArp (mkArpFrame eth arp ts)), [])
    end
  else if eth_payload_size eth <? 20 then
    Ret (None, [log_warn "dissector_stage: IPv4 payload too short — dropped"])
  else
    peek_src ← peek_ip m (eth_payload eth) 12;
    peek_dst ← peek_ip m (eth_payload eth) 16;
    let dir := resolveDirection peek_src peek_dst local_ips in
    ip ← parseIpHeader m (eth_payload eth) (eth_payload_size eth) dir;
    match ip with
    | None => Ret (None, [log_warn "dissector_stage: IP parse failed — dropped"])
    | Some ip => dissect_transport m eth ip ts
    end.

(** ** Lemmas *)

Lemma peek_ip_extend m m' p i :
  m `prefix_of` m' → defined_as (peek_ip m p i) (peek_ip m' p i).
Proof. intros. unfold peek_ip. solve_defined. Qed.
#[export] Hint Resolve peek_ip_extend : extend.

(** The stage keeps its result when the bytes behind the frame change. *)
Lemma dissector_stage_extend m m' ff ips :
  m `prefix_of` m' → defined_as (dissector_stage m ff ips) (dissector_stage m' ff ips).
Proof. intros. unfold dissector_stage, dissect_transport. solve_defined. Qed.

Lemma peek_ip_in m o i :
  bytes m → 0 ≤ o + i → o + i + 4 ≤ Z.of_nat (length m) →
  peek_ip m (Ptr o) i = Ret (be32_at m o i).
Proof.
  intros. unfold peek_ip. rewrite !load_in, !bind_Ret, be32_lor by (auto with words lia). done.
Qed.

(** The direction of the packet at offset [o]. *)
Definition direction_at (m : list Z) (o : Z) (ips : gset Z) : Direction :=
  resolveDirection (be32_at m o 12) (be32_at m o 16) ips.

(** The IPv4 branch once its header is readable. *)
Lemma dissector_stage_ip m o n ty dm sm v ts ips :
  bytes m → 0 ≤ o → 20 ≤ n → o + Z.min n 60 ≤ Z.of_nat (length m) → ty ≠ 0x0806 →
  let eth := {| eth_dst_mac := dm; eth_src_mac := sm; eth_ethertype := ty;
                eth_payload := Ptr o; eth_payload_size := n; eth_valid := v |} in
  dissector_stage m (mkFilteredFrame eth ts) ips =
  if ip_accepts m o n then dissect_transport m eth (ip_header_at m o (direction_at m o ips)) ts
  else Ret (None, [log_warn "dissector_stage: IP parse failed — dropped"]).
Proof.
  intros Hm Ho Hn Hin Hty eth. unfold dissector_stage, eth. cbn [ff_eth ff_capture_ts_ms
    eth_ethertype eth_payload eth_payload_size]. unfold ETHERTYPE_ARP.
  rewrite (proj2 (Z.eqb_neq ty _)), (proj2 (Z.ltb_ge n 20)) by (done || lia).
  rewrite !peek_ip_in, !bind_Ret by (done || lia).
  rewrite parseIpHeader_in, bind_Ret by (done || lia). by destruct (ip_accepts m o n).
Qed.

(** The transport branch reads at most 60 bytes behind the IP header, whatever
    payload length the header announces. *)
Lemma dissect_transport_total m eth ip ts o :
  bytes m → ip_payload ip = Ptr o → 0 ≤ o → o + 60 ≤ Z.of_nat (length m) →
  0 ≤ ip_payload_len ip → ∃ r, dissect_transport m eth ip ts = Ret r.
Proof.
  intros Hm Hp Ho Hin Hlen. unfold dissect_transport. rewrite Hp.
  rewrite parseTcpHeader_in, parseUdpHeader_in, parseIcmpHeader_in by (done || lia).
  rewrite !bind_Ret. repeat case_match; eauto.
Qed.

(** The same when the whole announced payload is readable. *)
Lemma dissect_transport_region m eth ip ts o :
  bytes m → ip_payload ip = Ptr o → 0 ≤ o → 0 ≤ ip_payload_len ip →
  o + ip_payload_len ip ≤ Z.of_nat (length m) →
  ∃ r, dissect_transport m eth ip ts = Ret r.
Proof.
  intros Hm Hp Ho Hlen Hin. unfold dissect_transport. rewrite Hp.
  rewrite parseTcpHeader_in, parseUdpHeader_in, parseIcmpHeader_in by (done || lia).
  rewrite !bind_Ret. repeat case_match; eauto.
Qed.

Lemma filter_keeps_true f :
  filter_keeps f = true → 15 ≤ Z.of_nat (length f) ∧ (be16_at f 0 12 = 0x0800 ∨ be16_at f 0 12 = 0x0806).
Proof.
  unfold filter_keeps. intros [? [?|?]%orb_true_iff]%andb_true_iff; bool_hyps; auto.
Qed.

(** A kept frame whose IP length covers its header is dissected from its own
    bytes only. *)
Lemma dissector_stage_own_bytes f ts ips :
  bytes f → filter_keeps f = true →
  (be16_at f 0 12 = 0x0800 → ip_header_bytes f 14 ≤ be16_at f 14 2) →
  ∃ r, dissector_stage f (filtered_frame ts f) ips = Ret r.
Proof.
  intros Hf Hk Hcons. apply filter_keeps_true in Hk as [Hlen Hty].
  unfold filtered_frame, eth_frame_at. destruct (decide (be16_at f 0 12 = 0x0806)) as [E|E].
  { unfold dissector_stage. cbn [ff_eth ff_capture_ts_ms eth_ethertype eth_payload eth_payload_size].
    rewrite E. change (0x0806 =? ETHERTYPE_ARP) with true. cbv iota.
    rewrite parseArpPacket_in, bind_Ret by (done || lia). destruct (arp_accepts _ _ _); eauto. }
  destruct (Z.ltb_spec (Z.of_nat (length f) - 14) 20) as [Hs|Hs].
  { unfold dissector_stage. cbn [ff_eth ff_capture_ts_ms eth_ethertype eth_payload eth_payload_size].
    unfold ETHERTYPE_ARP. rewrite (proj2 (Z.eqb_neq _ _)), (proj2 (Z.ltb_lt _ _)) by done. eauto. }
  rewrite dissector_stage_ip by (done || lia).
  destruct (ip_accepts _ _ _) eqn:Ha; [|eauto]. apply ip_accepts_true in Ha as (? & ? & ?).
  assert (be16_at f 0 12 = 0x0800) as Hty' by tauto. specialize (Hcons Hty').
  pose proof (ip_header_bytes_range f 14). pose proof (be16_at_range f 14 2 Hf).
  change (0 + 14) with 14 in *.
  apply (dissect_transport_region _ _ _ _ (14 + ip_header_bytes f 14)); simpl;
    rewrite ?u64_small; done || lia.
Qed.

(** ** Encoded frames *)

Section Encoded.
Context (dst src : list Z) (tos id frag ttl proto csum sip dip : Z) (opts payload pad t : list Z).
Let head := dst ++ src ++ be16_bytes 0x0800.
Let total := 20 + Z.of_nat (length opts) + Z.of_nat (length payload).
Let packet := encode_ip tos id frag ttl proto csum sip dip opts payload.
Let frame := encode_ethernet dst src 0x0800 (packet ++ pad).
Let h1 := ip_head1 tos total id frag ttl proto opts.
Let h2 := ip_head2 sip dip opts.

Hypothesis Hdst : length dst = 6%nat ∧ bytes dst.
Hypothesis Hsrc : length src = 6%nat ∧ bytes src.
Hypothesis Hip : ip_fields_ok tos id frag ttl proto sip dip opts payload.
Hypothesis Hcsum : is_u16 csum.
Hypothesis Hpad : bytes pad.
Hypothesis Ht : bytes t.

Lemma frame_split : frame ++ t = head ++ packet ++ (pad ++ t).
Proof. unfold frame, head, encode_ethernet. by rewrite <- !app_assoc. Qed.

Lemma length_head : Z.of_nat (length head) = 14.
Proof. destruct Hdst, Hsrc. unfold head. rewrite !length_app. simpl. lia. Qed.

Lemma head_bytes : bytes head.
Proof.
  destruct Hdst, Hsrc. unfold head. repeat apply Forall_app_2; auto with words.
  by apply be16_bytes_bytes.
Qed.

(** The IPv4 header the dissector finds. *)
Definition encoded_ip (ips : gset Z) : IpHeader := {|
  ip_ihl := 5 + Z.of_nat (length opts) / 4; ip_ttl := ttl; ip_protocol := proto;
  ip_src_ip := sip; ip_dst_ip := dip; ip_total_length := total;
  ip_checksum_ok := rfc1071 (h1 ++ be16_bytes csum ++ h2) =? 0;
  ip_direction := resolveDirection sip dip ips;
  ip_payload := Ptr (14 + (20 + Z.of_nat (length opts)));
  ip_payload_len := Z.of_nat (length payload) |}.

Definition encoded_eth : EthernetFrame := {|
  eth_dst_mac := dst; eth_src_mac := src; eth_ethertype := 0x0800; eth_payload := Ptr 14;
  eth_payload_size := total + Z.of_nat (length pad); eth_valid := true |}.

Lemma length_packet_pad :
  Z.of_nat (length (packet ++ pad)) = total + Z.of_nat (length pad).
Proof. rewrite length_app, Nat2Z.inj_add. unfold packet. by rewrite length_encode_ip. Qed.

Lemma filtered_encoded ts : filtered_frame ts frame = mkFilteredFrame encoded_eth ts.
Proof.
  destruct Hdst as [Hd _], Hsrc as [Hs _].
  unfold filtered_frame. f_equal.
  assert (Z.of_nat (length frame) = 14 + Z.of_nat (length (packet ++ pad))) as ->.
  { unfold frame, encode_ethernet. rewrite !length_app. simpl. lia. }
  pose proof (ethernet_header_at [] dst src 0x0800 (packet ++ pad) [] Hd Hs ltac:(lia)) as E.
  rewrite app_nil_r in E. etransitivity; [exact E|]. unfold encoded_eth.
  by rewrite length_packet_pad.
Qed.

(** An encoded IPv4 frame reaches the transport parsers with its header. *)
Lemma dissector_stage_encoded ts ips :
  dissector_stage (frame ++ t) (filtered_frame ts frame) ips
  = dissect_transport (frame ++ t) encoded_eth (encoded_ip ips) ts.
Proof.
  rewrite filtered_encoded, frame_split.
  assert (bytes (head ++ packet ++ (pad ++ t))) as Hb.
  { apply bytes_mid; [apply head_bytes| |by apply Forall_app_2].
    by apply (encode_ip_bytes _ _ _ _ _ _ _ _ _ Hip). }
  assert (14 + total ≤ Z.of_nat (length (head ++ packet ++ (pad ++ t)))) as Hlen.
  { rewrite !length_app, !Nat2Z.inj_add, length_head. unfold packet. rewrite length_encode_ip.
    unfold total. lia. }
  pose proof (ip_header_at_encoded _ _ _ _ _ _ _ _ _ Hip head (pad ++ t) csum
    (resolveDirection sip dip ips)) as (_ & _ & _ & _ & Hh).
  assert (direction_at (head ++ packet ++ (pad ++ t)) 14 ips = resolveDirection sip dip ips) as Hdir.
  { unfold direction_at. rewrite length_head in Hh.
    pose proof (f_equal ip_src_ip Hh) as E1. pose proof (f_equal ip_dst_ip Hh) as E2.
    cbn [ip_header_at ip_src_ip ip_dst_ip] in E1, E2. unfold packet. by rewrite E1, E2. }
  pose proof (parseIpHeader_encoded head (pad ++ t) _ _ _ _ _ _ _ _ _ _
    (total + Z.of_nat (length pad)) (resolveDirection sip dip ips) Hip Hcsum head_bytes
    ltac:(by apply Forall_app_2) ltac:(unfold total; rewrite length_app; lia)) as Hp.
  fold packet in Hp. rewrite length_head in Hp.
  unfold dissector_stage, encoded_eth. cbn [ff_eth ff_capture_ts_ms eth_ethertype eth_payload eth_payload_size].
  change (0x0800 =? ETHERTYPE_ARP) with false. cbv iota.
  destruct Hip. rewrite (proj2 (Z.ltb_ge _ 20)) by (unfold total; lia).
  rewrite !peek_ip_in, !bind_Ret by (done || (unfold total in *; lia)).
  fold (direction_at (head ++ packet ++ (pad ++ t)) 14 ips).
  rewrite Hdir, Hp, bind_Ret. done.
Qed.

(** The memory around the transport payload. *)
Lemma frame_transport_split :
  ∃ pre, Z.of_nat (length pre) = 14 + (20 + Z.of_nat (length opts)) ∧ bytes pre ∧
    frame ++ t = pre ++ payload ++ (pad ++ t).
Proof.
  destruct (ip_heads_bytes _ _ _ _ _ _ _ _ _ Hip) as [Hb1 Hb2].
  exists (head ++ h1 ++ be16_bytes csum ++ h2). split_and!.
  - rewrite length_app, Nat2Z.inj_add, length_head, !length_app.
    unfold h1, h2, ip_head1, ip_head2. rewrite !length_app. simpl. lia.
  - apply bytes_mid; [apply head_bytes|done|].
    apply Forall_app_2; [by apply be16_bytes_bytes|done].
  - rewrite frame_split. unfold packet, encode_ip. fold total h1 h2. by rewrite <- !app_assoc.
Qed.
End Encoded.

(** On any frame the filter kept the dissector returns. *)
Lemma dissector_stage_total (f t : list Z) (ts : Z) (ips : gset Z) :
  bytes f → bytes t → filter_keeps f = true → 134 ≤ Z.of_nat (length (f ++ t)) →
  ∃ r, dissector_stage (f ++ t) (filtered_frame ts f) ips = Ret r.
Proof.
  intros Hf Ht Hk Hlen.
  destruct (decide (be16_at f 0 12 = 0x0800 ∧ ¬ ip_header_bytes f 14 ≤ be16_at f 14 2)) as [[E Hlt]|Hn].
  2: { destruct (dissector_stage_own_bytes f ts ips Hf Hk) as [r Hr].
       - intros E. destruct (decide (ip_header_bytes f 14 ≤ be16_at f 14 2)); tauto.
       - exists r. eapply defined_as_Ret; [|exact Hr].
         apply dissector_stage_extend. by apply prefix_app_r. }
  apply filter_keeps_true in Hk as [Hl _].
  assert (bytes (f ++ t)) as Hb by (by apply Forall_app_2).
  unfold filtered_frame, eth_frame_at. rewrite length_app in Hlen.
  destruct (Z.ltb_spec (Z.of_nat (length f) - 14) 20) as [Hs|Hs].
  { unfold dissector_stage. cbn [ff_eth ff_capture_ts_ms eth_ethertype eth_payload eth_payload_size].
    rewrite E. change (0x0800 =? ETHERTYPE_ARP) with false. cbv iota.
    rewrite (proj2 (Z.ltb_lt _ _)) by done. eauto. }
  rewrite dissector_stage_ip by (done || (rewrite ?length_app; lia)).
  destruct (ip_accepts _ _ _); [|eauto].
  pose proof (ip_header_bytes_range (f ++ t) 14). change (0 + 14) with 14.
  apply (dissect_transport_total _ _ _ _ (14 + ip_header_bytes (f ++ t) 14)); simpl;
    rewrite ?length_app; try done; try lia.
  apply u64_range.
Qed.

(** *** A total length below the header *)

(** A frame that ends with its IPv4 header reaches the TCP parser with a payload
    length that wrapped around. *)
Lemma short_total_dissected f t ts ips :
  bytes f → bytes t → be16_at f 0 12 = 0x0800 → ip_accepts f 14 (Z.of_nat (length f) - 14) = true →
  Z.of_nat (length f) = 14 + ip_header_bytes f 14 → be16_at f 14 2 < ip_header_bytes f 14 →
  byte_at f 14 9 = 6 →
  let len := 2 ^ 64 - (ip_header_bytes f 14 - be16_at f 14 2) in
  ∃ ip, ip_payload_len ip = len ∧ dissector_stage (f ++ t) (filtered_frame ts f) ips =
  (tcp ← parseTcpHeader (f ++ t) (Ptr (14 + ip_header_bytes f 14)) len;
   match tcp with
   | None => Ret (None, [log_warn "dissector_stage: TCP parse failed — dropped"])
   | Some tcp => Ret (Some (DTcp (mkIpTcpFrame (ff_eth (filtered_frame ts f)) ip tcp ts)), [])
   end).
Proof.
  intros Hf Ht Hty Ha Hlen Htot Hp len. set (ip := ip_header_at (f ++ t) 14 (direction_at (f ++ t) 14 ips)).
  pose proof (ip_accepts_true _ _ _ Ha) as (H20 & Hh & _). pose proof (ip_header_bytes_range f 14).
  assert (∀ i, 0 ≤ i < 20 → byte_at (f ++ t) 14 i = byte_at f 14 i) as Hb.
  { intros i Hi. apply byte_at_front; lia. }
  assert (ip_header_bytes (f ++ t) 14 = ip_header_bytes f 14) as Hhb
    by (unfold ip_header_bytes; by rewrite Hb by lia).
  assert (be16_at (f ++ t) 14 2 = be16_at f 14 2) as Htl by (unfold be16_at; by rewrite !Hb by lia).
  assert (bytes (f ++ t)) as Hft by (by apply Forall_app_2).
  unfold filtered_frame at 1, eth_frame_at. rewrite Hty, dissector_stage_ip
    by (done || rewrite ?length_app; lia).
  change (0 + 14) with 14. unfold ip_accepts in *. rewrite Hhb, Htl, (Hb 0), Ha by lia. fold ip.
  assert (ip_protocol ip = 6) as Ep by (cbn; rewrite Hb by lia; done).
  assert (ip_payload ip = Ptr (14 + ip_header_bytes f 14)) as Epl by (cbn; by rewrite Hhb).
  assert (ip_payload_len ip = 2 ^ 64 - (ip_header_bytes f 14 - be16_at f 14 2)) as El.
  { cbn [ip ip_header_at ip_payload_len]. rewrite Hhb, Htl. apply u64_negative.
    pose proof (be16_at_range f 14 2 Hf). lia. }
  exists ip. split; [done|]. unfold dissect_transport. rewrite Ep, Epl, El.
  unfold filtered_frame, eth_frame_at. by rewrite Hty.
Qed.

(** ** Properties *)

(** C22: memory safety of the stage in the pipeline: on any frame the filter
    kept, at the start of a frame buffer of at least 134 bytes (the pipeline's
    has 2040), the dissector returns; it never accesses memory outside the frame
    buffer, whatever the frame contains. *)
Theorem dissector_stage_safe (f t : list Z) (ts : Z) (ips : gset Z) :
  bytes f → bytes t → filter_keeps f = true → 134 ≤ Z.of_nat (length (f ++ t)) →
  ∃ r, dissector_stage (f ++ t) (filtered_frame ts f) ips = Ret r.
Proof. exact (dissector_stage_total f t ts ips). Qed.

Lemma dissector_stage_safe_witness :
  ∃ r, dissector_stage (([1; 2; 3; 4; 5; 6; 7; 8; 9; 10; 11; 12; 8; 0] ++ [0x45; 0; 0; 0])
         ++ replicate 120 255) (filtered_frame 3 ([1; 2; 3; 4; 5; 6; 7; 8; 9; 10; 11; 12; 8; 0] ++ [0x45; 0; 0; 0])) ∅
       = Ret r.
Proof.
  apply (dissector_stage_safe ([1; 2; 3; 4; 5; 6; 7; 8; 9; 10; 11; 12; 8; 0] ++ [0x45; 0; 0; 0])
    (replicate 120 255) 3 ∅).
  - repeat constructor; lia.
  - apply Forall_replicate. lia.
  - vm_compute. reflexivity.
  - simpl. lia.
Defined.

(** C24: locality: the result for a frame the filter kept, whose IPv4 total
    length (when it is IPv4) is not shorter than its header, is a function of
    the frame alone: it is the same whatever bytes of earlier frames lie behind
    it in the frame buffer. *)
Theorem dissector_stage_local (f : list Z) (ts : Z) (ips : gset Z) :
  bytes f → filter_keeps f = true →
  (be16_at f 0 12 = 0x0800 → ip_header_bytes f 14 ≤ be16_at f 14 2) →
  ∃ r, ∀ t, dissector_stage (f ++ t) (filtered_frame ts f) ips = Ret r.
Proof.
  intros Hf Hk Hc. destruct (dissector_stage_own_bytes f ts ips Hf Hk Hc) as [r Hr].
  exists r. intros t. eapply defined_as_Ret; [|exact Hr].
  apply dissector_stage_extend. by apply prefix_app_r.
Qed.

Lemma dissector_stage_local_witness :
  ∃ r, ∀ t, dissector_stage ([1; 2; 3; 4; 5; 6; 7; 8; 9; 10; 11; 12; 8; 6; 0] ++ t)
    (filtered_frame 3 [1; 2; 3; 4; 5; 6; 7; 8; 9; 10; 11; 12; 8; 6; 0]) ∅ = Ret r.
Proof.
  apply (dissector_stage_local [1; 2; 3; 4; 5; 6; 7; 8; 9; 10; 11; 12; 8; 6; 0] 3 ∅).
  - repeat constructor; lia.
  - vm_compute. reflexivity.
  - vm_compute. discriminate.
Defined.

(** C35: without that condition the stage reads beyond the frame.  Take any frame
    that ends with its IPv4 header, with or without options, says TCP and has a
    total length below that of its header.  It passes the filter and the IPv4
    parser, its payload length wraps around to nearly 2^64, and dissecting the
    frame alone is out of bounds.  In the frame buffer, with the bytes [t] of
    earlier frames behind it, the record has the TCP ports, sequence number and
    flags of these bytes, whenever they have the data offset of a TCP header. *)
Theorem dissector_stage_reads_stale_bytes (f t : list Z) (ts : Z) (ips : gset Z) :
  bytes f → bytes t → be16_at f 0 12 = 0x0800 → ip_accepts f 14 (Z.of_nat (length f) - 14) = true →
  Z.of_nat (length f) = 14 + ip_header_bytes f 14 → be16_at f 14 2 < ip_header_bytes f 14 →
  byte_at f 14 9 = 6 → 60 ≤ Z.of_nat (length t) →
  filter_keeps f = true ∧ dissector_stage f (filtered_frame ts f) ips = UB ∧
  (5 ≤ byte_at t 0 12 / 16 →
   ∃ fr, dissector_stage (f ++ t) (filtered_frame ts f) ips = Ret (Some (DTcp fr), []) ∧
     ip_payload_len (itf_ip fr) = 2 ^ 64 - (ip_header_bytes f 14 - be16_at f 14 2) ∧
     tcp_src_port (itf_tcp fr) = be16_at t 0 0 ∧ tcp_dst_port (itf_tcp fr) = be16_at t 0 2 ∧
     tcp_seq_num (itf_tcp fr) = be32_at t 0 4 ∧ tcp_flags (itf_tcp fr) = byte_at t 0 13 mod 64).
Proof.
  intros Hf Ht Hty Ha Hlen Htot Hp Hlt.
  pose proof (ip_accepts_true _ _ _ Ha) as (H20 & Hh & _).
  pose proof (ip_header_bytes_range f 14). pose proof (be16_at_range f 14 2 Hf). split_and!.
  - unfold filter_keeps. rewrite Hty, (proj2 (Z.leb_le 15 _)) by lia. done.
  - destruct (short_total_dissected f [] ts ips) as (ip & _ & Hd); [done..|]. rewrite app_nil_r in Hd. rewrite Hd.
    unfold parseTcpHeader. cbn [is_null orb]. rewrite (proj2 (Z.ltb_ge _ 20)) by lia.
    rewrite (ptr_add_in f _ 0), bind_Ret by lia. unfold readU16Be. rewrite (load_out f _ 0) by lia. done.
  - intros Hoff. destruct (short_total_dissected f t ts ips) as (ip & Hip & ->); [done..|].
    assert (∀ i, 0 ≤ i → byte_at (f ++ t) (14 + ip_header_bytes f 14) i = byte_at t 0 i) as Hb.
    { intros i Hi. rewrite <- Hlen. by apply byte_at_behind. }
    assert (bytes (f ++ t)) as Hft by (by apply Forall_app_2).
    rewrite parseTcpHeader_in, bind_Ret by (done || rewrite ?length_app; lia).
    assert (tcp_header_bytes (f ++ t) (14 + ip_header_bytes f 14) = byte_at t 0 12 / 16 * 4) as Hhb
      by (unfold tcp_header_bytes; by rewrite Hb by lia).
    pose proof (byte_at_range t 0 12 Ht). unfold tcp_accepts. rewrite Hhb.
    rewrite !(proj2 (Z.leb_le _ _)) by (Z.to_euclidean_division_equations; lia). cbn [andb].
    eexists. split; [done|]. cbn [itf_ip itf_tcp tcp_header_at tcp_src_port tcp_dst_port tcp_seq_num tcp_flags].
    unfold be16_at, be32_at in *. by rewrite !Hb by lia.
Qed.

(** A TCP/IPv4 frame of 34 bytes whose total length field is zero, and bytes left
    over from an earlier frame. *)
Definition short_total_frame : list Z :=
  [1; 2; 3; 4; 5; 6; 7; 8; 9; 10; 11; 12; 0x08; 0x00]
  ++ [0x45; 0; 0; 0; 0; 0; 0; 0; 64; 6; 0; 0; 10; 0; 0; 1; 10; 0; 0; 2].
Definition stale_bytes (port : Z) : list Z :=
  [0; port; 0; 80; 0; 0; 0; 9; 0; 0; 0; 0; 0x50; 2; 1; 0; 0; 0; 0; 0] ++ replicate 40 0.

Lemma dissector_stage_reads_stale_bytes_witness :
  dissector_stage short_total_frame (filtered_frame 7 short_total_frame) ∅ = UB ∧
  ∃ fr, dissector_stage (short_total_frame ++ stale_bytes 22) (filtered_frame 7 short_total_frame) ∅
      = Ret (Some (DTcp fr), []) ∧ tcp_src_port (itf_tcp fr) = 22.
Proof.
  destruct (dissector_stage_reads_stale_bytes short_total_frame (stale_bytes 22) 7 ∅)
    as (_ & Hub & Hstale).
  - repeat constructor; lia.
  - apply Forall_app_2; [repeat constructor; lia|apply Forall_replicate; lia].
  - vm_compute. reflexivity.
  - vm_compute. reflexivity.
  - vm_compute. reflexivity.
  - vm_compute. reflexivity.
  - vm_compute. reflexivity.
  - vm_compute. discriminate.
  - split; [exact Hub|]. destruct Hstale as (fr & Hd & _ & Hport & _); [vm_compute; discriminate|].
    exists fr. split; [exact Hd|]. rewrite Hport. vm_compute. reflexivity.
Defined.

