(* ===== verification/StatsStage.v ===== *)
(** * Stats stage (include/pipeline/stats_stage.h, src/pipeline/stats_stage.cpp)

    Flattens a dissected frame into the record that is tracked and published,
    and gives it the key of its flow. *)

From S2P Require Import Prelude.
From S2P Require Import Bytes.
From S2P Require Import Format.
From S2P Require Import EthernetParser.
From S2P Require Import IpParser.
From S2P Require Import TcpParser.
From S2P Require Import UdpParser.
From S2P Require Import IcmpParser.
From S2P Require Import ArpParser.
From S2P Require Import DissectorStage.

Record EnrichedFrame : Type := mkEnrichedFrame {
  e_timestamp : Z;
  e_src_ip : Z;
  e_dst_ip : Z;
  e_protocol : Z;
  e_packet_size : Z;
  e_direction : Direction;
  e_src_port : Z;
  e_dst_port : Z;
  e_flags : Z;
  e_seq_num : Z;
  e_arp_sender_ip : Z;
  e_arp_sender_mac : list Z;
  e_arp_target_ip : Z;
  e_arp_opcode : Z;
  e_icmp_type : Z;
  e_icmp_code : Z;
  e_ttl : Z;
  e_src_mac : list Z;
  e_dst_mac : list Z;
  e_checksum_valid : bool;
  e_is_retransmit : bool;
  e_flow_key : string;
}.

Section Stats.
Context `{NativeEndian}.

Definition makeFlowKey (src_ip src_port dst_ip dst_port : Z) : string :=
  ipToString src_ip +:+ ":" +:+ to_string src_port
  +:+ "->"
  +:+ ipToString dst_ip +:+ ":" +:+ to_string dst_port.

Definition makeArpFlowKey (sender_ip : Z) : string :=
  "ARP:" +:+ ipToString sender_ip.

(** [EnrichedFrame e;]: the default member initializers. *)
Definition default_enriched : EnrichedFrame := {|
  e_timestamp := 0; e_src_ip := 0; e_dst_ip := 0; e_protocol := 0; e_packet_size := 0;
  e_direction := Unknown; e_src_port := 0; e_dst_port := 0; e_flags := 0; e_seq_num := 0;
  e_arp_sender_ip := 0; e_arp_sender_mac := replicate 6 0; e_arp_target_ip := 0;
  e_arp_opcode := 0; e_icmp_type := 0; e_icmp_code := 0; e_ttl := 0;
  e_src_mac := replicate 6 0; e_dst_mac := replicate 6 0; e_checksum_valid := true;
  e_is_retransmit := false; e_flow_key := "" |}.

(** The assignments the IPv4 branches share, [size], the ports and the other
    fields of the branch being given. *)
Definition enrich_ip (eth : EthernetFrame) (ip : IpHeader) (ts size sport dport flags seq
    itype icode : Z) : EnrichedFrame :=
  let d := default_enriched in {|
  e_timestamp := ts; e_src_ip := ip_src_ip ip; e_dst_ip := ip_dst_ip ip;
  e_protocol := ip_protocol ip; e_packet_size := size; e_direction := ip_direction ip;
  e_src_port := sport; e_dst_port := dport; e_flags := flags; e_seq_num := seq;
  e_arp_sender_ip := e_arp_sender_ip d; e_arp_sender_mac := e_arp_sender_mac d;
  e_arp_target_ip := e_arp_target_ip d; e_arp_opcode := e_arp_opcode d;
  e_icmp_type := itype; e_icmp_code := icode; e_ttl := ip_ttl ip;
  e_src_mac := eth_src_mac eth; e_dst_mac := eth_dst_mac eth;
  e_checksum_valid := ip_checksum_ok ip; e_is_retransmit := e_is_retransmit d;
  e_flow_key := makeFlowKey (ip_src_ip ip) sport (ip_dst_ip ip) dport |}.

Definition stats_stage (dissected : DissectedFrame) : option EnrichedFrame :=
  let d := default_enriched in
  match dissected with
  | DTcp f =>
      Some (enrich_ip (itf_eth f) (itf_ip f) (itf_capture_ts_ms f)
        (ip_total_length (itf_ip f))
        (tcp_src_port (itf_tcp f)) (tcp_dst_port (itf_tcp f))
        (tcp_flags (itf_tcp f)) (tcp_seq_num (itf_tcp f))
        (e_icmp_type d) (e_icmp_code d))
  | DUdp f =>
      Some (enrich_ip (iuf_eth f) (iuf_ip f) (iuf_capture_ts_ms f)
        (ip_total_length (iuf_ip f))
        (udp_src_port (iuf_udp f)) (udp_dst_port (iuf_udp f))
        (e_flags d) (e_seq_num d) (e_icmp_type d) (e_icmp_code d))
  | DIcmp f =>
      Some (enrich_ip (iif_eth f) (iif_ip f) (iif_capture_ts_ms f)
        (icmp_packet_size (iif_icmp f)) 0 0
        (e_flags d) (e_seq_num d) (icmp_type (iif_icmp f)) (icmp_code (iif_icmp f)))
  | DArp f =>
      let arp := af_arp f in
      Some {|
        e_timestamp := af_capture_ts_ms f;
        e_src_ip := arp_pkt_sender_ip arp; e_dst_ip := arp_pkt_target_ip arp;
        e_protocol := e_protocol d; e_packet_size := e_packet_size d;
        e_direction := e_direction d; e_src_port := e_src_port d; e_dst_port := e_dst_port d;
        e_flags := e_flags d; e_seq_num := e_seq_num d;
        e_arp_sender_ip := arp_pkt_sender_ip arp; e_arp_sender_mac := arp_pkt_sender_mac arp;
        e_arp_target_ip := arp_pkt_target_ip arp; e_arp_opcode := arp_oper arp;
        e_icmp_type := e_icmp_type d; e_icmp_code := e_icmp_code d; e_ttl := e_ttl d;
        e_src_mac := eth_src_mac (af_eth f); e_dst_mac := eth_dst_mac (af_eth f);
        e_checksum_valid := e_checksum_valid d; e_is_retransmit := e_is_retransmit d;
        e_flow_key := makeArpFlowKey (arp_pkt_sender_ip arp) |}
  | DOther f =>
      Some (enrich_ip (iof_eth f) (iof_ip f) (iof_capture_ts_ms f)
        (ip_total_length (iof_ip f)) 0 0
        (e_flags d) (e_seq_num d) (e_icmp_type d) (e_icmp_code d))
  end.

(** ** Lemmas *)

Lemma makeFlowKey_dotted src sport dst dport :
  makeFlowKey src sport dst dport
  = dotted src +:+ (":" +:+ (to_string sport +:+ ("->" +:+ (dotted dst +:+ (":" +:+ to_string dport))))).
Proof. unfold makeFlowKey. by rewrite !ipToString_is_dotted. Qed.

Lemma makeFlowKey_injective src sport dst dport src' sport' dst' dport' :
  is_u32 src → is_u32 dst → is_u16 sport → is_u16 dport →
  is_u32 src' → is_u32 dst' → is_u16 sport' → is_u16 dport' →
  makeFlowKey src sport dst dport = makeFlowKey src' sport' dst' dport' →
  src = src' ∧ sport = sport' ∧ dst = dst' ∧ dport = dport'.
Proof.
  intros ? ? ? ? ? ? ? ? E. rewrite !makeFlowKey_dotted in E.
  apply dotted_app_inj in E as [-> E]; [|done..]. apply (inj (String.app _)) in E.
  apply to_string_app_inj in E as [-> E]; [|lia..|done|done]. apply (inj (String.app _)) in E.
  apply dotted_app_inj in E as [-> E]; [|done..]. apply (inj (String.app _)) in E.
  apply to_string_inj in E as ->; [|lia..]. done.
Qed.

(** A dotted address starts with a digit. *)
Lemma dotted_head ip rest : no_digit 10 (dotted ip +:+ rest) = false.
Proof.
  unfold dotted, to_string. rewrite digits_go_app. rewrite digits_go_app.
  apply digits_go_head. lia.
Qed.

Lemma flow_keys_disjoint src sport dst dport sender :
  makeFlowKey src sport dst dport ≠ makeArpFlowKey sender.
Proof.
  rewrite makeFlowKey_dotted. intros E. apply (f_equal (no_digit 10)) in E.
  by rewrite dotted_head in E.
Qed.
End Stats.

(** ** Properties *)

(** C29: flows are told apart: the key of an IP flow determines both addresses
    and both ports, the key of an ARP flow determines the sender, and no IP flow
    has the key of an ARP flow. *)
Theorem flow_key_injective `{NativeEndian} :
  (∀ src sport dst dport src' sport' dst' dport',
    is_u32 src → is_u32 dst → is_u16 sport → is_u16 dport →
    is_u32 src' → is_u32 dst' → is_u16 sport' → is_u16 dport' →
    makeFlowKey src sport dst dport = makeFlowKey src' sport' dst' dport' →
    src = src' ∧ sport = sport' ∧ dst = dst' ∧ dport = dport') ∧
  (∀ ip ip', is_u32 ip → is_u32 ip' → makeArpFlowKey ip = makeArpFlowKey ip' → ip = ip') ∧
  (∀ src sport dst dport sender, makeFlowKey src sport dst dport ≠ makeArpFlowKey sender).
Proof.
  split_and!.
  - apply makeFlowKey_injective.
  - intros ip ip' ? ? E. unfold makeArpFlowKey in E. apply (inj (String.app _)) in E.
    rewrite !ipToString_is_dotted in E.
    apply (dotted_app_inj ip ip' "" ""); [done..|]. by rewrite E.
  - apply flow_keys_disjoint.
Qed.
