(* ===== verification/FlowTracker.v ===== *)
(** * Flow tracker (include/pipeline/flow_tracker.h, src/pipeline/flow_tracker.cpp)

    The table of flow records.  [FlowTable::update] is one mutation of the record
    of the frame's key; the file proves that after any history of frames each
    record is the summary of the frames with its key. *)

From S2P Require Import Prelude.
From S2P Require Import Bytes.
From S2P Require Import Format.
From S2P Require Import EthernetParser.
From S2P Require Import IpParser.
From S2P Require Import TcpParser.
From S2P Require Import DissectorStage.
From S2P Require Import StatsStage.

Record FlowRecord : Type := mkFlowRecord {
  fl_flow_key : string;
  first_seen_ms : Z;
  last_seen_ms : Z;
  total_bytes : Z;
  inbound_bytes : Z;
  outbound_bytes : Z;
  syn_count : Z;
  syn_ack_count : Z;
  rst_count : Z;
  retransmit_count : Z;
  retransmit_set : gset Z;
}.

(** [FlowRecord{}] *)
Definition empty_record : FlowRecord := {|
  fl_flow_key := ""; first_seen_ms := 0; last_seen_ms := 0; total_bytes := 0;
  inbound_bytes := 0; outbound_bytes := 0; syn_count := 0; syn_ack_count := 0;
  rst_count := 0; retransmit_count := 0; retransmit_set := ∅ |}.

Record FlowTable : Type := mkFlowTable { table_ : gmap string FlowRecord }.

Definition empty_table : FlowTable := mkFlowTable ∅.

(** [frame.flags & mask] as a condition. *)
Definition has_flag (e : EnrichedFrame) (mask : Z) : bool := negb (Z.land (e_flags e) mask =? 0).

(** The body of [update] on the record of the frame's key: the retransmit flag
    and the record it leaves. *)
Definition update_record (rec : FlowRecord) (frame : EnrichedFrame) : bool * FlowRecord :=
  let fresh := String.eqb (fl_flow_key rec) "" in
  let key := if fresh then e_flow_key frame else fl_flow_key rec in
  let first := if fresh then e_timestamp frame else first_seen_ms rec in
  let total := u64 (total_bytes rec + e_packet_size frame) in
  let inbound := if decide (e_direction frame = Inbound)
                 then u64 (inbound_bytes rec + e_packet_size frame) else inbound_bytes rec in
  let outbound := if decide (e_direction frame = Inbound) then outbound_bytes rec
                  else if decide (e_direction frame = Outbound)
                  then u64 (outbound_bytes rec + e_packet_size frame) else outbound_bytes rec in
  if e_protocol frame =? 6 then
    let '(syn, syn_ack) :=
      if has_flag frame SYN then
        if has_flag frame ACK then (syn_count rec, u32 (syn_ack_count rec + 1))
        else (u32 (syn_count rec + 1), syn_ack_count rec)
      else (syn_count rec, syn_ack_count rec) in
    let rst := if has_flag frame RST then u32 (rst_count rec + 1) else rst_count rec in
    let '(set, retrans, flag) :=
      if negb (e_seq_num frame =? 0) then
        if decide (e_seq_num frame ∈ retransmit_set rec)
        then (retransmit_set rec, u32 (retransmit_count rec + 1), true)
        else ({[ e_seq_num frame ]} ∪ retransmit_set rec, retransmit_count rec, false)
      else (retransmit_set rec, retransmit_count rec, false) in
    (flag, mkFlowRecord key first (e_timestamp frame) total inbound outbound syn syn_ack rst retrans set)
  else
    (false, mkFlowRecord key first (e_timestamp frame) total inbound outbound
       (syn_count rec) (syn_ack_count rec) (rst_count rec) (retransmit_count rec) (retransmit_set rec)).

(** [table_[key]] inserts a default record when the key is absent. *)
Definition FlowTable_update (table : FlowTable) (frame : EnrichedFrame) : bool * FlowTable :=
  let rec := default empty_record (table_ table !! e_flow_key frame) in
  let '(flag, rec') := update_record rec frame in
  (flag, mkFlowTable (<[e_flow_key frame := rec']> (table_ table))).

Definition FlowTable_get (table : FlowTable) (flow_key : string) : FlowRecord :=
  match table_ table !! flow_key with
  | None => empty_record
  | Some rec => rec
  end.

Definition flow_tracker (frame : EnrichedFrame) (table : FlowTable) : FlowRecord * bool * FlowTable :=
  let '(flag, table') := FlowTable_update table frame in
  (FlowTable_get table' (e_flow_key frame), flag, table').

(** ** Specification: summaries of the history of a flow *)

(** The table after a history of frames. *)
Definition track (h : list EnrichedFrame) : FlowTable :=
  foldl (λ t e, (FlowTable_update t e).2) empty_table h.

Definition flow_frames (k : string) (h : list EnrichedFrame) : list EnrichedFrame :=
  filter (λ e, e_flow_key e = k) h.

Definition sum_sizes (l : list EnrichedFrame) : Z := foldr (λ e n, e_packet_size e + n) 0 l.
Definition count_frames (P : EnrichedFrame → bool) (l : list EnrichedFrame) : Z :=
  Z.of_nat (length (filter (λ e, P e = true) l)).

Definition is_tcp (e : EnrichedFrame) : bool := e_protocol e =? 6.

(** The sequence number that takes part in retransmission detection. *)
Definition tracked_seq (e : EnrichedFrame) : option Z :=
  if is_tcp e && negb (e_seq_num e =? 0) then Some (e_seq_num e) else None.

(** What the record of a flow should say of the frames seen, oldest first. *)
Definition summary (k : string) (l : list EnrichedFrame) : FlowRecord :=
  let seqs := omap tracked_seq l in {|
  fl_flow_key := k;
  first_seen_ms := default 0 (e_timestamp <$> head l);
  last_seen_ms := default 0 (e_timestamp <$> last l);
  total_bytes := u64 (sum_sizes l);
  inbound_bytes := u64 (sum_sizes (filter (λ e, e_direction e = Inbound) l));
  outbound_bytes := u64 (sum_sizes (filter (λ e, e_direction e = Outbound) l));
  syn_count := u32 (count_frames (λ e, is_tcp e && has_flag e SYN && negb (has_flag e ACK)) l);
  syn_ack_count := u32 (count_frames (λ e, is_tcp e && has_flag e SYN && has_flag e ACK) l);
  rst_count := u32 (count_frames (λ e, is_tcp e && has_flag e RST) l);
  retransmit_count := u32 (Z.of_nat (length seqs) - Z.of_nat (size (list_to_set seqs : gset Z)));
  retransmit_set := list_to_set seqs |}.

(** ** Lemmas *)

Lemma u32_add_idemp a b : u32 (u32 a + b) = u32 (a + b).
Proof. apply Zplus_mod_idemp_l. Qed.
Lemma u64_add_idemp a b : u64 (u64 a + b) = u64 (a + b).
Proof. apply Zplus_mod_idemp_l. Qed.

Lemma sum_sizes_app l1 l2 : sum_sizes (l1 ++ l2) = sum_sizes l1 + sum_sizes l2.
Proof. induction l1; simpl; lia. Qed.

Lemma count_frames_snoc P l e :
  count_frames P (l ++ [e]) = count_frames P l + (if P e then 1 else 0).
Proof.
  unfold count_frames. rewrite filter_app, length_app. rewrite filter_cons, filter_nil.
  destruct (P e); [rewrite decide_True by done|rewrite decide_False by done]; simpl; lia.
Qed.

Lemma sum_sizes_filter_snoc d l e :
  sum_sizes (filter (λ e, e_direction e = d) (l ++ [e]))
  = sum_sizes (filter (λ e, e_direction e = d) l)
    + (if decide (e_direction e = d) then e_packet_size e else 0).
Proof.
  rewrite filter_app, sum_sizes_app, filter_cons, filter_nil. case_decide; simpl; lia.
Qed.

(** Adding a sequence number to the history of a flow. *)
Lemma seqs_snoc l e :
  omap tracked_seq (l ++ [e])
  = omap tracked_seq l ++ match tracked_seq e with Some s => [s] | None => [] end.
Proof. rewrite omap_app. simpl. by destruct (tracked_seq e). Qed.

Lemma list_to_set_snoc (l : list Z) s :
  (list_to_set (l ++ [s]) : gset Z) = {[ s ]} ∪ list_to_set l.
Proof. rewrite list_to_set_app_L. simpl. set_solver. Qed.

Lemma size_snoc (l : list Z) s :
  size (list_to_set (l ++ [s]) : gset Z)
  = if decide (s ∈ l) then size (list_to_set l : gset Z) else S (size (list_to_set l : gset Z)).
Proof.
  rewrite list_to_set_snoc. case_decide as Hin.
  - f_equal. apply (elem_of_list_to_set (C := gset Z)) in Hin. set_solver.
  - rewrite size_union, size_singleton by set_solver. done.
Qed.

(** The record of a flow with history [l]: the default one before any frame. *)
Definition record_of (k : string) (l : list EnrichedFrame) : FlowRecord :=
  match l with [] => empty_record | _ => summary k l end.

(** The flag of the next frame: its sequence number is already in the flow. *)
Definition seen_before (l : list EnrichedFrame) (e : EnrichedFrame) : bool :=
  match tracked_seq e with
  | Some s => bool_decide (s ∈ omap tracked_seq l)
  | None => false
  end.

Lemma record_of_fields k l :
  total_bytes (record_of k l) = total_bytes (summary k l) ∧
  inbound_bytes (record_of k l) = inbound_bytes (summary k l) ∧
  outbound_bytes (record_of k l) = outbound_bytes (summary k l) ∧
  syn_count (record_of k l) = syn_count (summary k l) ∧
  syn_ack_count (record_of k l) = syn_ack_count (summary k l) ∧
  rst_count (record_of k l) = rst_count (summary k l) ∧
  retransmit_count (record_of k l) = retransmit_count (summary k l) ∧
  retransmit_set (record_of k l) = retransmit_set (summary k l).
Proof. destruct l; by split_and!. Qed.

Lemma record_of_key k l e :
  e_flow_key e = k → k ≠ "" →
  (if String.eqb (fl_flow_key (record_of k l)) "" then e_flow_key e else fl_flow_key (record_of k l)) = k ∧
  (if String.eqb (fl_flow_key (record_of k l)) "" then e_timestamp e else first_seen_ms (record_of k l))
  = default 0 (e_timestamp <$> head (l ++ [e])).
Proof.
  intros He Hk. destruct l as [|e0 l]; [done|]. simpl.
  apply String.eqb_neq in Hk. by rewrite Hk.
Qed.

(** The retransmission fields, one frame on. *)
Lemma retransmit_step l e :
  (if is_tcp e then
     if negb (e_seq_num e =? 0) then
       if decide (e_seq_num e ∈ (list_to_set (omap tracked_seq l) : gset Z))
       then (list_to_set (omap tracked_seq l) : gset Z,
             u32 (u32 (Z.of_nat (length (omap tracked_seq l))
                   - Z.of_nat (size (list_to_set (omap tracked_seq l) : gset Z))) + 1), true)
       else ({[ e_seq_num e ]} ∪ list_to_set (omap tracked_seq l),
             u32 (Z.of_nat (length (omap tracked_seq l))
               - Z.of_nat (size (list_to_set (omap tracked_seq l) : gset Z))), false)
     else (list_to_set (omap tracked_seq l),
           u32 (Z.of_nat (length (omap tracked_seq l))
             - Z.of_nat (size (list_to_set (omap tracked_seq l) : gset Z))), false)
   else (list_to_set (omap tracked_seq l),
         u32 (Z.of_nat (length (omap tracked_seq l))
           - Z.of_nat (size (list_to_set (omap tracked_seq l) : gset Z))), false))
  = (list_to_set (omap tracked_seq (l ++ [e])),
     u32 (Z.of_nat (length (omap tracked_seq (l ++ [e])))
       - Z.of_nat (size (list_to_set (omap tracked_seq (l ++ [e])) : gset Z))),
     seen_before l e).
Proof.
  rewrite seqs_snoc. unfold seen_before.
  assert (tracked_seq e = if is_tcp e && negb (e_seq_num e =? 0) then Some (e_seq_num e) else None)
    as -> by done.
  destruct (is_tcp e); cbn [andb]; [|by rewrite app_nil_r].
  destruct (e_seq_num e =? 0); cbn [negb]; [by rewrite app_nil_r|].
  rewrite size_snoc, list_to_set_snoc, length_app. simpl length.
  destruct (decide (e_seq_num e ∈ omap tracked_seq l)) as [Hin|Hin].
  - rewrite decide_True by (by apply elem_of_list_to_set).
    rewrite bool_decide_true, u32_add_idemp by done. f_equal. f_equal; [|f_equal; lia].
    apply (elem_of_list_to_set (C := gset Z)) in Hin. set_solver.
  - rewrite decide_False by (by rewrite elem_of_list_to_set).
    rewrite bool_decide_false by done. f_equal. f_equal. f_equal. lia.
Qed.

(** One update moves the record from the summary of the history to the summary
    of the longer history. *)
Lemma update_record_summary k l e :
  e_flow_key e = k → k ≠ "" →
  update_record (record_of k l) e = (seen_before l e, summary k (l ++ [e])).
Proof.
  intros He Hk. pose proof (record_of_key k l e He Hk) as [Hkey Hfirst].
  pose proof (record_of_fields k l) as (Et & Ei & Eo & Es & Ea & Er & Ec & Eset).
  pose proof (retransmit_step l e) as Hrt.
  unfold update_record. cbv zeta. rewrite Hkey, Hfirst, Et, Ei, Eo, Es, Ea, Er, Ec, Eset.
  unfold summary. cbn [total_bytes inbound_bytes outbound_bytes syn_count syn_ack_count
    rst_count retransmit_count retransmit_set].
  rewrite sum_sizes_app, !sum_sizes_filter_snoc, !count_frames_snoc, last_snoc, !u64_add_idemp.
  cbn [sum_sizes foldr]. rewrite Z.add_0_r.
  fold (is_tcp e). destruct (is_tcp e) eqn:Htcp; cbn [andb].
  - rewrite Hrt. clear Hrt.
    destruct (has_flag e SYN), (has_flag e ACK), (has_flag e RST); cbn [andb negb];
      rewrite ?u32_add_idemp, ?Z.add_0_r;
      destruct (e_direction e); cbn -[u64 u32 summary sum_sizes count_frames]; rewrite ?Z.add_0_r; done.
  - injection Hrt as Hset Hcnt Hflag. rewrite <- Hcnt, <- Hset, <- Hflag, !Z.add_0_r.
    destruct (e_direction e); cbn -[u64 u32 sum_sizes count_frames]; rewrite ?Z.add_0_r; done.
Qed.

(** The table after a history holds, for each key, the record of its frames. *)
Lemma track_snoc h e : track (h ++ [e]) = (FlowTable_update (track h) e).2.
Proof. unfold track. by rewrite foldl_snoc. Qed.

Lemma flow_frames_snoc k h e :
  flow_frames k (h ++ [e]) = flow_frames k h ++ if decide (e_flow_key e = k) then [e] else [].
Proof. unfold flow_frames. rewrite filter_app, filter_cons, filter_nil. done. Qed.

Definition keyed (h : list EnrichedFrame) : Prop := Forall (λ e, e_flow_key e ≠ "") h.

Lemma track_lookup h k :
  keyed h →
  table_ (track h) !! k
  = match flow_frames k h with [] => None | l => Some (summary k l) end.
Proof.
  intros Hh. induction h as [|e h IH] using rev_ind; [exact (lookup_empty k)|].
  apply Forall_app in Hh as [Hh He]. apply Forall_cons_1 in He as [He _].
  specialize (IH Hh). rewrite track_snoc, flow_frames_snoc.
  unfold FlowTable_update. case_decide as Hk.
  - subst k. assert (default empty_record (table_ (track h) !! e_flow_key e)
      = record_of (e_flow_key e) (flow_frames (e_flow_key e) h)) as ->.
    { rewrite IH. by destruct (flow_frames _ _). }
    rewrite update_record_summary by done. cbn [snd table_]. rewrite lookup_insert_eq.
    by destruct (flow_frames (e_flow_key e) h).
  - destruct (update_record _ _) as [flag rec]. cbn [snd table_].
    rewrite lookup_insert_ne, app_nil_r by done. done.
Qed.

Lemma track_record h k :
  keyed h → default empty_record (table_ (track h) !! k) = record_of k (flow_frames k h).
Proof. intros. rewrite track_lookup by done. by destruct (flow_frames k h). Qed.

(** The flag of the next frame, in terms of the earlier frames of the history. *)
Lemma update_flag h e :
  keyed h → e_flow_key e ≠ "" →
  (FlowTable_update (track h) e).1 = seen_before (flow_frames (e_flow_key e) h) e.
Proof.
  intros. unfold FlowTable_update. rewrite track_record, update_record_summary by done. done.
Qed.

Lemma seen_before_true l e :
  seen_before l e = true ↔
  e_protocol e = 6 ∧ e_seq_num e ≠ 0 ∧
  ∃ e', e' ∈ l ∧ e_protocol e' = 6 ∧ e_seq_num e' = e_seq_num e.
Proof.
  unfold seen_before, tracked_seq at 1, is_tcp.
  destruct (Z.eqb_spec (e_protocol e) 6), (Z.eqb_spec (e_seq_num e) 0); cbn [andb negb];
    try naive_solver.
  rewrite bool_decide_eq_true, list_elem_of_omap. split.
  - intros (e' & Hin & Hs). unfold tracked_seq, is_tcp in Hs. split; [done|]. split; [done|].
    exists e'. destruct (Z.eqb_spec (e_protocol e') 6), (Z.eqb_spec (e_seq_num e') 0); naive_solver.
  - intros (_ & _ & e' & Hin & Hp & Hs). exists e'. split; [done|].
    unfold tracked_seq, is_tcp. rewrite Hp, Hs. simpl.
    by rewrite (proj2 (Z.eqb_neq _ _)) by done.
Qed.

(** Every frame the stats stage produces has a key. *)
Lemma stats_stage_keyed `{NativeEndian} d e : stats_stage d = Some e → e_flow_key e ≠ "".
Proof.
  assert (∀ a b c d, makeFlowKey a b c d ≠ "") as Hk.
  { intros a b c d' E. rewrite makeFlowKey_dotted in E.
    pose proof (dotted_head a (":" +:+ (to_string b +:+ ("->" +:+ (dotted c +:+ (":" +:+ to_string d')))))) as Hh.
    rewrite E in Hh. done. }
  destruct d; simpl; intros [= <-]; simpl; try apply Hk. done.
Qed.

Lemma flow_tracker_track h e :
  keyed h → e_flow_key e ≠ "" →
  flow_tracker e (track h)
  = (summary (e_flow_key e) (flow_frames (e_flow_key e) (h ++ [e])),
     seen_before (flow_frames (e_flow_key e) h) e, track (h ++ [e])).
Proof.
  intros Hh He. unfold flow_tracker. rewrite <- update_flag by done. rewrite track_snoc.
  destruct (FlowTable_update (track h) e) as [flag t] eqn:Hu. cbn [fst snd].
  assert (t = track (h ++ [e])) as -> by (by rewrite track_snoc, Hu).
  unfold FlowTable_get. rewrite track_lookup by (apply Forall_app; by repeat constructor).
  rewrite flow_frames_snoc, decide_True by done.
  by destruct (flow_frames (e_flow_key e) h).
Qed.

(** A small history: a handshake and its first data segment, between two other
    frames of another flow. *)
Definition demo_frame (key : string) (ts proto flags seq size : Z) (d : Direction) : EnrichedFrame := {|
  e_timestamp := ts; e_src_ip := 0; e_dst_ip := 0; e_protocol := proto; e_packet_size := size;
  e_direction := d; e_src_port := 0; e_dst_port := 0; e_flags := flags; e_seq_num := seq;
  e_arp_sender_ip := 0; e_arp_sender_mac := replicate 6 0; e_arp_target_ip := 0;
  e_arp_opcode := 0; e_icmp_type := 0; e_icmp_code := 0; e_ttl := 64;
  e_src_mac := replicate 6 0; e_dst_mac := replicate 6 0; e_checksum_valid := true;
  e_is_retransmit := false; e_flow_key := key |}.
Definition demo_history : list EnrichedFrame :=
  [demo_frame "a" 1 6 2 100 40 Outbound; demo_frame "b" 2 17 0 0 80 Inbound;
   demo_frame "a" 3 6 16 101 40 Outbound].

(** The segments one side sends to open a connection: its SYN, the bare ACK that
    ends the handshake, and the first segment with data.  A SYN takes one
    sequence number and a bare ACK none. *)
Record opening (syn ack data : IpTcpFrame) : Prop := {
  op_tcp : ip_protocol (itf_ip data) = 6;
  op_ack_tcp : ip_protocol (itf_ip ack) = 6;
  op_src : ip_src_ip (itf_ip ack) = ip_src_ip (itf_ip data);
  op_dst : ip_dst_ip (itf_ip ack) = ip_dst_ip (itf_ip data);
  op_sport : tcp_src_port (itf_tcp ack) = tcp_src_port (itf_tcp data);
  op_dport : tcp_dst_port (itf_tcp ack) = tcp_dst_port (itf_tcp data);
  op_syn : tcp_flags (itf_tcp syn) = SYN;
  op_ack_seq : tcp_seq_num (itf_tcp ack) = u32 (tcp_seq_num (itf_tcp syn) + 1);
  op_ack_empty : tcp_payload_len (itf_tcp ack) = 0;
  op_data_seq : tcp_seq_num (itf_tcp data) = u32 (tcp_seq_num (itf_tcp syn) + 1);
  op_data_len : 0 < tcp_payload_len (itf_tcp data);
  op_nonzero : u32 (tcp_seq_num (itf_tcp syn) + 1) ≠ 0;
}.

(** ** Properties *)

(** C23: after any history of frames that carry a key, what [get] returns for a key is the
    summary of that flow's frames alone: byte totals per direction modulo 2^64,
    SYN, SYN-ACK, RST and retransmission counts modulo 2^32, first and last
    timestamps; a key that was never seen gives the default record.  Frames of
    other flows leave no trace in it. *)
Theorem flow_table_summarises h k :
  keyed h →
  FlowTable_get (track h) k
  = match flow_frames k h with [] => empty_record | l => summary k l end.
Proof.
  intros Hh. unfold FlowTable_get. rewrite track_lookup by done. by destruct (flow_frames k h).
Qed.

Lemma flow_table_summarises_witness :
  keyed demo_history ∧ retransmit_count (FlowTable_get (track demo_history) "a") = 0
  ∧ total_bytes (FlowTable_get (track demo_history) "a") = 80.
Proof.
  assert (keyed demo_history) as Hk by (repeat constructor; discriminate).
  split; [exact Hk|]. rewrite (flow_table_summarises demo_history "a" Hk). by vm_compute.
Defined.

(** C20: [flow_tracker] returns the summary of the frame's flow with the frame
    itself included, leaves the table of the longer history, and raises the
    retransmit flag exactly when the frame is TCP, has a nonzero sequence
    number, and an earlier TCP frame of the same flow had that number. *)
Theorem flow_tracker_correct h e rec flag table :
  keyed h → e_flow_key e ≠ "" →
  flow_tracker e (track h) = (rec, flag, table) →
  rec = summary (e_flow_key e) (flow_frames (e_flow_key e) (h ++ [e])) ∧
  table = track (h ++ [e]) ∧
  (flag = true ↔ e_protocol e = 6 ∧ e_seq_num e ≠ 0 ∧
    ∃ e', e' ∈ h ∧ e_flow_key e' = e_flow_key e ∧ e_protocol e' = 6 ∧ e_seq_num e' = e_seq_num e).
Proof.
  intros Hh He E. rewrite flow_tracker_track in E by done. injection E as <- <- <-.
  split_and!; [done..|]. rewrite seen_before_true. unfold flow_frames.
  setoid_rewrite list_elem_of_filter. naive_solver.
Qed.

Lemma flow_tracker_correct_witness :
  keyed demo_history ∧ (flow_tracker (demo_frame "a" 4 6 24 101 540 Outbound) (track demo_history)).1.2 = true.
Proof.
  assert (keyed demo_history) as Hk by (repeat constructor; discriminate).
  split; [exact Hk|].
  destruct (flow_tracker (demo_frame "a" 4 6 24 101 540 Outbound) (track demo_history))
    as [[rec flag] table] eqn:E.
  cbn [fst snd]. assert (e_flow_key (demo_frame "a" 4 6 24 101 540 Outbound) ≠ "") as He by done.
  apply (flow_tracker_correct _ _ _ _ _ Hk He E).
  split; [reflexivity|]. split; [done|].
  exists (demo_frame "a" 3 6 16 101 40 Outbound). split_and!; [|reflexivity..].
  unfold demo_history. right. right. left.
Defined.


Definition demo_segment (flags seq payload_len : Z) : IpTcpFrame := {|
  itf_eth := {| eth_dst_mac := replicate 6 0; eth_src_mac := replicate 6 0;
    eth_ethertype := 0x0800; eth_payload := Ptr 14; eth_payload_size := 40 + payload_len;
    eth_valid := true |};
  itf_ip := {| ip_src_ip := 0x0A000001; ip_dst_ip := 0x0A000002; ip_protocol := 6;
    ip_ihl := 5; ip_total_length := 40 + payload_len; ip_ttl := 64; ip_checksum_ok := true;
    ip_payload := Ptr 34; ip_payload_len := 20 + payload_len; ip_direction := Unknown |};
  itf_tcp := {| tcp_src_port := 4000; tcp_dst_port := 80; tcp_seq_num := seq;
    tcp_data_offset := 5; tcp_flags := flags; tcp_window_size := 512;
    tcp_payload := Ptr 54; tcp_payload_len := payload_len |};
  itf_capture_ts_ms := 1 |}.

