(* ===== verification/PublisherJson.v ===== *)
(** * The published message (src/publishers/rabbitmq_publisher.cpp, [buildJson])

    The JSON object sent for each frame, and a strict reader for such objects
    that serves as the specification of the text: the message parses, and the
    members it holds are those of the frame and of its flow record. *)

From Stdlib Require Import Ascii.
From S2P Require Import Prelude.
From S2P Require Import Bytes.
From S2P Require Import Format.
From S2P Require Import EthernetParser.
From S2P Require Import IpParser.
From S2P Require Import TcpParser.
From S2P Require Import UdpParser.
From S2P Require Import IcmpParser.
From S2P Require Import ArpParser.
From S2P Require Import DissectorStage.
From S2P Require Import StatsStage.
From S2P Require Import FlowTracker.

(** ** The code *)

(** The double quote. *)
Definition dquote : ascii := ascii_of_nat 34.
Definition dq : string := String dquote "".

Definition directionStr (d : Direction) : string :=
  match d with
  | Inbound => dq +:+ "inbound" +:+ dq
  | Outbound => dq +:+ "outbound" +:+ dq
  | Unknown => "null"
  end.

Definition protocolToStr (proto : Z) : string :=
  if proto =? 6 then "TCP"
  else if proto =? 17 then "UDP"
  else if proto =? 1 then "ICMP"
  else if proto =? 0 then "ARP"
  else "OTHER".

(** [b ? "true" : "false"] *)
Definition bool_str (b : bool) : string := if b then "true" else "false".

(** The literal that opens a member: the quoted name and the colon. *)
Definition name (k : string) : string := dq +:+ k +:+ dq +:+ ":".

Section Build.
Context `{NativeEndian}.

Definition ipToStr (ip_host : Z) : string :=
  let ip_net := htonl ip_host in
  inet_ntop4 (native_bytes 4 ip_net).

Definition macToStr (mac : list Z) : string := mac_loop true (take 6 mac).

Definition buildJson (f : EnrichedFrame) (flow : FlowRecord) (is_retransmit : bool) : string :=
  "{"
  +:+ name "flow_key" +:+ dq +:+ e_flow_key f +:+ dq +:+ ","
  +:+ name "timestamp" +:+ to_string (e_timestamp f) +:+ ","
  +:+ name "src_ip" +:+ dq +:+ ipToStr (e_src_ip f) +:+ dq +:+ ","
  +:+ name "dst_ip" +:+ dq +:+ ipToStr (e_dst_ip f) +:+ dq +:+ ","
  +:+ name "protocol" +:+ dq +:+ protocolToStr (e_protocol f) +:+ dq +:+ ","
  +:+ name "packet_size" +:+ to_string (e_packet_size f) +:+ ","
  +:+ name "direction" +:+ directionStr (e_direction f) +:+ ","
  +:+ name "ttl" +:+ to_string (e_ttl f) +:+ ","
  +:+ name "src_mac" +:+ dq +:+ macToStr (e_src_mac f) +:+ dq +:+ ","
  +:+ name "dst_mac" +:+ dq +:+ macToStr (e_dst_mac f) +:+ dq +:+ ","
  +:+ name "checksum_valid" +:+ bool_str (e_checksum_valid f) +:+ ","
  +:+ name "src_port" +:+ to_string (e_src_port f) +:+ ","
  +:+ name "dst_port" +:+ to_string (e_dst_port f) +:+ ","
  +:+ name "flags" +:+ to_string (e_flags f) +:+ ","
  +:+ name "seq_num" +:+ to_string (e_seq_num f) +:+ ","
  +:+ name "is_retransmit" +:+ bool_str is_retransmit +:+ ","
  +:+ name "icmp_type" +:+ to_string (e_icmp_type f) +:+ ","
  +:+ name "icmp_code" +:+ to_string (e_icmp_code f) +:+ ","
  +:+ name "arp_opcode" +:+ to_string (e_arp_opcode f) +:+ ","
  +:+ name "arp_sender_ip" +:+ dq +:+ ipToStr (e_arp_sender_ip f) +:+ dq +:+ ","
  +:+ name "arp_sender_mac" +:+ dq +:+ macToStr (e_arp_sender_mac f) +:+ dq +:+ ","
  +:+ name "arp_target_ip" +:+ dq +:+ ipToStr (e_arp_target_ip f) +:+ dq +:+ ","
  +:+ name "first_seen" +:+ to_string (first_seen_ms flow) +:+ ","
  +:+ name "last_seen" +:+ to_string (last_seen_ms flow) +:+ ","
  +:+ name "total_bytes" +:+ to_string (total_bytes flow) +:+ ","
  +:+ name "inbound_bytes" +:+ to_string (inbound_bytes flow) +:+ ","
  +:+ name "outbound_bytes" +:+ to_string (outbound_bytes flow) +:+ ","
  +:+ name "syn_count" +:+ to_string (syn_count flow) +:+ ","
  +:+ name "syn_ack_count" +:+ to_string (syn_ack_count flow) +:+ ","
  +:+ name "rst_count" +:+ to_string (rst_count flow)
  +:+ "}".
End Build.

(** ** Specification: a strict reader of flat JSON objects *)

Inductive json_value : Type :=
  | JNull
  | JBool (b : bool)
  | JNum (n : Z)
  | JStr (s : string).

(** A character that may stand for itself in a JSON string. *)
Definition plain_char (c : ascii) : bool :=
  let n := Z.of_nat (nat_of_ascii c) in
  (32 <=? n) && negb (n =? 34) && negb (n =? 92).

Fixpoint plain (s : string) : bool :=
  match s with String c s' => plain_char c && plain s' | EmptyString => true end.

(** Remove the prefix [p]. *)
Fixpoint strip (p s : string) : option string :=
  match p, s with
  | EmptyString, _ => Some s
  | String c p', String d s' => if decide (c = d) then strip p' s' else None
  | String _ _, EmptyString => None
  end.

(** The characters up to the closing quote; escapes are not accepted. *)
Fixpoint read_str (s : string) : option (string * string) :=
  match s with
  | String c s' =>
      if decide (c = dquote) then Some ("", s')
      else if plain_char c then '(a, r) ← read_str s'; Some (String c a, r)
      else None
  | EmptyString => None
  end.

(** A number without sign, fraction or exponent, and without leading zeros. *)
Definition read_number (s : string) : option (Z * string) :=
  let '(n, r) := read_num 10 0 s in
  if String.eqb s (to_string n +:+ r) then Some (n, r) else None.

Definition read_value (s : string) : option (json_value * string) :=
  match strip dq s, strip "null" s, strip "true" s, strip "false" s with
  | Some s', _, _, _ => '(a, r) ← read_str s'; Some (JStr a, r)
  | _, Some r, _, _ => Some (JNull, r)
  | _, _, Some r, _ => Some (JBool true, r)
  | _, _, _, Some r => Some (JBool false, r)
  | _, _, _, _ => '(n, r) ← read_number s; Some (JNum n, r)
  end.

Fixpoint read_members (fuel : nat) (s : string) : option (list (string * json_value)) :=
  match fuel with
  | O => None
  | S fuel' =>
      s1 ← strip dq s;
      '(k, s2) ← read_str s1;
      s3 ← strip ":" s2;
      '(v, s4) ← read_value s3;
      match strip "," s4 with
      | Some s5 => rest ← read_members fuel' s5; Some ((k, v) :: rest)
      | None => if String.eqb s4 "}" then Some [(k, v)] else None
      end
  end.

(** A non-empty object: the members in order. *)
Definition parse_json (s : string) : option (list (string * json_value)) :=
  s' ← strip "{" s;
  read_members (String.length s) s'.

(** The members a message should have. *)
Definition direction_json (d : Direction) : json_value :=
  match d with Inbound => JStr "inbound" | Outbound => JStr "outbound" | Unknown => JNull end.

Definition message_members (f : EnrichedFrame) (flow : FlowRecord) (is_retransmit : bool)
    : list (string * json_value) := [
  ("flow_key", JStr (e_flow_key f));
  ("timestamp", JNum (e_timestamp f));
  ("src_ip", JStr (dotted (e_src_ip f)));
  ("dst_ip", JStr (dotted (e_dst_ip f)));
  ("protocol", JStr (protocolToStr (e_protocol f)));
  ("packet_size", JNum (e_packet_size f));
  ("direction", direction_json (e_direction f));
  ("ttl", JNum (e_ttl f));
  ("src_mac", JStr (macToString (e_src_mac f)));
  ("dst_mac", JStr (macToString (e_dst_mac f)));
  ("checksum_valid", JBool (e_checksum_valid f));
  ("src_port", JNum (e_src_port f));
  ("dst_port", JNum (e_dst_port f));
  ("flags", JNum (e_flags f));
  ("seq_num", JNum (e_seq_num f));
  ("is_retransmit", JBool is_retransmit);
  ("icmp_type", JNum (e_icmp_type f));
  ("icmp_code", JNum (e_icmp_code f));
  ("arp_opcode", JNum (e_arp_opcode f));
  ("arp_sender_ip", JStr (dotted (e_arp_sender_ip f)));
  ("arp_sender_mac", JStr (macToString (e_arp_sender_mac f)));
  ("arp_target_ip", JStr (dotted (e_arp_target_ip f)));
  ("first_seen", JNum (first_seen_ms flow));
  ("last_seen", JNum (last_seen_ms flow));
  ("total_bytes", JNum (total_bytes flow));
  ("inbound_bytes", JNum (inbound_bytes flow));
  ("outbound_bytes", JNum (outbound_bytes flow));
  ("syn_count", JNum (syn_count flow));
  ("syn_ack_count", JNum (syn_ack_count flow));
  ("rst_count", JNum (rst_count flow))].

(** ** Lemmas: printing members and reading them back *)

Definition render_value (v : json_value) (rest : string) : string :=
  match v with
  | JNull => "null" +:+ rest
  | JBool b => bool_str b +:+ rest
  | JNum n => to_string n +:+ rest
  | JStr s => dq +:+ (s +:+ (dq +:+ rest))
  end.

Definition render_member (kv : string * json_value) (rest : string) : string :=
  dq +:+ (kv.1 +:+ (dq +:+ (":" +:+ render_value kv.2 rest))).

Fixpoint render_members (ms : list (string * json_value)) : string :=
  match ms with
  | [] => "}"
  | [kv] => render_member kv "}"
  | kv :: ms' => render_member kv ("," +:+ render_members ms')
  end.

Definition value_ok (v : json_value) : Prop :=
  match v with JNum n => is_u64 n | JStr s => plain s = true | _ => True end.
Definition member_ok (kv : string * json_value) : Prop := plain kv.1 = true ∧ value_ok kv.2.

Lemma strip_app p s : strip p (p +:+ s) = Some s.
Proof. induction p as [|c p IH]; [done|]. simpl. by rewrite decide_True. Qed.

Lemma plain_char_not_dquote c : plain_char c = true → c ≠ dquote.
Proof. by intros Hc ->. Qed.

Lemma read_str_plain s rest : plain s = true → read_str (s +:+ (dq +:+ rest)) = Some (s, rest).
Proof.
  induction s as [|c s IH]; intros Hs; [done|].
  simpl in Hs. apply andb_true_iff in Hs as [Hc Hs]. simpl.
  rewrite decide_False by (by apply plain_char_not_dquote). rewrite Hc.
  change (read_str (String.app s (dq +:+ rest))) with (read_str (s +:+ (dq +:+ rest))).
  by rewrite IH.
Qed.

Lemma read_number_to_string n rest :
  is_u64 n → no_digit 10 rest = true → read_number (to_string n +:+ rest) = Some (n, rest).
Proof. intros. unfold read_number. rewrite read_to_string by done. by rewrite String.eqb_refl. Qed.

(** The first character of a number is a digit. *)
Lemma to_string_head n rest : ∃ c s, to_string n +:+ rest = String c s ∧ is_digit 10 c = true.
Proof.
  unfold to_string. rewrite digits_go_app.
  pose proof (digits_go_head 10 19 n ("" +:+ rest) ltac:(lia)) as Hh.
  destruct (digits_go 10 20 n ("" +:+ rest)) as [|c s]; [done|].
  exists c, s. split; [done|]. simpl in Hh. by apply negb_false_iff in Hh.
Qed.

(** No literal starts with a digit. *)
Lemma strip_digit p d s c : is_digit 10 c = true → is_digit 10 d = false → strip (String d p) (String c s) = None.
Proof. intros Hc Hd. simpl. rewrite decide_False; [done|]. intros ->. congruence. Qed.

Lemma read_value_render v rest :
  value_ok v → no_digit 10 rest = true → read_value (render_value v rest) = Some (v, rest).
Proof.
  intros Hv Hrest. destruct v as [|b|n|s]; simpl in Hv.
  - done.
  - by destruct b.
  - unfold render_value, read_value. pose proof (read_number_to_string n rest Hv Hrest) as Hn.
    destruct (to_string_head n rest) as (c & s & E & Hc). rewrite E in Hn |- *.
    unfold dq. rewrite !strip_digit by done. by rewrite Hn.
  - unfold render_value, read_value. rewrite strip_app. by rewrite read_str_plain.
Qed.

(** A member is read back in front of any text that does not start with a digit. *)
Lemma read_member kv rest :
  member_ok kv → no_digit 10 rest = true →
  (s1 ← strip dq (render_member kv rest);
   '(k, s2) ← read_str s1; s3 ← strip ":" s2; read_value s3 ≫= λ '(v, s4), Some (k, v, s4))
  = Some (kv.1, kv.2, rest).
Proof.
  intros [Hk Hv] Hrest. unfold render_member. rewrite strip_app. cbn [mbind option_bind].
  rewrite read_str_plain by done. cbn [mbind option_bind]. rewrite strip_app. cbn [mbind option_bind].
  by rewrite read_value_render.
Qed.

Lemma read_members_step fuel kv rest :
  member_ok kv → no_digit 10 rest = true →
  read_members (S fuel) (render_member kv rest)
  = match strip "," rest with
    | Some s5 => r ← read_members fuel s5; Some (kv :: r)
    | None => if String.eqb rest "}" then Some [kv] else None
    end.
Proof.
  intros Hkv Hrest. pose proof (read_member kv rest Hkv Hrest) as E. destruct kv as [k v].
  cbn [read_members].
  destruct (strip dq _) as [s1|]; [|done]. cbn [mbind option_bind] in E |- *.
  destruct (read_str s1) as [[k' s2]|]; [|done]. cbn [mbind option_bind] in E |- *.
  destruct (strip ":" s2) as [s3|]; [|done]. cbn [mbind option_bind] in E |- *.
  destruct (read_value s3) as [[v' s4]|]; [|done]. cbn [mbind option_bind] in E |- *.
  injection E as -> -> ->. done.
Qed.

Lemma read_members_render ms fuel :
  ms ≠ [] → Forall member_ok ms → (length ms ≤ fuel)%nat →
  read_members fuel (render_members ms) = Some ms.
Proof.
  revert fuel. induction ms as [|kv ms IH]; [done|]. intros fuel _ Hok Hf.
  apply Forall_cons_1 in Hok as [Hkv Hok]. destruct fuel as [|fuel]; [simpl in Hf; lia|].
  destruct ms as [|kv' ms].
  - cbn [render_members]. by rewrite read_members_step.
  - change (render_members (kv :: kv' :: ms))
      with (render_member kv ("," +:+ render_members (kv' :: ms))).
    rewrite read_members_step by done. rewrite strip_app.
    rewrite IH; [done|done|done|]. simpl in Hf |- *. lia.
Qed.

(** The text is long enough for the reader's fuel. *)
Lemma length_render_members ms : (length ms ≤ String.length (render_members ms))%nat.
Proof.
  induction ms as [|kv ms IH]; [simpl; lia|]. destruct ms as [|kv' ms].
  - simpl. unfold render_member. rewrite length_app_s. simpl. lia.
  - change (render_members (kv :: kv' :: ms))
      with (render_member kv ("," +:+ render_members (kv' :: ms))).
    unfold render_member. rewrite !length_app_s.
    assert (∀ v rest, String.length rest ≤ String.length (render_value v rest))%nat as Hv.
    { intros [] rest; unfold render_value; rewrite !length_app_s; lia. }
    specialize (Hv kv.2 ("," +:+ render_members (kv' :: ms))).
    rewrite length_app_s in Hv. simpl length in *. simpl String.length at 1. lia.
Qed.

Lemma parse_json_render ms :
  ms ≠ [] → Forall member_ok ms → parse_json ("{" +:+ render_members ms) = Some ms.
Proof.
  intros Hne Hok. unfold parse_json. rewrite strip_app. cbn [mbind option_bind].
  apply read_members_render; [done..|]. rewrite length_app_s.
  pose proof (length_render_members ms). lia.
Qed.

(** *** Plain strings *)

Lemma plain_app a b : plain (a +:+ b) = plain a && plain b.
Proof.
  induction a as [|c a IH]; [done|]. simpl.
  change (String.app a b) with (a +:+ b). by rewrite IH, andb_assoc.
Qed.

Lemma plain_digit d : 0 ≤ d < 16 → plain_char (digit_char d) = true.
Proof.
  intros Hd. pose proof (byte_brute (λ d, negb (d <? 16) || plain_char (digit_char d))
    eq_refl d ltac:(lia)) as Hb.
  simpl in Hb. by rewrite (proj2 (Z.ltb_lt d 16)) in Hb by lia.
Qed.

Lemma plain_digits_go base fuel n acc :
  2 ≤ base ≤ 16 → plain (digits_go base fuel n acc) = plain acc.
Proof.
  intros Hb. revert n acc. induction fuel as [|f IH]; intros n acc; [done|]. simpl.
  assert (0 ≤ n mod base < base) by (apply Z.mod_pos_bound; lia).
  assert (plain (String (digit_char (n mod base)) acc) = plain acc) as E
    by (simpl; by rewrite plain_digit by lia).
  destruct (n / base =? 0); [done|]. by rewrite IH.
Qed.

Lemma plain_to_string n : plain (to_string n) = true.
Proof. unfold to_string. by rewrite plain_digits_go. Qed.

Lemma plain_dotted ip : plain (dotted ip) = true.
Proof. unfold dotted. by rewrite !plain_app, !plain_to_string. Qed.

Lemma plain_hex2 b : is_u8 b → plain (hex2 b) = true.
Proof.
  intros. unfold hex2. simpl. by rewrite !plain_digit by (Z.to_euclidean_division_equations; lia).
Qed.

Lemma plain_mac_loop first l : bytes l → plain (mac_loop first l) = true.
Proof.
  intros Hl. revert first. induction Hl as [|b l Hb Hl IH]; intros first; [done|].
  simpl. rewrite !plain_app, to_hex_byte, plain_hex2, IH by done. by destruct first.
Qed.

Lemma plain_macToString mac : bytes mac → plain (macToString mac) = true.
Proof. intros. unfold macToString. by apply plain_mac_loop, Forall_take. Qed.

Lemma plain_protocol p : plain (protocolToStr p) = true.
Proof. unfold protocolToStr. by bool_cases. Qed.

(** *** The message is the rendering of its members *)

Lemma ipToStr_dotted `{NativeEndian} ip : ipToStr ip = dotted ip.
Proof. apply ipToString_is_dotted. Qed.

Lemma buildJson_render `{NativeEndian} f flow r :
  buildJson f flow r = "{" +:+ render_members (message_members f flow r).
Proof.
  unfold buildJson, message_members. rewrite !ipToStr_dotted. unfold macToStr, macToString.
  cbv [render_members render_member render_value name fst snd].
  generalize to_string dotted protocolToStr mac_loop bool_str. intros.
  destruct (e_direction f); vm_compute; reflexivity.
Qed.

(** *** Frames and flow records whose fields fit their C++ types *)

Record frame_ok (f : EnrichedFrame) : Prop := {
  fo_timestamp : is_u64 (e_timestamp f);
  fo_ips : is_u32 (e_src_ip f) ∧ is_u32 (e_dst_ip f) ∧ is_u32 (e_arp_sender_ip f)
    ∧ is_u32 (e_arp_target_ip f);
  fo_protocol : is_u8 (e_protocol f);
  fo_packet_size : is_u16 (e_packet_size f);
  fo_ports : is_u16 (e_src_port f) ∧ is_u16 (e_dst_port f);
  fo_tcp : is_u8 (e_flags f) ∧ is_u32 (e_seq_num f);
  fo_arp : is_u16 (e_arp_opcode f);
  fo_icmp : is_u8 (e_icmp_type f) ∧ is_u8 (e_icmp_code f);
  fo_ttl : is_u8 (e_ttl f);
  fo_macs : bytes (e_src_mac f) ∧ bytes (e_dst_mac f) ∧ bytes (e_arp_sender_mac f);
  fo_key : plain (e_flow_key f) = true;
}.

Record flow_ok (r : FlowRecord) : Prop := {
  ro_first : is_u64 (first_seen_ms r);
  ro_last : is_u64 (last_seen_ms r);
  ro_bytes : is_u64 (total_bytes r) ∧ is_u64 (inbound_bytes r) ∧ is_u64 (outbound_bytes r);
  ro_counts : is_u32 (syn_count r) ∧ is_u32 (syn_ack_count r) ∧ is_u32 (rst_count r);
}.

Lemma message_members_ok f flow r :
  frame_ok f → flow_ok flow → Forall member_ok (message_members f flow r).
Proof.
  intros [] []. destruct_and?. unfold message_members.
  repeat (apply Forall_cons_2; [split; [done|]; unfold value_ok; cbn [snd]|]); try apply Forall_nil_2;
    try (lia || assumption || apply plain_dotted || apply plain_protocol || by apply plain_macToString).
  by destruct (e_direction f).
Qed.

Lemma parse_buildJson `{NativeEndian} f flow r :
  frame_ok f → flow_ok flow → parse_json (buildJson f flow r) = Some (message_members f flow r).
Proof. intros. rewrite buildJson_render. by apply parse_json_render, message_members_ok. Qed.

(** The message has no zero byte, so that it is sent as a whole. *)
Lemma c_str_plain s : plain s = true → c_str s = s.
Proof.
  induction s as [|c s IH]; [done|]. cbn [plain c_str]. intros [Hc Hs]%andb_true_iff.
  rewrite decide_False by (by intros ->). by rewrite IH.
Qed.

Lemma c_str_render_member kv rest :
  member_ok kv → c_str rest = rest → c_str (render_member kv rest) = render_member kv rest.
Proof.
  intros [Hk Hv] Hrest. unfold render_member. repeat apply c_str_concat; try done; [by apply c_str_plain|].
  destruct kv as [k v]. cbn [snd] in *. destruct v as [|b|n|s]; cbn [render_value]; repeat apply c_str_concat; try done.
  - by destruct b.
  - apply c_str_plain, plain_to_string.
  - by apply c_str_plain.
Qed.

Lemma c_str_render ms : Forall member_ok ms → c_str (render_members ms) = render_members ms.
Proof.
  induction 1 as [|kv ms Hkv Hms IH]; [done|]. destruct ms as [|kv' ms]; [by apply c_str_render_member|].
  apply c_str_render_member; [done|]. by apply c_str_concat.
Qed.

Lemma c_str_buildJson `{NativeEndian} f flow r :
  frame_ok f → flow_ok flow → c_str (buildJson f flow r) = buildJson f flow r.
Proof. intros. rewrite buildJson_render. apply c_str_concat; [done|]. by apply c_str_render, message_members_ok. Qed.

(** The record of a flow of well-formed frames is well-formed. *)
Lemma summary_ok k l : Forall frame_ok l → l ≠ [] → flow_ok (summary k l).
Proof.
  intros Hl Hne. split; cbn [first_seen_ms last_seen_ms total_bytes inbound_bytes outbound_bytes
    syn_count syn_ack_count rst_count summary]; auto with words.
  - destruct l as [|e l]; [done|]. apply Forall_cons_1 in Hl as [Hl _]. apply fo_timestamp, Hl.
  - destruct (last l) as [e|] eqn:El; [|by apply last_None in El].
    apply last_Some_elem_of in El. rewrite Forall_forall in Hl. apply fo_timestamp, Hl, El.
Qed.

(** The keys of the stats stage are plain. *)
Lemma plain_flow_key `{NativeEndian} src sport dst dport :
  plain (makeFlowKey src sport dst dport) = true.
Proof. by rewrite makeFlowKey_dotted, !plain_app, !plain_dotted, !plain_to_string. Qed.

Lemma plain_arp_key `{NativeEndian} sender : plain (makeArpFlowKey sender) = true.
Proof. unfold makeArpFlowKey. by rewrite plain_app, ipToString_is_dotted, plain_dotted. Qed.

(** ** Properties *)

(** C21: every message is a well-formed JSON object: a strict reader accepts it and
    finds exactly thirty members, in the order of the code, whose values are the
    fields of the frame and the counters of its flow record; no value can break
    out of its quotes, and no zero byte cuts the message short where it is passed
    to the client library as a C string. *)
Theorem buildJson_parses `{NativeEndian} (f : EnrichedFrame) (flow : FlowRecord) (is_retransmit : bool) :
  frame_ok f → flow_ok flow →
  c_str (buildJson f flow is_retransmit) = buildJson f flow is_retransmit ∧
  parse_json (buildJson f flow is_retransmit) = Some (message_members f flow is_retransmit).
Proof. intros. split; [by apply c_str_buildJson|by apply parse_buildJson]. Qed.

Lemma demo_frame_ok key ts : plain key = true → is_u64 ts → frame_ok (demo_frame key ts 6 2 100 40 Inbound).
Proof. intros. split; simpl; repeat constructor; done || lia. Qed.

Lemma buildJson_parses_witness :
  parse_json (@buildJson LittleEndian (demo_frame "a" 1 6 2 100 40 Inbound) empty_record true)
  = Some (message_members (demo_frame "a" 1 6 2 100 40 Inbound) empty_record true).
Proof.
  apply buildJson_parses.
  - apply demo_frame_ok; [reflexivity|lia].
  - split; simpl; lia.
Defined.

(** C39: the publisher takes protocol number 0 for ARP, but 0 is also an IPv4
    protocol number (hop-by-hop options): such a packet, which the dissector
    passes on as an IP frame of another protocol under an IP flow key, is
    published as ARP. *)
Theorem ipv4_protocol_0_published_as_arp `{NativeEndian} (f : IpOtherFrame) e flow r ms :
  ip_protocol (iof_ip f) = 0 →
  stats_stage (DOther f) = Some e → frame_ok e → flow_ok flow →
  parse_json (buildJson e flow r) = Some ms →
  ("protocol", JStr "ARP") ∈ ms ∧ ("arp_opcode", JNum 0) ∈ ms ∧
  ∀ sender, ("flow_key", JStr (makeArpFlowKey sender)) ∉ ms.
Proof.
  intros Hp E He Hf Hms. rewrite parse_buildJson in Hms by done. injection Hms as <-.
  injection E as <-. unfold message_members. cbn [e_protocol e_arp_opcode e_flow_key enrich_ip].
  rewrite Hp. split; [|split].
  - do 4 right. left.
  - do 18 right. left.
  - intros sender Hin. apply elem_of_cons in Hin as [Hin|Hin].
    + injection Hin as Hin. symmetry in Hin. by apply flow_keys_disjoint in Hin.
    + apply (list_elem_of_fmap_2 fst) in Hin. cbn [fmap list_fmap fst] in Hin.
      by apply (bool_decide_pack _) in Hin.
Qed.

Definition demo_hopopt : IpOtherFrame := {|
  iof_eth := itf_eth (demo_segment 0 0 0);
  iof_ip := {| ip_ihl := 5; ip_ttl := 64; ip_protocol := 0; ip_src_ip := 0x0A000001;
    ip_dst_ip := 0x0A000002; ip_total_length := 40; ip_checksum_ok := true;
    ip_direction := Unknown; ip_payload := Ptr 34; ip_payload_len := 20 |};
  iof_capture_ts_ms := 7 |}.

Lemma ipv4_protocol_0_published_as_arp_witness :
  match @stats_stage LittleEndian (DOther demo_hopopt) with
  | Some e => frame_ok e ∧
      match parse_json (@buildJson LittleEndian e empty_record false) with
      | Some ms => ("protocol", JStr "ARP") ∈ ms
      | None => False
      end
  | None => False
  end.
Proof.
  destruct (@stats_stage LittleEndian (DOther demo_hopopt)) as [e|] eqn:E; [|discriminate E].
  assert (frame_ok e) as He.
  { injection E as <-. split; simpl; repeat constructor; done || lia. }
  assert (flow_ok empty_record) as Hf by (split; simpl; lia).
  split; [exact He|]. destruct (parse_json _) as [ms|] eqn:Ems.
  - exact (proj1 (ipv4_protocol_0_published_as_arp demo_hopopt e empty_record false ms
      eq_refl E He Hf Ems)).
  - rewrite parse_buildJson in Ems by assumption. discriminate Ems.
Defined.
