(* ===== verification/Effects.v ===== *)
(** * Effects

    A small monad for the components that talk to the outside: the object they
    change, the history of the calls that left the program with their answers,
    and the log calls.  The outside is free: an answer is any function of the
    history so far.  [wp] is the weakest precondition of a run that returns. *)

From S2P Require Import Prelude.
From S2P Require Import Logger.

Record World (S E : Type) : Type := mkWorld {
  obj : S;
  history : list E;
  log : list logcall;
}.
Arguments mkWorld {S E}.
Arguments obj {S E}.
Arguments history {S E}.
Arguments log {S E}.

Definition M (S E A : Type) : Type := World S E → outcome (A * World S E).

Definition ret {S E A} (a : A) : M S E A := λ w, Ret (a, w).
Definition bindM {S E A B} (m : M S E A) (k : A → M S E B) : M S E B :=
  λ w, '(a, w') ← m w; k a w'.

Declare Scope effect_scope.
Delimit Scope effect_scope with effect.
Notation "'let!' x := m 'in' k" := (bindM m (λ x, k))
  (at level 200, x pattern, m at level 100, k at level 200, right associativity) : effect_scope.
Notation "m ;; k" := (bindM m (λ _, k))
  (at level 100, k at level 200, right associativity) : effect_scope.

Section Operations.
Context {S E : Type}.

Definition get : M S E S := λ w, Ret (obj w, w).
Definition put (o : S) : M S E unit := λ w, Ret (tt, mkWorld o (history w) (log w)).
Definition say (l : logcall) : M S E unit := λ w, Ret (tt, mkWorld (obj w) (history w) (log w ++ [l])).
(** A call whose answer is ignored. *)
Definition emit (c : E) : M S E unit := λ w, Ret (tt, mkWorld (obj w) (history w ++ [c]) (log w)).
(** A call with an answer. *)
Definition ask {R} (answer : list E → R) (c : R → E) : M S E R := λ w,
  let r := answer (history w) in Ret (r, mkWorld (obj w) (history w ++ [c r]) (log w)).
(** A computation that may throw, block or be undefined. *)
Definition lift {A} (o : outcome A) : M S E A := λ w, a ← o; Ret (a, w).
Definition out_of_fuel {A} : M S E A := λ _, OutOfFuel.

(** ** Weakest preconditions *)

Definition wp {A} (m : M S E A) (w : World S E) (Q : A → World S E → Prop) : Prop :=
  match m w with Ret (a, w') => Q a w' | _ => False end.

Lemma wp_elim {A} (m : M S E A) w Q :
  wp m w Q → ∃ a w', m w = Ret (a, w') ∧ Q a w'.
Proof. unfold wp. destruct (m w) as [[a w']| | | |]; naive_solver. Qed.

Lemma wp_elim_unit (m : M S E unit) w (Q : World S E → Prop) :
  wp m w (λ _, Q) → ∃ w', m w = Ret (tt, w') ∧ Q w'.
Proof. intros Hm. destruct (wp_elim _ _ _ Hm) as ([] & w' & ? & ?). eauto. Qed.

Lemma wp_mono {A} (m : M S E A) w (Q Q' : A → World S E → Prop) :
  wp m w Q → (∀ a w', Q a w' → Q' a w') → wp m w Q'.
Proof. unfold wp. destruct (m w) as [[a w']| | | |]; naive_solver. Qed.

Lemma wp_ret {A} (a : A) w (Q : A → World S E → Prop) : Q a w → wp (ret a) w Q.
Proof. done. Qed.
Lemma wp_get w Q : Q (obj w) w → wp get w Q.
Proof. done. Qed.
Lemma wp_put o w (Q : unit → World S E → Prop) :
  Q tt (mkWorld o (history w) (log w)) → wp (put o) w Q.
Proof. done. Qed.
Lemma wp_say l w (Q : unit → World S E → Prop) :
  Q tt (mkWorld (obj w) (history w) (log w ++ [l])) → wp (say l) w Q.
Proof. done. Qed.
Lemma wp_emit c w (Q : unit → World S E → Prop) :
  Q tt (mkWorld (obj w) (history w ++ [c]) (log w)) → wp (emit c) w Q.
Proof. done. Qed.
Lemma wp_ask {R} (f : list E → R) c w (Q : R → World S E → Prop) :
  (∀ r, r = f (history w) → Q r (mkWorld (obj w) (history w ++ [c r]) (log w))) → wp (ask f c) w Q.
Proof. intros HQ. by apply HQ. Qed.
Lemma wp_lift {A} (o : outcome A) a w (Q : A → World S E → Prop) : o = Ret a → Q a w → wp (lift o) w Q.
Proof. by intros ->. Qed.
End Operations.

Lemma wp_bind {S E A B} (m : M S E A) (k : A → M S E B) w Q :
  wp m w (λ a w', wp (k a) w' Q) → wp (bindM m k) w Q.
Proof. unfold wp, bindM. by destruct (m w) as [[a w']| | | |]. Qed.

(** A run that returned, taken apart. *)
Lemma bindM_Ret {S E A B} (m : M S E A) (k : A → M S E B) w b w' :
  bindM m k w = Ret (b, w') → ∃ a w1, m w = Ret (a, w1) ∧ k a w1 = Ret (b, w').
Proof. unfold bindM. intros ([a w1] & ? & ?)%bind_eq_Ret. eauto. Qed.

Lemma ask_Ret {S E R} (f : list E → R) c (w : World S E) r w' :
  ask f c w = Ret (r, w') → r = f (history w) ∧ w' = mkWorld (obj w) (history w ++ [c r]) (log w).
Proof. by intros [= <- <-]. Qed.

(** One symbolic step, splitting the conditionals of the code. *)
Ltac wp_base :=
  cbv zeta;
  lazymatch goal with
  | |- wp (bindM _ _) _ _ => apply wp_bind
  | |- wp (ret _) _ _ => apply wp_ret
  | |- wp get _ _ => apply wp_get
  | |- wp (put _) _ _ => apply wp_put
  | |- wp (say _) _ _ => apply wp_say
  | |- wp (emit _) _ _ => apply wp_emit
  | |- wp (ask _ _) _ _ => apply wp_ask; intros ? ?
  | |- wp (if ?b then _ else _) _ _ => destruct b eqn:?
  end; cbn [obj history log].

(** ** Costs

    [costs weight n m k]: a run of [m] that begins after [n] calls or more and
    returns makes calls of a total weight of at most [k]. *)
Section Costs.
Context {S E : Type} (weight : E → nat) (n : nat).

Definition total (l : list E) : nat := sum_list_with weight l.

Lemma total_app l1 l2 : total (l1 ++ l2) = (total l1 + total l2)%nat.
Proof. apply sum_list_with_app. Qed.

Definition costs {A} (m : M S E A) (k : nat) : Prop :=
  ∀ w a w', (n ≤ length (history w))%nat → m w = Ret (a, w') →
    ∃ l, history w' = history w ++ l ∧ (total l ≤ k)%nat.

Lemma costs_mono {A} (m : M S E A) k k' : costs m k → (k ≤ k')%nat → costs m k'.
Proof. intros Hm Hk w a w' Hn Hr. destruct (Hm w a w' Hn Hr) as (l & ? & ?). exists l. split; [done|lia]. Qed.

Lemma costs_bind {A B} (m : M S E A) (f : A → M S E B) k1 k2 :
  costs m k1 → (∀ a, costs (f a) k2) → costs (bindM m f) (k1 + k2).
Proof.
  intros Hm Hf w b w' Hn (a & w1 & Ha & Hb)%bindM_Ret.
  destruct (Hm _ _ _ Hn Ha) as (l1 & H1 & Hl1).
  assert (n ≤ length (history w1))%nat as Hn1 by (rewrite H1, length_app; lia).
  destruct (Hf _ _ _ _ Hn1 Hb) as (l2 & H2 & Hl2).
  exists (l1 ++ l2). rewrite H2, H1, app_assoc, total_app. split; [done|lia].
Qed.

(** A part that costs nothing. *)
Lemma costs_free {A B} (m : M S E A) (f : A → M S E B) k :
  costs m 0 → (∀ a, costs (f a) k) → costs (bindM m f) k.
Proof. intros Hm Hf. by apply (costs_bind m f 0 k). Qed.

Lemma costs_quiet {A} (m : M S E A) k : (∀ w a w', m w = Ret (a, w') → history w' = history w) → costs m k.
Proof. intros Hm w a w' _ Hr. exists []. rewrite (Hm _ _ _ Hr), app_nil_r. split; [done|simpl; lia]. Qed.

Lemma costs_ret {A} (a : A) k : costs (ret a) k.
Proof. apply costs_quiet. by intros ? ? ? [= _ <-]. Qed.
Lemma costs_get k : costs get k.
Proof. apply costs_quiet. by intros ? ? ? [= _ <-]. Qed.
Lemma costs_put o k : costs (put o) k.
Proof. apply costs_quiet. by intros ? ? ? [= _ <-]. Qed.
Lemma costs_say l k : costs (say l) k.
Proof. apply costs_quiet. by intros ? ? ? [= _ <-]. Qed.
Lemma costs_out_of_fuel {A} k : costs (@out_of_fuel S E A) k.
Proof. done. Qed.
Lemma costs_emit c k : (weight c ≤ k)%nat → costs (emit c) k.
Proof. intros Hc w a w' _ [= _ <-]. exists [c]. split; [done|]. unfold total. simpl. lia. Qed.
Lemma costs_ask {R} (f : list E → R) c k : (∀ r, (weight (c r) ≤ k)%nat) → costs (ask f c) k.
Proof. intros Hc w a w' _ [= _ <-]. eexists [_]. split; [done|]. unfold total. simpl. specialize (Hc (f (history w))). lia. Qed.
(** A call whose answer depends on what was called before. *)
Lemma costs_answer {R B} (g : list E → R) c (f : R → M S E B) k :
  (∀ h, (n ≤ length h)%nat → ∃ k2, costs (f (g h)) k2 ∧ (weight (c (g h)) + k2 ≤ k)%nat) →
  costs (bindM (ask g c) f) k.
Proof.
  intros Hg w b w' Hn Hr. unfold bindM, ask in Hr. cbn in Hr. destruct (Hg (history w) Hn) as (k2 & Hf & Hk).
  destruct (Hf (mkWorld (obj w) (history w ++ [c (g (history w))]) (log w)) b w') as (l & Hl & Ht);
    [cbn; rewrite length_app; lia|exact Hr|]. cbn in Hl.
  exists (c (g (history w)) :: l). rewrite Hl, <- app_assoc. split; [done|]. unfold total in *. simpl. lia.
Qed.
End Costs.

Lemma costs_lighter {S E A} (weight weight' : E → nat) n (m : M S E A) k :
  (∀ c, (weight' c ≤ weight c)%nat) → costs weight n m k → costs weight' n m k.
Proof.
  intros Hw Hm w a w' Hn Hr. destruct (Hm w a w' Hn Hr) as (l & Hl & Ht). exists l. split; [done|].
  etransitivity; [|exact Ht]. clear -Hw. unfold total.
  induction l as [|c l IH]; simpl; [done|]. specialize (Hw c). lia.
Qed.

(** Follow the code, for parts that cost nothing and the last one. *)
Ltac costs_step :=
  cbv zeta;
  lazymatch goal with
  | |- costs _ _ (bindM _ _) _ => apply costs_free; [|intros ?]
  | |- costs _ _ (ret _) _ => apply costs_ret
  | |- costs _ _ get _ => apply costs_get
  | |- costs _ _ (put _) _ => apply costs_put
  | |- costs _ _ (say _) _ => apply costs_say
  | |- costs _ _ (emit _) _ => apply costs_emit; simpl; lia
  | |- costs _ _ (ask _ _) _ => apply costs_ask; intros ?; simpl; lia
  | |- costs _ _ out_of_fuel _ => apply costs_out_of_fuel
  | |- costs _ _ (if ?b then _ else _) _ => destruct b eqn:?
  end.

(** ** Invariants of a run

    [keeps P ev m]: a run of [m] keeps [P] of the object, and every call it makes
    has [ev]. *)
Section Keeps.
Context {S E : Type} (P : S → Prop) (ev : E → Prop).

Definition kept (w : World S E) : Prop := P (obj w) ∧ Forall ev (history w).

Definition keeps {A} (m : M S E A) : Prop := ∀ w a w', kept w → m w = Ret (a, w') → kept w'.

Lemma keeps_bind {A B} (m : M S E A) (f : A → M S E B) :
  keeps m → (∀ a, keeps (f a)) → keeps (bindM m f).
Proof. intros Hm Hf w b w' Hw (a & w1 & Ha & Hb)%bindM_Ret. by eapply Hf, Hb; eapply Hm, Ha. Qed.

(** What was read of the object has its property. *)
Lemma keeps_bind_get {B} (f : S → M S E B) : (∀ o, P o → keeps (f o)) → keeps (bindM get f).
Proof. intros Hf w b w' Hw Hr. by apply (Hf (obj w) (proj1 Hw) w b w'). Qed.

Lemma keeps_ret {A} (a : A) : keeps (ret a).
Proof. by intros w b w' Hw [= _ <-]. Qed.
Lemma keeps_put o : P o → keeps (put o).
Proof. by intros Ho w a w' [_ Hh] [= _ <-]. Qed.
Lemma keeps_say l : keeps (say l).
Proof. by intros w a w' Hw [= _ <-]. Qed.
Lemma keeps_emit c : ev c → keeps (emit c).
Proof. intros Hc w a w' [Ho Hh] [= _ <-]. split; [done|]. apply Forall_app. by rewrite Forall_singleton. Qed.
Lemma keeps_ask {R} (f : list E → R) c : (∀ r, ev (c r)) → keeps (ask f c).
Proof.
  intros Hc w a w' [Ho Hh] [-> ->]%ask_Ret. split; [done|]. apply Forall_app. by rewrite Forall_singleton.
Qed.
Lemma keeps_out_of_fuel {A} : keeps (@out_of_fuel S E A).
Proof. done. Qed.
End Keeps.

(** Follow the code. *)
Ltac keeps_step :=
  cbv zeta;
  lazymatch goal with
  | |- keeps _ _ (bindM get _) => apply keeps_bind_get; intros ? ?
  | |- keeps _ _ (bindM _ _) => apply keeps_bind; [|intros ?]
  | |- keeps _ _ (ret _) => apply keeps_ret
  | |- keeps _ _ (put _) => apply keeps_put
  | |- keeps _ _ (say _) => apply keeps_say
  | |- keeps _ _ (emit _) => apply keeps_emit
  | |- keeps _ _ (ask _ _) => apply keeps_ask; intros ?
  | |- keeps _ _ out_of_fuel => apply keeps_out_of_fuel
  | |- keeps _ _ (match ?x with _ => _ end) => destruct x
  end.
