(* ===== verification/Publisher.v ===== *)
(** * The RabbitMQ publisher (include/publisher/rabbitmq_publisher.h,
      src/publishers/rabbitmq_publisher.cpp)

    The AMQP client library is code outside the repository: its functions are
    parameters that may answer anything, and each call is recorded with its
    answer in a history.  A session monitor over histories says which calls the
    library allows in which order; the publisher is proved to stay within it on
    every path, and to release every connection it makes. *)

From Stdlib Require Import Ascii.
From S2P Require Import Prelude.
From S2P Require Import Bytes.
From S2P Require Import Format.
From S2P Require Import Logger.
From S2P Require Import Effects.
From S2P Require Import IpParser.
From S2P Require Import StatsStage.
From S2P Require Import FlowTracker.
From S2P Require Import PublisherJson.

(** ** Configuration *)

Record PublisherConfig : Type := mkPublisherConfig {
  host : string;
  port : Z;
  username : string;
  password : string;
  exchange : string;
  routing_key : string;
  channel : Z;
}.

Definition default_config : PublisherConfig := {|
  host := "localhost"; port := 5672; username := "guest"; password := "guest";
  exchange := "raw_packets"; routing_key := "packet.raw"; channel := 1 |}.

(** [std::atoi]: leading white space, a sign, digits; a value that is not an
    [int] is undefined behaviour. *)
Definition is_space (c : ascii) : bool :=
  let n := Z.of_nat (nat_of_ascii c) in (n =? 32) || ((9 <=? n) && (n <=? 13)).

Fixpoint skip_space (s : string) : string :=
  match s with
  | String c s' => if is_space c then skip_space s' else s
  | EmptyString => s
  end.

Definition atoi (s : string) : outcome Z :=
  let s := skip_space s in
  let n :=
    match strip "-" s, strip "+" s with
    | Some s', _ => - (read_num 10 0 s').1
    | _, Some s' => (read_num 10 0 s').1
    | _, _ => (read_num 10 0 s).1
    end in
  if (- 2 ^ 31 <=? n) && (n <? 2 ^ 31) then Ret n else UB.

Definition publisherConfigFromEnv (getenv : string → option string) : outcome PublisherConfig :=
  let cfg := default_config in
  p ← match getenv "RABBITMQ_PORT" with Some v => atoi v | None => Ret (port cfg) end;
  Ret {|
    host := default (host cfg) (getenv "RABBITMQ_HOST");
    port := p;
    username := default (username cfg) (getenv "RABBITMQ_USER");
    password := default (password cfg) (getenv "RABBITMQ_PASS");
    exchange := default (exchange cfg) (getenv "RABBITMQ_EXCHANGE");
    routing_key := default (routing_key cfg) (getenv "RABBITMQ_ROUTING_KEY");
    channel := channel cfg |}.

(** [std::to_string(int)] *)
Definition int_to_string (n : Z) : string :=
  if n <? 0 then "-" +:+ to_string (- n) else to_string n.

(** *** Reading printed numbers back *)

Lemma is_space_digit c : is_digit 10 c = true → is_space c = false.
Proof.
  destruct c as [[] [] [] [] [] [] [] []]; vm_compute; congruence.
Qed.

Lemma skip_space_number n : skip_space (to_string n) = to_string n.
Proof.
  destruct (to_string_head n "") as (c & s & E & Hc). rewrite app_nil_r_s in E. rewrite E.
  cbn [skip_space]. by rewrite is_space_digit.
Qed.

Lemma strip_number d n : is_digit 10 d = false → strip (String d "") (to_string n) = None.
Proof.
  intros Hd. destruct (to_string_head n "") as (c & s & E & Hc). rewrite app_nil_r_s in E. rewrite E.
  by apply strip_digit.
Qed.

Lemma read_number_whole n : is_u64 n → read_num 10 0 (to_string n) = (n, "").
Proof. intros Hn. pose proof (read_to_string n "" Hn eq_refl) as E. by rewrite app_nil_r_s in E. Qed.

Lemma atoi_int n : - 2 ^ 31 ≤ n < 2 ^ 31 → atoi (int_to_string n) = Ret n.
Proof.
  intros Hn. unfold atoi, int_to_string.
  assert ((- 2 ^ 31 <=? n) && (n <? 2 ^ 31) = true) as Hr.
  { apply andb_true_iff. rewrite Z.leb_le, Z.ltb_lt. lia. }
  destruct (Z.ltb_spec n 0) as [Hneg|Hpos].
  - change (skip_space ("-" +:+ to_string (- n))) with ("-" +:+ to_string (- n)).
    change (strip "-" ("-" +:+ to_string (- n))) with (Some (to_string (- n))). cbv zeta iota.
    rewrite read_number_whole by lia. cbn [fst]. rewrite Z.opp_involutive. by rewrite Hr.
  - cbv zeta. rewrite skip_space_number, !strip_number, read_number_whole by (done || lia). cbn [fst]. by rewrite Hr.
Qed.

(** ** The client library as seen by the publisher *)

(** What [amqp_simple_wait_frame_noblock] answers: its status and, of the frame,
    the two fields the code looks at. *)
Record wait_result : Type := mkWait { wait_rc : Z; frame_type : Z; method_id : Z }.

(** The fields of [amqp_basic_properties_t] the code sets. *)
Record basic_properties : Type := mkProperties { prop_flags : Z; delivery_mode : Z; content_type : string }.

(** The calls that leave the publisher, with their arguments and answers.
    Handles are addresses; 0 is the null pointer. *)
Inductive call : Type :=
  | NewConnection (conn : Z)
  | TcpSocketNew (conn sock : Z)
  | SocketOpen (sock : Z) (host : string) (port rc : Z)
  | SocketGetSockfd (sock fd : Z)
  | SetNoDelay (fd flag rc : Z)
  | Login (conn : Z) (vhost : string) (channel_max frame_max heartbeat sasl_method : Z)
      (user pass : string) (reply : Z)
  | ChannelOpen (conn ch : Z)
  | ConfirmSelect (conn ch : Z)
  | GetRpcReply (conn reply : Z)
  | ChannelClose (conn ch code : Z)
  | ConnectionClose (conn code : Z)
  | DestroyConnection (conn : Z)
  | BasicPublish (conn ch : Z) (exch key : string) (mandatory immediate : Z) (props : basic_properties)
      (body : string) (rc : Z)
  | WaitFrame (conn tv_sec tv_usec : Z) (r : wait_result)
  | LoadStop (b : bool)
  | SleepFor (seconds : Z).

(** The library, the socket option call and the stop flag: any answers, which
    may depend on everything that happened before. *)
Class Amqp := {
  AMQP_STATUS_OK : Z;
  AMQP_STATUS_TIMEOUT : Z;
  AMQP_RESPONSE_NORMAL : Z;
  AMQP_FRAME_METHOD : Z;
  AMQP_BASIC_ACK_METHOD : Z;
  AMQP_BASIC_NACK_METHOD : Z;
  AMQP_REPLY_SUCCESS : Z;
  AMQP_SASL_METHOD_PLAIN : Z;
  AMQP_BASIC_DELIVERY_MODE_FLAG : Z;
  AMQP_BASIC_CONTENT_TYPE_FLAG : Z;
  amqp_new_connection : list call → Z;
  amqp_tcp_socket_new : list call → Z → Z;
  amqp_socket_open : list call → Z → string → Z → Z;
  amqp_socket_get_sockfd : list call → Z → Z;
  setsockopt_nodelay : list call → Z → Z → Z;
  amqp_login : list call → Z → string → Z → Z → Z → Z → string → string → Z;
  amqp_get_rpc_reply : list call → Z → Z;
  amqp_basic_publish : list call → Z → Z → string → string → Z → Z → basic_properties → string → Z;
  amqp_simple_wait_frame_noblock : list call → Z → Z → Z → wait_result;
  stop_flag_load : list call → bool;
}.

(** ** The publisher's state and the calls as effects *)

Record RabbitMqPublisher : Type := mkPublisher {
  config_ : PublisherConfig;
  conn_ : Z;
  sock_ : Z;
  connected_ : bool;
}.

(** [amqp_cstring_bytes(s.c_str())]: the bytes up to the first zero. *)
Definition amqp_cstring_bytes (s : string) : string := c_str s.

Abbreviation PubWorld := (World RabbitMqPublisher call).
Abbreviation PubM := (M RabbitMqPublisher call).
Local Open Scope effect_scope.

Definition set_conn (c s : Z) : PubM unit := let! p := get in put (mkPublisher (config_ p) c s (connected_ p)).
Definition set_connected (b : bool) : PubM unit :=
  let! p := get in put (mkPublisher (config_ p) (conn_ p) (sock_ p) b).

Section Publisher.
Context `{NativeEndian} `{Amqp}.

Definition MAX_ATTEMPTS : Z := 3.
Definition RETRY_DELAY_S : Z := 2.

Definition disconnect : PubM unit :=
  let! p := get in
  if negb (conn_ p =? 0) then
    emit (ChannelClose (conn_ p) (channel (config_ p)) AMQP_REPLY_SUCCESS);;
    emit (ConnectionClose (conn_ p) AMQP_REPLY_SUCCESS);;
    emit (DestroyConnection (conn_ p));;
    set_conn 0 0
  else ret tt.

(** The common end of a failed attempt: release the connection and sleep
    unless it was the last one. *)
Definition give_up_attempt (attempt : Z) : PubM unit :=
  let! p := get in
  emit (DestroyConnection (conn_ p));;
  set_conn 0 0;;
  if attempt <? MAX_ATTEMPTS then emit (SleepFor RETRY_DELAY_S) else ret tt.

(** How the body of the loop ends: [return true], [return false], [continue]. *)
Inductive attempt_end : Type := Connected | Abandon | Retry.
#[global] Instance attempt_end_eq_dec : EqDecision attempt_end.
Proof. solve_decision. Defined.

Definition connect_attempt (attempt : Z) : PubM attempt_end :=
  let! p := get in
  let cfg := config_ p in
  let! c := ask amqp_new_connection NewConnection in
  set_conn c (sock_ p);;
  let! s := ask (λ h, amqp_tcp_socket_new h c) (TcpSocketNew c) in
  set_conn c s;;
  if s =? 0 then
    say (log_error "rabbitmq_publisher: amqp_tcp_socket_new failed");;
    emit (DestroyConnection c);;
    set_conn 0 s;;
    ret Abandon
  else
  let! rc := ask (λ h, amqp_socket_open h s (c_str (host cfg)) (port cfg))
                 (SocketOpen s (c_str (host cfg)) (port cfg)) in
  if negb (rc =? AMQP_STATUS_OK) then
    say (log_warn ("rabbitmq_publisher: connect attempt " +:+ to_string attempt +:+ "/" +:+
      to_string MAX_ATTEMPTS +:+ " failed to " +:+ host cfg +:+ ":" +:+ int_to_string (port cfg) +:+
      " — retrying in " +:+ to_string RETRY_DELAY_S +:+ "s"));;
    give_up_attempt attempt;;
    ret Retry
  else
  let! sock_fd := ask (λ h, amqp_socket_get_sockfd h s) (SocketGetSockfd s) in
  let flag := 1 in
  let! so := ask (λ h, setsockopt_nodelay h sock_fd flag) (SetNoDelay sock_fd flag) in
  (if negb (so =? 0)
   then say (log_warn "rabbitmq_publisher: setsockopt TCP_NODELAY failed (non-fatal)")
   else ret tt);;
  let! reply := ask (λ h, amqp_login h c "/" 0 131072 60 AMQP_SASL_METHOD_PLAIN
                            (c_str (username cfg)) (c_str (password cfg)))
                    (Login c "/" 0 131072 60 AMQP_SASL_METHOD_PLAIN
                       (c_str (username cfg)) (c_str (password cfg))) in
  if negb (reply =? AMQP_RESPONSE_NORMAL) then
    say (log_warn ("rabbitmq_publisher: login failed on attempt " +:+ to_string attempt));;
    give_up_attempt attempt;;
    ret Retry
  else
  emit (ChannelOpen c (channel cfg));;
  let! reply := ask (λ h, amqp_get_rpc_reply h c) (GetRpcReply c) in
  if negb (reply =? AMQP_RESPONSE_NORMAL) then
    say (log_warn ("rabbitmq_publisher: channel open failed on attempt " +:+ to_string attempt));;
    emit (ConnectionClose c AMQP_REPLY_SUCCESS);;
    give_up_attempt attempt;;
    ret Retry
  else
  emit (ConfirmSelect c (channel cfg));;
  let! reply := ask (λ h, amqp_get_rpc_reply h c) (GetRpcReply c) in
  if negb (reply =? AMQP_RESPONSE_NORMAL) then
    say (log_warn ("rabbitmq_publisher: confirm.select failed on attempt " +:+ to_string attempt));;
    emit (ChannelClose c (channel cfg) AMQP_REPLY_SUCCESS);;
    emit (ConnectionClose c AMQP_REPLY_SUCCESS);;
    give_up_attempt attempt;;
    ret Retry
  else
  say (log_info ("rabbitmq_publisher: connected to " +:+ host cfg +:+ ":" +:+ int_to_string (port cfg) +:+
    " exchange=" +:+ exchange cfg +:+ " (attempt " +:+ to_string attempt +:+ ")"));;
  ret Connected.

(** [for (attempt = 1; attempt <= MAX_ATTEMPTS; ++attempt)] *)
Fixpoint connect_loop (fuel : nat) (attempt : Z) : PubM bool :=
  match fuel with
  | O => out_of_fuel
  | S fuel' =>
      if attempt <=? MAX_ATTEMPTS then
        let! e := connect_attempt attempt in
        match e with
        | Connected => ret true
        | Abandon => ret false
        | Retry => connect_loop fuel' (attempt + 1)
        end
      else
        say (log_error ("rabbitmq_publisher: all " +:+ to_string MAX_ATTEMPTS +:+
          " connection attempts failed"));;
        ret false
  end.

Definition connect : PubM bool :=
  let! p := get in
  (if negb (conn_ p =? 0) then disconnect else ret tt);;
  connect_loop 4 1.

(** The constructor and the destructor. *)
Definition construct : PubM unit := let! b := connect in set_connected b.
Definition destruct_publisher : PubM unit := disconnect.
Definition isConnected (p : RabbitMqPublisher) : bool := connected_ p.

(** *** Publishing a frame *)

Definition MAX_CONFIRM_WAIT_MS : Z := 5000.
Definition POLL_INTERVAL_MS : Z := 50.

(** How the polling loop is left: it ends with [confirmed], or the function
    returns from inside it. *)
Inductive wait_end : Type := Done (confirmed : bool) | Return (b : bool).

Fixpoint confirm_loop (fuel : nat) (waited_ms : Z) : PubM wait_end :=
  match fuel with
  | O => out_of_fuel
  | S fuel' =>
      if waited_ms <? MAX_CONFIRM_WAIT_MS then
        let! p := get in
        let! r := ask (λ h, amqp_simple_wait_frame_noblock h (conn_ p) 0 (POLL_INTERVAL_MS * 1000))
                      (WaitFrame (conn_ p) 0 (POLL_INTERVAL_MS * 1000)) in
        if wait_rc r =? AMQP_STATUS_TIMEOUT then
          let! stop := ask stop_flag_load LoadStop in
          if stop then ret (Return false) else confirm_loop fuel' (waited_ms + POLL_INTERVAL_MS)
        else if negb (wait_rc r =? AMQP_STATUS_OK) then
          say (log_error ("rabbitmq_publisher: confirm wait error rc=" +:+ int_to_string (wait_rc r)));;
          set_connected false;;
          ret (Return false)
        else if frame_type r =? AMQP_FRAME_METHOD then
          if method_id r =? AMQP_BASIC_ACK_METHOD then ret (Done true)
          else if method_id r =? AMQP_BASIC_NACK_METHOD then
            say (log_error "rabbitmq_publisher: Basic.Nack received");;
            ret (Return false)
          else confirm_loop fuel' (waited_ms + POLL_INTERVAL_MS)
        else confirm_loop fuel' (waited_ms + POLL_INTERVAL_MS)
      else ret (Done false)
  end.

(** [props] *)
Definition message_properties : basic_properties :=
  mkProperties (Z.lor AMQP_BASIC_DELIVERY_MODE_FLAG AMQP_BASIC_CONTENT_TYPE_FLAG) 1
    (amqp_cstring_bytes "application/json").

(** The part of [publish] behind the connection check. *)
Definition publish_connected (frame : EnrichedFrame) (flow : FlowRecord) (is_retransmit : bool) : PubM bool :=
  let! p := get in
  let cfg := config_ p in
  let json := buildJson frame flow is_retransmit in
  let! rc := ask (λ h, amqp_basic_publish h (conn_ p) (channel cfg)
                         (amqp_cstring_bytes (exchange cfg)) (amqp_cstring_bytes (routing_key cfg))
                         0 0 message_properties (amqp_cstring_bytes json))
                 (BasicPublish (conn_ p) (channel cfg)
                    (amqp_cstring_bytes (exchange cfg)) (amqp_cstring_bytes (routing_key cfg))
                    0 0 message_properties (amqp_cstring_bytes json)) in
  if negb (rc =? AMQP_STATUS_OK) then
    say (log_error ("rabbitmq_publisher: publish failed (rc=" +:+ int_to_string rc +:+ ")"));;
    set_connected false;;
    ret false
  else
  let! e := confirm_loop 101 0 in
  match e with
  | Return b => ret b
  | Done true => ret true
  | Done false =>
      say (log_error ("rabbitmq_publisher: confirm timeout after " +:+
        to_string MAX_CONFIRM_WAIT_MS +:+ "ms"));;
      set_connected false;;
      ret false
  end.

Definition publish (frame : EnrichedFrame) (flow : FlowRecord) (is_retransmit : bool) : PubM bool :=
  let proto := e_protocol frame in
  if negb (proto =? 1) && negb (proto =? 6) && negb (proto =? 17) && negb (proto =? 0) then ret true
  else
  let! p := get in
  if negb (connected_ p) then
    say (log_warn "rabbitmq_publisher: attempting reconnect...");;
    let! b := connect in
    set_connected b;;
    if negb b then
      say (log_error "rabbitmq_publisher: reconnect failed — frame dropped");;
      ret false
    else publish_connected frame flow is_retransmit
  else publish_connected frame flow is_retransmit.

(** The life of a publisher: it is constructed, publishes some frames, and is
    destroyed. *)
Fixpoint publish_all (frames : list (EnrichedFrame * FlowRecord * bool)) : PubM unit :=
  match frames with
  | [] => ret tt
  | (f, flow, r) :: frames' => publish f flow r;; publish_all frames'
  end.

Definition publisher_life (frames : list (EnrichedFrame * FlowRecord * bool)) : PubM unit :=
  construct;; publish_all frames;; destruct_publisher.

Definition initial_world (cfg : PublisherConfig) : PubWorld :=
  mkWorld (mkPublisher cfg 0 0 false) [] [].

(** ** Specification: the session monitor *)

(** How far a connection has come. *)
Inductive phase : Type :=
  | PNew | PSocket (s : Z) | POpen (s : Z) | PLoggedIn
  | PChannelPending | PChannel | PConfirmPending | PConfirm | PClosed.

(** The connection that is alive, if any.  A second connection, a null, freed or
    foreign handle, or a call out of order is an error. *)
Definition session : Type := option (Z * phase).

(** The phase a call leads to. *)
Definition advance (c : call) (ph : phase) : option phase :=
  match c, ph with
  | TcpSocketNew _ s, PNew => Some (if s =? 0 then PNew else PSocket s)
  | SocketOpen s' _ _ rc, PSocket s =>
      if s' =? s then Some (if rc =? AMQP_STATUS_OK then POpen s else PSocket s) else None
  | SocketGetSockfd s' _, POpen s => if s' =? s then Some ph else None
  | Login _ _ _ _ _ _ _ _ reply, POpen s => Some (if reply =? AMQP_RESPONSE_NORMAL then PLoggedIn else POpen s)
  | ChannelOpen _ _, PLoggedIn => Some PChannelPending
  | ConfirmSelect _ _, PChannel => Some PConfirmPending
  | GetRpcReply _ reply, PChannelPending =>
      Some (if reply =? AMQP_RESPONSE_NORMAL then PChannel else PLoggedIn)
  | GetRpcReply _ reply, PConfirmPending =>
      Some (if reply =? AMQP_RESPONSE_NORMAL then PConfirm else PChannel)
  | BasicPublish _ _ _ _ _ _ _ _ _, PConfirm => Some PConfirm
  | WaitFrame _ _ _ _, PConfirm => Some PConfirm
  | ChannelClose _ _ _, (PChannel | PConfirm) => Some PLoggedIn
  | ConnectionClose _ _, PLoggedIn => Some PClosed
  | _, _ => None
  end.

(** The connection a call is made on. *)
Definition call_conn (c : call) : option Z :=
  match c with
  | TcpSocketNew c _ | Login c _ _ _ _ _ _ _ _ | ChannelOpen c _ | ConfirmSelect c _ | GetRpcReply c _
  | ChannelClose c _ _ | ConnectionClose c _ | BasicPublish c _ _ _ _ _ _ _ _ | WaitFrame c _ _ _ => Some c
  | _ => None
  end.

Definition monitor (st : session) (c : call) : option session :=
  match c, st with
  | (SleepFor _ | LoadStop _ | SetNoDelay _ _ _), _ => Some st
  | NewConnection c, None => if c =? 0 then None else Some (Some (c, PNew))
  | DestroyConnection c, Some (c', _) => if c =? c' then Some None else None
  | _, Some (c', ph) =>
      if bool_decide (default c' (call_conn c) = c')
      then ph' ← advance c ph; Some (Some (c', ph')) else None
  | _, _ => None
  end.

(** The session after a history; [None] when a call broke the rules. *)
Definition run (h : list call) : option session :=
  foldl (λ o c, st ← o; monitor st c) (Some None) h.

(** Between two public calls: the connection held, ready to publish. *)
Definition held (p : RabbitMqPublisher) : session :=
  if conn_ p =? 0 then None else Some (conn_ p, PConfirm).

Record publisher_ok (w : PubWorld) : Prop := {
  po_run : run (history w) = Some (held (obj w));
  po_connected : connected_ (obj w) = true → conn_ (obj w) ≠ 0;
}.

(** Attempts made and seconds slept in a history. *)
Definition attempts (h : list call) : Z :=
  foldr (λ c n, match c with NewConnection _ => 1 + n | _ => n end) 0 h.
Definition slept (h : list call) : Z :=
  foldr (λ c n, match c with SleepFor s => s + n | _ => n end) 0 h.

(** The messages handed to the broker in a history. *)
Definition bodies (h : list call) : list string :=
  omap (λ c, match c with BasicPublish _ _ _ _ _ _ _ b _ => Some b | _ => None end) h.

(** What a polled frame means. *)
Inductive poll_kind : Type := KTimeout | KError | KAck | KNack | KOther.
Definition kind (r : wait_result) : poll_kind :=
  if wait_rc r =? AMQP_STATUS_TIMEOUT then KTimeout
  else if negb (wait_rc r =? AMQP_STATUS_OK) then KError
  else if negb (frame_type r =? AMQP_FRAME_METHOD) then KOther
  else if method_id r =? AMQP_BASIC_ACK_METHOD then KAck
  else if method_id r =? AMQP_BASIC_NACK_METHOD then KNack
  else KOther.

Inductive verdict : Type := VAck | VNack | VStop | VError | VExpired.

(** [polls conn n evs v]: at most [n] polls of [conn], with the calls [evs], end
    in the verdict [v]: the first acknowledgement, rejection, error or stop
    request decides, and [n] polls without one let the wait expire. *)
Inductive polls (conn : Z) : nat → list call → verdict → Prop :=
  | polls_expired : polls conn 0 [] VExpired
  | polls_ack n r : kind r = KAck → polls conn (S n) [WaitFrame conn 0 50000 r] VAck
  | polls_nack n r : kind r = KNack → polls conn (S n) [WaitFrame conn 0 50000 r] VNack
  | polls_error n r : kind r = KError → polls conn (S n) [WaitFrame conn 0 50000 r] VError
  | polls_stop n r :
      kind r = KTimeout → polls conn (S n) [WaitFrame conn 0 50000 r; LoadStop true] VStop
  | polls_timeout n r evs v :
      kind r = KTimeout → polls conn n evs v →
      polls conn (S n) (WaitFrame conn 0 50000 r :: LoadStop false :: evs) v
  | polls_other n r evs v :
      kind r = KOther → polls conn n evs v → polls conn (S n) (WaitFrame conn 0 50000 r :: evs) v.

(** What [publish] returns on a verdict, and whether it keeps the connection. *)
Definition verdict_result (v : verdict) : bool := match v with VAck => true | _ => false end.
Definition verdict_keeps (v : verdict) : bool :=
  match v with VError | VExpired => false | _ => true end.

(** ** Lemmas *)

Lemma wp_set_conn c s w (Q : unit → PubWorld → Prop) :
  Q tt (mkWorld (mkPublisher (config_ (obj w)) c s (connected_ (obj w))) (history w) (log w)) →
  wp (set_conn c s) w Q.
Proof. done. Qed.
Lemma wp_set_connected b w (Q : unit → PubWorld → Prop) :
  Q tt (mkWorld (mkPublisher (config_ (obj w)) (conn_ (obj w)) (sock_ (obj w)) b) (history w) (log w)) →
  wp (set_connected b) w Q.
Proof. done. Qed.

Lemma run_snoc h c : run (h ++ [c]) = (st ← run h; monitor st c).
Proof. unfold run. by rewrite foldl_snoc. Qed.
Lemma attempts_snoc h c :
  attempts (h ++ [c]) = attempts h + match c with NewConnection _ => 1 | _ => 0 end.
Proof. induction h as [|d h IH]; simpl; [by destruct c|]. destruct d; simpl; lia. Qed.
Lemma slept_snoc h c :
  slept (h ++ [c]) = slept h + match c with SleepFor s => s | _ => 0 end.
Proof. induction h as [|d h IH]; simpl; [destruct c; lia|]. destruct d; simpl; lia. Qed.
Lemma bodies_snoc h c :
  bodies (h ++ [c]) = bodies h ++ match c with BasicPublish _ _ _ _ _ _ _ b _ => [b] | _ => [] end.
Proof. unfold bodies. rewrite omap_app. by destruct c. Qed.

(** One symbolic step, splitting the conditionals of the code. *)
Ltac wp_step :=
  lazymatch goal with
  | |- wp (set_conn _ _) _ _ => apply wp_set_conn
  | |- wp (set_connected _) _ _ => apply wp_set_connected
  | |- wp (give_up_attempt _) _ _ => unfold give_up_attempt
  | |- _ => wp_base
  end; cbn [obj history log config_ conn_ sock_ connected_].

(** Evaluate the monitor and the counters on the calls just made. *)
Ltac eval_history :=
  rewrite ?run_snoc, ?attempts_snoc, ?slept_snoc, ?bodies_snoc;
  repeat match goal with
  | H : negb _ = true |- _ => apply negb_true_iff in H
  | H : negb _ = false |- _ => apply negb_false_iff in H
  | H : run _ = _ |- _ => rewrite H
  end;
  repeat (first
    [ progress cbn [mbind option_bind monitor advance call_conn default held conn_ from_option
        andb option_map]
    | rewrite Z.eqb_refl
    | rewrite bool_decide_eq_true_2 by done
    | match goal with
      | H : (?a =? ?b) = _ |- context [?a =? ?b] => rewrite H
      | H : (?a <? ?b) = _ |- context [?a <? ?b] => rewrite H
      end ]).

(** What the publisher keeps across a connection attempt. *)
Definition same_config (w w' : PubWorld) : Prop :=
  config_ (obj w') = config_ (obj w) ∧ connected_ (obj w') = connected_ (obj w) ∧
  bodies (history w') = bodies (history w) ∧ history w `prefix_of` history w'.

#[local] Instance same_config_preorder : PreOrder same_config.
Proof.
  split; [by intros w|]. intros w1 w2 w3 (? & ? & ? & ?) (? & ? & ? & ?).
  split_and!; [congruence..|]. by transitivity (history w2).
Qed.

Section Connected.
Hypothesis new_connection_nonnull : ∀ h, amqp_new_connection h ≠ 0.

Lemma connect_attempt_spec attempt w :
  run (history w) = Some None → conn_ (obj w) = 0 →
  wp (connect_attempt attempt) w (λ e w',
    same_config w w' ∧ run (history w') = Some (held (obj w')) ∧
    (conn_ (obj w') ≠ 0 ↔ e = Connected) ∧
    attempts (history w') = attempts (history w) + 1 ∧
    slept (history w') = slept (history w)
      + (if bool_decide (e = Retry) && (attempt <? MAX_ATTEMPTS) then RETRY_DELAY_S else 0)).
Proof.
  intros Hrun Hconn. unfold connect_attempt. do 4 wp_step.
  assert ((r =? 0) = false) as Hr by (apply Z.eqb_neq; subst r; apply new_connection_nonnull).
  repeat wp_step.
  all: unfold same_config, held; cbn [obj history config_ connected_ conn_].
  all: eval_history; rewrite ?app_nil_r, ?Z.add_0_r; apply Z.eqb_neq in Hr.
  all: split_and!; try reflexivity; try (by split); try (by repeat apply prefix_app_r); lia.
Qed.
(** The loop from attempt [a] on: it makes at least one attempt and at most those left. *)
Lemma connect_loop_spec n a w :
  a = 4 - Z.of_nat n → (n ≤ 3)%nat →
  run (history w) = Some None → conn_ (obj w) = 0 →
  wp (connect_loop (S n) a) w (λ b w',
    same_config w w' ∧ run (history w') = Some (held (obj w')) ∧
    (conn_ (obj w') ≠ 0 ↔ b = true) ∧
    attempts (history w) ≤ attempts (history w') ≤ attempts (history w) + Z.of_nat n ∧
    slept (history w') ≤ slept (history w) + RETRY_DELAY_S * Z.of_nat (n - 1)).
Proof.
  revert a w. induction n as [|n IH]; intros a w -> Hn Hrun Hconn; cbn [connect_loop].
  - repeat wp_step; [done|]. split_and!; try done; [|lia..].
    rewrite Hrun. unfold held. cbn [obj]. by rewrite Hconn.
  - wp_step; [|apply Z.leb_gt in Heqb; unfold MAX_ATTEMPTS in Heqb; lia].
    wp_step. eapply wp_mono; [by apply connect_attempt_spec|].
    intros e w' (Hc & Hrun' & Hcon & Hat & Hsl). unfold RETRY_DELAY_S, MAX_ATTEMPTS in *.
    destruct e; [rewrite bool_decide_false in Hsl by done..|].
    + wp_step. cbn [andb] in Hsl. split_and!; try (done || lia). naive_solver.
    + wp_step. cbn [andb] in Hsl. split_and!; try (done || lia). naive_solver.
    + assert (conn_ (obj w') = 0) as Hc0 by (destruct (decide (conn_ (obj w') = 0)); naive_solver).
      eapply wp_mono; [apply IH; [lia|lia| |done]|].
      { rewrite Hrun'. unfold held. by rewrite Hc0. }
      intros b w'' (Hd & Hrun'' & Hcon' & Hat' & Hsl').
      split_and!; try (done || lia); [by transitivity w'|].
      rewrite bool_decide_eq_true_2 in Hsl by done. cbn [andb] in Hsl.
      destruct (Z.ltb_spec (4 - Z.of_nat (S n)) 3); lia.
Qed.

Lemma disconnect_spec w :
  run (history w) = Some (held (obj w)) →
  wp disconnect w (λ _ w',
    same_config w w' ∧ run (history w') = Some None ∧ conn_ (obj w') = 0 ∧
    attempts (history w') = attempts (history w) ∧ slept (history w') = slept (history w)).
Proof.
  intros Hrun. unfold disconnect. repeat wp_step; unfold same_config; cbn [obj history config_ connected_ conn_].
  - unfold held in Hrun. apply negb_true_iff in Heqb. rewrite Heqb in Hrun.
    eval_history. rewrite !app_nil_r. split_and!; try (done || lia). by repeat apply prefix_app_r.
  - unfold held in Hrun. apply negb_false_iff in Heqb. rewrite Heqb in Hrun.
    apply Z.eqb_eq in Heqb. done.
Qed.

(** A connection object that could not be allocated is used all the same. *)
Lemma connect_attempt_null attempt w :
  amqp_new_connection (history w) = 0 →
  wp (connect_attempt attempt) w (λ _ w', ∃ sock,
    (history w ++ [NewConnection 0; TcpSocketNew 0 sock]) `prefix_of` history w').
Proof.
  intros Hnull. unfold connect_attempt. do 2 wp_step. do 2 wp_step. subst r. rewrite Hnull.
  do 5 wp_step. rewrite <- app_assoc. cbn [app].
  repeat wp_step; exists r; repeat first [reflexivity | apply prefix_app_r].
Qed.

(** Connecting, from any state between two calls. *)
Lemma connect_spec w :
  run (history w) = Some (held (obj w)) →
  wp connect w (λ b w',
    same_config w w' ∧ run (history w') = Some (held (obj w')) ∧
    (conn_ (obj w') ≠ 0 ↔ b = true) ∧
    attempts (history w) ≤ attempts (history w') ≤ attempts (history w) + 3 ∧
    slept (history w') ≤ slept (history w) + 4).
Proof.
  intros Hrun. unfold connect. do 2 wp_step. wp_step.
  apply (wp_mono _ _ (λ _ w', same_config w w' ∧ run (history w') = Some None ∧ conn_ (obj w') = 0 ∧
    attempts (history w') = attempts (history w) ∧ slept (history w') = slept (history w))).
  - wp_step; [by apply disconnect_spec|]. wp_step. apply negb_false_iff, Z.eqb_eq in Heqb.
    unfold held in Hrun. rewrite Heqb in Hrun. done.
  - intros _ w1 (Hc & Hrun1 & Hconn1 & Hat & Hsl).
    eapply wp_mono; [by apply (connect_loop_spec 3)|]. unfold RETRY_DELAY_S.
    intros b w' (Hd & Hrun' & Hcon & Hat' & Hsl').
    split_and!; try (done || lia). by transitivity w1.
Qed.
End Connected.

(** Polling keeps the session ready and publishes nothing. *)
Lemma polls_history conn n evs v h :
  polls conn n evs v → run h = Some (Some (conn, PConfirm)) →
  run (h ++ evs) = Some (Some (conn, PConfirm)) ∧ bodies evs = [] ∧
  attempts (h ++ evs) = attempts h ∧ slept (h ++ evs) = slept h.
Proof.
  intros Hp. revert h. induction Hp; intros h Hrun; rewrite ?app_nil_r; try done.
  - rewrite attempts_snoc, slept_snoc. eval_history. split_and!; done || lia.
  - rewrite attempts_snoc, slept_snoc. eval_history. split_and!; done || lia.
  - rewrite attempts_snoc, slept_snoc. eval_history. split_and!; done || lia.
  - rewrite (cons_middle _ h), app_assoc. eval_history. split_and!; done || lia.
  - rewrite (cons_middle _ h), app_assoc. rewrite (cons_middle _ (h ++ _)), app_assoc.
    destruct (IHHp ((h ++ [WaitFrame conn 0 50000 r]) ++ [LoadStop false])) as (-> & Hb & -> & ->).
    { by eval_history. }
    eval_history. split_and!; done || lia.
  - rewrite (cons_middle _ h), app_assoc.
    destruct (IHHp (h ++ [WaitFrame conn 0 50000 r])) as (-> & Hb & -> & ->).
    { by eval_history. }
    eval_history. split_and!; done || lia.
Qed.

(** What the polling loop leaves when [n] polls were left. *)
Definition polled (w : PubWorld) (n : nat) (e : wait_end) (w' : PubWorld) : Prop :=
  ∃ evs v, polls (conn_ (obj w)) n evs v ∧ history w' = history w ++ evs ∧
    config_ (obj w') = config_ (obj w) ∧ conn_ (obj w') = conn_ (obj w) ∧
    connected_ (obj w') = (match v with VError => false | _ => connected_ (obj w) end) ∧
    e = (match v with VAck => Done true | VExpired => Done false | _ => Return false end).

Ltac solve_kind :=
  unfold kind; by repeat match goal with H : _ = true |- _ => rewrite H | H : _ = false |- _ => rewrite H end.

Lemma confirm_loop_spec n waited w :
  waited = MAX_CONFIRM_WAIT_MS - POLL_INTERVAL_MS * Z.of_nat n →
  wp (confirm_loop (S n) waited) w (polled w n).
Proof.
  revert waited w. induction n as [|n IH]; intros waited w Hw.
  { cbn [confirm_loop]. wp_step; [bool_hyps; lia|]. wp_step. exists [], VExpired. rewrite app_nil_r.
    split_and!; [constructor|done..]. }
  remember (S n) as k eqn:Hk. cbn [confirm_loop]. subst k.
  assert ((waited <? MAX_CONFIRM_WAIT_MS) = true) as ->
    by (apply Z.ltb_lt; unfold POLL_INTERVAL_MS, MAX_CONFIRM_WAIT_MS in *; lia).
  do 4 wp_step.
  assert (waited + POLL_INTERVAL_MS = MAX_CONFIRM_WAIT_MS - POLL_INTERVAL_MS * Z.of_nat n) as Hw'
    by (unfold POLL_INTERVAL_MS in *; lia).
  assert (∀ w1 pre, history w1 = history w ++ pre → obj w1 = obj w →
    (∀ evs v, polls (conn_ (obj w)) n evs v → polls (conn_ (obj w)) (S n) (pre ++ evs) v) →
    wp (confirm_loop (S n) (waited + POLL_INTERVAL_MS)) w1 (polled w (S n))) as Hnext.
  { intros w1 pre Hh Hp Hpolls. eapply wp_mono; [by apply IH|].
    intros e w' (evs & v & Hv & Hh' & ? & ? & ? & He). rewrite Hp in *.
    exists (pre ++ evs), v. rewrite Hh', Hh, app_assoc. by split_and!; [apply Hpolls|..]. }
  repeat wp_step.
  - exists [WaitFrame (conn_ (obj w)) 0 50000 r; LoadStop true], VStop. rewrite <- app_assoc.
    split_and!; try done. apply polls_stop. solve_kind.
  - apply (Hnext _ [WaitFrame (conn_ (obj w)) 0 50000 r; LoadStop false]); [by rewrite <- app_assoc|done|].
    intros. apply polls_timeout; [solve_kind|done].
  - eexists _, VError. split_and!; [apply polls_error; solve_kind|done..].
  - eexists _, VAck. split_and!; [apply polls_ack; solve_kind|done..].
  - eexists _, VNack. split_and!; [apply polls_nack; solve_kind|done..].
  - apply (Hnext _ [WaitFrame (conn_ (obj w)) 0 50000 r]); [done..|].
    intros. apply polls_other; [solve_kind|done].
  - apply (Hnext _ [WaitFrame (conn_ (obj w)) 0 50000 r]); [done..|].
    intros. apply polls_other; [solve_kind|done].
Qed.

(** What [publish] does once connected: one message, and the verdict of at most
    100 polls. *)
Definition published (w : PubWorld) (json : string) (b : bool) (w' : PubWorld) : Prop :=
  let p := obj w in
  ∃ rc evs,
    history w' = history w ++
      BasicPublish (conn_ p) (channel (config_ p)) (c_str (exchange (config_ p)))
        (c_str (routing_key (config_ p))) 0 0 message_properties (c_str json) rc :: evs ∧
    if rc =? AMQP_STATUS_OK
    then ∃ v, polls (conn_ p) 100 evs v ∧ b = verdict_result v ∧ connected_ (obj w') = verdict_keeps v
    else evs = [] ∧ b = false ∧ connected_ (obj w') = false.

Lemma publish_connected_spec frame flow r w :
  publisher_ok w → connected_ (obj w) = true →
  wp (publish_connected frame flow r) w (λ b w',
    published w (buildJson frame flow r) b w' ∧ publisher_ok w' ∧
    config_ (obj w') = config_ (obj w) ∧
    bodies (history w') = bodies (history w) ++ [c_str (buildJson frame flow r)] ∧
    attempts (history w') = attempts (history w) ∧ slept (history w') = slept (history w)).
Proof.
  intros [Hrun Hcon] Hc. specialize (Hcon Hc). unfold publish_connected.
  pose proof (proj2 (Z.eqb_neq _ _) Hcon) as Hc0. unfold held in Hrun. rewrite Hc0 in Hrun.
  do 4 wp_step. wp_step.
  - repeat wp_step. split_and!; [|split| | | |]; cbn [obj history config_ conn_ connected_].
    + exists r0, []. apply negb_true_iff in Heqb. by rewrite Heqb.
    + unfold held. cbn [conn_]. by eval_history.
    + done.
    + done.
    + by eval_history.
    + eval_history. lia.
    + eval_history. lia.
  - wp_step. eapply wp_mono; [by apply (confirm_loop_spec 100)|].
    intros e w' (evs & v & Hp & Hh & Hcfg & Hcn & Hcd & ->). cbn [obj history] in *. rewrite Hc in Hcd.
    apply (wp_mono _ _ (λ b w'', history w'' = history w' ∧ config_ (obj w'') = config_ (obj w) ∧
      conn_ (obj w'') = conn_ (obj w) ∧ b = verdict_result v ∧ connected_ (obj w'') = verdict_keeps v)).
    { destruct v; repeat wp_step; by split_and!. }
    intros b w'' (Hh'' & Hcfg'' & Hcn'' & -> & Hk). rewrite Hh in Hh''.
    apply negb_false_iff in Heqb.
    set (c := BasicPublish _ _ _ _ _ _ _ _ _) in Hh''.
    assert (run (history w ++ [c]) = Some (Some (conn_ (obj w), PConfirm))) as Hrun1 by (unfold c; by eval_history).
    destruct (polls_history _ _ _ _ (history w ++ [c]) Hp Hrun1) as (Hr & Hbd & Hat & Hsl).
    rewrite <- Hh'' in Hr, Hat, Hsl. split_and!; [|split| | | |].
    + exists r0, evs. rewrite Hh'', <- app_assoc. split; [done|]. rewrite Heqb. by exists v.
    + rewrite Hr. unfold held. by rewrite Hcn'', Hc0.
    + by rewrite Hcn''.
    + done.
    + rewrite Hh''. unfold bodies in *. rewrite omap_app, Hbd, app_nil_r, omap_app. done.
    + rewrite Hat, attempts_snoc. simpl. lia.
    + rewrite Hsl, slept_snoc. simpl. lia.
Qed.

Definition tracked_protocol (f : EnrichedFrame) : bool :=
  bool_decide (e_protocol f ∈ [0; 1; 6; 17]).

(** [publish] on every branch. *)
Definition publish_result (w : PubWorld) (f : EnrichedFrame) (json : string) (b : bool) (w' : PubWorld) : Prop :=
  if negb (tracked_protocol f) then b = true ∧ w' = w
  else if connected_ (obj w) then published w json b w'
  else ∃ w1, config_ (obj w1) = config_ (obj w) ∧ bodies (history w1) = bodies (history w) ∧
    history w `prefix_of` history w1 ∧
    attempts (history w1) ≤ attempts (history w) + 3 ∧ slept (history w1) ≤ slept (history w) + 4 ∧
    if connected_ (obj w1) then published w1 json b w'
    else b = false ∧ conn_ (obj w') = 0 ∧ connected_ (obj w') = false ∧ history w' = history w1.

Lemma tracked_protocol_test f :
  negb (e_protocol f =? 1) && negb (e_protocol f =? 6) && negb (e_protocol f =? 17)
    && negb (e_protocol f =? 0) = negb (tracked_protocol f).
Proof.
  unfold tracked_protocol. case_bool_decide as Hin.
  - rewrite !elem_of_cons, elem_of_nil in Hin. bool_cases; lia.
  - rewrite !not_elem_of_cons in Hin. bool_cases; lia.
Qed.

Section Publish.
Hypothesis new_connection_nonnull : ∀ h, amqp_new_connection h ≠ 0.

Lemma publish_spec f flow r w :
  publisher_ok w →
  wp (publish f flow r) w (λ b w',
    publish_result w f (buildJson f flow r) b w' ∧ publisher_ok w' ∧
    config_ (obj w') = config_ (obj w)).
Proof.
  intros Hok. unfold publish, publish_result. cbv zeta. rewrite tracked_protocol_test.
  wp_step; [by wp_step|]. do 2 wp_step. wp_step.
  - apply negb_true_iff in Heqb0. rewrite Heqb0. do 3 wp_step.
    eapply wp_mono; [apply connect_spec; [done|apply Hok]|].
    intros b w1 ((Hc1 & Hc2 & Hc3 & Hc4) & Hrun & Hb & Hat & Hsl). cbn [obj history] in *. do 2 wp_step.
    set (w2 := mkWorld _ _ _).
    assert (publisher_ok w2) as Hok2 by (split; cbn [w2 obj history conn_ connected_]; naive_solver).
    destruct b; cbn [negb].
    2: { repeat wp_step. split_and!; [|done|done]. exists w2. cbn [w2 obj history connected_ conn_].
      split_and!; try (done || lia). }
    eapply wp_mono; [by apply publish_connected_spec|].
    intros b w' (Hp & Hok' & Hcfg & _). split_and!; [|done|by rewrite Hcfg].
    exists w2. split_and!; try done; cbn [w2 history]; lia.
  - apply negb_false_iff in Heqb0. rewrite Heqb0.
    eapply wp_mono; [by apply publish_connected_spec|]. by intros b w' (Hp & Hok' & Hcfg & _).
Qed.

Lemma publish_all_spec frames w :
  publisher_ok w → wp (publish_all frames) w (λ _ w', publisher_ok w').
Proof.
  revert w. induction frames as [|[[f flow] r] frames IH]; intros w Hok; cbn [publish_all].
  - by wp_step.
  - wp_step. eapply wp_mono; [by apply publish_spec|]. intros b w' (_ & Hok' & _). by apply IH.
Qed.

(** The constructor leaves a publisher that can be used or destroyed. *)
Lemma construct_spec cfg :
  wp construct (initial_world cfg) (λ _ w, publisher_ok w ∧ bodies (history w) = []).
Proof.
  unfold construct. wp_step. eapply wp_mono; [by apply connect_spec|].
  intros b w1 ((_ & _ & Hbod & _) & Hrun & Hb & _). wp_step.
  split; [split; cbn [obj history connected_ conn_]; naive_solver|done].
Qed.

Lemma publisher_life_spec cfg frames :
  wp (publisher_life frames) (initial_world cfg) (λ _ w', run (history w') = Some None).
Proof.
  unfold publisher_life, destruct_publisher. wp_step.
  eapply wp_mono; [apply construct_spec|]. intros _ w1 [Hok1 _]. wp_step.
  eapply wp_mono; [by apply publish_all_spec|].
  intros [] w2 Hok. eapply wp_mono; [by apply disconnect_spec, Hok|]. by intros [] w3 (_ & ? & _).
Qed.
End Publish.
End Publisher.

(** ** A concrete library: a broker that acknowledges every message *)
Definition friendly_amqp : Amqp := {|
  AMQP_STATUS_OK := 0; AMQP_STATUS_TIMEOUT := -13; AMQP_RESPONSE_NORMAL := 1;
  AMQP_REPLY_SUCCESS := 200; AMQP_SASL_METHOD_PLAIN := 0;
  AMQP_BASIC_DELIVERY_MODE_FLAG := 0x1000; AMQP_BASIC_CONTENT_TYPE_FLAG := 0x8000;
  AMQP_FRAME_METHOD := 1; AMQP_BASIC_ACK_METHOD := 0x003C0050; AMQP_BASIC_NACK_METHOD := 0x003C0078;
  amqp_new_connection _ := 4096;
  amqp_tcp_socket_new _ _ := 8192;
  amqp_socket_open _ _ _ _ := 0;
  amqp_socket_get_sockfd _ _ := 3;
  setsockopt_nodelay _ _ _ := 0;
  amqp_login _ _ _ _ _ _ _ _ _ := 1;
  amqp_get_rpc_reply _ _ := 1;
  amqp_basic_publish _ _ _ _ _ _ _ _ _ := 0;
  amqp_simple_wait_frame_noblock _ _ _ _ := mkWait 0 1 0x003C0050;
  stop_flag_load _ := false |}.

(** ** Properties *)

(** C10: the session protocol.  When the library can allocate a connection object
    each time it is asked to, then whatever else it and the broker answer, the
    publisher's whole life (construction, any frames, destruction) returns, makes
    the library calls in the order the session protocol allows, never uses a
    released connection, never holds two, and has released everything at the end.
    When an allocation fails, the code does not notice: the null pointer it got is
    passed on to [amqp_tcp_socket_new]. *)
Theorem publisher_session_safe `{NativeEndian} `{Amqp} cfg frames :
  ((∀ h, amqp_new_connection h ≠ 0) →
   ∃ w', publisher_life frames (initial_world cfg) = Ret (tt, w') ∧ run (history w') = Some None) ∧
  (∀ attempt w, amqp_new_connection (history w) = 0 →
   ∃ e w' sock, connect_attempt attempt w = Ret (e, w') ∧
     (history w ++ [NewConnection 0; TcpSocketNew 0 sock]) `prefix_of` history w').
Proof.
  split.
  - intros Hnew. destruct (wp_elim _ _ _ (publisher_life_spec Hnew cfg frames)) as ([] & w' & ? & ?). eauto.
  - intros attempt w Hnull.
    destruct (wp_elim _ _ _ (connect_attempt_null attempt w Hnull)) as (e & w' & Hr & sock & Hp). eauto.
Qed.

Lemma publisher_session_safe_witness :
  let _ : NativeEndian := LittleEndian in let _ := friendly_amqp in
  ∃ w', publisher_life [(demo_frame "a" 1 6 2 100 40 Inbound, empty_record, false)]
    (initial_world default_config) = Ret (tt, w') ∧ run (history w') = Some None.
Proof.
  intros ? ?. apply publisher_session_safe. intros h. discriminate.
Defined.


