(* ===== verification/Concurrency.v ===== *)
(** * The two threads (src/main.cpp, and the locking of src/utils/ring_buffer.cpp)

    The capture thread writes slots into the ring buffer, the pipeline thread
    reads them; both use one mutex, two condition variables and the stop flag,
    which the signal handler sets.  A state holds the ring and the program
    counter of each thread, between the lines of [RingBuffer::write],
    [RingBuffer::read], the loop of the pipeline thread and [signalHandler]; a
    step is one action of one thread.  The bodies of the critical sections are
    the functions of RingBuffer.v. *)

From S2P Require Import Prelude.
From S2P Require Import Bytes.
From S2P Require Import RingBuffer.

Inductive thread : Type := Producer | Consumer.

(** Where the capture thread is, with the slot it is writing:
    at the top of its loop; before the lock (on entry, or woken inside [wait]);
    about to evaluate the wait predicate; about to release the lock and block;
    in the wait set; behind the wait, with the value of the stop flag the
    predicate saw; about to notify; about to unlock; finished; after undefined
    behaviour. *)
Inductive producer_pc : Type :=
  | PIdle
  | PLock (f : list Z)
  | PCheck (f : list Z)
  | PEnter (f : list Z)
  | PWaiting (f : list Z)
  | PBody (f : list Z) (stopped : bool)
  | PNotify
  | PUnlock
  | PDone
  | PFault.

(** The same for the pipeline thread. *)
Inductive consumer_pc : Type :=
  | CIdle
  | CLock
  | CCheck
  | CEnter
  | CWaiting
  | CBody (stopped : bool)
  | CNotify
  | CUnlock
  | CDone
  | CFault.

(** The signal handler: not yet run, between its three statements, finished. *)
Inductive handler_pc : Type := HIdle | HNotifyData | HNotifySpace | HDone.

Record state : Type := mkState {
  ring : RingBuffer;
  mtx : option thread;
  stop : bool;
  ppc : producer_pc;
  cpc : consumer_pc;
  hpc : handler_pc;
  pending : list (list Z);   (** slots the network will still deliver *)
  written : list (list Z);   (** slots the producer stored, oldest first *)
  taken : list (list Z);     (** slots the consumer got, oldest first *)
}.

Definition set_ppc (s : state) (pc : producer_pc) : state :=
  mkState (ring s) (mtx s) (stop s) pc (cpc s) (hpc s) (pending s) (written s) (taken s).
Definition set_cpc (s : state) (pc : consumer_pc) : state :=
  mkState (ring s) (mtx s) (stop s) (ppc s) pc (hpc s) (pending s) (written s) (taken s).
Definition set_hpc (s : state) (pc : handler_pc) : state :=
  mkState (ring s) (mtx s) (stop s) (ppc s) (cpc s) pc (pending s) (written s) (taken s).
Definition set_mtx (s : state) (m : option thread) : state :=
  mkState (ring s) m (stop s) (ppc s) (cpc s) (hpc s) (pending s) (written s) (taken s).
Definition set_stop (s : state) : state :=
  mkState (ring s) (mtx s) true (ppc s) (cpc s) (hpc s) (pending s) (written s) (taken s).
Definition set_pending (s : state) (l : list (list Z)) : state :=
  mkState (ring s) (mtx s) (stop s) (ppc s) (cpc s) (hpc s) l (written s) (taken s).
Definition set_ring (s : state) (rb : RingBuffer) : state :=
  mkState rb (mtx s) (stop s) (ppc s) (cpc s) (hpc s) (pending s) (written s) (taken s).
Definition add_written (s : state) (f : list Z) : state :=
  mkState (ring s) (mtx s) (stop s) (ppc s) (cpc s) (hpc s) (pending s) (written s ++ [f]) (taken s).
Definition add_taken (s : state) (f : list Z) : state :=
  mkState (ring s) (mtx s) (stop s) (ppc s) (cpc s) (hpc s) (pending s) (written s) (taken s ++ [f]).

(** [notify_one] and [notify_all]: each condition variable has one waiter. *)
Definition notify_data (s : state) : state :=
  match cpc s with CWaiting => set_cpc s CLock | _ => s end.
Definition notify_space (s : state) : state :=
  match ppc s with PWaiting f => set_ppc s (PLock f) | _ => s end.

(** [size == 0 || size > SLOT_SIZE] *)
Definition bad_size (f : list Z) : bool :=
  (Z.of_nat (length f) =? 0) || (SLOT_SIZE <? Z.of_nat (length f)).

(** The actions of the capture thread: [write] on each slot it receives; at the
    top of its loops it may leave once the stop flag is set. *)
Definition producer_next (s : state) : list state :=
  match ppc s with
  | PIdle =>
      (if stop s then [set_ppc s PDone] else []) ++
      match pending s with
      | [] => []
      | f :: l => [set_pending (if bad_size f then s else set_ppc s (PLock f)) l]
      end
  | PLock f =>
      match mtx s with
      | None => [set_mtx (set_ppc s (PCheck f)) (Some Producer)]
      | Some _ => []
      end
  | PCheck f =>
      [set_ppc s (if negb (isFull (ring s)) || stop s then PBody f (stop s) else PEnter f)]
  | PEnter f => [set_mtx (set_ppc s (PWaiting f)) None]
  | PWaiting _ => []
  | PBody f b =>
      match RingBuffer_write (ring s) (mkStop b (stop s)) f (Z.of_nat (length f)) with
      | Ret (true, rb) => [add_written (set_ring (set_ppc s PNotify) rb) f]
      | Ret (false, rb) => [set_ring (set_ppc s PUnlock) rb]
      | _ => [set_ppc s PFault]
      end
  | PNotify => [notify_data (set_ppc s PUnlock)]
  | PUnlock => [set_mtx (set_ppc s PIdle) None]
  | PDone | PFault => []
  end.

(** The 2048 bytes of the caller's slot buffer. *)
Definition out_buffer : list Z := replicate 2048 0.

(** The actions of the pipeline thread: its loop tests the stop flag and reads. *)
Definition consumer_next (s : state) : list state :=
  match cpc s with
  | CIdle => [set_cpc s (if stop s then CDone else CLock)]
  | CLock =>
      match mtx s with
      | None => [set_mtx (set_cpc s CCheck) (Some Consumer)]
      | Some _ => []
      end
  | CCheck => [set_cpc s (if negb (isEmpty (ring s)) || stop s then CBody (stop s) else CEnter)]
  | CEnter => [set_mtx (set_cpc s CWaiting) None]
  | CWaiting => []
  | CBody b =>
      match RingBuffer_read (ring s) (mkStop b (stop s)) out_buffer 0 with
      | Ret r =>
          if rr_ok r
          then [add_taken (set_ring (set_cpc s CNotify) (rr_ring r)) (take (Z.to_nat (rr_size r)) (rr_data r))]
          else [set_ring (set_cpc s CUnlock) (rr_ring r)]
      | _ => [set_cpc s CFault]
      end
  | CNotify => [notify_space (set_cpc s CUnlock)]
  | CUnlock => [set_mtx (set_cpc s CIdle) None]
  | CDone | CFault => []
  end.

(** [signalHandler]: it takes no lock. *)
Definition handler_next (s : state) : list state :=
  match hpc s with
  | HIdle => [set_stop (set_hpc s HNotifyData)]
  | HNotifyData => [notify_data (set_hpc s HNotifySpace)]
  | HNotifySpace => [notify_space (set_hpc s HDone)]
  | HDone => []
  end.

(** A blocked thread may also wake up without a notification. *)
Definition spurious_next (s : state) : list state :=
  (match cpc s with CWaiting => [set_cpc s CLock] | _ => [] end) ++
  (match ppc s with PWaiting f => [set_ppc s (PLock f)] | _ => [] end).

Inductive step (s s' : state) : Prop :=
  | step_producer : s' ∈ producer_next s → step s s'
  | step_consumer : s' ∈ consumer_next s → step s s'
  | step_handler : s' ∈ handler_next s → step s s'
  | step_spurious : s' ∈ spurious_next s → step s s'.

Definition initial (rb : RingBuffer) (frames : list (list Z)) : state :=
  mkState rb None false PIdle CIdle HIdle frames [] [].

(** A fresh ring of some capacity, and the states reached from it. *)
Definition reachable (s : state) : Prop :=
  ∃ rb frames, ring_ok rb ∧ contents rb = [] ∧ rtc step (initial rb frames) s.

(** ** Invariant *)

Definition p_critical (pc : producer_pc) : bool :=
  match pc with PCheck _ | PEnter _ | PBody _ _ | PNotify | PUnlock => true | _ => false end.
Definition c_critical (pc : consumer_pc) : bool :=
  match pc with CCheck | CEnter | CBody _ | CNotify | CUnlock => true | _ => false end.

(** The thread that should hold the mutex. *)
Definition owner (pc : producer_pc) (cc : consumer_pc) : option thread :=
  if p_critical pc then Some Producer else if c_critical cc then Some Consumer else None.

Definition producer_inv (s : state) : Prop :=
  match ppc s with
  | PLock f | PCheck f => bad_size f = false
  | PEnter f => bad_size f = false ∧ isFull (ring s) = true
  | PWaiting f =>
      bad_size f = false ∧ match cpc s with CNotify => True | _ => isFull (ring s) = true end
  | PBody f b => bad_size f = false ∧ (b = true → stop s = true) ∧ (isFull (ring s) = true → b = true)
  | PDone => stop s = true
  | PFault => False
  | _ => True
  end.

Definition consumer_inv (s : state) : Prop :=
  match cpc s with
  | CEnter => isEmpty (ring s) = true
  | CWaiting => match ppc s with PNotify => True | _ => isEmpty (ring s) = true end
  | CBody b => (b = true → stop s = true) ∧ (isEmpty (ring s) = true → b = true)
  | CDone => stop s = true
  | CFault => False
  | _ => True
  end.

Record inv (s : state) : Prop := {
  inv_ring : ring_ok (ring s);
  inv_mtx : mtx s = owner (ppc s) (cpc s);
  inv_excl : p_critical (ppc s) && c_critical (cpc s) = false;
  inv_fifo : written s = taken s ++ contents (ring s);
  inv_stop : stop s = match hpc s with HIdle => false | _ => true end;
  inv_p : producer_inv s;
  inv_c : consumer_inv s;
}.

(** ** Lemmas *)

(** The critical section of [write], entered when its predicate held. *)
Lemma write_body rb f b st :
  ring_ok rb → bad_size f = false → (b = true → st = true) → (isFull rb = true → b = true) →
  (isFull rb = true ∧ st = true ∧
     RingBuffer_write rb (mkStop b st) f (Z.of_nat (length f)) = Ret (false, rb)) ∨
  (∃ rb', RingBuffer_write rb (mkStop b st) f (Z.of_nat (length f)) = Ret (true, rb') ∧
     ring_ok rb' ∧ contents rb' = contents rb ++ [f]).
Proof.
  intros Hok Hf Hmono Hb.
  pose proof (RingBuffer_write_queue rb (mkStop b st) f (Z.of_nat (length f)) Hok Hmono ltac:(lia)) as Hw.
  rewrite Nat2Z.id, take_ge in Hw by lia. unfold queue_write in Hw. unfold bad_size in Hf. rewrite Hf in Hw.
  rewrite length_contents in Hw by done. cbn [stop_wait] in Hw.
  destruct (Z.ltb_spec (count_ rb) (capacity_ rb)) as [Hlt|Hge].
  - right. destruct Hw as (rb' & ? & ? & ? & _). eauto.
  - left. pose proof (ok_count rb Hok). assert (isFull rb = true) as Hfull by (apply Z.eqb_eq; lia).
    split_and!; [done|auto|]. rewrite RingBuffer_write_full by done. cbn [stop_wait]. by rewrite (Hb Hfull).
Qed.

Lemma contents_empty rb : ring_ok rb → isEmpty rb = true ↔ contents rb = [].
Proof.
  intros Hok. unfold isEmpty. rewrite Z.eqb_eq. pose proof (length_contents rb Hok) as Hl.
  split; [|intros E; rewrite E in Hl; simpl in Hl; lia].
  intros E. apply length_zero_iff_nil. lia.
Qed.

(** The critical section of [read]. *)
Lemma read_body rb b st :
  ring_ok rb → (b = true → st = true) → (isEmpty rb = true → b = true) →
  (isEmpty rb = true ∧ st = true ∧
     RingBuffer_read rb (mkStop b st) out_buffer 0 = Ret (mkRingRead false out_buffer 0 rb)) ∨
  (∃ f r, RingBuffer_read rb (mkStop b st) out_buffer 0 = Ret r ∧ rr_ok r = true ∧
     take (Z.to_nat (rr_size r)) (rr_data r) = f ∧ ring_ok (rr_ring r) ∧
     contents rb = f :: contents (rr_ring r)).
Proof.
  intros Hok Hmono Hb.
  pose proof (RingBuffer_read_queue rb (mkStop b st) out_buffer 0 Hok Hmono) as Hr.
  specialize (Hr ltac:(unfold out_buffer, SLOT_SIZE; rewrite length_replicate; lia)).
  destruct (contents rb) as [|f q] eqn:Hc; cbn [queue_read stop_wait] in Hr.
  - left. apply contents_empty in Hc; [|done]. pose proof (Hb Hc) as ->. auto.
  - right. destruct Hr as (rb' & Hr & Hok' & Hq & _). eexists f, _. split; [exact Hr|]. cbn.
    split_and!; [done| |done|by rewrite Hq].
    rewrite Nat2Z.id. exact (take_app_length f _).
Qed.

(** Case analysis on the members of an explicit list of successors. *)
Ltac successor H :=
  repeat first
    [ apply elem_of_nil in H; destruct H
    | apply elem_of_cons in H; destruct H as [->|H]
    | apply elem_of_app in H; destruct H as [H|H] ].

Lemma inv_initial rb frames : ring_ok rb → contents rb = [] → inv (initial rb frames).
Proof. intros Hok Hc. by split. Qed.

(** Open a state of the invariant into its fields. *)
Ltac open_inv s H :=
  destruct H as [Hok Hmtx Hexcl Hfifo Hstop Pinv Cinv];
  destruct s as [rb m st pc cc hc pend wr tk];
  unfold producer_inv, consumer_inv in *; simpl in *.

(** The invariant of a successor, field by field, for each place of the other
    thread. *)
Ltac close_inv pc :=
  destruct pc; simpl in *; try discriminate; split; unfold producer_inv, consumer_inv; simpl in *;
  destruct_and?; try done; try tauto; try (split_and?; congruence).

Lemma inv_producer s s' : inv s → s' ∈ producer_next s → inv s'.
Proof.
  intros H Hin. unfold producer_next in Hin.
  destruct (ppc s) eqn:Epc; [open_inv s H; subst pc..|].
  - destruct st, pend as [|f pend]; simpl in Hin; successor Hin; try destruct (bad_size f) eqn:?; close_inv cc.
  - destruct m; successor Hin. close_inv cc.
  - successor Hin. destruct (isFull rb) eqn:?, st; simpl in *; close_inv cc.
  - successor Hin. close_inv cc.
  - successor Hin.
  - destruct Pinv as (Hsz & Hmono & Hfull).
    destruct (write_body rb f stopped st Hok Hsz Hmono Hfull) as [(? & ? & Hw)|(rb' & Hw & Hok' & Hcon)];
      rewrite Hw in Hin; successor Hin; close_inv cc; by rewrite Hfifo, Hcon, app_assoc.
  - successor Hin. unfold notify_data. close_inv cc.
  - successor Hin. close_inv cc.
  - successor Hin.
  - destruct H as [_ _ _ _ _ Pinv _]. unfold producer_inv in Pinv. by rewrite Epc in Pinv.
Qed.

Lemma inv_consumer s s' : inv s → s' ∈ consumer_next s → inv s'.
Proof.
  intros H Hin. unfold consumer_next in Hin.
  destruct (cpc s) eqn:Ecc; [open_inv s H; subst cc..|].
  - successor Hin. destruct st; close_inv pc.
  - destruct m; successor Hin. close_inv pc.
  - successor Hin. destruct (isEmpty rb) eqn:?, st; simpl in *; close_inv pc.
  - successor Hin. close_inv pc.
  - successor Hin.
  - destruct Cinv as (Hmono & Hempty).
    destruct (read_body rb stopped st Hok Hmono Hempty)
      as [(? & ? & Hr)|(f & r & Hr & Hrok & Hf & Hok' & Hcon)]; rewrite Hr in Hin.
    + successor Hin. close_inv pc.
    + rewrite Hrok in Hin. successor Hin. close_inv pc; by rewrite Hfifo, Hcon, Hf, <- app_assoc.
  - successor Hin. unfold notify_space. close_inv pc.
  - successor Hin. close_inv pc.
  - successor Hin.
  - destruct H as [_ _ _ _ _ _ Cinv]. unfold consumer_inv in Cinv. by rewrite Ecc in Cinv.
Qed.

Lemma inv_handler s s' : inv s → s' ∈ handler_next s → inv s'.
Proof.
  intros H Hin. unfold handler_next in Hin. open_inv s H.
  destruct hc; successor Hin; unfold notify_data, notify_space; simpl.
  - destruct pc; close_inv cc.
  - destruct pc; close_inv cc.
  - destruct pc; close_inv cc.
Qed.

Lemma inv_spurious s s' : inv s → s' ∈ spurious_next s → inv s'.
Proof.
  intros H Hin. unfold spurious_next in Hin. open_inv s H.
  apply elem_of_app in Hin as [Hin|Hin].
  - destruct cc; successor Hin. close_inv pc.
  - destruct pc; successor Hin. close_inv cc.
Qed.

Lemma inv_step s s' : inv s → step s s' → inv s'.
Proof. intros H []; eauto using inv_producer, inv_consumer, inv_handler, inv_spurious. Qed.

Lemma reachable_inv s : reachable s → inv s.
Proof.
  intros (rb & frames & Hok & Hc & Hsteps). pose proof (inv_initial rb frames Hok Hc) as Hi.
  induction Hsteps; eauto using inv_step.
Qed.

(** *** Shutdown *)

(** A step of one of the two threads. *)
Definition thread_step (s s' : state) : Prop := s' ∈ producer_next s ++ consumer_next s.

(** Neither thread is blocked or about to block. *)
Definition not_waiting (s : state) : bool :=
  match ppc s with PEnter _ | PWaiting _ => false | _ => true end &&
  match cpc s with CEnter | CWaiting => false | _ => true end.

(** How many steps the threads have left once the stop flag is set. *)
Definition steps_left (s : state) : nat :=
  (match ppc s with
   | PLock _ => 6 | PCheck _ => 5 | PBody _ _ => 4 | PNotify => 3 | PUnlock => 2 | PIdle => 1 | _ => 0
   end + 7 * length (pending s) +
   match cpc s with
   | CLock => 6 | CCheck => 5 | CBody _ => 4 | CNotify => 3 | CUnlock => 2 | CIdle => 1 | _ => 0
   end)%nat.

Lemma shutdown_step s s' :
  inv s → stop s = true → not_waiting s = true → thread_step s s' →
  inv s' ∧ stop s' = true ∧ not_waiting s' = true ∧ (steps_left s' < steps_left s)%nat.
Proof.
  intros Hinv Hset Hnw Hin. apply elem_of_app in Hin as [Hin|Hin];
    (split; [eauto using inv_producer, inv_consumer|]).
  - unfold producer_next in Hin. open_inv s Hinv. unfold not_waiting, steps_left in *. clear Hstop. subst st.
    destruct pc; simpl in *; try discriminate.
    + destruct pend as [|f pend]; simpl in Hin; successor Hin; try destruct (bad_size f); simpl; split_and!; try done; lia.
    + destruct m; successor Hin. simpl. split_and!; try done; lia.
    + rewrite orb_true_r in Hin. successor Hin. simpl. split_and!; try done; lia.
    + destruct Pinv as (Hsz & Hmono & Hfull).
      destruct (write_body rb f stopped true Hok Hsz Hmono Hfull) as [(? & ? & Hw)|(rb' & Hw & Hok' & Hcon)];
        rewrite Hw in Hin; successor Hin; simpl; split_and!; try done; lia.
    + successor Hin. unfold notify_data. destruct cc; try discriminate; simpl; split_and!; try done; lia.
    + successor Hin. simpl. split_and!; try done; lia.
    + successor Hin.
    + done.
  - unfold consumer_next in Hin. open_inv s Hinv. unfold not_waiting, steps_left in *. clear Hstop. subst st.
    apply andb_true_iff in Hnw as [Hnp Hnc].
    destruct cc; simpl in *; try discriminate.
    + successor Hin. simpl. rewrite Hnp. split_and!; try done; lia.
    + destruct m; successor Hin. simpl. rewrite Hnp. split_and!; try done; lia.
    + rewrite orb_true_r in Hin. successor Hin. simpl. rewrite Hnp. split_and!; try done; lia.
    + destruct Cinv as (Hmono & Hempty).
      destruct (read_body rb stopped true Hok Hmono Hempty)
        as [(? & ? & Hr)|(f & r & Hr & Hrok & Hf & Hok' & Hcon)]; rewrite Hr in Hin;
        [|rewrite Hrok in Hin]; successor Hin; simpl; rewrite Hnp; split_and!; try done; lia.
    + successor Hin. unfold notify_space. destruct pc; try discriminate; simpl; split_and!; try done; lia.
    + successor Hin. simpl. rewrite Hnp. split_and!; try done; lia.
    + successor Hin.
    + done.
Qed.

(** No thread of a state of the invariant is stuck, but for those that wait
    for input or are finished. *)
Lemma stuck_cases s :
  inv s → producer_next s = [] → consumer_next s = [] →
  (ppc s = PIdle ∧ pending s = [] ∧ stop s = false ∨ ppc s = PDone ∨ ∃ f, ppc s = PWaiting f) ∧
  (cpc s = CDone ∨ cpc s = CWaiting).
Proof.
  intros Hinv Hp Hc. open_inv s Hinv. unfold producer_next, consumer_next in *. simpl in *.
  assert (p_critical pc = false) as Hpc.
  { destruct pc; try done. destruct Pinv as (Hsz & Hmono & Hfull).
    by destruct (write_body rb f stopped st Hok Hsz Hmono Hfull) as [(? & ? & Hw)|(rb' & Hw & _)];
      rewrite Hw in Hp. }
  assert (c_critical cc = false) as Hcc.
  { destruct cc; try done. destruct Cinv as (Hmono & Hempty).
    destruct (read_body rb stopped st Hok Hmono Hempty) as [(? & ? & Hr)|(f & r & Hr & Hrok & _)];
      rewrite Hr in Hc; [done|by rewrite Hrok in Hc]. }
  unfold owner in Hmtx. rewrite Hpc, Hcc in Hmtx. subst m. split.
  - destruct pc; try done; [|by right; right; eauto|by right; left].
    left. destruct st, pend; done.
  - destruct cc; auto; done.
Qed.

(** *** Delivery before the stop request *)

(** How many steps the threads have left with the packets at hand, when the stop
    flag is not set: a pending slot, a stored slot and each place of a thread
    have a weight that pays for the steps to come, the wake-up of the other
    thread included. *)
Definition work_left (s : state) : nat :=
  (18 * length (pending s) + 9 * length (contents (ring s)) +
   match ppc s with
   | PLock _ => 17 | PCheck _ => 16 | PBody _ _ => 15 | PEnter _ => 15 | PWaiting _ => 14
   | PNotify => 5 | PUnlock => 1 | _ => 0
   end +
   match cpc s with
   | CNotify => 9 | CUnlock => 5 | CIdle => 4 | CLock => 3 | CCheck => 2 | CBody _ => 1 | CEnter => 1 | _ => 0
   end)%nat.

(** The slots that will have been taken in the end, in order. *)
Definition in_hand (pc : producer_pc) : list (list Z) :=
  match pc with PLock f | PCheck f | PEnter f | PWaiting f | PBody f _ => [f] | _ => [] end.
Definition deliveries (s : state) : list (list Z) :=
  taken s ++ contents (ring s) ++ in_hand (ppc s) ++ filter (λ f, bad_size f = false) (pending s).

(** What a step of a thread preserves and uses up. *)
Definition works (s s' : state) : Prop :=
  stop s' = false ∧ (work_left s' < work_left s)%nat ∧ deliveries s' = deliveries s.

(** Evaluate the measures on a successor. *)
Ltac solve_works :=
  unfold works, work_left, deliveries in *; cbn [stop pending ring ppc cpc taken in_hand length app
    set_ppc set_cpc set_mtx set_pending set_ring add_written add_taken] in *;
  split_and?; [done|simpl; lia|done].

Lemma producer_works s s' : inv s → stop s = false → s' ∈ producer_next s → works s s'.
Proof.
  intros Hinv Hs Hin. unfold producer_next in Hin. open_inv s Hinv. clear Hstop. subst st.
  destruct pc; simpl in Hin.
  - destruct pend as [|f pend]; successor Hin. destruct (bad_size f) eqn:Hb.
    + unfold works, work_left, deliveries. simpl. rewrite filter_cons, decide_False by congruence.
      split_and!; [done|lia|done].
    + unfold works, work_left, deliveries. simpl. rewrite filter_cons, decide_True by done.
      split_and!; [done|lia|done].
  - destruct m; successor Hin. solve_works.
  - rewrite orb_false_r in Hin. successor Hin. destruct (negb (isFull rb)); solve_works.
  - successor Hin. solve_works.
  - successor Hin.
  - destruct Pinv as (Hsz & Hmono & Hfull).
    destruct (write_body rb f stopped false Hok Hsz Hmono Hfull) as [(? & ? & Hw)|(rb' & Hw & Hok' & Hcon)];
      [done|]. rewrite Hw in Hin. successor Hin. unfold works, work_left, deliveries. simpl.
    rewrite Hcon, length_app. simpl. split_and!; [done|lia|by rewrite <- !app_assoc].
  - successor Hin. unfold notify_data. destruct cc; solve_works.
  - successor Hin. solve_works.
  - successor Hin.
  - done.
Qed.

Lemma consumer_works s s' : inv s → stop s = false → s' ∈ consumer_next s → works s s'.
Proof.
  intros Hinv Hs Hin. unfold consumer_next in Hin. open_inv s Hinv. clear Hstop. subst st.
  destruct cc; simpl in Hin.
  - successor Hin. solve_works.
  - destruct m; successor Hin. solve_works.
  - rewrite orb_false_r in Hin. successor Hin. destruct (negb (isEmpty rb)); solve_works.
  - successor Hin. solve_works.
  - successor Hin.
  - destruct Cinv as (Hmono & Hempty).
    destruct (read_body rb stopped false Hok Hmono Hempty)
      as [(? & ? & Hr)|(f & r & Hr & Hrok & Hf & Hok' & Hcon)]; [done|].
    rewrite Hr, Hrok in Hin. successor Hin. unfold works, work_left, deliveries. simpl.
    rewrite Hf, Hcon. simpl. split_and!; [done|lia|by rewrite <- !app_assoc].
  - successor Hin. unfold notify_space. destruct pc; solve_works.
  - successor Hin. solve_works.
  - successor Hin.
  - done.
Qed.

Lemma thread_step_works s s' : inv s → stop s = false → thread_step s s' → inv s' ∧ works s s'.
Proof.
  intros Hinv Hs [Hin|Hin]%elem_of_app;
    eauto using inv_producer, inv_consumer, producer_works, consumer_works.
Qed.

(** When neither thread can move, everything is delivered. *)
Lemma stuck_delivered s :
  inv s → stop s = false → producer_next s = [] → consumer_next s = [] →
  ppc s = PIdle ∧ pending s = [] ∧ cpc s = CWaiting ∧ contents (ring s) = [].
Proof.
  intros Hinv Hs Hp Hc. destruct (stuck_cases s Hinv Hp Hc) as [Hpc Hcc].
  destruct Hinv as [Hok Hmtx Hexcl Hfifo _ Pinv Cinv]. unfold producer_inv, consumer_inv in *.
  destruct Hcc as [E|E]; rewrite E in *; [congruence|].
  destruct Hpc as [(Ep & Epend & _)|[Ep|[f Ep]]]; rewrite Ep in *.
  - apply contents_empty in Cinv; [|done]. auto.
  - congruence.
  - destruct Pinv as [_ Hfull]. unfold isFull, isEmpty in *. apply Z.eqb_eq in Hfull, Cinv.
    pose proof (ok_capacity _ Hok). lia.
Qed.

(** Before the stop request the runs of the two threads are bounded, and end with
    everything delivered. *)
Lemma run_bounded n s s' :
  inv s → stop s = false → nsteps thread_step n s s' → (n ≤ work_left s)%nat.
Proof.
  intros Hinv Hs Hn. revert Hinv Hs. induction Hn as [s|n s s1 s' Hst _ IH]; intros Hinv Hs; [lia|].
  destruct (thread_step_works s s1 Hinv Hs Hst) as (Hinv1 & Hs1 & Hlt & _). specialize (IH Hinv1 Hs1). lia.
Qed.

Lemma run_delivers s s' :
  inv s → stop s = false → rtc thread_step s s' → producer_next s' = [] → consumer_next s' = [] →
  taken s' = deliveries s ∧ pending s' = [] ∧ ppc s' = PIdle ∧ cpc s' = CWaiting.
Proof.
  intros Hinv Hs Hr Hp Hc.
  assert (inv s' ∧ stop s' = false ∧ deliveries s' = deliveries s) as (Hinv' & Hs' & <-).
  { revert Hinv Hs. induction Hr as [s|s s1 s' Hst _ IH]; intros Hinv Hs; [done|].
    destruct (thread_step_works s s1 Hinv Hs Hst) as (Hinv1 & Hs1 & _ & Hd).
    destruct (IH Hp Hc Hinv1 Hs1) as (? & ? & ?). split_and!; congruence. }
  destruct (stuck_delivered s' Hinv' Hs' Hp Hc) as (Epc & Epend & Ecc & Econ).
  unfold deliveries. rewrite Epc, Epend, Econ. by rewrite !app_nil_r.
Qed.

(** *** Runs *)

Lemma step_c s s' : consumer_next s = [s'] → step s s'.
Proof. intros E. apply step_consumer. rewrite E. left. Qed.
Lemma step_p s s' : producer_next s = [s'] → step s s'.
Proof. intros E. apply step_producer. rewrite E. left. Qed.
Lemma step_h s s' : handler_next s = [s'] → step s s'.
Proof. intros E. apply step_handler. rewrite E. left. Qed.

(** The run in which the threads of a list move one after the other, each with
    its first possible action. *)
Fixpoint drive (l : list thread) (s : state) : option state :=
  match l with
  | [] => Some s
  | t :: l' =>
      s' ← head (match t with Producer => producer_next s | Consumer => consumer_next s end);
      drive l' s'
  end.

Lemma drive_rtc l s s' : drive l s = Some s' → rtc step s s'.
Proof.
  revert s. induction l as [|t l IH]; intros s Hd; cbn [drive] in Hd; [by injection Hd as ->|].
  apply bind_Some in Hd as (s1 & Hh & Hd). apply (rtc_l _ _ s1); [|by apply IH].
  destruct t; [apply step_producer|apply step_consumer]; by apply head_Some_elem_of.
Qed.

Section Runs.
Context (rb : RingBuffer).
Hypothesis Hok : ring_ok rb.
Hypothesis Hempty : contents rb = [].

(** The pipeline thread goes to the point before it blocks. *)
Lemma run_to_enter : rtc step (initial rb []) (mkState rb (Some Consumer) false PIdle CEnter HIdle [] [] []).
Proof.
  apply (rtc_l _ _ (mkState rb None false PIdle CLock HIdle [] [] [])); [by apply step_c|].
  apply (rtc_l _ _ (mkState rb (Some Consumer) false PIdle CCheck HIdle [] [] [])); [by apply step_c|].
  apply rtc_once, step_c. unfold consumer_next. cbn.
  by rewrite (proj2 (contents_empty rb Hok) Hempty).
Qed.

(** It blocks; nothing arrives. *)
Lemma quiet_reachable : reachable (mkState rb None false PIdle CWaiting HIdle [] [] []).
Proof.
  exists rb, []. split_and!; [done..|]. eapply rtc_r; [apply run_to_enter|]. by apply step_c.
Qed.

(** Before it blocks, the handler sets the flag and notifies nobody; then it
    blocks, and the capture thread leaves. *)
Definition lost_wakeup_state : state := mkState rb None true PDone CWaiting HDone [] [] [].

Lemma lost_wakeup_reachable : reachable lost_wakeup_state.
Proof.
  exists rb, []. split_and!; [done..|]. etransitivity; [apply run_to_enter|].
  apply (rtc_l _ _ (mkState rb (Some Consumer) true PIdle CEnter HNotifyData [] [] [])); [by apply step_h|].
  apply (rtc_l _ _ (mkState rb (Some Consumer) true PIdle CEnter HNotifySpace [] [] [])); [by apply step_h|].
  apply (rtc_l _ _ (mkState rb (Some Consumer) true PIdle CEnter HDone [] [] [])); [by apply step_h|].
  apply (rtc_l _ _ (mkState rb None true PIdle CWaiting HDone [] [] [])); [by apply step_c|].
  by apply rtc_once, step_p.
Qed.

(** The handler runs before the threads start. *)
Definition stopping_state : state := mkState rb None true PIdle CIdle HDone [] [] [].

Lemma stopping_reachable : reachable stopping_state.
Proof.
  exists rb, []. split_and!; [done..|].
  apply (rtc_l _ _ (mkState rb None true PIdle CIdle HNotifyData [] [] [])); [by apply step_h|].
  apply (rtc_l _ _ (mkState rb None true PIdle CIdle HNotifySpace [] [] [])); [by apply step_h|].
  by apply rtc_once, step_h.
Qed.
End Runs.

(** ** Properties *)

(** C2: under every interleaving of the capture thread, the pipeline thread and
    the signal handler, with spurious wake-ups: the two threads are never both
    inside a critical section, neither runs into undefined behaviour, the ring
    invariant holds, and the slots taken so far followed by the slots in the
    ring are exactly the slots written, in order. *)
Theorem threads_safe (s : state) :
  reachable s →
  p_critical (ppc s) && c_critical (cpc s) = false ∧ ppc s ≠ PFault ∧ cpc s ≠ CFault ∧
  ring_ok (ring s) ∧ written s = taken s ++ contents (ring s).
Proof.
  intros [Hok Hmtx Hexcl Hfifo _ Pinv Cinv]%reachable_inv. split_and!; try done.
  - intros E. unfold producer_inv in Pinv. by rewrite E in Pinv.
  - intros E. unfold consumer_inv in Cinv. by rewrite E in Cinv.
Qed.

Lemma threads_safe_witness :
  reachable (lost_wakeup_state demo_ring) ∧ cpc (lost_wakeup_state demo_ring) ≠ CFault.
Proof.
  pose proof (lost_wakeup_reachable demo_ring demo_ring_ok eq_refl) as Hr. split; [exact Hr|].
  exact (proj1 (proj2 (proj2 (threads_safe _ Hr)))).
Defined.

(** C14: before the stop request nothing gets stuck and nothing is lost: from any
    reachable state, with the packets still to come, every run of the two
    threads is bounded, and when neither can move any more exactly the slots
    already taken, those in the ring, the one in the capture thread's hand and
    the acceptable ones to come have been taken by the pipeline thread, in this
    order, and the two threads wait for input.  (A spurious wake-up costs at
    most a round through the lock and is left out of the bound.) *)
Theorem delivery_completes (s : state) :
  reachable s → stop s = false →
  (∀ n s', nsteps thread_step n s s' → (n ≤ work_left s)%nat) ∧
  (∀ s', rtc thread_step s s' → producer_next s' = [] → consumer_next s' = [] →
     taken s' = deliveries s ∧ pending s' = [] ∧ ppc s' = PIdle ∧ cpc s' = CWaiting).
Proof.
  intros Hinv%reachable_inv Hs. split; intros *; [by apply run_bounded|by apply run_delivers].
Qed.

(** From the start with a good and an empty slot to come. *)
Lemma delivery_completes_witness :
  let s := initial demo_ring [[1; 2]; []] in
  reachable s ∧ (∀ n s', nsteps thread_step n s s' → (n ≤ 40)%nat) ∧
  ∀ s', rtc thread_step s s' → producer_next s' = [] → consumer_next s' = [] → taken s' = [[1; 2]].
Proof.
  intros s. assert (reachable s) as Hr.
  { exists demo_ring, [[1; 2]; []]. split; [exact demo_ring_ok|]. split; [reflexivity|constructor]. }
  destruct (delivery_completes s Hr eq_refl) as [Hb Hd]. split; [exact Hr|]. split; [exact Hb|].
  intros s' Hs' Hp Hc. exact (proj1 (Hd s' Hs' Hp Hc)).
Defined.

(** C38: the handler sets the flag and notifies without the mutex, so a shutdown
    can be lost: a reachable state in which the handler has finished, the
    capture thread has left, and the pipeline thread is blocked for good, since
    nothing is left that would notify it ([main] then never returns from
    [t2.join()]). *)
Theorem shutdown_wakeup_can_be_lost (rb : RingBuffer) :
  ring_ok rb → contents rb = [] →
  ∃ s, reachable s ∧ stop s = true ∧ hpc s = HDone ∧ ppc s = PDone ∧ cpc s = CWaiting ∧
    producer_next s = [] ∧ consumer_next s = [] ∧ handler_next s = [].
Proof.
  intros Hok Hempty. exists (lost_wakeup_state rb). split; [by apply lost_wakeup_reachable|].
  by split_and!.
Qed.

Lemma shutdown_wakeup_can_be_lost_witness :
  ring_ok demo_ring ∧ ∃ s, reachable s ∧ stop s = true ∧ hpc s = HDone ∧ ppc s = PDone ∧
    cpc s = CWaiting ∧ producer_next s = [] ∧ consumer_next s = [] ∧ handler_next s = [].
Proof.
  split; [exact demo_ring_ok|]. exact (shutdown_wakeup_can_be_lost demo_ring demo_ring_ok eq_refl).
Defined.

(** C31: apart from that window the shutdown terminates: once the stop flag is set
    and neither thread is blocked or about to block, every run of the two
    threads is bounded, and when none can move any more both have finished. *)
Theorem shutdown_completes (s : state) :
  reachable s → stop s = true → not_waiting s = true →
  (∀ n s', nsteps thread_step n s s' → (n ≤ steps_left s)%nat) ∧
  (∀ s', rtc thread_step s s' → (∀ s'', ¬ thread_step s' s'') → ppc s' = PDone ∧ cpc s' = CDone).
Proof.
  intros Hinv%reachable_inv Hs Hnw. split.
  - intros n s' Hn. revert Hinv Hs Hnw. induction Hn as [s|n s s1 s' Hst _ IH]; intros Hinv Hs Hnw; [lia|].
    destruct (shutdown_step s s1 Hinv Hs Hnw Hst) as (H1 & H2 & H3 & H4). specialize (IH H1 H2 H3). lia.
  - intros s' Hr Hstuck.
    assert (inv s' ∧ stop s' = true ∧ not_waiting s' = true) as (Hinv' & Hs' & Hnw').
    { revert Hinv Hs Hnw. induction Hr as [s|s s1 s' Hst _ IH]; intros Hinv Hs Hnw; [done|].
      destruct (shutdown_step s s1 Hinv Hs Hnw Hst) as (H1 & H2 & H3 & _). by apply IH. }
    assert (producer_next s' ++ consumer_next s' = []) as [Hp Hc]%app_nil.
    { destruct (producer_next s' ++ consumer_next s') as [|s'' l] eqn:E; [done|].
      exfalso. apply (Hstuck s''). unfold thread_step. rewrite E. left. }
    unfold not_waiting in Hnw'. apply andb_true_iff in Hnw' as [Hnp Hnc].
    destruct (stuck_cases s' Hinv' Hp Hc) as [[(_ & _ & ?)|[?|[f E]]] [?|E']]; try done; try congruence;
      try (rewrite E in Hnp; done); rewrite E' in Hnc; done.
Qed.

Lemma shutdown_completes_witness :
  not_waiting (stopping_state demo_ring) = true ∧
  ∀ n s', nsteps thread_step n (stopping_state demo_ring) s' → (n ≤ 2)%nat.
Proof.
  split; [reflexivity|].
  exact (proj1 (shutdown_completes (stopping_state demo_ring)
    (stopping_reachable demo_ring demo_ring_ok eq_refl) eq_refl eq_refl)).
Defined.
