(* ===== verification/CaptureSession.v ===== *)
(** * The capture loop (src/capture/capture_session.cpp)

    [captureLoop] waits on an epoll descriptor, drains the socket in batches of
    64 and hands every frame to the packet buffer.  The kernel, the clock and the
    stop flag are parameters; each system call is recorded with its answer.  The
    buffer is any [PacketSink], and what the other thread does to it before a
    write is a parameter as well. *)

From stdpp Require Import sorting.
From S2P Require Import Prelude.
From S2P Require Import Bytes.
From S2P Require Import Format.
From S2P Require Import Logger.
From S2P Require Import RingBuffer.
From S2P Require Import PacketBuffer.
From S2P Require Import Effects.

Definition BATCH_DRAIN : Z := 64.
Definition EPOLL_TIMEOUT_MS : Z := 200.
Definition FRAME_BUF_SIZE : Z := 2040.

(** What [recvfrom] finds: an error, or the packet at the head of the queue, of
    which it copies as much as fits. *)
Inductive recv_result : Type := RecvError (errno : Z) | RecvPacket (p : list Z).

Inductive event : Type :=
  | EpollCreate (fd errno : Z)
  | EpollCtlAdd (epoll_fd fd rc errno : Z)
  | EpollWait (epoll_fd timeout n errno : Z)
  | RecvFrom (fd : Z) (r : recv_result)
  | Close (fd : Z)
  | LoadStop (b : bool)
  | Buffered (clock_ms : Z) (frame : list Z) (s : stop_loads) (ok : bool).

Class Kernel := {
  EINTR : Z;
  EAGAIN : Z;
  EWOULDBLOCK : Z;
  strerror : Z → string;
  epoll_create1 : list event → Z * Z;
  epoll_ctl_add : list event → Z → Z → Z * Z;
  epoll_wait : list event → Z → Z * Z;
  recvfrom : list event → Z → recv_result;
  stop_flag_load : list event → bool;
  (** during [packet_buf.write]: the clock, the indeterminate stack bytes, the
      loads of the stop flag *)
  clock_ms : list event → Z;
  stack_bytes : list event → list Z;
  write_loads : list event → stop_loads;
}.

(** The shared buffer and the local array [frame_buf]. *)
Record capture_state (B : Type) : Type := mkCapture { packet_buf : B; frame_buf : list Z }.
Arguments mkCapture {B}.
Arguments packet_buf {B}.
Arguments frame_buf {B}.

Abbreviation CapWorld B := (World (capture_state B) event).
Abbreviation CapM B := (M (capture_state B) event).
Local Open Scope effect_scope.

Section Capture.
Context `{Kernel} `{PacketSink B}.
(** What the other thread has done to the buffer by the time a wait in [write]
    ends. *)
Context (other_thread : list event → B → outcome B).

(** [packet_buf.write(frame_buf, bytes)] *)
Definition buffer_write (size : Z) : CapM B bool := λ w,
  let h := history w in
  let s := write_loads h in
  let data := frame_buf (obj w) in
  pb ← other_thread h (packet_buf (obj w));
  '(ok, pb) ← sk_write pb s (clock_ms h) (stack_bytes h) data size;
  Ret (ok, mkWorld (mkCapture pb data)
    (h ++ [Buffered (clock_ms h) (take (Z.to_nat size) data) s ok]) (log w)).

(** [recvfrom] into [frame_buf]: the byte count, or minus one and [errno]. *)
Definition recv_into (fd : Z) : CapM B (Z * Z) :=
  let! r := ask (λ h, recvfrom h fd) (RecvFrom fd) in
  match r with
  | RecvError errno => ret (-1, errno)
  | RecvPacket p =>
      let data := take (Z.to_nat FRAME_BUF_SIZE) p in
      let! st := get in
      put (mkCapture (packet_buf st) (splice (frame_buf st) 0 data));;
      ret (Z.of_nat (length data), 0)
  end.

(** How the [for] loop is left: by a break or its end, with [keep_draining], or
    by [goto cleanup]. *)
Inductive batch_end : Type := Drained (keep_draining : bool) | Cleanup.

(** [n] iterations left, the next one being number [i]. *)
Fixpoint batch (n : nat) (fd i : Z) (keep_draining : bool) : CapM B batch_end :=
  match n with
  | O => ret (Drained keep_draining)
  | S n' =>
      let! got := recv_into fd in
      let bytes := got.1 in
      let errno := got.2 in
      if bytes <? 0 then
        if (errno =? EAGAIN) || (errno =? EWOULDBLOCK) then ret (Drained keep_draining)
        else
          say (log_error ("captureLoop: recvfrom error: " +:+ strerror errno));;
          ret (Drained keep_draining)
      else if bytes =? 0 then ret (Drained keep_draining)
      else
        let! ok := buffer_write bytes in
        if negb ok then
          let! stop := ask stop_flag_load LoadStop in
          if stop then ret Cleanup
          else
            say (log_warn ("captureLoop: frame dropped (size=" +:+ to_string bytes +:+ ")"));;
            batch n' fd (i + 1) keep_draining
        else batch n' fd (i + 1) (if i =? BATCH_DRAIN - 1 then true else keep_draining)
  end.

(** [while (keep_draining && !stop_flag.load())]: whether it ended by [goto cleanup]. *)
Fixpoint drain (fuel : nat) (fd : Z) (keep_draining : bool) : CapM B bool :=
  match fuel with
  | O => out_of_fuel
  | S fuel' =>
      if keep_draining then
        let! stop := ask stop_flag_load LoadStop in
        if stop then ret false
        else
          let! e := batch (Z.to_nat BATCH_DRAIN) fd 0 false in
          match e with
          | Cleanup => ret true
          | Drained keep => drain fuel' fd keep
          end
      else ret false
  end.

(** [while (!stop_flag.load())] *)
Fixpoint capture_while (fuel : nat) (epoll_fd fd : Z) : CapM B unit :=
  match fuel with
  | O => out_of_fuel
  | S fuel' =>
      let! stop := ask stop_flag_load LoadStop in
      if stop then ret tt
      else
        let! got := ask (λ h, epoll_wait h epoll_fd)
          (λ r, EpollWait epoll_fd EPOLL_TIMEOUT_MS r.1 r.2) in
        let n := got.1 in
        let errno := got.2 in
        if n <? 0 then
          if errno =? EINTR then capture_while fuel' epoll_fd fd
          else say (log_error ("captureLoop: epoll_wait error: " +:+ strerror errno))
        else if n =? 0 then capture_while fuel' epoll_fd fd
        else
          let! cleanup := drain fuel' fd true in
          if cleanup then ret tt else capture_while fuel' epoll_fd fd
  end.

Definition captureLoop (fuel : nat) (fd : Z) : CapM B unit :=
  let! created := ask epoll_create1 (λ r, EpollCreate r.1 r.2) in
  let epoll_fd := created.1 in
  if epoll_fd <? 0 then say (log_error ("captureLoop: epoll_create1 failed: " +:+ strerror created.2))
  else
  let! added := ask (λ h, epoll_ctl_add h epoll_fd fd) (λ r, EpollCtlAdd epoll_fd fd r.1 r.2) in
  if added.1 <? 0 then
    say (log_error ("captureLoop: epoll_ctl failed: " +:+ strerror added.2));;
    emit (Close epoll_fd)
  else
  say (log_info ("captureLoop: epoll ready — Level-Triggered, BATCH_DRAIN=" +:+ to_string BATCH_DRAIN +:+
    ", timeout=" +:+ to_string EPOLL_TIMEOUT_MS +:+ "ms"));;
  say (log_info "captureLoop: capture loop started");;
  capture_while fuel epoll_fd fd;;
  emit (Close epoll_fd);;
  say (log_info "captureLoop: capture loop stopped — epoll fd closed").

(** ** What the loop should do *)

(** The frames received, cut to the buffer, and the packets stored, with their
    time stamps, in order. *)
Definition received (h : list event) : list (list Z) :=
  omap (λ e, match e with
    | RecvFrom _ (RecvPacket p) => if decide (p = []) then None else Some (take 2040 p)
    | _ => None end) h.
Definition stored (h : list event) : list (Z * list Z) :=
  omap (λ e, match e with Buffered c f _ true => Some (nowMillis c, f) | _ => None end) h.
Definition closed (h : list event) : list Z :=
  omap (λ e, match e with Close fd => Some fd | _ => None end) h.

(** A load of the stop flag returned true. *)
Definition saw_stop (h : list event) : bool :=
  existsb (λ e, match e with LoadStop b => b | Buffered _ _ s _ => stop_wait s | _ => false end) h.

(** Everything received was stored, but for the frame in hand when the stop
    request came. *)
Definition nothing_lost (h : list event) : Prop :=
  received h = (stored h).*2 ∨ (saw_stop h = true ∧ ∃ f, received h = (stored h).*2 ++ [f]).

(** The warnings logged: the loop warns only when it drops a frame. *)
Definition warnings (l : list logcall) : list logcall := filter (λ c, c.1 = WARN) l.

(** The clock readings recorded are those of the clock. *)
Definition clock_read (h : list event) : Prop :=
  ∀ h1 c f s ok h2, h = h1 ++ Buffered c f s ok :: h2 → c = clock_ms h1.

(** What the loop relies on: packets are bytes, and the stop flag is only ever
    set. *)
Record kernel_ok : Prop := {
  ko_packets : ∀ h fd p, recvfrom h fd = RecvPacket p → bytes p;
  ko_stack : ∀ h, length (stack_bytes h) = 2048%nat;
  ko_loads : ∀ h, stop_mono (write_loads h);
  ko_stop : ∀ h, saw_stop h = true → stop_flag_load h = true;
}.

Context (inv : B → list (Z * list Z) → Prop).

(** The other thread keeps the invariant of the buffer and stores nothing; and
    [wait] returns when its predicate holds. *)
Definition peer_ok : Prop := ∀ h b st,
  inv b st → ∃ b', other_thread h b = Ret b' ∧ inv b' st ∧
    (sk_full b' = false ∨ stop_wait (write_loads h) = true).

Record capture_ok (w : CapWorld B) : Prop := {
  co_buf : inv (packet_buf (obj w)) (stored (history w));
  co_clock : clock_read (history w);
  co_len : length (frame_buf (obj w)) = 2040%nat;
  co_bytes : bytes (frame_buf (obj w));
}.

(** ** Lemmas *)

Lemma received_app h1 h2 : received (h1 ++ h2) = received h1 ++ received h2.
Proof. apply omap_app. Qed.
Lemma stored_app h1 h2 : stored (h1 ++ h2) = stored h1 ++ stored h2.
Proof. apply omap_app. Qed.
Lemma closed_app h1 h2 : closed (h1 ++ h2) = closed h1 ++ closed h2.
Proof. apply omap_app. Qed.
Lemma saw_stop_app h1 h2 : saw_stop (h1 ++ h2) = saw_stop h1 || saw_stop h2.
Proof. apply existsb_app. Qed.
Lemma warnings_app l1 l2 : warnings (l1 ++ l2) = warnings l1 ++ warnings l2.
Proof. apply filter_app. Qed.

(** Evaluate the views of the history on the calls just made. *)
Ltac eval_trace :=
  rewrite ?received_app, ?stored_app, ?closed_app, ?saw_stop_app, ?warnings_app, ?length_app;
  cbn [received stored closed saw_stop omap list_omap existsb orb length];
  rewrite ?app_nil_r, ?orb_false_r.

(** A call other than a write to the buffer. *)
Definition is_write (e : event) : bool := match e with Buffered _ _ _ _ => true | _ => false end.

Lemma clock_read_snoc h e :
  clock_read h → (∀ c f s ok, e = Buffered c f s ok → c = clock_ms h) → clock_read (h ++ [e]).
Proof.
  intros Hh He h1 c f s ok h2 Heq. destruct h2 as [|e' h2 _] using rev_ind.
  - apply app_inj_tail in Heq as [<- ->]. by eapply He.
  - rewrite app_comm_cons, app_assoc in Heq. apply app_inj_tail in Heq as [-> _]. by eapply Hh.
Qed.

Lemma clock_read_nil : clock_read [].
Proof. intros [] ? ? ? ? ?; discriminate. Qed.

Lemma capture_ok_call o h e l l' :
  is_write e = false → capture_ok (mkWorld o h l) → capture_ok (mkWorld o (h ++ [e]) l').
Proof.
  intros He [Hb Hc Hl Hby]. split; cbn in *; try done.
  - rewrite stored_app. replace (stored [e]) with (@nil (Z * list Z)) by (by destruct e).
    by rewrite app_nil_r.
  - apply clock_read_snoc; [done|]. by intros ? ? ? ? ->.
Qed.

Lemma capture_ok_log o h l l' : capture_ok (mkWorld o h l) → capture_ok (mkWorld o h l').
Proof. by intros []. Qed.

Section Loop.
Context `{!SinkLaws inv}.
Hypothesis Hk : kernel_ok.
Hypothesis Hpeer : peer_ok.

Lemma buffer_write_spec size w :
  capture_ok w → 0 < size ≤ FRAME_BUF_SIZE →
  wp (buffer_write size) w (λ ok w',
    capture_ok w' ∧ frame_buf (obj w') = frame_buf (obj w) ∧ log w' = log w ∧
    history w' = history w ++ [Buffered (clock_ms (history w))
      (take (Z.to_nat size) (frame_buf (obj w))) (write_loads (history w)) ok] ∧
    (ok = false → stop_wait (write_loads (history w)) = true)).
Proof.
  intros [Hbuf Hcl Hlen Hby] Hsz. unfold wp, buffer_write, FRAME_BUF_SIZE in *.
  destruct (Hpeer (history w) _ _ Hbuf) as (b & -> & Hb & Hwait). rewrite bind_Ret.
  assert (∀ b' ok st, inv b' (stored (history w) ++ st) →
    stored [Buffered (clock_ms (history w)) (take (Z.to_nat size) (frame_buf (obj w)))
      (write_loads (history w)) ok] = st →
    capture_ok (mkWorld (mkCapture b' (frame_buf (obj w))) (history w ++
      [Buffered (clock_ms (history w)) (take (Z.to_nat size) (frame_buf (obj w))) (write_loads (history w)) ok])
      (log w))) as Hok.
  { intros b' ok st Hb' <-. split; cbn; try done; [by rewrite stored_app|].
    apply clock_read_snoc; [done|]. by intros ? ? ? ? [= <- _ _ _]. }
  destruct (sk_full b) eqn:Hf.
  - destruct Hwait as [|Hs]; [done|].
    destruct (sk_write_stopped b _ (write_loads (history w)) (clock_ms (history w)) (stack_bytes (history w))
      (frame_buf (obj w)) size Hb (ko_loads Hk _) (ko_stack Hk _) Hby Hsz ltac:(lia) Hf Hs) as (b' & -> & Hb').
    cbn. split_and!; try done. apply (Hok _ _ []); [by rewrite app_nil_r|done].
  - destruct (sk_write_room b _ (write_loads (history w)) (clock_ms (history w)) (stack_bytes (history w))
      (frame_buf (obj w)) size Hb (ko_loads Hk _) (ko_stack Hk _) Hby Hsz ltac:(lia) Hf) as (b' & -> & Hb').
    cbn. split_and!; try done. by eapply Hok.
Qed.

Lemma recv_into_spec fd w :
  capture_ok w →
  wp (recv_into fd) w (λ got w',
    capture_ok w' ∧ log w' = log w ∧ ∃ r, history w' = history w ++ [RecvFrom fd r] ∧
    match r with
    | RecvError e => got = (-1, e)
    | RecvPacket p => got = (Z.of_nat (length (take 2040 p)), 0) ∧
        take (length (take 2040 p)) (frame_buf (obj w')) = take 2040 p
    end).
Proof.
  intros Hok. assert (∀ e, capture_ok (mkWorld (obj w) (history w ++ [RecvFrom fd e]) (log w))) as Hc.
  { intros e. destruct w. by eapply capture_ok_call. }
  unfold recv_into. do 2 wp_base. destruct r as [e|p].
  - wp_base. split_and!; [done..|]. by exists (RecvError e).
  - assert (bytes p) by (by eapply (ko_packets Hk)). repeat wp_base. unfold FRAME_BUF_SIZE.
    change (Z.to_nat 2040) with 2040%nat.
    assert (length (take 2040 p) ≤ 2040)%nat by (rewrite length_take; lia).
    destruct (Hc (RecvPacket p)) as [Hb Hcl Hlen Hby]; cbn in *.
    split_and!; [split; cbn|done|]; [done|done|by rewrite length_splice by lia| |].
    + apply Forall_splice; [done|by apply Forall_take].
    + exists (RecvPacket p). split_and!; [done..|]. cbn.
      rewrite <- (drop_0 (splice _ _ _)). apply take_drop_splice_same. lia.
Qed.

(** What a part of the loop leaves, [caught] saying whether it left by the
    frame in hand when the stop request came. *)
Record progress (w w' : CapWorld B) (caught : bool) : Prop := {
  pg_ok : capture_ok w';
  pg_closed : closed (history w') = closed (history w);
  pg_warn : warnings (log w') = warnings (log w);
  pg_more : (length (history w) ≤ length (history w'))%nat;
  pg_frames : if caught
    then saw_stop (history w') = true ∧ ∃ f, received (history w') = (stored (history w')).*2 ++ [f]
    else received (history w') = (stored (history w')).*2;
}.

Lemma progress_trans w1 w2 w3 c : progress w1 w2 false → progress w2 w3 c → progress w1 w3 c.
Proof. intros [] []. split; try done; congruence || lia. Qed.

(** A call that is neither a write nor a receipt of a packet. *)
Lemma progress_call w e l :
  capture_ok w → received (history w) = (stored (history w)).*2 → is_write e = false →
  received [e] = [] → closed [e] = [] → warnings l = warnings (log w) →
  progress w (mkWorld (obj w) (history w ++ [e]) l) false.
Proof.
  intros Hok Heq He Hr Hc Hl.
  assert (stored [e] = []) as Hs by (by destruct e).
  split; cbn [history log obj]; rewrite ?received_app, ?stored_app, ?closed_app, ?Hr, ?Hs, ?Hc, ?app_nil_r; try done.
  - destruct w. by eapply capture_ok_call.
  - rewrite length_app. lia.
Qed.

Lemma batch_spec n fd i keep w :
  capture_ok w → received (history w) = (stored (history w)).*2 →
  wp (batch n fd i keep) w (λ e w', progress w w' (match e with Cleanup => true | _ => false end)).
Proof.
  revert i keep w. induction n as [|n IH]; intros i keep w Hok Heq; cbn [batch].
  { wp_base. by split. }
  wp_base. eapply wp_mono; [by apply recv_into_spec|]. intros got w1 (Hok1 & Hl1 & r & Hh1 & Hr).
  cbv zeta. destruct r as [e|p]; [subst got; cbn [fst snd]; change (-1 <? 0) with true; cbv iota|].
  - assert (∀ l, warnings l = warnings (log w) → progress w (mkWorld (obj w1) (history w1) l) false) as Hp.
    { intros l Hl. split; cbn [history log obj]; rewrite ?Hh1; eval_trace; try done; [|lia].
      rewrite <- Hh1. destruct w1. by eapply capture_ok_log. }
    repeat wp_base.
    + destruct w1. apply Hp. by rewrite <- Hl1.
    + apply Hp. rewrite warnings_app, Hl1. cbn. by rewrite app_nil_r.
  - destruct Hr as [-> Hbuf]. cbn [fst snd]. rewrite (proj2 (Z.ltb_ge _ 0)) by lia.
    assert (length (take 2040 p) ≤ 2040)%nat by (rewrite length_take; lia).
    destruct (decide (p = [])) as [->|Hne].
    { change (Z.of_nat (length (take 2040 (@nil Z))) =? 0) with true. cbv iota. wp_base.
      split; rewrite ?Hh1, ?Hl1; eval_trace; try done. lia. }
    assert (0 < Z.of_nat (length (take 2040 p))) as Hpos.
    { destruct p; [done|]. simpl. lia. }
    rewrite (proj2 (Z.eqb_neq _ 0)) by lia. wp_base.
    eapply wp_mono; [apply buffer_write_spec; [done|unfold FRAME_BUF_SIZE; lia]|].
    rewrite Nat2Z.id, Hbuf. intros ok w2 (Hok2 & Hfb & Hl2 & Hh2 & Hstop). rewrite Hh1 in Hh2.
    assert (received (history w2) = received (history w) ++ [take 2040 p]) as Hrec.
    { rewrite Hh2. rewrite !received_app. cbn. by rewrite decide_False, app_nil_r. }
    assert (closed (history w2) = closed (history w)) as Hcl by (by rewrite Hh2; eval_trace).
    assert (length (history w) ≤ length (history w2))%nat as Hmore by (rewrite Hh2; eval_trace; lia).
    destruct ok; cbn [negb].
    + assert (received (history w2) = (stored (history w2)).*2) as Heq2.
      { rewrite Hrec, Hh2, !stored_app. cbn. by rewrite app_nil_r, fmap_app, Heq. }
      eapply wp_mono; [by apply IH|]. intros e w' Hpg. eapply progress_trans; [|exact Hpg].
      split; try done. by rewrite Hl2, Hl1.
    + specialize (Hstop eq_refl). do 2 wp_base.
      assert (saw_stop (history w2) = true) as Hsaw.
      { rewrite Hh2, saw_stop_app. cbn. rewrite <- Hh1, Hstop. apply orb_true_r. }
      assert (r = true) as -> by (rewrite <- (ko_stop Hk _ Hsaw); assumption). wp_base.
      split; cbn [history log obj]; eval_trace.
      * destruct w2. by eapply capture_ok_call.
      * done.
      * by rewrite Hl2, Hl1.
      * lia.
      * split; [by rewrite Hsaw|]. exists (take 2040 p).
        rewrite Hrec, Hh2, !stored_app. cbn. by rewrite !app_nil_r, Heq.
Qed.

(** The flag is set by the time [N] calls were made. *)
Context (N : nat).
Hypothesis Hstops : ∀ h, (N ≤ length h)%nat → stop_flag_load h = true.

(** Enough fuel for a loop that makes a call in every iteration. *)
Definition enough (fuel : nat) (w : CapWorld B) : Prop := (1 ≤ fuel ∧ N < length (history w) + fuel)%nat.

Lemma enough_more fuel (w w' : CapWorld B) :
  stop_flag_load (history w) = false → enough (S fuel) w →
  (length (history w) < length (history w'))%nat → enough fuel w'.
Proof.
  intros Hf [_ He] Hlt. assert (length (history w) < N)%nat.
  { destruct (decide (N ≤ length (history w))%nat) as [Hle|]; [|lia]. rewrite Hstops in Hf; done. }
  unfold enough. lia.
Qed.

Lemma drain_spec fuel fd keep w :
  capture_ok w → received (history w) = (stored (history w)).*2 → enough fuel w →
  wp (drain fuel fd keep) w (λ c w', progress w w' c).
Proof.
  revert keep w. induction fuel as [|fuel IH]; intros keep w Hok Heq Hf; [destruct Hf; lia|].
  cbn [drain]. wp_base; [|wp_base; by split]. do 2 wp_base.
  set (w1 := mkWorld _ _ _).
  assert (progress w w1 false) as Hp1.
  { by apply progress_call. }
  wp_base; [by wp_base|]. wp_base.
  eapply wp_mono; [apply batch_spec; apply Hp1|]. intros e w2 Hp2.
  destruct e as [keep'|]; [|wp_base; by eapply progress_trans].
  eapply wp_mono; [apply IH; [apply Hp2|apply Hp2|]|].
  - eapply (enough_more _ w); [congruence|done|]. pose proof (pg_more _ _ _ Hp2) as Hm.
    cbn [w1 history] in Hm. rewrite length_app in Hm. simpl in Hm. lia.
  - intros c w' Hp3. eapply progress_trans; [exact Hp1|]. by eapply progress_trans.
Qed.

Lemma capture_while_spec fuel epoll_fd fd w :
  capture_ok w → received (history w) = (stored (history w)).*2 → enough fuel w →
  wp (capture_while fuel epoll_fd fd) w (λ _ w', ∃ c, progress w w' c).
Proof.
  revert w. induction fuel as [|fuel IH]; intros w Hok Heq Hf; [destruct Hf; lia|].
  cbn [capture_while]. do 2 wp_base. set (w1 := mkWorld _ _ _).
  assert (progress w w1 false) as Hp1.
  { by apply progress_call. }
  wp_base; [wp_base; by exists false|]. do 2 wp_base. set (w2 := mkWorld _ _ _).
  assert (progress w w2 false) as Hp2.
  { eapply progress_trans; [exact Hp1|]. apply (progress_call w1); try done; apply Hp1. }
  assert (∀ w3, progress w2 w3 false → enough fuel w3) as Hf3.
  { intros w3 Hp. eapply (enough_more _ w); [congruence|done|]. pose proof (pg_more _ _ _ Hp) as Hm.
    cbn [w2 w1 history] in Hm. rewrite !length_app in Hm. simpl in Hm. lia. }
  assert (progress w2 w2 false) as Hp22 by (split; try apply Hp2; done).
  assert (∀ w3, progress w2 w3 false →
    wp (capture_while fuel epoll_fd fd) w3 (λ _ w', ∃ c, progress w w' c)) as Hloop.
  { intros w3 Hp3. eapply wp_mono; [apply IH; [apply Hp3|apply Hp3|by apply Hf3]|].
    intros _ w' [c Hp]. exists c. eapply progress_trans; [exact Hp2|]. by eapply progress_trans. }
  repeat (wp_base; try by apply Hloop).
  - exists false. split; cbn [history log obj]; try apply Hp2.
    + destruct w2. eapply capture_ok_log. apply Hp2.
    + cbn [w2 w1 log]. rewrite warnings_app. cbn. apply app_nil_r.
  - eapply wp_mono; [apply drain_spec; [apply Hp2|apply Hp2|by apply Hf3]|].
    intros c w3 Hp3. destruct c.
    + wp_base. exists true. by eapply progress_trans.
    + by apply Hloop.
Qed.

Lemma capture_ok_calls o h l :
  capture_ok (mkWorld o [] []) → Forall (λ e, is_write e = false) h → capture_ok (mkWorld o h l).
Proof.
  intros Hok. revert l. induction h as [|e h IH] using rev_ind; intros l Hh; [by eapply capture_ok_log|].
  apply Forall_app in Hh as [Hh He]. rewrite Forall_singleton in He. by apply (capture_ok_call _ _ _ l _ He), IH.
Qed.

Lemma captureLoop_spec fuel fd o :
  capture_ok (mkWorld o [] []) → (N < fuel)%nat →
  wp (captureLoop fuel fd) (mkWorld o [] []) (λ _ w',
    capture_ok w' ∧ nothing_lost (history w') ∧ warnings (log w') = [] ∧
    closed (history w') = let fd := (epoll_create1 []).1 in if fd <? 0 then [] else [fd]).
Proof.
  intros Hok Hf. unfold captureLoop.
  assert (∀ h l, Forall (λ e, is_write e = false) h → capture_ok (mkWorld o h l)) as Hcok.
  { intros. by apply capture_ok_calls. }
  do 2 wp_base. subst r. cbn [history]. wp_base.
  { wp_base. split_and!; [apply Hcok; by repeat constructor|by left|done|done]. }
  do 2 wp_base. wp_base.
  { repeat wp_base. split_and!; [apply Hcok; by repeat constructor|by left|done|done]. }
  do 5 wp_base.
  eapply wp_mono; [apply capture_while_spec; [apply Hcok; by repeat constructor|done|unfold enough; simpl; lia]|].
  intros _ w1 [c Hp]. destruct Hp as [Hok1 Hcl Hwarn _ Hfr]. repeat wp_base. split_and!.
  - destruct w1. by eapply capture_ok_call.
  - unfold nothing_lost. eval_trace. destruct c; [right|left]; done.
  - rewrite warnings_app, Hwarn. done.
  - by rewrite closed_app, Hcl.
Qed.
End Loop.

(** Time stamps of a clock that does not run backwards. *)
Lemma stored_sorted h :
  (∀ h1 h2, 0 ≤ clock_ms h1 ≤ clock_ms (h1 ++ h2) ∧ clock_ms h1 < 2 ^ 64) →
  clock_read h → StronglySorted Z.le (stored h).*1.
Proof.
  intros Hmono Hread.
  assert (Forall (λ t, t ≤ clock_ms h) (stored h).*1 ∧ StronglySorted Z.le (stored h).*1) as [_ ?]; [|done].
  induction h as [|e h IH] using rev_ind; [split; constructor|].
  assert (clock_read h) as Hh.
  { intros h1 c f s ok h2 ->. eapply Hread. by rewrite <- app_assoc. }
  destruct (IH Hh) as [Hle Hsort]. rewrite stored_app, fmap_app. destruct (Hmono h [e]) as [[Hc Hce] Hcu].
  destruct (stored [e]) as [|p l] eqn:Hs.
  { rewrite app_nil_r. split; [|done]. eapply Forall_impl; [exact Hle|]. intros t Ht. cbn in Ht. lia. }
  destruct e as [| | | | | |c f s []]; try discriminate Hs. injection Hs as <- <-.
  assert (c = clock_ms h) as -> by (by eapply Hread). cbn. unfold nowMillis. rewrite u64_small by lia. split.
  - apply Forall_app. split; [|constructor; [lia|constructor]].
    eapply Forall_impl; [exact Hle|]. intros t Ht. cbn in Ht. lia.
  - apply StronglySorted_app_2; [|done|by repeat constructor].
    intros t t' Ht ->%list_elem_of_singleton. by eapply (proj1 (Forall_forall _ _) Hle).
Qed.
End Capture.

(** ** Properties *)

(** C16: the capture loop loses nothing and leaks nothing.  Over any sink that
    meets the interface, with the other thread doing what it likes to the buffer
    but store into it, and the stop flag set eventually, [captureLoop] returns.
    Every packet it received was then stored, cut to 2040 bytes and in the order
    of arrival, except at most the one in hand when the stop request came, and
    the time stamps ascend if the clock does; the branch that warns of a dropped
    frame is never taken; and the epoll descriptor is closed exactly once if it
    was opened, on every path. *)
Theorem captureLoop_correct `{Kernel} `{PacketSink B} (inv : B → list (Z * list Z) → Prop) `{!SinkLaws inv}
    (other_thread : list event → B → outcome B) (N fuel : nat) (fd : Z) (b : B) (local : list Z) :
  kernel_ok → peer_ok other_thread inv → (∀ h, (N ≤ length h)%nat → stop_flag_load h = true) → (N < fuel)%nat →
  inv b [] → length local = 2040%nat → bytes local →
  ∃ w', captureLoop other_thread fuel fd (mkWorld (mkCapture b local) [] []) = Ret (tt, w') ∧
    inv (packet_buf (obj w')) (stored (history w')) ∧ nothing_lost (history w') ∧
    ((∀ h1 h2, 0 ≤ clock_ms h1 ≤ clock_ms (h1 ++ h2) ∧ clock_ms h1 < 2 ^ 64) →
     StronglySorted Z.le (stored (history w')).*1) ∧
    warnings (log w') = [] ∧
    closed (history w') = let fd := (epoll_create1 []).1 in if fd <? 0 then [] else [fd].
Proof.
  intros Hk Hpeer Hs Hf Hb Hl Hby.
  assert (capture_ok inv (mkWorld (mkCapture b local) [] [])) as Hok by (split; cbn; auto using clock_read_nil).
  destruct (wp_elim _ _ _ (captureLoop_spec other_thread inv Hk Hpeer N Hs fuel fd _ Hok Hf))
    as ([] & w' & Hrun & [Hinv Hread _ _] & ? & ? & ?).
  exists w'. split_and!; try done. intros Hmono. by apply stored_sorted.
Qed.

(** A kernel that delivers one packet per wake-up until ten calls were made,
    and a reader that keeps the buffer empty. *)
#[local] Instance demo_kernel : Kernel := {|
  EINTR := 4; EAGAIN := 11; EWOULDBLOCK := 11;
  strerror _ := "error";
  epoll_create1 _ := (5, 0);
  epoll_ctl_add _ _ _ := (0, 0);
  epoll_wait _ _ := (1, 0);
  recvfrom h _ := match last h with Some (Buffered _ _ _ _) => RecvError 11 | _ => RecvPacket [1; 2; 3] end;
  stop_flag_load h := (10 <=? Z.of_nat (length h)) || saw_stop h;
  clock_ms h := Z.min 1000 (Z.of_nat (length h));
  stack_bytes _ := replicate 2048 0;
  write_loads _ := mkStop false false;
|}.

Definition demo_reader (_ : list event) (_ : PacketBuffer) : outcome PacketBuffer := Ret (mkPacketBuffer demo_ring).

Lemma demo_kernel_ok : kernel_ok.
Proof.
  split.
  - intros h fd p Hp. cbn in Hp. destruct (last h) as [[]|]; simplify_eq; repeat constructor; lia.
  - intros h. apply length_replicate.
  - intros h. discriminate.
  - intros h Hs. cbn. rewrite Hs. apply orb_true_r.
Qed.

Lemma captureLoop_correct_witness :
  let _ : NativeEndian := LittleEndian in
  ∃ w', captureLoop demo_reader 11 3 (mkWorld (mkCapture (mkPacketBuffer demo_ring) (replicate 2040 0)) [] [])
      = Ret (tt, w') ∧
    nothing_lost (history w') ∧ StronglySorted Z.le (stored (history w')).*1.
Proof.
  intros ?.
  destruct (captureLoop_correct buffer_inv demo_reader 10 11 3 (mkPacketBuffer demo_ring) (replicate 2040 0))
    as (w' & Hrun & _ & Hlost & Hsorted & _).
  - exact demo_kernel_ok.
  - intros h pb st _. eexists. split; [reflexivity|]. split; [|left; reflexivity].
    split; [apply demo_packet_buffer_ok|]. exists st. symmetry. apply app_nil_r.
  - intros h Hh. cbn. rewrite (proj2 (Z.leb_le 10 _)); [reflexivity|lia].
  - lia.
  - split; [apply demo_packet_buffer_ok|]. exists []. reflexivity.
  - apply length_replicate.
  - apply Forall_replicate. lia.
  - exists w'. split; [exact Hrun|]. split; [exact Hlost|]. apply Hsorted.
    intros h1 h2. cbn. rewrite length_app. lia.
Defined.
