(* ===== verification/Ranges.v ===== *)
(** * Ranges

    Every field the parsers extract from bytes fits the width of its C++ type,
    and with it every field of an enriched frame: the values the model keeps as
    unbounded integers are those of the machine. *)

From S2P Require Import Prelude.
From S2P Require Import Bytes.
From S2P Require Import Format.
From S2P Require Import Checksum.
From S2P Require Import Logger.
From S2P Require Import EthernetParser.
From S2P Require Import IpParser.
From S2P Require Import TcpParser.
From S2P Require Import UdpParser.
From S2P Require Import IcmpParser.
From S2P Require Import ArpParser.
From S2P Require Import FilterStage.
From S2P Require Import DissectorStage.
From S2P Require Import StatsStage.
From S2P Require Import FlowTracker.
From S2P Require Import PublisherJson.

(** What holds of the value a computation returns, if it does. *)
Definition returns {A} (o : outcome A) (P : A → Prop) : Prop :=
  match o with Ret a => P a | _ => True end.

Lemma returns_bind {A B} (o : outcome A) (k : A → outcome B) P :
  returns o (λ a, returns (k a) P) → returns (o ≫= k) P.
Proof. by destruct o. Qed.

Lemma returns_use {A} (o : outcome A) (P Q : A → Prop) :
  returns o P → (∀ a, P a → Q a) → returns o Q.
Proof. destruct o; simpl; auto. Qed.

Lemma returns_any {A} (o : outcome A) (Q : A → Prop) : (∀ a, Q a) → returns o Q.
Proof. destruct o; simpl; auto. Qed.

Section Ranges.
Context (m : list Z).
Hypothesis Hm : bytes m.

Lemma load_range p i : returns (load m p i) (λ v, is_u8 v).
Proof.
  destruct p as [|o]; [done|]. unfold load. destruct (0 <=? o + i); [|done].
  destruct (m !! Z.to_nat (o + i)) as [b|] eqn:E; [|done].
  exact (Forall_lookup_1 _ _ _ _ Hm E).
Qed.

Lemma readU16Be_range p : returns (readU16Be m p) (λ v, is_u16 v).
Proof. unfold readU16Be. do 2 (apply returns_bind, returns_any; intros ?). apply u16_range. Qed.

Lemma readU32Be_range p : returns (readU32Be m p) (λ v, is_u32 v).
Proof.
  unfold readU32Be. do 4 (apply returns_bind; eapply returns_use; [apply load_range|]; intros ? ?).
  cbn [returns]. rewrite be32_lor by done. by apply be32_range.
Qed.

Lemma load_bytes_range p off n : returns (load_bytes m p off n) (λ l, bytes l ∧ length l = n).
Proof.
  revert off. induction n as [|n IH]; intros off; [by split; [constructor|]|]. simpl.
  apply returns_bind. eapply returns_use; [apply load_range|]. intros b Hb.
  apply returns_bind. eapply returns_use; [apply IH|]. intros l [Hl Hn].
  split; [by constructor|by rewrite <- Hn].
Qed.

(** Follow a parser to its results. *)
Ltac parse_ranges :=
  repeat first
    [ match goal with |- returns (if ?b then _ else _) _ => destruct b end
    | match goal with |- returns (Ret None) _ => exact I end
    | match goal with |- returns (_ ≫= _) _ => apply returns_bind end
    | eapply returns_use; [apply load_range|]; intros ? ?
    | eapply returns_use; [apply readU16Be_range|]; intros ? ?
    | eapply returns_use; [apply readU32Be_range|]; intros ? ?
    | eapply returns_use; [apply load_bytes_range|]; intros ? ?
    | match goal with |- returns (ptr_add _ _ _) _ => idtac
      | |- returns (verifyIpChecksum _ _ _) _ => idtac end; apply returns_any; intros ? ];
  cbv beta in *.

Record ip_ranges (h : IpHeader) : Prop := {
  ir_ttl : is_u8 (ip_ttl h);
  ir_protocol : is_u8 (ip_protocol h);
  ir_src : is_u32 (ip_src_ip h);
  ir_dst : is_u32 (ip_dst_ip h);
  ir_total : is_u16 (ip_total_length h);
}.

Lemma parseIpHeader_range p len dir :
  returns (parseIpHeader m p len dir) (λ o, match o with Some h => ip_ranges h | None => True end).
Proof. unfold parseIpHeader. cbv zeta. parse_ranges. by split. Qed.

Lemma parseTcpHeader_range p len :
  returns (parseTcpHeader m p len) (λ o, match o with Some h =>
    is_u16 (tcp_src_port h) ∧ is_u16 (tcp_dst_port h) ∧ is_u32 (tcp_seq_num h) ∧ is_u8 (tcp_flags h)
    | None => True end).
Proof.
  unfold parseTcpHeader. cbv zeta. parse_ranges. cbn [returns tcp_src_port tcp_dst_port tcp_seq_num tcp_flags].
  rewrite low_six_bits by done.
  match goal with |- context [?a mod 64] => pose proof (Z.mod_pos_bound a 64 ltac:(lia)) end. lia.
Qed.

Lemma parseUdpHeader_range p len :
  returns (parseUdpHeader m p len) (λ o, match o with Some h =>
    is_u16 (udp_src_port h) ∧ is_u16 (udp_dst_port h) | None => True end).
Proof. unfold parseUdpHeader. cbv zeta. parse_ranges. cbn. lia. Qed.

Lemma parseIcmpHeader_range p len total :
  returns (parseIcmpHeader m p len total) (λ o, match o with Some h =>
    is_u8 (icmp_type h) ∧ is_u8 (icmp_code h) ∧ icmp_packet_size h = total | None => True end).
Proof. unfold parseIcmpHeader. cbv zeta. parse_ranges. cbn. lia. Qed.

Lemma parseArpPacket_range p len :
  returns (parseArpPacket m p len) (λ o, match o with Some a =>
    is_u16 (arp_oper a) ∧ is_u32 (arp_pkt_sender_ip a) ∧ is_u32 (arp_pkt_target_ip a) ∧
    bytes (arp_pkt_sender_mac a) ∧ length (arp_pkt_sender_mac a) = 6%nat | None => True end).
Proof. unfold parseArpPacket. parse_ranges. destruct_and?. cbn. auto. Qed.

(** What the stages after the dissector rely on. *)
Definition dissected_ranges (d : DissectedFrame) : Prop :=
  match d with
  | DTcp f => ip_ranges (itf_ip f) ∧ is_u16 (tcp_src_port (itf_tcp f)) ∧ is_u16 (tcp_dst_port (itf_tcp f))
      ∧ is_u32 (tcp_seq_num (itf_tcp f)) ∧ is_u8 (tcp_flags (itf_tcp f))
  | DUdp f => ip_ranges (iuf_ip f) ∧ is_u16 (udp_src_port (iuf_udp f)) ∧ is_u16 (udp_dst_port (iuf_udp f))
  | DIcmp f => ip_ranges (iif_ip f) ∧ is_u8 (icmp_type (iif_icmp f)) ∧ is_u8 (icmp_code (iif_icmp f))
      ∧ is_u16 (icmp_packet_size (iif_icmp f))
  | DArp f => is_u16 (arp_oper (af_arp f)) ∧ is_u32 (arp_pkt_sender_ip (af_arp f))
      ∧ is_u32 (arp_pkt_target_ip (af_arp f)) ∧ bytes (arp_pkt_sender_mac (af_arp f))
      ∧ length (arp_pkt_sender_mac (af_arp f)) = 6%nat
  | DOther f => ip_ranges (iof_ip f)
  end.

Definition dissected_eth (d : DissectedFrame) : EthernetFrame * Z :=
  match d with
  | DTcp f => (itf_eth f, itf_capture_ts_ms f)
  | DUdp f => (iuf_eth f, iuf_capture_ts_ms f)
  | DIcmp f => (iif_eth f, iif_capture_ts_ms f)
  | DArp f => (af_eth f, af_capture_ts_ms f)
  | DOther f => (iof_eth f, iof_capture_ts_ms f)
  end.

Lemma dissector_stage_range ff ips :
  returns (dissector_stage m ff ips) (λ r, match r.1 with
    | Some d => dissected_ranges d ∧ dissected_eth d = (ff_eth ff, ff_capture_ts_ms ff)
    | None => True end).
Proof.
  unfold dissector_stage, dissect_transport. cbv zeta.
  destruct (eth_ethertype (ff_eth ff) =? ETHERTYPE_ARP).
  { apply returns_bind. eapply returns_use; [apply parseArpPacket_range|]. by intros [a|]. }
  destruct (eth_payload_size (ff_eth ff) <? 20); [done|].
  do 2 (apply returns_bind, returns_any; intros ?).
  apply returns_bind. eapply returns_use; [apply parseIpHeader_range|]. intros [ip|] Hip; [|done].
  destruct (ip_protocol ip =? 6).
  { apply returns_bind. eapply returns_use; [apply parseTcpHeader_range|]. by intros [t|]. }
  destruct (ip_protocol ip =? 17).
  { apply returns_bind. eapply returns_use; [apply parseUdpHeader_range|]. by intros [t|]. }
  destruct (ip_protocol ip =? 1).
  { apply returns_bind. eapply returns_use; [apply parseIcmpHeader_range|]. intros [t|]; [|done].
    intros (? & ? & E). cbn. rewrite E. pose proof (ir_total _ Hip). auto. }
  done.
Qed.
End Ranges.

(** ** Well-typed records *)

(** Every member of an [EnrichedFrame] within its C++ type: those of [frame_ok],
    and arrays of six bytes. *)
Record frame_typed (e : EnrichedFrame) : Prop := {
  fy_ok : frame_ok e;
  fy_src_mac : length (e_src_mac e) = 6%nat;
  fy_dst_mac : length (e_dst_mac e) = 6%nat;
  fy_arp_mac : length (e_arp_sender_mac e) = 6%nat;
}.

(** Every member of a [FlowRecord]. *)
Record flow_typed (r : FlowRecord) : Prop := {
  ry_ok : flow_ok r;
  ry_retransmit_count : is_u32 (retransmit_count r);
  ry_retransmit_set : set_Forall (λ n, is_u32 n) (retransmit_set r);
  ry_key : plain (fl_flow_key r) = true;
}.

(** The frame built from a dissected packet. *)
Lemma stats_stage_typed `{NativeEndian} d e :
  dissected_ranges d → is_u64 (dissected_eth d).2 →
  let eth := (dissected_eth d).1 in
  bytes (eth_src_mac eth) → bytes (eth_dst_mac eth) →
  length (eth_src_mac eth) = 6%nat → length (eth_dst_mac eth) = 6%nat →
  stats_stage d = Some e → frame_typed e.
Proof.
  intros Hd Hts eth Hsm Hdm Hsl Hdl E. unfold eth in *.
  destruct d as [f|f|f|f|f]; injection E as <-; cbn in Hd, Hts, Hsm, Hdm, Hsl, Hdl; destruct_and?;
    try match goal with H : ip_ranges _ |- _ => destruct H end;
    (split; [|done..]);
    split; cbn -[makeFlowKey makeArpFlowKey]; try apply plain_flow_key; try apply plain_arp_key;
    split_and?; try done; try lia; try (repeat constructor; lia).
Qed.

(** The record of a flow of well-typed frames. *)
Lemma summary_typed k l :
  Forall frame_typed l → Forall (λ e, e_flow_key e = k) l → l ≠ [] → flow_typed (summary k l).
Proof.
  intros Hl Hk Hne. split.
  - apply summary_ok; [|done]. eapply Forall_impl; [exact Hl|]. apply fy_ok.
  - apply u32_range.
  - intros n Hn. cbn in Hn. apply elem_of_list_to_set, list_elem_of_omap in Hn as (e & He & Hs).
    rewrite list.Forall_forall in Hl. destruct (fo_tcp _ (fy_ok _ (Hl e He))) as [_ Hseq].
    unfold tracked_seq in Hs. destruct (_ && _); [|done]. by injection Hs as <-.
  - destruct l as [|e l]; [done|]. apply Forall_cons_1 in Hk as [<- _]. apply Forall_cons_1 in Hl as [Hl _].
    apply fo_key, fy_ok, Hl.
Qed.
