(* ===== verification/Engine.v ===== *)
(** * The engine (src/main.cpp)

    The loop of the pipeline thread, which composes the filter, dissector,
    stats, tracking and publishing stages, and the construction of the packet
    buffer from the environment.  The pipeline runs over any packet source that
    meets the interface of PacketBuffer.v. *)

From Stdlib Require Import Ascii.
From S2P Require Import Prelude.
From S2P Require Import Bytes.
From S2P Require Import Format.
From S2P Require Import Logger.
From S2P Require Import Effects.
From S2P Require Import RingBuffer.
From S2P Require Import PacketBuffer.
From S2P Require Import EthernetParser.
From S2P Require Import IpParser.
From S2P Require Import TcpParser.
From S2P Require Import UdpParser.
From S2P Require Import IcmpParser.
From S2P Require Import ArpParser.
From S2P Require Import FilterStage.
From S2P Require Import DissectorStage.
From S2P Require Import StatsStage.
From S2P Require Import FlowTracker.
From S2P Require Import PublisherJson.
From S2P Require Import Ranges.
From S2P Require Import Publisher.

(** ** The packet buffer of [main] *)

(** [std::stoul]: white space, a sign, at least one digit; a value above
    [ULONG_MAX] is out of range, and a minus sign negates modulo 2^64. *)
Definition stoul (s : string) : outcome Z :=
  let s := skip_space s in
  let '(negative, digits) :=
    match strip "-" s, strip "+" s with
    | Some s', _ => (true, s')
    | _, Some s' => (false, s')
    | _, _ => (false, s)
    end in
  if no_digit 10 digits then Throw (Invalid_argument "stoul")
  else
    let n := (read_num 10 0 digits).1 in
    if 2 ^ 64 - 1 <? n then Throw Out_of_range
    else Ret (if negative : bool then u64 (- n) else n).

Definition ring_capacity (getenv : string → option string) : outcome Z :=
  match getenv "RING_BUFFER_CAPACITY" with
  | Some cap_env => stoul cap_env
  | None => Ret 1024
  end.

Lemma stoul_number n : is_u64 n → stoul (to_string n) = Ret n.
Proof.
  intros Hn. unfold stoul. cbv zeta. rewrite skip_space_number, !strip_number by done.
  destruct (to_string_head n "") as (c & s & E & Hc). rewrite app_nil_r_s in E.
  rewrite E at 1. cbn [no_digit]. rewrite Hc. cbn [negb].
  rewrite read_number_whole by done. cbn [fst]. by rewrite (proj2 (Z.ltb_ge _ _)) by lia.
Qed.

Lemma ring_capacity_outcome getenv :
  match ring_capacity getenv with Ret _ | Throw _ => True | _ => False end.
Proof.
  unfold ring_capacity, stoul. destruct (getenv _) as [s|]; [|done].
  repeat (case_match; try done).
Qed.

Definition make_packet_buffer (getenv : string → option string) (alloc : Z → bool)
    : outcome (PacketBuffer * list logcall) :=
  capacity ← ring_capacity getenv;
  packet_buf ← PacketBuffer_make alloc capacity;
  Ret (packet_buf,
    [log_info ("Initializing packet buffer — capacity: " +:+ to_string capacity +:+ " slots (" +:+
       to_string (u64 (capacity * 2048) / 1024) +:+ " KB)");
     log_info "Packet buffer initialized"]).

(** ** The pipeline thread *)

(** Its state: the shared packet buffer, the static frame buffer, the flow table
    and the publisher with its history and log. *)
Record Engine (B : Type) : Type := mkEngine {
  en_buf : B;
  en_frame_buf : list Z;
  en_table : FlowTable;
  en_pub : PubWorld;
}.
Arguments mkEngine {B}.
Arguments en_buf {B}.
Arguments en_frame_buf {B}.
Arguments en_table {B}.
Arguments en_pub {B}.

(** What one iteration meets: the stop flag at the loop head, its loads during
    the read and after a failed read, and the stack bytes of the read. *)
Record iteration : Type := mkIteration {
  it_head : bool;
  it_read : stop_loads;
  it_slot : list Z;
  it_after : bool;
}.

Definition log_calls (w : PubWorld) (l : list logcall) : PubWorld :=
  mkWorld (obj w) (history w) (log w ++ l).

Section Pipeline.
Context `{NativeEndian} `{Amqp} `{PacketSource B}.

Inductive iteration_end : Type := Continue | Break.

(** The body of the loop. *)
Definition pipeline_iteration (local_ips : gset Z) (it : iteration) (en : Engine B)
    : outcome (iteration_end * Engine B) :=
  filtered ← filter_stage (en_buf en) (it_read it) (it_slot it) (en_frame_buf en)
    (Z.of_nat (length (en_frame_buf en)));
  let w := log_calls (en_pub en) (fr_log filtered) in
  let en1 := mkEngine (fr_buf filtered) (fr_frame_buf filtered) (en_table en) w in
  match fr_frame filtered with
  | None => Ret (if it_after it then Break else Continue, en1)
  | Some frame =>
      '(dissected, l) ← dissector_stage (fr_frame_buf filtered) frame local_ips;
      let w := log_calls w l in
      let en2 := mkEngine (fr_buf filtered) (fr_frame_buf filtered) (en_table en) w in
      match dissected with
      | None => Ret (Continue, en2)
      | Some d =>
          match stats_stage d with
          | None => Ret (Continue, en2)
          | Some enriched =>
              let '(flow, is_retransmit, table) := flow_tracker enriched (en_table en) in
              '(_, w') ← publish enriched flow is_retransmit w;
              Ret (Continue, mkEngine (fr_buf filtered) (fr_frame_buf filtered) table w')
          end
      end
  end.

(** [while (!stop_flag.load())], the iterations meeting [its] one after the
    other. *)
Fixpoint pipeline_loop (local_ips : gset Z) (its : list iteration) (en : Engine B) : outcome (Engine B) :=
  match its with
  | [] => OutOfFuel
  | it :: its' =>
      if it_head it then Ret en
      else
        '(e, en') ← pipeline_iteration local_ips it en;
        match e with
        | Break => Ret en'
        | Continue => pipeline_loop local_ips its' en'
        end
  end.

(** ** Specification *)

(** The frame a packet contributes, with [buf] the frame buffer it is copied to. *)
Definition packet_frame (ips : gset Z) (buf : list Z) (p : Z * list Z) : option EnrichedFrame :=
  if filter_keeps p.2 then
    match dissector_stage (p.2 ++ drop (length p.2) buf) (filtered_frame p.1 p.2) ips with
    | Ret (Some d, _) => stats_stage d
    | _ => None
    end
  else None.

(** The frame buffer after the packets, and the frames of a run of packets. *)
Definition copied (buf : list Z) (p : Z * list Z) : list Z := p.2 ++ drop (length p.2) buf.

Fixpoint packet_frames (ips : gset Z) (buf : list Z) (ps : list (Z * list Z)) : list EnrichedFrame :=
  match ps with
  | [] => []
  | p :: ps' => option_list (packet_frame ips buf p) ++ packet_frames ips (copied buf p) ps'
  end.

(** What is published for the frames [l] after the history [h]. *)
Fixpoint requests (h l : list EnrichedFrame) : list (EnrichedFrame * FlowRecord * bool) :=
  match l with
  | [] => []
  | e :: l' =>
      (e, summary (e_flow_key e) (flow_frames (e_flow_key e) (h ++ [e])),
       seen_before (flow_frames (e_flow_key e) h) e) :: requests (h ++ [e]) l'
  end.

(** A run of publish calls, with log calls of other stages in between. *)
Inductive publishes : list (EnrichedFrame * FlowRecord * bool) → PubWorld → PubWorld → Prop :=
  | publishes_nil w w' : obj w' = obj w → history w' = history w → publishes [] w w'
  | publishes_cons f flow r reqs w l b w1 w' :
      publish f flow r (log_calls w l) = Ret (b, w1) →
      publishes reqs w1 w' → publishes ((f, flow, r) :: reqs) w w'.

Record engine_ok (en : Engine B) : Prop := {
  eo_buf : ps_ok (en_buf en);
  eo_len : length (en_frame_buf en) = 2040%nat;
  eo_bytes : bytes (en_frame_buf en);
  eo_pub : publisher_ok (en_pub en);
}.

(** What the loads and the stack give any iteration: a stop flag that stays set
    once it is, and a slot of the size of [read]'s array. *)
Record sound (it : iteration) : Prop := {
  sd_read : stop_mono (it_read it);
  sd_slot : length (it_slot it) = 2048%nat;
}.

(** An iteration before the stop request. *)
Record running (it : iteration) : Prop := {
  ru_sound : sound it;
  ru_head : it_head it = false;
  ru_after : it_after it = false;
}.

(** How an iteration that took the packet [p] ends: the flag is looked at again
    only when the packet was filtered out. *)
Definition ends (it : iteration) (p : Z * list Z) : iteration_end :=
  if it_after it && negb (filter_keeps p.2) then Break else Continue.

(** How many of the packets [ps] the loop takes before the iterations show it the
    stop request: at its head, after a packet that was filtered out, or in the
    wait for a packet when none is left.  [None] when they do not. *)
Fixpoint consumed (its : list iteration) (ps : list (Z * list Z)) : option nat :=
  match its with
  | [] => None
  | it :: its' =>
      if it_head it then Some 0%nat
      else match ps with
      | [] =>
          if stop_wait (it_read it) then
            if it_after it then Some 0%nat else consumed its' []
          else None
      | p :: ps' =>
          match ends it p with
          | Break => Some 1%nat
          | Continue => S <$> consumed its' ps'
          end
      end
  end.

(** ** Lemmas *)

Lemma publisher_ok_log w l : publisher_ok w → publisher_ok (log_calls w l).
Proof. by intros []. Qed.

Lemma publishes_log reqs w l w' : publishes reqs (log_calls w l) w' → publishes reqs w w'.
Proof.
  intros Hp. inversion Hp as [|? ? ? ? ? l' b w1 ? Hpub Hrest]; subst.
  - by constructor.
  - econstructor; [|exact Hrest]. unfold log_calls in *. simpl in Hpub.
    rewrite <- app_assoc in Hpub. exact Hpub.
Qed.

Lemma packet_frame_keyed ips buf p e : packet_frame ips buf p = Some e → e_flow_key e ≠ "".
Proof.
  unfold packet_frame. destruct (filter_keeps p.2); [|done].
  destruct (dissector_stage _ _ _) as [[[d|] l]| | | |]; try done. apply stats_stage_keyed.
Qed.

Lemma packet_frames_keyed ips buf ps : keyed (packet_frames ips buf ps).
Proof.
  revert buf. induction ps as [|p ps IH]; intros buf; [constructor|]. simpl.
  apply Forall_app. split; [|apply IH].
  destruct (packet_frame ips buf p) as [e|] eqn:E; simpl; repeat constructor.
  by eapply packet_frame_keyed.
Qed.

(** The rest of an iteration that publishes nothing. *)
Ltac finish_quiet :=
  split; [split; try done; by repeat apply publisher_ok_log|];
  split_and!; [done..|simpl; by rewrite app_nil_r|];
  intros reqs w' Hr; simpl in *; by repeat apply publishes_log in Hr.

Section Run.
Hypothesis new_connection_nonnull : ∀ h, amqp_new_connection h ≠ 0.
Context (ips : gset Z).

(** One iteration takes one packet through all stages. *)
Lemma pipeline_iteration_spec it en h p q :
  engine_ok en → sound it → keyed h → en_table en = track h →
  ps_packets (en_buf en) = p :: q →
  ∃ en', pipeline_iteration ips it en = Ret (ends it p, en') ∧ engine_ok en' ∧
    ps_packets (en_buf en') = q ∧ en_frame_buf en' = copied (en_frame_buf en) p ∧
    let fs := option_list (packet_frame ips (en_frame_buf en) p) in
    en_table en' = track (h ++ fs) ∧
    ∀ reqs w', publishes reqs (en_pub en') w' → publishes (requests h fs ++ reqs) (en_pub en) w'.
Proof.
  intros [Hbuf Hlen Hby Hpub] [Hread Hslot] Hkey Htab Hq. destruct p as [ts f].
  destruct (ps_packet (en_buf en) ts f Hbuf) as (Hfl & Hfb & _); [rewrite Hq; left|].
  destruct (filter_stage_packet (en_buf en) (it_read it) (it_slot it) (en_frame_buf en)
    (Z.of_nat (length (en_frame_buf en))) ts f q) as (b' & l & Hok' & Hq' & Hf & _);
    [done..|by rewrite Hlen|done|].
  assert (length (copied (en_frame_buf en) (ts, f)) = 2040%nat) as Hcl.
  { unfold copied. simpl. rewrite length_app, length_drop. lia. }
  assert (bytes (copied (en_frame_buf en) (ts, f))) as Hcb.
  { unfold copied. simpl. apply Forall_app_2; [done|by apply Forall_drop]. }
  unfold pipeline_iteration. rewrite Hf, bind_Ret. cbn [fr_log fr_buf fr_frame_buf fr_frame].
  unfold packet_frame, ends. cbn [fst snd]. change (f ++ drop (length f) (en_frame_buf en))
    with (copied (en_frame_buf en) (ts, f)).
  destruct (filter_keeps f) eqn:Hk; cbn [negb]; rewrite ?andb_true_r, ?andb_false_r;
    [|eexists; split; [done|]; by finish_quiet].
  destruct (dissector_stage_total f (drop (length f) (en_frame_buf en)) ts ips) as [[d l2] Hd];
    [done|by apply Forall_drop|done|rewrite length_app, length_drop; lia|].
  change (f ++ drop (length f) (en_frame_buf en)) with (copied (en_frame_buf en) (ts, f)) in Hd.
  rewrite Hd, bind_Ret.
  destruct d as [d|]; [|eexists; split; [done|]; by finish_quiet].
  destruct (stats_stage d) as [e|] eqn:Hs; [|eexists; split; [done|]; by finish_quiet].
  pose proof (stats_stage_keyed d e Hs) as He.
  rewrite Htab, flow_tracker_track by done.
  set (flow := summary _ _). set (r := seen_before _ _).
  destruct (wp_elim _ _ _ (publish_spec new_connection_nonnull e flow r
    (log_calls (log_calls (en_pub en) l) l2) ltac:(by do 2 apply publisher_ok_log)))
    as (b & w1 & Hp & _ & Hok1 & _).
  rewrite Hp, bind_Ret. eexists. split; [done|]. split; [by split|].
  split_and!; [done..|]. intros reqs w' Hr. simpl. econstructor; [|exact Hr].
  fold flow r. unfold log_calls in *. simpl in Hp. rewrite <- app_assoc in Hp. exact Hp.
Qed.

Lemma requests_app h l1 l2 : requests h (l1 ++ l2) = requests h l1 ++ requests (h ++ l1) l2.
Proof.
  revert h. induction l1 as [|e l1 IH]; intros h; simpl; [by rewrite app_nil_r|].
  by rewrite IH, <- app_assoc.
Qed.

(** An iteration without a packet waits for one, or for the stop request. *)
Lemma pipeline_iteration_stopped it en :
  engine_ok en → sound it → ps_packets (en_buf en) = [] → stop_wait (it_read it) = true →
  ∃ en', pipeline_iteration ips it en = Ret (if it_after it then Break else Continue, en') ∧
    engine_ok en' ∧ ps_packets (en_buf en') = [] ∧ en_frame_buf en' = en_frame_buf en ∧
    en_table en' = en_table en ∧
    ∀ reqs w', publishes reqs (en_pub en') w' → publishes reqs (en_pub en) w'.
Proof.
  intros [Hbuf Hlen Hby Hpub] [Hm Hsl] Hp Hs. unfold pipeline_iteration, filter_stage.
  rewrite ps_read_stopped by done. cbn. eexists. split; [done|]. split; [|split_and!; try done].
  - split; try done. by apply publisher_ok_log.
  - intros reqs w' Hr. by apply publishes_log in Hr.
Qed.

Lemma pipeline_iteration_blocked it en :
  engine_ok en → sound it → ps_packets (en_buf en) = [] → stop_wait (it_read it) = false →
  pipeline_iteration ips it en = Blocked.
Proof.
  intros [Hbuf _ _ _] [Hm Hsl] Hp Hs. unfold pipeline_iteration, filter_stage.
  by rewrite ps_read_blocked.
Qed.

Lemma option_list_keyed h buf p :
  keyed h → keyed (h ++ option_list (packet_frame ips buf p)).
Proof.
  intros Hh. apply Forall_app. split; [done|].
  destruct (packet_frame ips buf p) as [e|] eqn:E; simpl; repeat constructor.
  by eapply packet_frame_keyed.
Qed.

(** What the loop has done when it was left after the first [n] packets. *)
Definition loop_done (h : list EnrichedFrame) (n : nat) (en en' : Engine B) : Prop :=
  engine_ok en' ∧ ps_packets (en_buf en') = drop n (ps_packets (en_buf en)) ∧
  (n ≤ length (ps_packets (en_buf en)))%nat ∧
  let ps := take n (ps_packets (en_buf en)) in
  let fs := packet_frames ips (en_frame_buf en) ps in
  en_frame_buf en' = foldl copied (en_frame_buf en) ps ∧ en_table en' = track (h ++ fs) ∧
  ∀ reqs w', publishes reqs (en_pub en') w' → publishes (requests h fs ++ reqs) (en_pub en) w'.

Lemma loop_done_refl h en : engine_ok en → en_table en = track h → loop_done h 0 en en.
Proof. intros Hok Ht. split_and!; cbn; rewrite ?app_nil_r; (done || lia). Qed.

(** One packet, then [n] more. *)
Lemma loop_done_step h n p q en en1 en' :
  ps_packets (en_buf en) = p :: q → ps_packets (en_buf en1) = q →
  en_frame_buf en1 = copied (en_frame_buf en) p →
  let fs := option_list (packet_frame ips (en_frame_buf en) p) in
  (∀ reqs w', publishes reqs (en_pub en1) w' → publishes (requests h fs ++ reqs) (en_pub en) w') →
  loop_done (h ++ fs) n en1 en' → loop_done h (S n) en en'.
Proof.
  intros Hq Hq1 Hfb fs Hpub (Hok & Hd & Hn & Hb & Ht & Hp). unfold loop_done.
  rewrite Hq1, Hfb in *. rewrite Hq. cbn [take drop length foldl packet_frames]. fold fs.
  split_and!; try done; [lia|by rewrite app_assoc|].
  intros reqs w' Hr. rewrite requests_app, <- app_assoc. by apply Hpub, Hp.
Qed.

(** The loop ends exactly when the stop request is seen, and then has taken the
    packets before it through the pipeline one by one. *)
Lemma pipeline_loop_spec its en h :
  engine_ok en → Forall sound its → keyed h → en_table en = track h →
  match consumed its (ps_packets (en_buf en)) with
  | Some n => ∃ en', pipeline_loop ips its en = Ret en' ∧ loop_done h n en en'
  | None => pipeline_loop ips its en = Blocked ∨ pipeline_loop ips its en = OutOfFuel
  end.
Proof.
  intros Hok Hits. revert en h Hok.
  induction Hits as [|it its Hit Hits IH]; intros en h Hok Hkey Htab; cbn [consumed pipeline_loop]; [by right|].
  destruct (it_head it); [exists en; by split; [|apply loop_done_refl]|].
  destruct (ps_packets (en_buf en)) as [|p q] eqn:Hq.
  - destruct (stop_wait (it_read it)) eqn:Hs;
      [|left; by rewrite pipeline_iteration_blocked].
    destruct (pipeline_iteration_stopped it en Hok Hit Hq Hs) as (en1 & -> & Hok1 & Hq1 & Hfb & Ht1 & Hp1).
    rewrite bind_Ret. assert (loop_done h 0 en en1) as Hd.
    { split_and!; cbn; rewrite ?app_nil_r, ?Ht1, ?Hq1, ?Hq; (done || lia). }
    destruct (it_after it); [by exists en1|].
    assert (en_table en1 = track h) as Htab1 by congruence.
    specialize (IH en1 h Hok1 Hkey Htab1). rewrite Hq1 in IH.
    destruct (consumed its []) as [n|]; [|done].
    destruct IH as (en' & Hrun & Hok' & Hd' & Hn & Hb' & Ht' & Hp'). exists en'. split; [done|].
    rewrite Hq1, Hfb in *. unfold loop_done. rewrite Hq. split_and!; try done.
    intros reqs w' Hr. by apply Hp1, Hp'.
  - destruct (pipeline_iteration_spec it en h p q Hok Hit Hkey Htab Hq)
      as (en1 & -> & Hok1 & Hq1 & Hfb & Htab1 & Hpub1).
    rewrite bind_Ret. destruct (ends it p).
    + specialize (IH en1 _ Hok1 (option_list_keyed h (en_frame_buf en) p Hkey) Htab1). rewrite Hq1 in IH.
      destruct (consumed its q) as [n|]; [|done].
      destruct IH as (en' & Hrun & Hd). exists en'. split; [done|]. by eapply loop_done_step.
    + exists en1. split; [done|]. eapply loop_done_step; [done..|]. by apply loop_done_refl.
Qed.
End Run.

(** *** The frames of a run of packets *)

Lemma packet_frame_typed ips buf p e :
  bytes buf → bytes p.2 → is_u64 p.1 → packet_frame ips buf p = Some e → frame_typed e.
Proof.
  intros Hb Hf Hts. unfold packet_frame. destruct (filter_keeps p.2) eqn:Hk; [|done].
  apply filter_keeps_true in Hk as [Hlen _].
  pose proof (dissector_stage_range (p.2 ++ drop (length p.2) buf)
    ltac:(apply Forall_app_2; [done|by apply Forall_drop]) (filtered_frame p.1 p.2) ips) as Hr.
  destruct (dissector_stage _ _ _) as [[[d|] l]| | | |]; try done. cbn in Hr. destruct Hr as [Hd He].
  apply stats_stage_typed; rewrite ?He; try done; try (by apply bytes_at_bytes);
    apply length_bytes_at; lia.
Qed.

Lemma packet_frames_typed ips buf ps :
  bytes buf → Forall (λ p, bytes p.2 ∧ is_u64 p.1) ps → Forall frame_typed (packet_frames ips buf ps).
Proof.
  intros Hb Hps. revert buf Hb. induction Hps as [|p ps [Hp Hts] Hps IH]; intros buf Hb; [constructor|].
  simpl. apply Forall_app. split.
  - destruct (packet_frame ips buf p) as [e|] eqn:E; simpl; [|constructor].
    apply Forall_singleton. by eapply packet_frame_typed.
  - apply IH. unfold copied. apply Forall_app_2; [done|by apply Forall_drop].
Qed.

Lemma flow_frames_Forall (P : EnrichedFrame → Prop) k h : Forall P h → Forall P (flow_frames k h).
Proof.
  rewrite !list.Forall_forall. unfold flow_frames. intros Hh x Hx.
  apply list_elem_of_filter in Hx as [_ Hx]. by apply Hh.
Qed.

(** The frames extracted from a source are well-formed, and so are the requests. *)
Lemma source_frames_typed ips (b : B) buf :
  ps_ok b → bytes buf → Forall frame_typed (packet_frames ips buf (ps_packets b)).
Proof.
  intros Hok Hb. apply packet_frames_typed; [done|]. apply list.Forall_forall. intros [ts f] Hin.
  by destruct (ps_packet b ts f Hok Hin) as (_ & ? & ?).
Qed.

Lemma source_frames_ok ips (b : B) buf :
  ps_ok b → bytes buf → Forall frame_ok (packet_frames ips buf (ps_packets b)).
Proof. intros. eapply Forall_impl; [by apply source_frames_typed|]. apply fy_ok. Qed.

Lemma requests_ok h l :
  Forall frame_ok h → Forall frame_ok l →
  Forall (λ q : EnrichedFrame * FlowRecord * bool, frame_ok q.1.1 ∧ flow_ok q.1.2) (requests h l).
Proof.
  intros Hh Hl. revert h Hh. induction Hl as [|e l He Hl IH]; intros h Hh; simpl; [constructor|].
  assert (Forall frame_ok (h ++ [e])) as Hhe by (apply Forall_app; by rewrite Forall_singleton).
  constructor; [|by apply IH]. split; [done|]. apply summary_ok.
  - by apply flow_frames_Forall.
  - intros Hnil. rewrite flow_frames_snoc, decide_True in Hnil by done. by destruct (flow_frames _ h).
Qed.
End Pipeline.

(** ** Properties *)

(** C1: the pipeline end to end.  Over any packet source that meets the
    interface and whatever the iterations of the loop find, the loop of the
    pipeline thread never has undefined behaviour and throws nothing.  It is left
    exactly when it sees the stop request (at its head, after a packet that was
    filtered out, or while it waits for a packet), and otherwise waits or goes on.
    When it is left it has consumed exactly the packets before that point, holds
    the flow table of the frames it extracted from them, and has called [publish]
    for exactly these frames, in order, each with the summary of its flow so far
    and its retransmission flag. *)
Theorem pipeline_correct `{NativeEndian} `{Amqp} `{PacketSource B} (ips : gset Z)
    (its : list iteration) (en : Engine B) :
  (∀ h, amqp_new_connection h ≠ 0) →
  engine_ok en → en_table en = empty_table → Forall sound its →
  match consumed its (ps_packets (en_buf en)) with
  | Some n => ∃ en', pipeline_loop ips its en = Ret en' ∧ engine_ok en' ∧
      ps_packets (en_buf en') = drop n (ps_packets (en_buf en)) ∧
      let fs := packet_frames ips (en_frame_buf en) (take n (ps_packets (en_buf en))) in
      en_table en' = track fs ∧ publishes (requests [] fs) (en_pub en) (en_pub en')
  | None => pipeline_loop ips its en = Blocked ∨ pipeline_loop ips its en = OutOfFuel
  end.
Proof.
  intros Hnew Hok Htab Hits.
  pose proof (pipeline_loop_spec Hnew ips its en [] Hok Hits (Forall_nil_2 _) Htab) as Hs.
  destruct (consumed _ _) as [n|]; [|done].
  destruct Hs as (en' & Hrun & Hok' & Hq & _ & _ & Ht & Hp). exists en'. split_and!; try done.
  split; [done|]. specialize (Hp [] (en_pub en')). rewrite app_nil_r in Hp. apply Hp. by constructor.
Qed.

Definition demo_iteration (head : bool) : iteration :=
  mkIteration head (mkStop false false) (replicate 2048 0) false.

Definition demo_engine : Engine PacketBuffer :=
  mkEngine demo_one_packet (replicate 2040 0) empty_table (initial_world default_config).

Lemma pipeline_correct_witness :
  let _ : NativeEndian := LittleEndian in let _ := friendly_amqp in
  ∃ en', pipeline_loop {[ 0x0A000001 ]} [demo_iteration false; demo_iteration true] demo_engine = Ret en' ∧
    ps_packets (en_buf en') = [] ∧
    outbound_bytes (FlowTable_get (en_table en') "10.0.0.1:1000->10.0.0.2:53") = 28.
Proof.
  intros ? ?.
  destruct (pipeline_correct {[ 0x0A000001 ]} [demo_iteration false; demo_iteration true] demo_engine)
    as (en' & Hrun & _ & Hq & Htab & _).
  - intros h. discriminate.
  - split.
    + exact demo_one_packet_ok.
    + apply length_replicate.
    + apply Forall_replicate. lia.
    + split; [reflexivity|discriminate].
  - reflexivity.
  - repeat constructor; try discriminate.
  - exists en'. split; [exact Hrun|split; [exact Hq|]]. rewrite Htab. vm_compute. reflexivity.
Defined.

(** C26: every field fits its C++ type: whatever bytes are captured, each frame the
    pipeline extracts has all its numbers within the width they are declared with,
    hardware addresses of six bytes and a key of printable characters; and each
    record of the flow table its times, byte counts and all four counters, a set
    of 32-bit sequence numbers and such a key. *)
Theorem pipeline_records_typed `{NativeEndian} `{PacketSource B} (ips : gset Z) (b : B) (buf : list Z) :
  ps_ok b → bytes buf →
  let fs := packet_frames ips buf (ps_packets b) in
  Forall frame_typed fs ∧ ∀ key rec, table_ (track fs) !! key = Some rec → flow_typed rec.
Proof.
  intros Hok Hb fs. assert (Forall frame_typed fs) as Hfs by (by apply source_frames_typed).
  split; [done|]. intros key rec Hrec. rewrite track_lookup in Hrec by apply packet_frames_keyed.
  destruct (flow_frames key fs) as [|e l] eqn:El; [done|]. injection Hrec as <-.
  rewrite <- El. apply summary_typed; [by apply flow_frames_Forall| |by rewrite El].
  apply list.Forall_forall. unfold flow_frames. by intros x [Hx _]%list_elem_of_filter.
Qed.

Lemma pipeline_records_typed_witness :
  let _ : NativeEndian := LittleEndian in
  let fs := packet_frames {[ 0x0A000001 ]} (replicate 2040 0) (ps_packets demo_one_packet) in
  length fs = 1%nat ∧ Forall frame_typed fs.
Proof.
  intros ? fs. split; [vm_compute; reflexivity|].
  apply (pipeline_records_typed (B := PacketBuffer) {[ 0x0A000001 ]} demo_one_packet (replicate 2040 0)).
  - exact demo_one_packet_ok.
  - apply Forall_replicate. lia.
Defined.
