(* ===== verification/Delivery.v ===== *)
(** * What reaches the broker

    From the calls of [publish] the pipeline makes (Engine.v) to the messages the
    client library is given (Publisher.v). *)

From S2P Require Import Prelude.
From S2P Require Import Bytes.
From S2P Require Import Format.
From S2P Require Import Logger.
From S2P Require Import Effects.
From S2P Require Import PacketBuffer.
From S2P Require Import FilterStage.
From S2P Require Import StatsStage.
From S2P Require Import FlowTracker.
From S2P Require Import PublisherJson.
From S2P Require Import Publisher.
From S2P Require Import Engine.

(** A call of [publish], its message, and whether its protocol is published. *)
Abbreviation request := (EnrichedFrame * FlowRecord * bool)%type.

Definition message `{NativeEndian} (q : request) : string := c_str (buildJson q.1.1 q.1.2 q.2).
Definition members (q : request) : list (string * json_value) := message_members q.1.1 q.1.2 q.2.
Definition is_published (q : request) : Prop := tracked_protocol q.1.1 = true.

(** The broker takes every message and acknowledges it at the first poll. *)
Record broker_accepts `{Amqp} : Prop := {
  ba_publish : ∀ h c ch e k m i p b, amqp_basic_publish h c ch e k m i p b = AMQP_STATUS_OK;
  ba_wait : ∀ h c s us, kind (amqp_simple_wait_frame_noblock h c s us) = KAck;
}.

(** A sublist of the full length is the list. *)
Lemma sublist_all {A} (l1 l2 : list A) : l1 `sublist_of` l2 → length l1 = length l2 → l1 = l2.
Proof.
  induction 1 as [|x l1 l2 Hs IH|x l1 l2 Hs IH]; intros Hl; simpl in Hl; [done|f_equal; apply IH; lia|].
  apply sublist_length in Hs. lia.
Qed.

Section Delivery.
Context `{NativeEndian} `{Amqp}.

Lemma polls_bodies conn n evs v : polls conn n evs v → bodies evs = [].
Proof. induction 1; done. Qed.

Lemma published_bodies w json b w' :
  published w json b w' → bodies (history w') = bodies (history w) ++ [c_str json].
Proof.
  intros (rc & evs & Hh & Hend). rewrite Hh. unfold bodies. rewrite omap_app. f_equal. cbn. f_equal.
  destruct (rc =? AMQP_STATUS_OK).
  - destruct Hend as (v & Hp & _). by eapply polls_bodies.
  - by destruct Hend as (-> & _).
Qed.

Section Any.
Hypothesis new_connection_nonnull : ∀ h, amqp_new_connection h ≠ 0.

(** A call sends its message once or not at all, and never for other protocols. *)
Lemma publish_bodies q w b w' :
  publisher_ok w → publish q.1.1 q.1.2 q.2 w = Ret (b, w') →
  publisher_ok w' ∧
  (bodies (history w') = bodies (history w) ∨
   is_published q ∧ bodies (history w') = bodies (history w) ++ [message q]).
Proof.
  intros Hok Hp. destruct (wp_elim _ _ _ (publish_spec new_connection_nonnull q.1.1 q.1.2 q.2 w Hok))
    as (b' & w'' & Hp' & Hres & Hok' & _).
  rewrite Hp in Hp'. injection Hp' as <- <-. split; [done|]. unfold publish_result in Hres.
  unfold is_published. destruct (tracked_protocol q.1.1); cbn [negb] in Hres; [|by destruct Hres as [_ ->]; left].
  destruct (connected_ (obj w)); [right; split; [done|]; by eapply published_bodies|].
  destruct Hres as (w1 & _ & Hb & _ & _ & _ & Hres). rewrite <- Hb. destruct (connected_ (obj w1)).
  - right. split; [done|]. by eapply published_bodies.
  - left. by destruct Hres as (_ & _ & _ & ->).
Qed.

Lemma publishes_bodies reqs w w' :
  publisher_ok w → publishes reqs w w' →
  ∃ sent, sent `sublist_of` filter is_published reqs ∧
    bodies (history w') = bodies (history w) ++ (message <$> sent).
Proof.
  intros Hok Hp. revert Hok. induction Hp as [w w' Ho Hh|f flow r reqs w l b w1 w' Hp _ IH]; intros Hok.
  { exists []. rewrite Hh, app_nil_r. done. }
  assert (publisher_ok (log_calls w l)) as Hokl by (by destruct Hok).
  destruct (publish_bodies (f, flow, r) _ _ _ Hokl Hp) as [Hok1 Hb]. destruct (IH Hok1) as (sent & Hsub & Hbs).
  rewrite filter_cons. destruct Hb as [Hb|[Ht Hb]]; cbn in Hb.
  - exists sent. rewrite Hbs, Hb. split; [|done]. case_decide; [by apply sublist_cons|done].
  - exists ((f, flow, r) :: sent). rewrite decide_True by done. split; [by apply sublist_skip|].
    rewrite Hbs, Hb, fmap_cons, <- app_assoc. done.
Qed.
End Any.

(** With such a broker, a connected publisher sends every message. *)
Section Healthy.
Hypothesis healthy : broker_accepts.

Lemma kind_ack r :
  kind r = KAck → (wait_rc r =? AMQP_STATUS_TIMEOUT) = false ∧ (wait_rc r =? AMQP_STATUS_OK) = true ∧
    (frame_type r =? AMQP_FRAME_METHOD) = true ∧ (method_id r =? AMQP_BASIC_ACK_METHOD) = true.
Proof. unfold kind. by repeat match goal with |- context [?a =? ?b] => destruct (a =? b) end. Qed.

Lemma confirm_healthy n w :
  wp (confirm_loop (S n) 0) w (λ e w', e = Done true ∧ obj w' = obj w ∧ bodies (history w') = bodies (history w)).
Proof.
  cbn [confirm_loop]. change (0 <? MAX_CONFIRM_WAIT_MS) with true. cbv iota. do 4 wp_base. subst r.
  destruct (kind_ack _ (ba_wait healthy (history w) (conn_ (obj w)) 0 (POLL_INTERVAL_MS * 1000)))
    as (E1 & E2 & E3 & E4).
  rewrite E1, E2, E3, E4. cbn [negb]. wp_base. by rewrite bodies_snoc, app_nil_r.
Qed.

Lemma publish_healthy q w :
  is_published q → connected_ (obj w) = true →
  wp (publish q.1.1 q.1.2 q.2) w (λ b w',
    obj w' = obj w ∧ bodies (history w') = bodies (history w) ++ [message q]).
Proof.
  intros Ht Hc. unfold publish. cbv zeta. rewrite tracked_protocol_test. unfold is_published in Ht. rewrite Ht.
  cbn [negb]. do 2 wp_base. rewrite Hc. cbn [negb]. unfold publish_connected. do 4 wp_base.
  subst r. rewrite (ba_publish healthy), Z.eqb_refl. cbn [negb]. wp_base.
  eapply wp_mono; [apply confirm_healthy|]. intros e w' (-> & Ho & Hb). cbn [obj history] in *.
  wp_base. split; [done|]. by rewrite Hb, bodies_snoc.
Qed.

Lemma publishes_healthy reqs w w' :
  connected_ (obj w) = true → publishes reqs w w' →
  bodies (history w') = bodies (history w) ++ (message <$> filter is_published reqs).
Proof.
  intros Hc Hp. revert Hc. induction Hp as [w w' Ho Hh|f flow r reqs w l b w1 w' Hp _ IH]; intros Hc.
  { by rewrite Hh, app_nil_r. }
  rewrite filter_cons. case_decide as Ht.
  - destruct (wp_elim _ _ _ (publish_healthy (f, flow, r) (log_calls w l) Ht Hc)) as (b' & w1' & Hp' & Ho & Hb).
    cbn in Hp'. rewrite Hp in Hp'. injection Hp' as <- <-. cbn [log_calls obj history] in Ho, Hb.
    rewrite IH by (by rewrite Ho). by rewrite Hb, fmap_cons, <- app_assoc.
  - unfold publish in Hp. rewrite tracked_protocol_test in Hp. apply not_true_is_false in Ht. cbn in Ht.
    rewrite Ht in Hp. injection Hp as <- <-. by apply IH.
Qed.
End Healthy.
End Delivery.

(** ** Properties *)

(** C12: what the broker is given.  Whatever bytes are captured and whatever the
    broker answers, the messages the pipeline sends are messages of frames it
    extracted, in order and none twice, of the published protocols only; each is
    sent as a whole and is a JSON object with exactly the members of its frame
    and its flow.  With a broker that accepts and acknowledges, a connected
    publisher sends every one of them. *)
Theorem messages_delivered `{NativeEndian} `{Amqp} `{PacketSource B} (ips : gset Z) (b : B) (buf : list Z)
    (w w' : PubWorld) :
  (∀ h, amqp_new_connection h ≠ 0) → ps_ok b → bytes buf → publisher_ok w →
  let reqs := requests [] (packet_frames ips buf (ps_packets b)) in
  publishes reqs w w' →
  ∃ sent, sent `sublist_of` filter is_published reqs ∧
    bodies (history w') = bodies (history w) ++ (message <$> sent) ∧
    Forall (λ q, parse_json (message q) = Some (members q)) sent ∧
    (broker_accepts → connected_ (obj w) = true → sent = filter is_published reqs).
Proof.
  intros Hnew Hok Hb Hw reqs Hp.
  assert (Forall (λ q, parse_json (message q) = Some (members q)) reqs) as Hparse.
  { pose proof (requests_ok [] _ (Forall_nil_2 _) (source_frames_ok ips b buf Hok Hb)) as Hreqs.
    eapply Forall_impl; [exact Hreqs|]. intros [[f flow] r] [Hf Hflow]. cbn in *. unfold message.
    rewrite c_str_buildJson by done. by apply parse_buildJson. }
  assert (∀ sent, sent `sublist_of` filter is_published reqs →
    Forall (λ q, parse_json (message q) = Some (members q)) sent) as Hsent.
  { intros sent Hsub. rewrite list.Forall_forall in Hparse |- *. intros q Hq. apply Hparse.
    eapply list_elem_of_filter. by eapply elem_of_sublist. }
  destruct (publishes_bodies Hnew reqs w w' Hw Hp) as (sent & Hsub & Hbs).
  exists sent. split_and!; [done|done|by apply Hsent|]. intros Hh Hc.
  pose proof (publishes_healthy Hh reqs w w' Hc Hp) as Hall. rewrite Hbs in Hall.
  apply app_inv_head, (f_equal length) in Hall. rewrite !length_fmap in Hall. by apply sublist_all.
Qed.

(** Under the broker of [friendly_amqp] the message of the one packet is sent. *)
Lemma messages_delivered_witness :
  let _ : NativeEndian := LittleEndian in let _ := friendly_amqp in
  let reqs := requests [] (packet_frames {[ 0x0A000001 ]} (replicate 2040 0) (ps_packets demo_one_packet)) in
  ∃ w w', publishes reqs w w' ∧ length (bodies (history w')) = 1%nat.
Proof.
  intros ? ? reqs.
  destruct (construct (initial_world default_config)) as [[u w]| | | |] eqn:Hc; try discriminate Hc.
  assert (publisher_ok w ∧ connected_ (obj w) = true ∧ bodies (history w) = []) as (Hok & Hcon & Hb).
  { vm_compute in Hc. injection Hc as _ <-. split; [split; [reflexivity|discriminate]|split; reflexivity]. }
  assert (∃ w', publishes reqs w w') as [w' Hp].
  { assert (∃ q, reqs = [q]) as [[[e flow] r] Hq] by (vm_compute; eexists; reflexivity). rewrite Hq.
    assert (∀ h, amqp_new_connection h ≠ 0) as Hnew by (intros h; discriminate).
    destruct (wp_elim _ _ _ (publish_spec Hnew e flow r w Hok)) as (b & w' & Hpub & _).
    exists w'. apply (publishes_cons e flow r [] w [] b w' w'); [|constructor; reflexivity].
    unfold log_calls. rewrite app_nil_r. destruct w. exact Hpub. }
  destruct (messages_delivered (B := PacketBuffer) {[ 0x0A000001 ]} demo_one_packet (replicate 2040 0) w w')
    as (sent & _ & Hbs & _ & Hall).
  - intros h. discriminate.
  - exact demo_one_packet_ok.
  - apply Forall_replicate. lia.
  - exact Hok.
  - exact Hp.
  - exists w, w'. split; [exact Hp|]. rewrite Hbs, Hb, Hall; [vm_compute; reflexivity| |exact Hcon].
    split; reflexivity.
Defined.
