(* ===== verification/Routing.v ===== *)
(** * Where the messages go (src/infra/rabbitmq/definitions.json)

    The definitions the broker is started with, and the queues that the messages
    of the publisher are routed to.  The broker itself is a parameter; what is
    used of it is how AMQP defines a direct exchange. *)

From S2P Require Import Prelude.
From S2P Require Import Bytes.
From S2P Require Import Format.
From S2P Require Import Logger.
From S2P Require Import Effects.
From S2P Require Import IpParser.
From S2P Require Import StatsStage.
From S2P Require Import FlowTracker.
From S2P Require Import PublisherJson.
From S2P Require Import Publisher.
From S2P Require Import Engine.
From S2P Require Import Delivery.

(** ** The definitions

    Left out are the cluster name, the mirroring policy, the tags of the user, the
    fields auto_delete and internal (false throughout) and empty arguments. *)

Inductive exchange_type : Type := direct | fanout.
Record user : Type := mkUser { user_name : string; user_password : string }.
Record permission : Type := mkPermission {
  perm_user : string; perm_vhost : string; perm_configure : string; perm_write : string; perm_read : string }.
Record exchange_def : Type := mkExchange {
  ex_name : string; ex_vhost : string; ex_type : exchange_type; ex_durable : bool }.
Record queue_def : Type := mkQueue {
  q_name : string; q_vhost : string; q_durable : bool;
  q_max_length : option Z; q_max_length_bytes : option Z; q_overflow : option string;
  q_message_ttl : option Z; q_dead_letter_exchange : option string }.
Record binding : Type := mkBinding {
  b_source : string; b_vhost : string; b_destination : string; b_destination_type : string;
  b_routing_key : string }.

Record broker_definitions : Type := mkDefinitions {
  vhosts : list string;
  users : list user;
  permissions : list permission;
  exchanges : list exchange_def;
  queues : list queue_def;
  bindings : list binding;
}.

Definition definitions : broker_definitions := {|
  vhosts := ["/"];
  users := [mkUser "guest" "guest"];
  permissions := [mkPermission "guest" "/" ".*" ".*" ".*"];
  exchanges := [mkExchange "raw_packets" "/" direct true; mkExchange "raw_packets.dead_letter" "/" fanout true];
  queues := [
    mkQueue "raw_packets.spring" "/" true (Some 100000) (Some 104857600) (Some "drop-head") (Some 60000)
      (Some "raw_packets.dead_letter");
    mkQueue "raw_packets.failed" "/" true None None None None None];
  bindings := [
    mkBinding "raw_packets" "/" "raw_packets.spring" "queue" "packet.raw";
    mkBinding "raw_packets.dead_letter" "/" "raw_packets.failed" "queue" "#"];
|}.

#[global] Instance exchange_type_eq_dec : EqDecision exchange_type.
Proof. solve_decision. Defined.
#[global] Instance exchange_def_eq_dec : EqDecision exchange_def.
Proof. solve_decision. Defined.
#[global] Instance binding_eq_dec : EqDecision binding.
Proof. solve_decision. Defined.

(** ** Routing *)

(** The queues a message goes to that is published on a virtual host to an
    exchange with a routing key. *)
Class AmqpBroker := route : broker_definitions → string → string → string → list string.

(** A direct exchange sends a message to the queues that are bound to it with the
    message's routing key. *)
Definition routes_direct `{AmqpBroker} : Prop :=
  ∀ d vhost e k q durable, mkExchange e vhost direct durable ∈ exchanges d →
    q ∈ route d vhost e k ↔ mkBinding e vhost q "queue" k ∈ bindings d.

(** The messages of a history of calls that are routed to the queue [q], each on
    the virtual host of the last login. *)
Definition route_call `{AmqpBroker} (d : broker_definitions) (q : string) (s : option string * list string)
    (c : call) : option string * list string :=
  match c with
  | Login _ vhost _ _ _ _ _ _ _ => (Some vhost, s.2)
  | BasicPublish _ _ e k _ _ _ b _ =>
      (s.1, s.2 ++ (if decide (q ∈ from_option (λ vhost, route d vhost e k) [] s.1) then [b] else []))
  | _ => s
  end.
Definition routing `{AmqpBroker} d q (h : list call) : option string * list string :=
  foldl (route_call d q) (None, []) h.
Definition routed `{AmqpBroker} d q h : list string := (routing d q h).2.

Lemma routing_snoc `{AmqpBroker} d q h c : routing d q (h ++ [c]) = route_call d q (routing d q h) c.
Proof. unfold routing. by rewrite foldl_snoc. Qed.

(** ** What the publisher's calls name *)

Create HintDb follows.

Section Calls.
Context (cfg : PublisherConfig).

Definition addressed (c : call) : Prop :=
  match c with
  | Login _ vhost _ _ _ _ user pass _ =>
      vhost = "/" ∧ user = c_str (username cfg) ∧ pass = c_str (password cfg)
  | BasicPublish _ _ e k _ _ _ _ _ => e = amqp_cstring_bytes (exchange cfg) ∧ k = amqp_cstring_bytes (routing_key cfg)
  | _ => True
  end.
Definition configured (p : RabbitMqPublisher) : Prop := config_ p = cfg.

Context `{NativeEndian} `{Amqp}.
Abbreviation follows m := (keeps configured addressed m).

Ltac follow :=
  repeat first [solve [auto with follows] | keeps_step]; unfold configured, addressed in *;
  try (cbn [config_]; split_and?; done || congruence).

Lemma set_conn_follows c s : follows (set_conn c s).
Proof. unfold set_conn. follow. Qed.
Lemma set_connected_follows b : follows (set_connected b).
Proof. unfold set_connected. follow. Qed.
Hint Resolve set_conn_follows set_connected_follows : follows.

Lemma disconnect_follows : follows disconnect.
Proof. unfold disconnect. follow. Qed.
Lemma give_up_follows a : follows (give_up_attempt a).
Proof. unfold give_up_attempt. follow. Qed.
Hint Resolve disconnect_follows give_up_follows : follows.

Lemma connect_attempt_follows a : follows (connect_attempt a).
Proof. unfold connect_attempt. follow. Qed.
Hint Resolve connect_attempt_follows : follows.

Lemma connect_follows : follows connect.
Proof.
  assert (∀ fuel a, follows (connect_loop fuel a)) as Hloop.
  { induction fuel as [|fuel IH]; intros a; cbn [connect_loop]; follow. }
  unfold connect. follow.
Qed.
Hint Resolve connect_follows : follows.

Lemma confirm_loop_follows fuel waited : follows (confirm_loop fuel waited).
Proof.
  revert waited. induction fuel as [|fuel IH]; intros waited; cbn [confirm_loop]; follow.
Qed.

Hint Resolve confirm_loop_follows : follows.

Lemma publish_connected_follows f flow r : follows (publish_connected f flow r).
Proof. unfold publish_connected. follow. Qed.
Hint Resolve publish_connected_follows : follows.

Lemma publish_follows f flow r : follows (publish f flow r).
Proof. unfold publish. follow. Qed.
Hint Resolve publish_follows : follows.

Lemma publisher_life_follows reqs : follows (publisher_life reqs).
Proof.
  unfold publisher_life, construct, destruct_publisher. follow.
  induction reqs as [|[[f flow] r] reqs IH]; cbn [publish_all]; follow.
Qed.
End Calls.

(** ** Where they are routed *)

(** The connection is logged in. *)
Definition logged_in (st : session) : bool :=
  match st with
  | Some (_, (PLoggedIn | PChannelPending | PChannel | PConfirmPending | PConfirm)) => true
  | _ => false
  end.

Section Routes.
Context `{Amqp} `{AmqpBroker} (d : broker_definitions) (cfg : PublisherConfig) (q : string).

Lemma monitor_logged_in st c st' :
  monitor st c = Some st' → logged_in st' = true →
  logged_in st = true ∨ ∃ conn v m f hb sasl u p r, c = Login conn v m f hb sasl u p r.
Proof.
  intros Hm Hl. destruct c; unfold monitor in Hm;
    try (right; by repeat eexists); left; destruct st as [[c' ph]|]; simplify_option_eq; try done;
    repeat case_match; simplify_option_eq; try done;
    destruct ph; simpl in *; simplify_option_eq; try done; by repeat case_match; simplify_eq.
Qed.

(** After a history that followed the session protocol, a connection that is
    logged in is so on [/], and all messages or none go to the queue. *)
Lemma routing_history h st :
  Forall (addressed cfg) h → run h = Some st →
  (logged_in st = true → (routing d q h).1 = Some "/") ∧
  routed d q h =
    if decide (q ∈ route d "/" (amqp_cstring_bytes (exchange cfg)) (amqp_cstring_bytes (routing_key cfg)))
    then bodies h else [].
Proof.
  revert st. induction h as [|c h IH] using rev_ind; intros st Ha Hrun.
  { injection Hrun as <-. split; [done|]. by destruct (decide _). }
  apply Forall_app in Ha as [Ha Hc]. rewrite Forall_singleton in Hc.
  rewrite run_snoc in Hrun. destruct (run h) as [st0|]; [|done]. cbn in Hrun.
  destruct (IH st0 Ha eq_refl) as [Hv Hr]. split.
  - intros Hl. destruct (monitor_logged_in _ _ _ Hrun Hl) as [Hl0|(? & ? & ? & ? & ? & ? & ? & ? & ? & ->)].
    + specialize (Hv Hl0). rewrite routing_snoc.
      destruct c; cbn [route_call fst]; try done. by destruct Hc as [-> _].
    + rewrite routing_snoc. by destruct Hc as [-> _].
  - unfold routed in *. rewrite routing_snoc, bodies_snoc.
    destruct c; cbn [route_call snd]; rewrite ?app_nil_r; try done.
    destruct Hc as [-> ->]. rewrite Hr.
    assert (logged_in st0 = true) as Hl0.
    { unfold monitor in Hrun. destruct st0 as [[c' ph]|]; [|done]. case_bool_decide; [|done]. by destruct ph. }
    rewrite (Hv Hl0). cbn [from_option]. by destruct (decide _).
Qed.
End Routes.

(** ** The life of a publisher *)

Section Life.
Context `{NativeEndian} `{Amqp}.
Hypothesis new_connection_nonnull : ∀ h, amqp_new_connection h ≠ 0.

Lemma publish_all_publishes reqs w w' : publish_all reqs w = Ret (tt, w') → publishes reqs w w'.
Proof.
  revert w. induction reqs as [|[[f flow] r] reqs IH]; intros w Hr; cbn [publish_all] in Hr.
  { injection Hr as <-. by constructor. }
  apply bindM_Ret in Hr as (b & w1 & Hp & Hr). apply (publishes_cons f flow r reqs w [] b w1); [|by apply IH].
  unfold log_calls. rewrite app_nil_r. by destruct w.
Qed.

(** What is handed to the broker in it. *)
Lemma publisher_life_bodies cfg reqs :
  ∃ w1 w' sent, construct (initial_world cfg) = Ret (tt, w1) ∧
    publisher_life reqs (initial_world cfg) = Ret (tt, w') ∧ run (history w') = Some None ∧
    sent `sublist_of` filter is_published reqs ∧ bodies (history w') = message <$> sent ∧
    (broker_accepts → connected_ (obj w1) = true → sent = filter is_published reqs).
Proof.
  destruct (wp_elim_unit _ _ _ (construct_spec new_connection_nonnull cfg)) as (w1 & Hc & Hok1 & Hb1).
  destruct (wp_elim_unit _ _ _ (publish_all_spec new_connection_nonnull reqs w1 Hok1)) as (w2 & Ha & Hok2).
  destruct (wp_elim_unit _ _ _ (disconnect_spec w2 (po_run _ Hok2))) as (w3 & Hd & (_ & _ & Hb3 & _) & Hrun & _).
  pose proof (publish_all_publishes _ _ _ Ha) as Hp.
  destruct (publishes_bodies new_connection_nonnull reqs w1 w2 Hok1 Hp) as (sent & Hsub & Hb2).
  rewrite Hb1 in Hb2. exists w1, w3, sent. split_and!; try done.
  - unfold publisher_life, bindM, destruct_publisher. by rewrite Hc, bind_Ret, Ha, bind_Ret.
  - by rewrite Hb3.
  - intros Hh Hcon. pose proof (publishes_healthy Hh reqs w1 w2 Hcon Hp) as Hall. rewrite Hb1, Hb2 in Hall.
    apply (f_equal length) in Hall. cbn in Hall. rewrite !length_fmap in Hall. by apply sublist_all.
Qed.
End Life.

(** The defaults of the code name an exchange and a key of the definitions. *)
Lemma default_route `{AmqpBroker} q :
  routes_direct → q ∈ route definitions "/" "raw_packets" "packet.raw" ↔ q = "raw_packets.spring".
Proof.
  intros Hr. rewrite (Hr definitions "/" "raw_packets" "packet.raw" q true) by left.
  split; [|intros ->; left]. cbn. intros [[= ->]|[[=]|[]%elem_of_nil]%elem_of_cons]%elem_of_cons. done.
Qed.

(** ** Properties *)

(** C15: where the messages go.  With the definitions the broker is started with, and
    the exchange and the routing key left at their defaults or set to the same,
    every message a publisher hands over in its life is routed to the queue
    raw_packets.spring and to no other: that queue is sent the messages of the
    frames published, in order and none twice, and all of them when the broker
    can be reached and accepts.  Every login is on a virtual host of the
    definitions, and with the default credentials by a user of theirs. *)
Theorem messages_routed `{NativeEndian} `{Amqp} `{AmqpBroker} (getenv : string → option string) cfg
    (reqs : list request) :
  routes_direct → (∀ h, amqp_new_connection h ≠ 0) → publisherConfigFromEnv getenv = Ret cfg →
  getenv "RABBITMQ_EXCHANGE" ∈ [None; Some "raw_packets"] →
  getenv "RABBITMQ_ROUTING_KEY" ∈ [None; Some "packet.raw"] →
  ∃ w1 w' sent, construct (initial_world cfg) = Ret (tt, w1) ∧
    publisher_life reqs (initial_world cfg) = Ret (tt, w') ∧
    sent `sublist_of` filter is_published reqs ∧
    (broker_accepts → isConnected (obj w1) = true → sent = filter is_published reqs) ∧
    (∀ q, routed definitions q (history w') = if decide (q = "raw_packets.spring") then message <$> sent else []) ∧
    ∀ conn vhost m f hb sasl u p r, Login conn vhost m f hb sasl u p r ∈ history w' →
      vhost ∈ vhosts definitions ∧
      (getenv "RABBITMQ_USER" = None → getenv "RABBITMQ_PASS" = None → mkUser u p ∈ users definitions).
Proof.
  intros Hroute Hnew Hcfg He Hk.
  destruct (publisher_life_bodies Hnew cfg reqs) as (w1 & w' & sent & Hc & Hl & Hrun & Hsub & Hb & Hall).
  assert (Forall (addressed cfg) (history w')) as Ha.
  { by apply (publisher_life_follows cfg reqs (initial_world cfg) tt w'). }
  apply bind_eq_Ret in Hcfg as (pt & _ & [= <-]).
  exists w1, w', sent. split_and!; try done.
  - intros q. destruct (routing_history definitions _ q (history w') None Ha Hrun) as [_ ->]. rewrite Hb.
    assert (q ∈ route definitions "/" "raw_packets" "packet.raw" ↔ q = "raw_packets.spring") as Hq
      by (by apply default_route).
    rewrite !elem_of_cons, elem_of_nil in He, Hk. cbn [exchange routing_key].
    destruct He as [->|[->|[]]], Hk as [->|[->|[]]]; by apply decide_ext.
  - intros * Hin. rewrite list.Forall_forall in Ha. destruct (Ha _ Hin) as (-> & -> & ->). split; [left|].
    cbn [username password]. intros -> ->. left.
Qed.

(** A broker that follows the rule, for the witness. *)
Definition demo_broker : AmqpBroker := λ d vhost e k,
  omap (λ b, if decide (mkBinding e vhost (b_destination b) "queue" k = b) then Some (b_destination b) else None)
    (bindings d).

Lemma demo_broker_direct : routes_direct (H := demo_broker).
Proof.
  intros d vhost e k q durable _. unfold route, demo_broker. rewrite list_elem_of_omap. split.
  - intros (b & Hb & Hd). case_decide as E; [|done]. injection Hd as <-. by rewrite E.
  - intros Hb. exists (mkBinding e vhost q "queue" k). split; [done|]. by rewrite decide_True.
Qed.

Lemma messages_routed_witness :
  let _ : NativeEndian := LittleEndian in let _ := friendly_amqp in let _ := demo_broker in
  ∃ w', publisher_life [(demo_frame "a" 1 6 2 100 40 Inbound, empty_record, false)]
      (initial_world default_config) = Ret (tt, w') ∧
    length (routed definitions "raw_packets.spring" (history w')) = 1%nat ∧
    routed definitions "raw_packets.failed" (history w') = [].
Proof.
  intros ? ? ?.
  destruct (messages_routed (λ _, None) default_config
    [(demo_frame "a" 1 6 2 100 40 Inbound, empty_record, false)]) as (w1 & w' & sent & Hc & Hl & _ & Hs & Hq & _).
  - exact demo_broker_direct.
  - intros h. discriminate.
  - reflexivity.
  - left.
  - left.
  - exists w'. split; [exact Hl|]. split; [|exact (Hq "raw_packets.failed")].
    rewrite Hq, Hs; [reflexivity|split; reflexivity|]. vm_compute in Hc. injection Hc as <-. reflexivity.
Defined.
