(* ===== verification/Schema.v ===== *)
(** * The document schema the messages are written for (src/infra/mongo/init-collections.js)

    The messages of the engine become documents of the collection
    [traffic_flows], whose validator refuses a document that does not conform to
    its schema.  The schema as data, what conforming means, and that exactly the
    published messages conform. *)

From S2P Require Import Prelude.
From S2P Require Import Bytes.
From S2P Require Import IpParser.
From S2P Require Import StatsStage.
From S2P Require Import FlowTracker.
From S2P Require Import PacketBuffer.
From S2P Require Import DissectorStage.
From S2P Require Import FilterStage.
From S2P Require Import PublisherJson.
From S2P Require Import Publisher.
From S2P Require Import Ranges.
From S2P Require Import Engine.
From S2P Require Import Delivery.

(** ** The schema language, as far as it is used *)

Inductive bson_type : Type := TString | TInt | TLong | TBool | TNull.

Record property : Type := mkProperty {
  bsonType : list bson_type;
  enum : option (list json_value);
  minimum : option Z;
  maximum : option Z;
}.

Record schema : Type := mkSchema {
  required : list string;
  properties : list (string * property);
}.

(** The value can be stored with the type; [int] has 32 and [long] 64 bits. *)
Definition has_type (v : json_value) (t : bson_type) : bool :=
  match v, t with
  | JStr _, TString | JBool _, TBool | JNull, TNull => true
  | JNum n, TInt => (- 2 ^ 31 <=? n) && (n <? 2 ^ 31)
  | JNum n, TLong => (- 2 ^ 63 <=? n) && (n <? 2 ^ 63)
  | _, _ => false
  end.

#[global] Instance json_value_eq_dec : EqDecision json_value.
Proof. solve_decision. Defined.

Definition allows (p : property) (v : json_value) : bool :=
  existsb (has_type v) (bsonType p) &&
  match enum p with Some vs => bool_decide (v ∈ vs) | None => true end &&
  match v with
  | JNum n => from_option (λ lo, lo <=? n) true (minimum p) && from_option (λ hi, n <=? hi) true (maximum p)
  | _ => true
  end.

Fixpoint property_of (ps : list (string * property)) (k : string) : option property :=
  match ps with
  | [] => None
  | (k', p) :: ps' => if String.eqb k' k then Some p else property_of ps' k
  end.

(** A member the schema does not name may have any value. *)
Definition member_allowed (s : schema) (kv : string * json_value) : bool :=
  match property_of (properties s) kv.1 with Some p => allows p kv.2 | None => true end.

Definition conforms (s : schema) (doc : list (string * json_value)) : bool :=
  forallb (λ k, existsb (λ kv, String.eqb kv.1 k) doc) (required s) && forallb (member_allowed s) doc.

(** ** The collection [traffic_flows] *)

Definition of_type (ts : list bson_type) : property := mkProperty ts None None None.

Definition traffic_flows : schema := {|
  required := ["src_ip"; "dst_ip"; "protocol"; "timestamp"; "flow_key"];
  properties := [
    ("src_ip", of_type [TString]);
    ("dst_ip", of_type [TString]);
    ("protocol", mkProperty [TString] (Some [JStr "TCP"; JStr "UDP"; JStr "ICMP"; JStr "ARP"]) None None);
    ("timestamp", of_type [TLong]);
    ("flow_key", of_type [TString]);

    ("packet_size", mkProperty [TInt; TNull] None (Some 0) (Some 65535));
    ("direction", mkProperty [TString; TNull] (Some [JStr "inbound"; JStr "outbound"; JNull]) None None);
    ("flags", of_type [TInt; TNull]);
    ("src_port", mkProperty [TInt; TNull] None (Some 0) (Some 65535));
    ("dst_port", mkProperty [TInt; TNull] None (Some 0) (Some 65535));
    ("seq_num", of_type [TLong; TNull]);
    ("ttl", of_type [TInt; TNull]);
    ("src_mac", of_type [TString; TNull]);
    ("dst_mac", of_type [TString; TNull]);
    ("checksum_valid", of_type [TBool; TNull]);
    ("is_retransmit", of_type [TBool; TNull]);

    ("first_seen", of_type [TLong; TNull]);
    ("last_seen", of_type [TLong; TNull]);
    ("total_bytes", of_type [TLong; TNull]);
    ("inbound_bytes", of_type [TLong; TNull]);
    ("outbound_bytes", of_type [TLong; TNull]);
    ("syn_count", of_type [TInt; TNull]);
    ("syn_ack_count", of_type [TInt; TNull]);
    ("rst_count", of_type [TInt; TNull]);

    ("arp_opcode", of_type [TInt; TNull]);
    ("arp_sender_ip", of_type [TString; TNull]);
    ("arp_sender_mac", of_type [TString; TNull]);
    ("arp_target_ip", of_type [TString; TNull]);

    ("icmp_type", of_type [TInt; TNull]);
    ("icmp_code", of_type [TInt; TNull])
  ]
|}.

(** ** Which messages conform *)

(** The values of a message that a 32-bit or a 64-bit signed integer must hold. *)
Record storable (f : EnrichedFrame) (flow : FlowRecord) : Prop := {
  so_timestamp : e_timestamp f < 2 ^ 63;
  so_seen : first_seen_ms flow < 2 ^ 63 ∧ last_seen_ms flow < 2 ^ 63;
  so_bytes : total_bytes flow < 2 ^ 63 ∧ inbound_bytes flow < 2 ^ 63 ∧ outbound_bytes flow < 2 ^ 63;
  so_counts : syn_count flow < 2 ^ 31 ∧ syn_ack_count flow < 2 ^ 31 ∧ rst_count flow < 2 ^ 31;
}.

Lemma protocol_in_enum p :
  bool_decide (JStr (protocolToStr p) ∈ [JStr "TCP"; JStr "UDP"; JStr "ICMP"; JStr "ARP"])
  = bool_decide (p ∈ [0; 1; 6; 17]).
Proof.
  unfold protocolToStr.
  destruct (Z.eqb_spec p 6) as [->|]; [done|]. destruct (Z.eqb_spec p 17) as [->|]; [done|].
  destruct (Z.eqb_spec p 1) as [->|]; [done|]. destruct (Z.eqb_spec p 0) as [->|]; [done|].
  rewrite (bool_decide_eq_false_2 (p ∈ _)) by (rewrite !not_elem_of_cons; split_and!; (done || apply not_elem_of_nil)).
  done.
Qed.

(** What a property of the schema asks of a value, for each kind of property. *)
Lemma allows_int n : - 2 ^ 31 ≤ n < 2 ^ 31 → allows (of_type [TInt; TNull]) (JNum n) = true.
Proof. intros. unfold allows. cbn. rewrite (proj2 (Z.leb_le _ _)), (proj2 (Z.ltb_lt _ _)) by lia. done. Qed.

Lemma allows_u16 n : is_u16 n → allows (mkProperty [TInt; TNull] None (Some 0) (Some 65535)) (JNum n) = true.
Proof. intros. unfold allows. cbn. rewrite !(proj2 (Z.leb_le _ _)), (proj2 (Z.ltb_lt _ _)) by lia. done. Qed.

Lemma allows_long n ts : - 2 ^ 63 ≤ n < 2 ^ 63 → allows (of_type (TLong :: ts)) (JNum n) = true.
Proof. intros. unfold allows. cbn. rewrite (proj2 (Z.leb_le _ _)), (proj2 (Z.ltb_lt _ _)) by lia. done. Qed.

Lemma allows_direction d :
  allows (mkProperty [TString; TNull] (Some [JStr "inbound"; JStr "outbound"; JNull]) None None) (direction_json d)
  = true.
Proof. by destruct d. Qed.

Lemma allows_protocol s l : allows (mkProperty [TString] (Some l) None None) (JStr s) = bool_decide (JStr s ∈ l).
Proof. unfold allows. cbn [bsonType enum existsb has_type orb andb]. by destruct (bool_decide _). Qed.

Lemma allows_text s ts : TString ∈ ts → allows (of_type ts) (JStr s) = true.
Proof.
  intros Hts. unfold allows. cbn [bsonType enum of_type]. rewrite !andb_true_r. apply existsb_exists.
  exists TString. by rewrite <- list_elem_of_In.
Qed.

Lemma allows_flag b : allows (of_type [TBool; TNull]) (JBool b) = true.
Proof. done. Qed.

Lemma member_allowed_property s k v p : property_of (properties s) k = Some p → member_allowed s (k, v) = allows p v.
Proof. unfold member_allowed. cbn [fst snd]. by intros ->. Qed.

(** A document that starts with an allowed member. *)
Lemma allowed_cons s k v p doc b :
  property_of (properties s) k = Some p → allows p v = true → forallb (member_allowed s) doc = b →
  forallb (member_allowed s) ((k, v) :: doc) = b.
Proof. intros Hp Hv Hd. cbn [forallb]. by rewrite (member_allowed_property _ _ _ _ Hp), Hv. Qed.

Lemma allowed_protocol f doc :
  forallb (member_allowed traffic_flows) doc = true →
  forallb (member_allowed traffic_flows) (("protocol", JStr (protocolToStr (e_protocol f))) :: doc) = tracked_protocol f.
Proof.
  intros Hd. cbn [forallb]. erewrite Hd, andb_true_r, member_allowed_property by reflexivity.
  by rewrite allows_protocol, protocol_in_enum.
Qed.

Lemma members_allowed f flow r :
  frame_ok f → flow_ok flow → storable f flow →
  forallb (member_allowed traffic_flows) (message_members f flow r) = tracked_protocol f.
Proof.
  intros [] [] []. destruct_and?. unfold message_members.
  do 4 (eapply allowed_cons; [reflexivity|first [apply allows_text; set_solver|apply allows_long; lia]|]).
  apply allowed_protocol.
  repeat (eapply allowed_cons; [reflexivity|first [apply allows_flag | apply allows_direction
    | apply allows_u16; lia | apply allows_int; lia | apply allows_long; lia
    | apply allows_text; set_solver]|]). reflexivity.
Qed.

Lemma members_conform f flow r :
  frame_ok f → flow_ok flow → storable f flow →
  conforms traffic_flows (message_members f flow r) = tracked_protocol f.
Proof. intros. unfold conforms. by rewrite members_allowed. Qed.

(** ** Bounds from the number of packets *)

Lemma count_frames_bound P l : 0 ≤ count_frames P l ≤ Z.of_nat (length l).
Proof. unfold count_frames. pose proof (length_filter (λ e, P e = true) l). lia. Qed.

Lemma sum_sizes_bound l : Forall frame_ok l → 0 ≤ sum_sizes l ≤ 65535 * Z.of_nat (length l).
Proof.
  induction 1 as [|e l [] Hl IH]; [done|]. unfold sum_sizes in *. cbn [foldr length]. lia.
Qed.

(** A message for a history of fewer than 2^31 frames, with time stamps a signed
    integer can hold. *)
Lemma summary_storable k e l :
  Forall frame_ok l → Forall (λ e, e_timestamp e < 2 ^ 63) (e :: l) → l ≠ [] → Z.of_nat (length l) < 2 ^ 31 →
  storable e (summary k l).
Proof.
  intros Hl [He Hts]%Forall_cons Hne Hlen.
  assert (∀ P : EnrichedFrame → Prop, ∀ d : ∀ e, Decision (P e), u64 (sum_sizes (filter P l)) < 2 ^ 63) as Hsum.
  { intros P d. assert (Forall frame_ok (filter P l)) as Hf.
    { rewrite list.Forall_forall in Hl |- *. intros x [_ Hx]%list_elem_of_filter. by apply Hl. }
    
    pose proof (sum_sizes_bound _ Hf). pose proof (length_filter P l). rewrite u64_small; lia. }
  assert (∀ P, u32 (count_frames P l) < 2 ^ 31) as Hcount.
  { intros P. pose proof (count_frames_bound P l). rewrite u32_small; lia. }
  pose proof (sum_sizes_bound l Hl). split; cbn [first_seen_ms last_seen_ms total_bytes inbound_bytes outbound_bytes
    syn_count syn_ack_count rst_count summary]; auto.
  - split.
    + destruct l; [done|]. by apply Forall_cons in Hts as [? _].
    + destruct (last l) as [x|] eqn:E; [|by apply last_None in E].
      apply last_Some_elem_of in E. rewrite list.Forall_forall in Hts. by apply Hts.
  - rewrite u64_small by lia. split; [lia|]. auto.
Qed.

Section Requests.
Context `{NativeEndian}.

(** The record of a packet carries its time stamp. *)
Lemma packet_frame_timestamp ips buf p e :
  bytes buf → bytes p.2 → packet_frame ips buf p = Some e → e_timestamp e = p.1.
Proof.
  intros Hb Hf. unfold packet_frame. destruct (filter_keeps p.2); [|done].
  pose proof (dissector_stage_range (p.2 ++ drop (length p.2) buf)
    ltac:(apply Forall_app_2; [done|by apply Forall_drop]) (filtered_frame p.1 p.2) ips) as Hr.
  destruct (dissector_stage _ _ _) as [[[d|] l]| | | |]; try done. cbn in Hr. destruct Hr as [_ He].
  apply (f_equal snd) in He. cbn in He. destruct d; intros [= <-]; exact He.
Qed.

Lemma packet_frames_timestamps ips buf ps (P : Z → Prop) :
  bytes buf → Forall (λ p, bytes p.2 ∧ P p.1) ps → Forall (λ e, P (e_timestamp e)) (packet_frames ips buf ps).
Proof.
  intros Hb Hps. revert buf Hb. induction Hps as [|p ps [Hp HP] Hps IH]; intros buf Hb; [constructor|].
  simpl. apply Forall_app. split.
  - destruct (packet_frame ips buf p) as [e|] eqn:E; simpl; [|constructor].
    apply Forall_singleton. by rewrite (packet_frame_timestamp _ _ _ _ Hb Hp E).
  - apply IH. unfold copied. apply Forall_app_2; [done|by apply Forall_drop].
Qed.

Lemma length_packet_frames ips buf ps : (length (packet_frames ips buf ps) ≤ length ps)%nat.
Proof.
  revert buf. induction ps as [|p ps IH]; intros buf; simpl; [done|]. rewrite length_app.
  specialize (IH (copied buf p)). destruct (packet_frame ips buf p); simpl; lia.
Qed.
End Requests.

Lemma requests_storable h l :
  Forall frame_ok (h ++ l) → Forall (λ e, e_timestamp e < 2 ^ 63) (h ++ l) → Z.of_nat (length (h ++ l)) < 2 ^ 31 →
  Forall (λ q : request, storable q.1.1 q.1.2) (requests h l).
Proof.
  revert h. induction l as [|e l IH]; intros h Hok Hts Hlen; simpl; [constructor|].
  assert ((h ++ [e]) ++ l = h ++ e :: l) as Hass by (by rewrite <- app_assoc).
  constructor; [|by apply IH; rewrite Hass]. cbn [fst snd].
  rewrite <- Hass in Hok, Hts, Hlen. apply Forall_app in Hok as [Hok _]. apply Forall_app in Hts as [Hts _].
  apply summary_storable.
  - by apply flow_frames_Forall.
  - constructor; [|by apply flow_frames_Forall]. apply Forall_app in Hts as [_ Hts].
    by inversion_clear Hts.
  - rewrite flow_frames_snoc, decide_True by done. by destruct (flow_frames _ h).
  - unfold flow_frames. pose proof (length_filter (λ e0, e_flow_key e0 = e_flow_key e) (h ++ [e])).
    rewrite length_app in Hlen. lia.
Qed.

(** ** Properties *)

(** C13: the messages are documents the store accepts: of the calls of [publish] the
    pipeline makes for fewer than 2^31 packets, with clock readings below 2^63,
    exactly those of the published protocols have a message that conforms to the
    schema of [traffic_flows], read back as JSON: every required member is there,
    every member has a value of its type, in its range and its enumeration; and
    the members of a message are exactly the properties of the schema. *)
Theorem messages_conform `{NativeEndian} `{PacketSource B} (ips : gset Z) (b : B) (buf : list Z) :
  ps_ok b → bytes buf → Z.of_nat (length (ps_packets b)) < 2 ^ 31 → Forall (λ p, p.1 < 2 ^ 63) (ps_packets b) →
  Forall (λ q, ∃ doc, parse_json (message q) = Some doc ∧ doc.*1 ≡ₚ (properties traffic_flows).*1 ∧
    (conforms traffic_flows doc = true ↔ is_published q))
    (requests [] (packet_frames ips buf (ps_packets b))).
Proof.
  intros Hok Hb Hlen Hts. set (fs := packet_frames ips buf (ps_packets b)).
  assert (Forall frame_ok fs) as Hfs by (by apply source_frames_ok).
  assert (Forall (λ e, e_timestamp e < 2 ^ 63) fs) as Hfts.
  { apply (packet_frames_timestamps _ _ _ (λ ts, ts < 2 ^ 63)); [done|]. apply Forall_and. split; [|done].
    apply list.Forall_forall. intros [ts f] Hin. by destruct (ps_packet b ts f Hok Hin) as (_ & ? & _). }
  pose proof (length_packet_frames ips buf (ps_packets b)) as Hl. fold fs in Hl.
  pose proof (requests_ok [] fs (Forall_nil_2 _) Hfs) as Hreq.
  pose proof (requests_storable [] fs Hfs Hfts ltac:(cbn; lia)) as Hst.
  eapply Forall_impl; [apply Forall_and; exact (conj Hreq Hst)|].
  intros [[f flow] r] [[Hf Hflow] Hs]. cbn [fst snd] in *. exists (message_members f flow r).
  unfold message. cbn [fst snd]. rewrite c_str_buildJson by done. split; [by apply parse_buildJson|].
  split; [|by rewrite members_conform].
  apply (bool_decide_unpack _). vm_compute. exact I.
Qed.

Lemma messages_conform_witness :
  let _ : NativeEndian := LittleEndian in
  let reqs := requests [] (packet_frames {[ 0x0A000001 ]} (replicate 2040 0) (ps_packets demo_one_packet)) in
  length reqs = 1%nat ∧
  Forall (λ q, ∃ doc, parse_json (message q) = Some doc ∧ (conforms traffic_flows doc = true ↔ is_published q)) reqs.
Proof.
  intros ? reqs. split; [vm_compute; reflexivity|].
  assert (Forall (λ q, ∃ doc, parse_json (message q) = Some doc ∧ doc.*1 ≡ₚ (properties traffic_flows).*1 ∧
    (conforms traffic_flows doc = true ↔ is_published q)) reqs) as Hr.
  { apply (messages_conform (B := PacketBuffer) {[ 0x0A000001 ]} demo_one_packet (replicate 2040 0)).
    - exact demo_one_packet_ok.
    - apply Forall_replicate. lia.
    - vm_compute. reflexivity.
    - apply (bool_decide_unpack _). vm_compute. exact I. }
  eapply Forall_impl; [exact Hr|]. intros q (doc & Hp & _ & Hc). exists doc. split; assumption.
Defined.
