(* ===== verification/Wire.v ===== *)
(** * Frames on the wire

    Well-formed Ethernet frames as data: an ARP packet, or an IPv4 packet with a
    TCP segment, a UDP datagram, an ICMP message or a payload of another
    protocol; how they are encoded, and the record the pipeline must extract
    from each.  The theorem composes the encoders and the parsers of the single
    protocols with the filter, dissector and stats stages. *)

From S2P Require Import Prelude.
From S2P Require Import Bytes.
From S2P Require Import Format.
From S2P Require Import Logger.
From S2P Require Import Checksum.
From S2P Require Import EthernetParser.
From S2P Require Import IpParser.
From S2P Require Import TcpParser.
From S2P Require Import UdpParser.
From S2P Require Import IcmpParser.
From S2P Require Import ArpParser.
From S2P Require Import FilterStage.
From S2P Require Import DissectorStage.
From S2P Require Import StatsStage.
From S2P Require Import Publisher.
From S2P Require Import Engine.

(** ** Frames *)

(** A datagram may be shorter than the IPv4 payload it comes in; [extra] is the
    rest. *)
Inductive transport : Type :=
  | Tcp (sport dport seq ack res flags window csum urg : Z) (opts data : list Z)
  | Udp (sport dport csum : Z) (data extra : list Z)
  | Icmp (type code : Z) (rest : list Z)
  | Raw (proto : Z) (data : list Z).

Record ip_packet : Type := mkIpPacket {
  w_tos : Z; w_id : Z; w_frag : Z; w_ttl : Z; w_src : Z; w_dst : Z;
  w_csum : Z; w_opts : list Z; w_transport : transport;
}.

Inductive body : Type :=
  | Ipv4 (p : ip_packet)
  | Arp (oper : Z) (smac : list Z) (sip : Z) (tmac : list Z) (tip : Z).

Record wire : Type := mkWire { w_dst_mac : list Z; w_src_mac : list Z; w_body : body; w_pad : list Z }.

(** ** Encoding *)

Definition encode_transport (t : transport) : list Z :=
  match t with
  | Tcp sport dport seq ack res flags window csum urg opts data =>
      encode_tcp sport dport seq ack res flags window csum urg opts data
  | Udp sport dport csum data extra => encode_udp sport dport csum data ++ extra
  | Icmp type code rest => type :: code :: rest
  | Raw _ data => data
  end.

Definition protocol (t : transport) : Z :=
  match t with Tcp _ _ _ _ _ _ _ _ _ _ _ => 6 | Udp _ _ _ _ _ => 17 | Icmp _ _ _ => 1 | Raw p _ => p end.

Definition total_length (p : ip_packet) : Z :=
  20 + Z.of_nat (length (w_opts p)) + Z.of_nat (length (encode_transport (w_transport p))).

(** The header without its checksum field, in two parts; the checksum RFC 1071
    asks for, and whether the one in the field verifies. *)
Definition header1 (p : ip_packet) : list Z :=
  ip_head1 (w_tos p) (total_length p) (w_id p) (w_frag p) (w_ttl p) (protocol (w_transport p)) (w_opts p).
Definition header2 (p : ip_packet) : list Z := ip_head2 (w_src p) (w_dst p) (w_opts p).
Definition checksum (p : ip_packet) : Z := rfc1071 (header1 p ++ [0; 0] ++ header2 p).
Definition checksum_valid (p : ip_packet) : bool :=
  rfc1071 (header1 p ++ be16_bytes (w_csum p) ++ header2 p) =? 0.

Definition encode_packet (p : ip_packet) : list Z :=
  encode_ip (w_tos p) (w_id p) (w_frag p) (w_ttl p) (protocol (w_transport p)) (w_csum p)
    (w_src p) (w_dst p) (w_opts p) (encode_transport (w_transport p)).

Definition encode_wire (w : wire) : list Z :=
  match w_body w with
  | Ipv4 p => encode_ethernet (w_dst_mac w) (w_src_mac w) 0x0800 (encode_packet p ++ w_pad w)
  | Arp oper smac sip tmac tip =>
      encode_ethernet (w_dst_mac w) (w_src_mac w) 0x0806 (encode_arp oper smac sip tmac tip ++ w_pad w)
  end.

(** ** Well-formedness *)

Definition mac_ok (m : list Z) : Prop := length m = 6%nat ∧ bytes m.

Definition transport_ok (t : transport) : Prop :=
  match t with
  | Tcp sport dport seq ack res flags window csum urg opts data =>
      tcp_fields_ok sport dport seq ack res flags window csum urg opts data
  | Udp sport dport csum data extra =>
      is_u16 sport ∧ is_u16 dport ∧ is_u16 csum ∧ bytes data ∧ bytes extra
  | Icmp type code rest => is_u8 type ∧ is_u8 code ∧ bytes rest ∧ (6 ≤ length rest)%nat
  | Raw proto data => proto ∉ [1; 6; 17] ∧ bytes data
  end.

Definition packet_ok (p : ip_packet) : Prop :=
  transport_ok (w_transport p) ∧ is_u16 (w_csum p) ∧
  ip_fields_ok (w_tos p) (w_id p) (w_frag p) (w_ttl p) (protocol (w_transport p)) (w_src p) (w_dst p)
    (w_opts p) (encode_transport (w_transport p)).

Definition wire_ok (w : wire) : Prop :=
  mac_ok (w_dst_mac w) ∧ mac_ok (w_src_mac w) ∧ bytes (w_pad w) ∧
  match w_body w with
  | Ipv4 p => packet_ok p
  | Arp oper smac sip tmac tip =>
      is_u16 oper ∧ mac_ok smac ∧ is_u32 sip ∧ mac_ok tmac ∧ is_u32 tip
  end.

(** ** What the pipeline must extract *)

(** Ports, TCP flags, sequence number, ICMP type and code. *)
Definition transport_fields (t : transport) : Z * Z * Z * Z * Z * Z :=
  match t with
  | Tcp sport dport seq _ _ flags _ _ _ _ _ => (sport, dport, flags, seq, 0, 0)
  | Udp sport dport _ _ _ => (sport, dport, 0, 0, 0, 0)
  | Icmp type code _ => (0, 0, 0, 0, type, code)
  | Raw _ _ => (0, 0, 0, 0, 0, 0)
  end.

Definition no_mac : list Z := [0; 0; 0; 0; 0; 0].

Section Expected.
Context `{NativeEndian}.

Definition extracted (w : wire) (ips : gset Z) (ts : Z) : EnrichedFrame :=
  match w_body w with
  | Ipv4 p =>
      let '(sport, dport, flags, seq, type, code) := transport_fields (w_transport p) in {|
      e_timestamp := ts; e_src_ip := w_src p; e_dst_ip := w_dst p;
      e_protocol := protocol (w_transport p); e_packet_size := total_length p;
      e_direction := resolveDirection (w_src p) (w_dst p) ips;
      e_src_port := sport; e_dst_port := dport; e_flags := flags; e_seq_num := seq;
      e_arp_sender_ip := 0; e_arp_sender_mac := no_mac; e_arp_target_ip := 0; e_arp_opcode := 0;
      e_icmp_type := type; e_icmp_code := code; e_ttl := w_ttl p;
      e_src_mac := w_src_mac w; e_dst_mac := w_dst_mac w; e_checksum_valid := checksum_valid p;
      e_is_retransmit := false; e_flow_key := makeFlowKey (w_src p) sport (w_dst p) dport |}
  | Arp oper smac sip tmac tip => {|
      e_timestamp := ts; e_src_ip := sip; e_dst_ip := tip; e_protocol := 0; e_packet_size := 0;
      e_direction := Unknown; e_src_port := 0; e_dst_port := 0; e_flags := 0; e_seq_num := 0;
      e_arp_sender_ip := sip; e_arp_sender_mac := smac; e_arp_target_ip := tip; e_arp_opcode := oper;
      e_icmp_type := 0; e_icmp_code := 0; e_ttl := 0;
      e_src_mac := w_src_mac w; e_dst_mac := w_dst_mac w; e_checksum_valid := true;
      e_is_retransmit := false; e_flow_key := makeArpFlowKey sip |}
  end.
End Expected.

(** ** Lemmas *)

(** The checksum a sender computes verifies. *)
Lemma checksum_verifies p : packet_ok p → w_csum p = checksum p → checksum_valid p = true.
Proof.
  intros (_ & _ & Hip) Hc. destruct (ip_heads_bytes _ _ _ _ _ _ _ _ _ Hip) as [Hb1 Hb2].
  destruct (length_ip_heads (w_tos p) (w_id p) (w_frag p) (w_ttl p) (protocol (w_transport p))
    (w_src p) (w_dst p) (w_opts p) (encode_transport (w_transport p))) as [Hl1 Hl2].
  unfold checksum_valid. rewrite Hc. eapply (ip_checksum_encoded _ _ _ _ _ _ _ _ _ Hip).
  fold (total_length p). fold (header1 p) (header2 p). rewrite internetChecksum_in; try lia.
  - by rewrite Nat2Z.id, drop_0, firstn_all.
  - apply Forall_app_2; [done|]. apply Forall_app_2; [repeat constructor; lia|done].
  - destruct Hip. unfold header1, header2, total_length. rewrite !length_app, Hl1. simpl. lia.
Qed.

Section Extract.
Context `{NativeEndian}.

(** The transport parsers on an encoded payload at some place of the memory. *)
Lemma dissect_transport_encoded p pre post eth ip ts :
  packet_ok p → bytes pre → bytes post →
  ip_protocol ip = protocol (w_transport p) → ip_payload ip = Ptr (Z.of_nat (length pre)) →
  ip_payload_len ip = Z.of_nat (length (encode_transport (w_transport p))) →
  ip_total_length ip = total_length p →
  ∃ d, dissect_transport (pre ++ encode_transport (w_transport p) ++ post) eth ip ts = Ret (Some d, []) ∧
    stats_stage d = Some (let '(sport, dport, flags, seq, type, code) := transport_fields (w_transport p) in
      enrich_ip eth ip ts (total_length p) sport dport flags seq type code).
Proof.
  intros (Ht & _ & Hip) Hpre Hpost Hproto Hptr Hlen Htot. unfold dissect_transport.
  rewrite Hproto, Hptr, Hlen. destruct (w_transport p) eqn:E; cbn [protocol encode_transport] in *.
  - cbn [Z.eqb Pos.eqb]. rewrite length_encode_tcp, parseTcpHeader_encoded, bind_Ret by done.
    eexists. split; [done|]. cbn. by rewrite Htot.
  - cbn [Z.eqb Pos.eqb]. destruct Ht as (? & ? & ? & ? & ?). destruct Hip.
    assert (Z.of_nat (length (encode_udp sport dport csum data ++ extra))
      = 8 + Z.of_nat (length data) + Z.of_nat (length extra)) as Hl.
    { unfold encode_udp. rewrite !length_app. simpl. lia. }
    rewrite Hl, <- (app_assoc (encode_udp _ _ _ _)), parseUdpHeader_encoded, bind_Ret
      by (done || (by apply Forall_app_2) || lia).
    eexists. split; [done|]. cbn. by rewrite Htot.
  - cbn [Z.eqb Pos.eqb]. destruct Ht as (? & ? & ? & Hr).
    rewrite parseIcmpHeader_in, bind_Ret by (rewrite ?length_app; simpl; lia).
    rewrite (proj2 (Z.leb_le 8 _)) by (simpl; lia).
    eexists. split; [done|]. cbn [stats_stage iif_eth iif_ip iif_icmp iif_capture_ts_ms icmp_header_at
      icmp_type icmp_code icmp_packet_size]. rewrite Htot.
    by rewrite !byte_at_mid by (simpl; lia).
  - destruct Ht as [Hp _]. rewrite !not_elem_of_cons in Hp. destruct Hp as (? & ? & ? & _).
    rewrite !(proj2 (Z.eqb_neq _ _)) by done. eexists. split; [done|]. cbn. by rewrite Htot.
Qed.

Lemma dissect_ip p w ts ips t :
  wire_ok w → w_body w = Ipv4 p → bytes t →
  ∃ d, dissector_stage (encode_wire w ++ t) (filtered_frame ts (encode_wire w)) ips = Ret (Some d, []) ∧
    stats_stage d = Some (extracted w ips ts).
Proof.
  intros (Hd & Hs & Hpad & Hb) Ew Ht. unfold encode_wire, extracted. rewrite Ew in *.
  pose proof Hb as (_ & Hc & Hip).
  unfold encode_packet. rewrite dissector_stage_encoded by done.
  destruct (frame_transport_split (w_dst_mac w) (w_src_mac w) _ _ _ _ _ (w_csum p) _ _ _ _
    (w_pad w) t Hd Hs Hip Hc) as (pre & Hpl & Hpb & ->).
  destruct (dissect_transport_encoded p pre (w_pad w ++ t)
    (encoded_eth (w_dst_mac w) (w_src_mac w) (w_opts p) (encode_transport (w_transport p)) (w_pad w))
    (encoded_ip (w_tos p) (w_id p) (w_frag p) (w_ttl p) (protocol (w_transport p)) (w_csum p)
       (w_src p) (w_dst p) (w_opts p)
       (encode_transport (w_transport p)) ips) ts) as (d & Hdt & Hst);
    [done|done|by apply Forall_app_2|done|cbn; by rewrite Hpl|done|done|].
  exists d. split; [done|]. rewrite Hst.
  destruct (transport_fields (w_transport p)) as [[[[[sport dport] flags] seq] type] code].
  unfold checksum_valid, header1, header2, total_length, enrich_ip, encoded_ip, encoded_eth.
  cbn [ip_src_ip ip_dst_ip ip_protocol ip_direction ip_ttl ip_checksum_ok eth_src_mac eth_dst_mac].
  reflexivity.
Qed.

(** A frame with type field [ty], as the filter sees it. *)
Lemma filter_keeps_ethernet dst src ty payload :
  length dst = 6%nat → length src = 6%nat → ty = 0x0800 ∨ ty = 0x0806 → payload ≠ [] →
  filter_keeps (encode_ethernet dst src ty payload) = true.
Proof.
  intros Hd Hs Hty Hp. unfold filter_keeps, encode_ethernet. apply andb_true_iff. split.
  - apply Z.leb_le. rewrite !length_app, Hd, Hs. destruct payload; [done|]. simpl. lia.
  - destruct dst as [|? [|? [|? [|? [|? [|? []]]]]]]; try discriminate.
    destruct src as [|? [|? [|? [|? [|? [|? []]]]]]]; try discriminate.
    by destruct Hty as [-> | ->].
Qed.

Lemma dissect_arp oper smac sip tmac tip w ts ips t :
  wire_ok w → w_body w = Arp oper smac sip tmac tip → bytes t →
  ∃ d, dissector_stage (encode_wire w ++ t) (filtered_frame ts (encode_wire w)) ips = Ret (Some d, []) ∧
    stats_stage d = Some (extracted w ips ts).
Proof.
  intros ([Hd Hdb] & [Hs Hsb] & Hpad & Hb) Ew Ht. unfold encode_wire, extracted. rewrite Ew in *.
  destruct Hb as (Ho & [Hsl Hsm] & Hsi & [Htl Htm] & Hti).
  set (arp := encode_arp oper smac sip tmac tip). set (dst := w_dst_mac w) in *. set (src := w_src_mac w) in *.
  assert (Z.of_nat (length arp) = 28) as Hal.
  { unfold arp, encode_arp. rewrite !length_app, Hsl, Htl. done. }
  assert (filtered_frame ts (encode_ethernet dst src 0x0806 (arp ++ w_pad w)) =
    mkFilteredFrame {| eth_dst_mac := dst; eth_src_mac := src; eth_ethertype := 0x0806; eth_payload := Ptr 14;
      eth_payload_size := Z.of_nat (length (arp ++ w_pad w)); eth_valid := true |} ts) as Hff.
  { unfold filtered_frame. f_equal.
    pose proof (ethernet_header_at [] dst src 0x0806 (arp ++ w_pad w) [] Hd Hs ltac:(lia)) as E.
    rewrite app_nil_r in E. etransitivity; [|exact E]. cbn [app length]. f_equal.
    unfold encode_ethernet. rewrite !length_app, Hd, Hs. simpl. lia. }
  rewrite Hff. unfold dissector_stage. cbn [ff_eth ff_capture_ts_ms eth_ethertype eth_payload eth_payload_size].
  change (0x0806 =? ETHERTYPE_ARP) with true. cbv iota.
  assert (encode_ethernet dst src 0x0806 (arp ++ w_pad w) ++ t
    = (dst ++ src ++ be16_bytes 0x0806) ++ arp ++ (w_pad w ++ t)) as ->.
  { unfold encode_ethernet. by rewrite <- !app_assoc. }
  replace (Ptr 14) with (Ptr (Z.of_nat (length (dst ++ src ++ be16_bytes 0x0806))))
    by (rewrite !length_app, Hd, Hs; done).
  unfold arp. rewrite parseArpPacket_encoded, bind_Ret; try done.
  - eexists. by split.
  - apply Forall_app_2; [done|]. apply Forall_app_2; [done|]. by apply be16_bytes_bytes.
  - by apply Forall_app_2.
  - fold arp. rewrite length_app. lia.
Qed.

Lemma encode_packet_nonempty p l : encode_packet p ++ l ≠ [].
Proof. unfold encode_packet, encode_ip, ip_head1. done. Qed.

Lemma wire_kept w : wire_ok w → filter_keeps (encode_wire w) = true.
Proof.
  intros ([Hd _] & [Hs _] & _ & _). unfold encode_wire.
  destruct (w_body w); apply filter_keeps_ethernet; auto using encode_packet_nonempty.
Qed.

Lemma wire_dissected w ts ips t :
  wire_ok w → bytes t →
  ∃ d, dissector_stage (encode_wire w ++ t) (filtered_frame ts (encode_wire w)) ips = Ret (Some d, []) ∧
    stats_stage d = Some (extracted w ips ts).
Proof. intros Hw Ht. destruct (w_body w) eqn:E; eauto using dissect_ip, dissect_arp. Qed.
End Extract.

(** ** Properties *)

(** C6: from the wire to the record: the pipeline takes any well-formed frame
    (ARP, or IPv4 with TCP, UDP, ICMP or another payload; any options, padding
    and payload), whatever an earlier frame left behind it in the frame buffer,
    through the filter, the dissector and the stats stage, without a warning,
    into the record that carries exactly its fields: addresses, ports, flags,
    sequence number, types, direction and the key of its flow, and whether its
    IPv4 checksum verifies, which is so for the one its sender computes. *)
Theorem wire_frame_extracted `{NativeEndian} (w : wire) (ips : gset Z) (buf : list Z) (ts : Z) :
  wire_ok w → bytes buf →
  packet_frame ips buf (ts, encode_wire w) = Some (extracted w ips ts) ∧
  (∃ d, dissector_stage (copied buf (ts, encode_wire w)) (filtered_frame ts (encode_wire w)) ips
    = Ret (Some d, [])) ∧
  ∀ p, w_body w = Ipv4 p → w_csum p = checksum p → checksum_valid p = true.
Proof.
  intros Hw Hb. unfold packet_frame, copied. cbn [fst snd]. rewrite wire_kept by done.
  destruct (wire_dissected w ts ips (drop (length (encode_wire w)) buf) Hw) as (d & Hd & Hs);
    [by apply Forall_drop|].
  rewrite Hd. split_and!; [done|by exists d|]. intros p Ew. apply checksum_verifies.
  destruct Hw as (_ & _ & _ & Hw). by rewrite Ew in Hw.
Qed.

(** An ICMP echo request with options and padding. *)
Definition demo_ping : wire := mkWire [1; 2; 3; 4; 5; 6] [7; 8; 9; 10; 11; 12]
  (Ipv4 (mkIpPacket 0 1 0 64 0x0a000001 0x0a000002 0x63d8 [1; 1; 1; 0] (Icmp 8 0 [0; 0; 0; 1; 0; 1; 99]))) [0; 0; 0].

Lemma wire_frame_extracted_witness :
  let _ : NativeEndian := BigEndian in
  packet_frame {[ 0x0a000001 ]} (replicate 2040 255) (77, encode_wire demo_ping)
    = Some (extracted demo_ping {[ 0x0a000001 ]} 77) ∧
  e_icmp_type (extracted demo_ping {[ 0x0a000001 ]} 77) = 8 ∧
  e_direction (extracted demo_ping {[ 0x0a000001 ]} 77) = Outbound ∧
  e_checksum_valid (extracted demo_ping {[ 0x0a000001 ]} 77) = true.
Proof.
  intros ?. split; [|split; [|split]; vm_compute; reflexivity].
  apply (wire_frame_extracted demo_ping {[ 0x0a000001 ]} (replicate 2040 255) 77).
  - assert (bytes [1; 2; 3; 4; 5; 6] ∧ bytes [7; 8; 9; 10; 11; 12] ∧ bytes [0; 0; 0]
      ∧ bytes [1; 1; 1; 0] ∧ bytes [0; 0; 0; 1; 0; 1; 99]) as (? & ? & ? & ? & ?)
      by (split_and!; repeat constructor; lia).
    split_and!; try done.
    split; [split_and!; simpl; done || lia|]. split; [cbn; lia|].
    split; cbn; try done; try lia. repeat constructor; lia.
  - apply Forall_replicate. lia.
Defined.
