(* ===== verification/Decode.v ===== *)
(** * The frames the pipeline accepts

    The converse of Wire.v: bytes that the parsers accept are the encoding of a
    well-formed frame, so that the filter, the dissector and the stats stage
    together compute the partial inverse of the encoder. *)

From S2P Require Import Prelude.
From S2P Require Import Bytes.
From S2P Require Import Checksum.
From S2P Require Import EthernetParser.
From S2P Require Import IpParser.
From S2P Require Import TcpParser.
From S2P Require Import UdpParser.
From S2P Require Import IcmpParser.
From S2P Require Import ArpParser.
From S2P Require Import FilterStage.
From S2P Require Import DissectorStage.
From S2P Require Import StatsStage.
From S2P Require Import CaptureSession.
From S2P Require Import Engine.
From S2P Require Import Wire.

(** ** Bytes read back as fields *)

(** The [n] bytes from offset [o + i]. *)
Definition region (m : list Z) (o i n : Z) : list Z := bytes_at m (o + i) (Z.to_nat n).

Section Regions.
Context (m : list Z) (Hm : bytes m) (o : Z) (Ho : 0 ≤ o).

Lemma region_bytes i n : bytes (region m o i n).
Proof using Hm. by apply bytes_at_bytes. Qed.

Lemma length_region i n :
  0 ≤ i → 0 ≤ n → o + i + n ≤ Z.of_nat (length m) → Z.of_nat (length (region m o i n)) = n.
Proof using Ho. intros. unfold region. rewrite length_bytes_at; lia. Qed.

Lemma region_split i k n : 0 ≤ i → 0 ≤ k ≤ n → region m o i n = region m o i k ++ region m o (i + k) (n - k).
Proof using Ho.
  intros. unfold region, bytes_at. replace (Z.to_nat n) with (Z.to_nat k + Z.to_nat (n - k))%nat by lia.
  rewrite <- take_take_drop, drop_drop. do 3 f_equal. lia.
Qed.

Lemma region_cons i n :
  0 ≤ i → 1 ≤ n → o + i < Z.of_nat (length m) → region m o i n = byte_at m o i :: region m o (i + 1) (n - 1).
Proof using Ho.
  intros. unfold region, bytes_at. rewrite (drop_S m (byte_at m o i)).
  - replace (Z.to_nat n) with (S (Z.to_nat (n - 1))) by lia. cbn [take]. do 3 f_equal. lia.
  - apply list_lookup_lookup_total_lt. lia.
Qed.

Lemma be16_bytes_of b0 b1 : is_u8 b0 → is_u8 b1 → be16_bytes (be16 b0 b1) = [b0; b1].
Proof. intros. unfold be16_bytes, be16. f_equal; [|f_equal]; Z.to_euclidean_division_equations; lia. Qed.

Lemma be32_bytes_of b0 b1 b2 b3 :
  is_u8 b0 → is_u8 b1 → is_u8 b2 → is_u8 b3 → be32_bytes (be32 b0 b1 b2 b3) = [b0; b1; b2; b3].
Proof.
  intros. unfold be32_bytes, be32. change (2 ^ 24) with (256 * 256 * 256). change (2 ^ 16) with (256 * 256).
  change (2 ^ 8) with 256. rewrite <- !Z.div_div by lia.
  repeat f_equal; Z.to_euclidean_division_equations; lia.
Qed.

Lemma region_be16 i n :
  0 ≤ i → 2 ≤ n → o + i + 2 ≤ Z.of_nat (length m) →
  region m o i n = be16_bytes (be16_at m o i) ++ region m o (i + 2) (n - 2).
Proof using Hm Ho.
  intros. rewrite (region_cons i n), (region_cons (i + 1) (n - 1)) by lia. unfold be16_at. rewrite be16_bytes_of by (auto with words).
  cbn [app]. do 3 f_equal; lia.
Qed.

Lemma region_be32 i n :
  0 ≤ i → 4 ≤ n → o + i + 4 ≤ Z.of_nat (length m) →
  region m o i n = be32_bytes (be32_at m o i) ++ region m o (i + 4) (n - 4).
Proof using Hm Ho.
  intros. rewrite (region_cons i n), (region_cons (i + 1) (n - 1)), (region_cons (i + 1 + 1) (n - 1 - 1)),
    (region_cons (i + 1 + 1 + 1) (n - 1 - 1 - 1)) by lia.
  unfold be32_at. rewrite be32_bytes_of by (auto with words).
  cbn [app]. repeat (f_equal; try lia).
Qed.
End Regions.

(** ** The parts of a frame *)

Section Parts.
Context (m : list Z) (Hm : bytes m) (o n : Z) (Ho : 0 ≤ o) (Hn : o + n ≤ Z.of_nat (length m)).

(** Splits the next field off the region at offset [i]. *)
Ltac literals :=
  repeat match goal with
  | |- context [Zpos ?a + Zpos ?b] =>
      let c := eval vm_compute in (Zpos a + Zpos b) in change (Zpos a + Zpos b) with c
  | |- context [0 + ?a] => change (0 + a) with a
  end.
Ltac field8 i := rewrite (region_cons m o Ho i) by lia; literals.
Ltac field16 i := rewrite (region_be16 m Hm o Ho i) by lia; literals.
Ltac field32 i := rewrite (region_be32 m Hm o Ho i) by lia; literals.
Ltac fieldn i k := rewrite (region_split m o Ho i k) by lia; literals.

Lemma udp_region :
  udp_accepts m o n = true →
  let len := be16_at m o 4 in
  region m o 0 n = encode_udp (be16_at m o 0) (be16_at m o 2) (be16_at m o 6) (region m o 8 (len - 8))
    ++ region m o len (n - len).
Proof.
  intros Ha len. assert (8 ≤ len ≤ n) as [? ?] by (unfold udp_accepts in Ha; bool_hyps; done).
  fieldn 0 len. field16 0. field16 2. field16 4. field16 6.
  change (be16_at m o 4) with len. unfold encode_udp. rewrite length_region by lia. rewrite <- !app_assoc.
  replace (8 + (len - 8)) with len by lia. replace (len - 2 - 2 - 2 - 2) with (len - 8) by lia. done.
Qed.

Lemma tcp_region :
  tcp_accepts m o n = true →
  let hb := tcp_header_bytes m o in let b12 := byte_at m o 12 in let b13 := byte_at m o 13 in
  region m o 0 n = encode_tcp (be16_at m o 0) (be16_at m o 2) (be32_at m o 4) (be32_at m o 8)
    (b12 mod 16 * 4 + b13 / 64) (b13 mod 64) (be16_at m o 14) (be16_at m o 16) (be16_at m o 18)
    (region m o 20 (hb - 20)) (region m o hb (n - hb)).
Proof.
  intros Ha hb b12 b13. assert (20 ≤ hb ≤ n) as [? ?] by (unfold tcp_accepts in Ha; bool_hyps; done).
  assert (is_u8 b12 ∧ is_u8 b13) as [? ?] by (split; by apply byte_at_range).
  assert (hb = b12 / 16 * 4) as Hhb by done.
  fieldn 0 hb. field16 0. field16 2. field32 4. field32 8. field8 12. field8 13. field16 14. field16 16. field16 18.
  fold b12 b13. unfold encode_tcp. rewrite length_region by lia. rewrite <- !app_assoc. cbn [app].
  replace ((5 + (hb - 20) / 4) * 16 + (b12 mod 16 * 4 + b13 / 64) / 4) with b12
    by (Z.to_euclidean_division_equations; lia).
  replace ((b12 mod 16 * 4 + b13 / 64) mod 4 * 64 + b13 mod 64) with b13
    by (Z.to_euclidean_division_equations; lia).
  replace (hb - 2 - 2 - 4 - 4 - 1 - 1 - 2 - 2 - 2) with (hb - 20) by lia. done.
Qed.

Lemma arp_region :
  arp_accepts m o n = true →
  region m o 0 n = encode_arp (be16_at m o 6) (region m o 8 6) (be32_at m o 14) (region m o 18 6) (be32_at m o 24)
    ++ region m o 28 (n - 28).
Proof.
  intros Ha. unfold arp_accepts in Ha. bool_hyps.
  field16 0. field16 2. field8 4. field8 5. field16 6. fieldn 8 6. field32 14. fieldn 18 6. field32 24.
  unfold encode_arp. rewrite <- !app_assoc. repeat match goal with H : _ = _ |- _ => rewrite H; clear H end.
  replace (n - 2 - 2 - 1 - 1 - 2 - 6 - 4 - 6 - 4) with (n - 28) by lia. done.
Qed.

Lemma ip_region :
  ip_accepts m o n = true → ip_header_bytes m o ≤ be16_at m o 2 →
  let hb := ip_header_bytes m o in let total := be16_at m o 2 in
  region m o 0 n = encode_ip (byte_at m o 1) (be16_at m o 4) (be16_at m o 6) (byte_at m o 8) (byte_at m o 9)
      (be16_at m o 10) (be32_at m o 12) (be32_at m o 16) (region m o 20 (hb - 20)) (region m o hb (total - hb))
    ++ region m o total (n - total).
Proof.
  intros Ha Hc hb total. assert (20 ≤ hb ≤ n ∧ total ≤ n) as [[? ?] ?] by (by apply ip_accepts_true).
  assert (hb ≤ total) by done. clear Hc. pose proof (byte_at_range m o 0 Hm).
  assert (byte_at m o 0 / 16 = 4 ∧ hb = byte_at m o 0 mod 16 * 4) as [Hv Hhb].
  { unfold ip_accepts in Ha. bool_hyps. done. }
  fieldn 0 total. fieldn 0 hb.
  field8 0. field8 1. field16 2. field16 4. field16 6. field8 8. field8 9. field16 10. field32 12. field32 16.
  unfold encode_ip, ip_head1, ip_head2. rewrite !length_region by lia. rewrite <- !app_assoc. cbn [app].
  fold total. replace (64 + (5 + (hb - 20) / 4)) with (byte_at m o 0) by (Z.to_euclidean_division_equations; lia).
  replace (20 + (hb - 20) + (total - hb)) with total by lia.
  replace (hb - 1 - 1 - 2 - 2 - 2 - 1 - 1 - 2 - 4 - 4) with (hb - 20) by lia. done.
Qed.
End Parts.

(** ** Accepted frames are encodings *)

(** The payload of an accepted packet. *)
Lemma transport_decoded m o n eth ip ts d l :
  bytes m → 0 ≤ o → 0 ≤ n < 65536 → o + n ≤ Z.of_nat (length m) → is_u8 (ip_protocol ip) →
  ip_payload ip = Ptr o → ip_payload_len ip = n → dissect_transport m eth ip ts = Ret (Some d, l) →
  ∃ t, transport_ok t ∧ protocol t = ip_protocol ip ∧ encode_transport t = region m o 0 n.
Proof.
  intros Hm Ho Hn Hin Hp Hptr Hlen Hd. unfold dissect_transport in Hd. rewrite Hptr, Hlen in Hd.
  rewrite parseTcpHeader_in, parseUdpHeader_in, parseIcmpHeader_in, !bind_Ret in Hd by (done || lia).
  destruct (Z.eqb_spec (ip_protocol ip) 6) as [E|].
  { destruct (tcp_accepts m o n) eqn:Ha; [|done]. rewrite (tcp_region m Hm o n Ho Hin Ha).
    eexists (Tcp _ _ _ _ _ _ _ _ _ _ _). split_and!; [|done|reflexivity].
    assert (20 ≤ tcp_header_bytes m o ≤ n) by (unfold tcp_accepts in Ha; bool_hyps; done).
    pose proof (byte_at_range m o 12 Hm). pose proof (byte_at_range m o 13 Hm).
    assert (tcp_header_bytes m o = byte_at m o 12 / 16 * 4) by done.
    cbn [transport_ok]. split; rewrite ?length_region by lia; auto using be16_at_range, be32_at_range, region_bytes;
      try (Z.to_euclidean_division_equations; lia). }
  destruct (Z.eqb_spec (ip_protocol ip) 17) as [E|].
  { destruct (udp_accepts m o n) eqn:Ha; [|done]. rewrite (udp_region m Hm o n Ho Hin Ha).
    eexists (Udp _ _ _ _ _). split_and!; [|done|reflexivity].
    repeat (split; [auto using be16_at_range, region_bytes|]). by apply region_bytes. }
  destruct (Z.eqb_spec (ip_protocol ip) 1) as [E|].
  { destruct (Z.leb_spec 8 n); [|done].
    exists (Icmp (byte_at m o 0) (byte_at m o 1) (region m o 2 (n - 2))). split_and!; [|done|].
    - do 3 (split; [auto using byte_at_range, region_bytes|]). pose proof (length_region m o Ho 2 (n - 2)). lia.
    - cbn [encode_transport]. rewrite (region_cons m o Ho 0), (region_cons m o Ho (0 + 1)) by lia.
      repeat (f_equal; try lia). }
  exists (Raw (ip_protocol ip) (region m o 0 n)). split_and!; [|done|done].
  split; [|by apply region_bytes]. rewrite !not_elem_of_cons. split_and!; [done..|]. apply not_elem_of_nil.
Qed.

(** A frame whose IPv4 total length (when it is IPv4) covers the header. *)
Definition consistent (f : list Z) : Prop :=
  be16_at f 0 12 = 0x0800 → ip_header_bytes f 14 ≤ be16_at f 14 2.

#[global] Instance consistent_dec f : Decision (consistent f).
Proof. unfold consistent. apply _. Defined.

(** The packet in an accepted IPv4 frame. *)
Lemma packet_decoded f n eth ips ts d l :
  bytes f → n = Z.of_nat (length f) - 14 → ip_accepts f 14 n = true → ip_header_bytes f 14 ≤ be16_at f 14 2 →
  dissect_transport f eth (ip_header_at f 14 (direction_at f 14 ips)) ts = Ret (Some d, l) →
  ∃ p pad, packet_ok p ∧ bytes pad ∧ region f 14 0 n = encode_packet p ++ pad.
Proof.
  intros Hf Hn Ha Hc Hd. pose proof (ip_accepts_true _ _ _ Ha) as (? & ? & ?).
  pose proof (be16_at_range f 14 2 Hf). pose proof (byte_at_range f 14 0 Hf).
  assert (ip_header_bytes f 14 = byte_at f 14 0 mod 16 * 4) as Hhb by done.
  rewrite (ip_region f Hf 14 n ltac:(lia) ltac:(lia) Ha Hc).
  set (hb := ip_header_bytes f 14) in *. set (total := be16_at f 14 2) in *.
  destruct (transport_decoded f (14 + hb) (total - hb) eth
    (ip_header_at f 14 (direction_at f 14 ips)) ts d l) as (t & Ht & Hpr & He);
    [done|lia|lia|lia|by apply byte_at_range|done|by apply u64_small; lia|done|].
  assert (encode_transport t = region f 14 hb (total - hb)) as Het.
  { rewrite He. unfold region. f_equal. lia. }
  eexists (mkIpPacket _ _ _ _ _ _ _ (region f 14 20 (hb - 20)) t), (region f 14 total (n - total)).
  cbn [ip_protocol ip_header_at] in Hpr.
  split_and!; [|by apply region_bytes|unfold encode_packet; cbn; rewrite Hpr, Het; reflexivity].
  unfold packet_ok; cbn. rewrite Hpr, Het. split; [done|]. split; [by apply be16_at_range|].
  split; rewrite ?length_region by lia;
    auto using be16_at_range, be32_at_range, byte_at_range, region_bytes; try lia.
  split; [Z.to_euclidean_division_equations; lia|]. Z.to_euclidean_division_equations; lia.
Qed.

(** The Ethernet header and the rest of a frame. *)
Lemma frame_region f :
  bytes f → 14 ≤ Z.of_nat (length f) →
  f = encode_ethernet (region f 0 0 6) (region f 0 6 6) (be16_at f 0 12)
        (region f 14 0 (Z.of_nat (length f) - 14)).
Proof.
  intros Hf Hl. assert (f = region f 0 0 (Z.of_nat (length f))) as Hr.
  { unfold region, bytes_at. by rewrite drop_0, Nat2Z.id, firstn_all. }
  rewrite Hr at 1. rewrite (region_split f 0 ltac:(lia) 0 6), (region_split f 0 ltac:(lia) (0 + 6) 6),
    (region_be16 f Hf 0 ltac:(lia) (0 + 6 + 6)) by lia.
  unfold encode_ethernet. replace (Z.of_nat (length f) - 6 - 6 - 2) with (Z.of_nat (length f) - 14) by lia. done.
Qed.

Lemma frame_decoded f ts ips d l :
  bytes f → filter_keeps f = true → consistent f →
  dissector_stage f (filtered_frame ts f) ips = Ret (Some d, l) → ∃ w, wire_ok w ∧ encode_wire w = f.
Proof.
  intros Hf Hk Hc Hd. apply filter_keeps_true in Hk as [Hlen Hty].
  assert (∀ i, 0 ≤ i ≤ 6 → mac_ok (region f 0 i 6)) as Hmac.
  { intros i Hi. split; [|by apply region_bytes].
    apply Nat2Z.inj. by rewrite length_region by lia. }
  unfold filtered_frame, eth_frame_at in Hd. destruct (decide (be16_at f 0 12 = 0x0806)) as [E|E].
  - unfold dissector_stage in Hd. cbn [ff_eth ff_capture_ts_ms eth_ethertype eth_payload eth_payload_size] in Hd.
    rewrite E in Hd. change (0x0806 =? ETHERTYPE_ARP) with true in Hd. cbv iota in Hd.
    rewrite parseArpPacket_in, bind_Ret in Hd by (done || lia). change (0 + 14) with 14 in Hd.
    destruct (arp_accepts f 14 _) eqn:Ha; [|done].
    assert (28 ≤ Z.of_nat (length f) - 14) by (unfold arp_accepts in Ha; bool_hyps; lia).
    pose proof (frame_region f Hf ltac:(lia)) as Hfr. rewrite E, (arp_region f Hf 14) in Hfr by (done || lia).
    eexists (mkWire _ _ (Arp _ _ _ _ _) _). split; [|symmetry; exact Hfr].
    assert (∀ i, 0 ≤ i → i + 6 ≤ 28 → mac_ok (region f 14 i 6)) as Hmac'.
    { intros i Hi Hi'. split; [|by apply region_bytes]. apply Nat2Z.inj. by rewrite length_region by lia. }
    split; [apply Hmac; lia|]. split; [apply Hmac; lia|]. split; [by apply region_bytes|].
    split; [by apply be16_at_range|]. split; [apply Hmac'; lia|]. split; [by apply be32_at_range|].
    split; [apply Hmac'; lia|by apply be32_at_range].
  - destruct (Z.ltb_spec (Z.of_nat (length f) - 14) 20) as [Hs|Hs].
    { unfold dissector_stage in Hd. cbn [ff_eth ff_capture_ts_ms eth_ethertype eth_payload eth_payload_size] in Hd.
      unfold ETHERTYPE_ARP in Hd. by rewrite (proj2 (Z.eqb_neq _ _)), (proj2 (Z.ltb_lt _ _)) in Hd by done. }
    rewrite dissector_stage_ip in Hd by (done || lia). change (0 + 14) with 14 in Hd.
    assert (be16_at f 0 12 = 0x0800) as E' by tauto.
    destruct (ip_accepts f 14 _) eqn:Ha; [|done].
    destruct (packet_decoded _ _ _ _ _ _ _ Hf eq_refl Ha (Hc E') Hd) as (p & pad & Hp & Hpad & Hr).
    pose proof (frame_region f Hf ltac:(lia)) as Hfr. rewrite E', Hr in Hfr.
    exists (mkWire (region f 0 0 6) (region f 0 6 6) (Ipv4 p) pad). split; [|symmetry; exact Hfr].
    split; [apply Hmac; lia|]. split; [apply Hmac; lia|]. done.
Qed.

(** ** Frames cut by the receive buffer *)

Lemma byte_at_take m n o i : 0 ≤ o + i < Z.of_nat n → byte_at (take n m) o i = byte_at m o i.
Proof. intros. unfold byte_at. rewrite !list_lookup_total_alt. by rewrite lookup_take_lt by lia. Qed.

Lemma be16_at_take m n o i : 0 ≤ o + i → o + i + 1 < Z.of_nat n → be16_at (take n m) o i = be16_at m o i.
Proof. intros. unfold be16_at. by rewrite !byte_at_take by lia. Qed.

(** The frame without some of its padding. *)
Definition with_pad (w : wire) (pad : list Z) : wire := mkWire (w_dst_mac w) (w_src_mac w) (w_body w) pad.

Section Cut.
Context (w : wire) (p : ip_packet).
Hypothesis Hw : wire_ok w.
Hypothesis Hp : w_body w = Ipv4 p.

Let head := w_dst_mac w ++ w_src_mac w ++ be16_bytes 0x0800.

Lemma wire_packet : encode_wire w = head ++ encode_packet p ++ w_pad w.
Proof using Hp. unfold encode_wire, encode_ethernet, head. rewrite Hp. by rewrite <- !app_assoc. Qed.

Lemma length_wire_head : Z.of_nat (length head) = 14.
Proof using Hw. destruct Hw as ([Hd _] & [Hs _] & _). unfold head. rewrite !length_app, Hd, Hs. done. Qed.

Lemma length_packet : Z.of_nat (length (encode_packet p)) = total_length p.
Proof. unfold encode_packet. apply length_encode_ip. Qed.

Lemma length_wire : Z.of_nat (length (encode_wire w)) = 14 + total_length p + Z.of_nat (length (w_pad w)).
Proof using Hw Hp.
  rewrite wire_packet, length_app, (length_app (encode_packet p)). pose proof length_wire_head.
  pose proof length_packet. lia.
Qed.

Lemma wire_bytes : bytes (encode_wire w).
Proof using Hw Hp.
  destruct Hw as ([_ Hd] & [_ Hs] & Hpad & Hb). rewrite Hp in Hb. destruct Hb as (_ & Hc & Hip).
  rewrite wire_packet. apply bytes_mid; [|by apply (encode_ip_bytes _ _ _ _ _ _ _ _ _ Hip)|done].
  apply bytes_mid; [done|done|by apply be16_bytes_bytes].
Qed.

(** The fields the dissector looks at first. *)
Lemma wire_header : be16_at (encode_wire w) 0 12 = 0x0800 ∧ be16_at (encode_wire w) 14 2 = total_length p.
Proof using Hw Hp.
  pose proof Hw as ([Hd _] & [Hs _] & _ & Hb). rewrite Hp in Hb. destruct Hb as (_ & Hc & Hip). split.
  - pose proof (ethernet_header_at [] (w_dst_mac w) (w_src_mac w) 0x0800 (encode_packet p ++ w_pad w) [] Hd Hs
      ltac:(lia)) as E. apply (f_equal eth_ethertype) in E. cbn [eth_ethertype eth_frame_at app length] in E.
    rewrite app_nil_r in E. unfold encode_wire. by rewrite Hp.
  - rewrite wire_packet. rewrite <- length_wire_head.
    destruct (ip_header_at_encoded _ _ _ _ _ _ _ _ _ Hip head (w_pad w) (w_csum p) Unknown) as (_ & _ & Ht & _).
    exact Ht.
Qed.

(** Room for the packet: only padding is cut. *)
Lemma cut_padding n :
  14 + total_length p ≤ Z.of_nat n →
  ∃ pad, bytes pad ∧ take n (encode_wire w) = encode_wire (with_pad w pad).
Proof using Hw Hp.
  intros Hn. exists (take (n - length (head ++ encode_packet p)) (w_pad w)). split.
  - destruct Hw as (_ & _ & Hpad & _). by apply Forall_take.
  - rewrite wire_packet, app_assoc. pose proof length_wire_head. pose proof length_packet.
    rewrite take_app, (take_ge (head ++ _)) by (rewrite length_app; lia).
    unfold with_pad, encode_wire, encode_ethernet, head. cbn [w_body w_pad w_dst_mac w_src_mac]. rewrite Hp.
    by rewrite <- !app_assoc.
Qed.
End Cut.

(** ** Properties *)

(** C7: the pipeline accepts exactly the well-formed frames: on a frame whose IPv4
    total length (when it is IPv4) covers its header, the filter, the dissector
    and the stats stage extract a record exactly when the frame is the encoding
    of an ARP packet or of an IPv4 packet with a TCP segment, a UDP datagram, an
    ICMP message or another payload, padded or not, and the record is the one
    that carries its fields; every other frame gives none. *)
Theorem accepted_frames `{NativeEndian} (f buf : list Z) (ips : gset Z) (ts : Z) (e : EnrichedFrame) :
  bytes f → bytes buf → consistent f →
  packet_frame ips buf (ts, f) = Some e ↔ ∃ w, wire_ok w ∧ encode_wire w = f ∧ e = extracted w ips ts.
Proof.
  intros Hf Hb Hc. unfold packet_frame. cbn [fst snd].
  set (t := drop (length f) buf). assert (bytes t) as Ht by (by apply Forall_drop). split.
  - destruct (filter_keeps f) eqn:Hk; [|done].
    destruct (dissector_stage_own_bytes f ts ips Hf Hk Hc) as [r Hr].
    assert (dissector_stage (f ++ t) (filtered_frame ts f) ips = Ret r) as Hr'.
    { eapply defined_as_Ret; [|exact Hr]. apply dissector_stage_extend. by apply prefix_app_r. }
    rewrite Hr'. destruct r as [[d|] l]; [|done]. intros He.
    destruct (frame_decoded f ts ips d l Hf Hk Hc Hr) as (w & Hw & Hwf).
    exists w. split_and!; [done|done|].
    destruct (wire_dissected w ts ips t Hw Ht) as (d' & Hd' & Hs). rewrite Hwf, Hr' in Hd'.
    injection Hd' as -> _. congruence.
  - intros (w & Hw & <- & ->). rewrite wire_kept by done.
    destruct (wire_dissected w ts ips t Hw Ht) as (d & -> & Hs). done.
Qed.

Lemma accepted_frames_witness :
  let _ : NativeEndian := LittleEndian in
  let f := [1; 2; 3; 4; 5; 6; 7; 8; 9; 10; 11; 12; 8; 0]
    ++ [0x45; 0; 0; 30; 0; 0; 0; 0; 64; 17; 0; 0; 10; 0; 0; 1; 10; 0; 0; 2]
    ++ [0; 53; 4; 0; 0; 9; 0; 0; 99; 100] ++ [0; 0; 0] in
  ∃ w, wire_ok w ∧ encode_wire w = f ∧ e_dst_port (extracted w ∅ 7) = 1024.
Proof.
  intros ? f.
  assert (e_dst_port <$> packet_frame ∅ (replicate 2040 0) (7, f) = Some 1024) as Hport by (vm_compute; reflexivity).
  destruct (packet_frame ∅ (replicate 2040 0) (7, f)) as [e|] eqn:He; [|discriminate Hport].
  destruct (proj1 (accepted_frames f (replicate 2040 0) ∅ 7 e ltac:(repeat constructor; lia)
    ltac:(apply Forall_replicate; lia) ltac:(vm_compute; discriminate)) He) as (w & Hw & Hf & ->).
  exists w. split; [exact Hw|]. split; [exact Hf|]. injection Hport. auto.
Defined.

(** C25: the capture buffer limits what can be extracted: of an IPv4 frame from the
    socket, of which [captureLoop] stores at most [FRAME_BUF_SIZE] bytes, the
    pipeline extracts the whole record when the packet has at most 2026 bytes, and
    nothing when it is longer, because the parser then sees a total length beyond
    the bytes that are there. *)
Theorem stored_packet_extracted `{NativeEndian} (w : wire) (p : ip_packet) (ips : gset Z) (buf : list Z) (ts : Z) :
  wire_ok w → w_body w = Ipv4 p → bytes buf →
  packet_frame ips buf (ts, take (Z.to_nat FRAME_BUF_SIZE) (encode_wire w))
  = if total_length p <=? FRAME_BUF_SIZE - 14 then Some (extracted w ips ts) else None.
Proof.
  intros Hw Hp Hb. unfold FRAME_BUF_SIZE. change (2040 - 14) with 2026. destruct (Z.leb_spec (total_length p) 2026).
  - destruct (cut_padding w p Hw Hp (Z.to_nat 2040) ltac:(lia)) as (pad & Hpad & ->).
    assert (wire_ok (with_pad w pad)) as Hw' by (destruct Hw as (? & ? & _ & ?); done).
    unfold packet_frame. cbn [fst snd]. rewrite wire_kept by done.
    destruct (wire_dissected (with_pad w pad) ts ips (drop (length (encode_wire (with_pad w pad))) buf) Hw')
      as (d & -> & ->); [by apply Forall_drop|done].
  - destruct (wire_header w p Hw Hp) as [Hty Htot]. pose proof (wire_bytes w p Hw Hp) as Hwb.
    assert (2040 ≤ Z.of_nat (length (encode_wire w))) as Hlen.
    { rewrite (length_wire w p Hw Hp). lia. }
    set (f := take (Z.to_nat 2040) (encode_wire w)). assert (Z.of_nat (length f) = 2040) as Hf.
    { unfold f. rewrite length_take. lia. }
    assert (bytes f) as Hfb by (by apply Forall_take).
    assert (be16_at f 0 12 = 0x0800) as Hty' by (unfold f; by rewrite be16_at_take by lia).
    set (t := drop (length f) buf). assert (bytes (f ++ t)) as Hft by (apply Forall_app_2; [done|by apply Forall_drop]).
    assert (be16_at (f ++ t) 14 2 = total_length p) as Htot'.
    { rewrite <- (be16_at_take _ (length f)), take_app_length by lia. unfold f. by rewrite be16_at_take by lia. }
    unfold packet_frame. cbn [fst snd]. fold t. destruct (filter_keeps f); [|done].
    unfold filtered_frame, eth_frame_at. rewrite dissector_stage_ip; rewrite ?Hf, ?Hty'; try done; try lia.
    + replace (ip_accepts (f ++ t) (0 + 14) (2040 - 14)) with false; [done|]. symmetry. unfold ip_accepts.
      change (0 + 14) with 14. rewrite Htot', (proj2 (Z.leb_gt (total_length p) (2040 - 14))) by lia.
      apply andb_false_r.
    + rewrite length_app. lia.
Qed.

(** An echo request of 3022 bytes. *)
Definition demo_large_ping : ip_packet :=
  mkIpPacket 0 1 0 64 0x0a000001 0x0a000002 0 [] (Icmp 8 0 (replicate 3000 0)).

Lemma stored_packet_extracted_witness :
  let _ : NativeEndian := LittleEndian in
  packet_frame ∅ (replicate 2040 0)
    (77, take (Z.to_nat FRAME_BUF_SIZE) (encode_wire (mkWire no_mac no_mac (Ipv4 demo_large_ping) []))) = None.
Proof.
  intros ?.
  assert (bytes no_mac) by (repeat constructor; lia).
  assert (bytes (replicate 3000 0)) by (apply Forall_replicate; lia).
  apply (stored_packet_extracted (mkWire no_mac no_mac (Ipv4 demo_large_ping) []) demo_large_ping ∅ (replicate 2040 0) 77).
  - split; [split; [reflexivity|assumption]|]. split; [split; [reflexivity|assumption]|]. split; [constructor|].
    split; [split; [lia|]; split; [lia|]; split; [assumption|]; rewrite length_replicate; lia|]. split; [cbn; lia|].
    split; try (cbn; lia); [constructor| |].
    + constructor; [lia|]. constructor; [lia|]. assumption.
    + split; [reflexivity|cbn; lia].
  - reflexivity.
  - apply Forall_replicate. lia.
Defined.
