(* ===== verification/RawSocket.v ===== *)
(** * The raw socket (include/capture/raw_socket.h, src/capture/raw_socket.cpp)

    Opening and closing the capture socket, dropping the process capabilities,
    and listing the local addresses.  The kernel is a parameter: it may answer
    each call as it likes, and every call is recorded with its answer. *)

From S2P Require Import Prelude.
From S2P Require Import Bytes.
From S2P Require Import Format.
From S2P Require Import Logger.
From S2P Require Import Effects.
From S2P Require Import RingBuffer.

(** [g_socket_state]; an empty name stands for the zeroed array. *)
Record socket_state : Type := mkSocketState { orig_flags : Z; iface : string }.
Definition initial_socket_state : socket_state := mkSocketState 0 "".

Inductive addr_result : Type := AddrError (errno : Z) | Addr (sa_family s_addr : Z).
Inductive conf_result : Type := ConfError (errno : Z) | Conf (names : list string).

(** The calls that leave the program, with their answers. *)
Inductive syscall : Type :=
  | SocketPacket (fd errno : Z)
  | SocketInet (fd errno : Z)
  | GetIndex (fd : Z) (name : string) (rc errno ifindex : Z)
  | Bind (fd ifindex rc errno : Z)
  | GetFlags (fd : Z) (name : string) (rc errno flags : Z)
  | SetFlags (fd : Z) (name : string) (flags rc errno : Z)
  | CapGet (ok : bool) (errno : Z)
  | CapSetDropped (rc errno : Z)
  | CapVerify (text : option string)
  | GetConf (fd : Z) (size : Z) (r : conf_result)
  | GetAddr (fd : Z) (name : string) (r : addr_result)
  | CloseFd (fd : Z)
  | Stdout (line : string)
  | Stderr (line : string).

(** Answers: a status with [errno] and, where there is one, a value. *)
Record status : Type := mkStatus { st_rc : Z; st_errno : Z; st_val : Z }.

Class NetKernel := {
  strerror : Z → string;
  AF_INET : Z;
  socket_packet : list syscall → status;
  socket_inet : list syscall → status;
  ioctl_get_index : list syscall → Z → string → status;
  bind_link : list syscall → Z → Z → status;
  ioctl_get_flags : list syscall → Z → string → status;
  ioctl_set_flags : list syscall → Z → string → Z → status;
  cap_get_proc : list syscall → bool * Z;
  cap_set_proc : list syscall → status;
  cap_verify : list syscall → option string;
  ioctl_get_conf : list syscall → Z → Z → conf_result;
  ioctl_get_addr : list syscall → Z → string → addr_result;
}.

(** [std::strncpy(dst, src, IFNAMSIZ - 1)] into a zeroed array. *)
Definition IFNAMSIZ : nat := 16.
Definition ifr_name (s : string) : string := String.substring 0 (IFNAMSIZ - 1) s.

Definition IFF_PROMISC : Z := 0x100.
(** [ifr_flags |= IFF_PROMISC] on a [short]. *)
Definition promiscuous (flags : Z) : Z := Z.lor flags IFF_PROMISC.

(** [sizeof(struct ifreq)] *)
Definition IFREQ_SIZE : Z := 40.

Abbreviation SockM := (M socket_state syscall).
Abbreviation SockWorld := (World socket_state syscall).
Local Open Scope effect_scope.

Section RawSocket.
Context `{NativeEndian} `{NetKernel}.

Definition out (s : string) : SockM unit := emit (Stdout s).
Definition err (s : string) : SockM unit := emit (Stderr s).

Definition dropCapabilities : SockM unit :=
  let! caps := ask cap_get_proc (λ r, CapGet r.1 r.2) in
  if negb caps.1 then err ("[raw_socket] cap_get_proc failed: " +:+ strerror caps.2)
  else
    let! st := ask cap_set_proc (λ r, CapSetDropped (st_rc r) (st_errno r)) in
    (if negb (st_rc st =? 0)
     then err ("[raw_socket] cap_set_proc failed: " +:+ strerror (st_errno st))
     else ret tt);;
    let! verify := ask cap_verify CapVerify in
    match verify with
    | Some text =>
        out ("[raw_socket] Capabilities after drop: " +:+ text);;
        out "[raw_socket] Capabilities dropped — zero powers"
    | None => ret tt
    end.

Definition openRawSocket (getenv : string → option string) : SockM Z :=
  let iface := default "eth0" (getenv "CAPTURE_INTERFACE") in
  out ("[raw_socket] Opening raw socket on interface: " +:+ iface);;
  let! s := ask socket_packet (λ r, SocketPacket (st_rc r) (st_errno r)) in
  let fd := st_rc s in
  if fd <? 0 then
    err ("[raw_socket] socket() failed: " +:+ strerror (st_errno s));;
    err "[raw_socket] Check CAP_NET_RAW is granted";;
    ret (-1)
  else
  let name := ifr_name iface in
  let! ix := ask (λ h, ioctl_get_index h fd name)
                 (λ r, GetIndex fd name (st_rc r) (st_errno r) (st_val r)) in
  if st_rc ix <? 0 then
    err ("[raw_socket] ioctl SIOCGIFINDEX failed for " +:+ iface +:+ ": " +:+ strerror (st_errno ix));;
    emit (CloseFd fd);;
    ret (-1)
  else
  let ifindex := st_val ix in
  out ("[raw_socket] Interface " +:+ iface +:+ " index: " +:+ to_string ifindex);;
  let! b := ask (λ h, bind_link h fd ifindex) (λ r, Bind fd ifindex (st_rc r) (st_errno r)) in
  if st_rc b <? 0 then
    err ("[raw_socket] bind() failed: " +:+ strerror (st_errno b));;
    emit (CloseFd fd);;
    ret (-1)
  else
  let! g := ask (λ h, ioctl_get_flags h fd name)
                (λ r, GetFlags fd name (st_rc r) (st_errno r) (st_val r)) in
  if st_rc g <? 0 then
    err ("[raw_socket] ioctl SIOCGIFFLAGS failed: " +:+ strerror (st_errno g));;
    emit (CloseFd fd);;
    ret (-1)
  else
  put (mkSocketState (st_val g) name);;
  let flags := promiscuous (st_val g) in
  let! p := ask (λ h, ioctl_set_flags h fd name flags)
                (λ r, SetFlags fd name flags (st_rc r) (st_errno r)) in
  if st_rc p <? 0 then
    err ("[raw_socket] ioctl SIOCSIFFLAGS (promisc) failed: " +:+ strerror (st_errno p));;
    emit (CloseFd fd);;
    ret (-1)
  else
  out ("[raw_socket] Promiscuous mode enabled on " +:+ iface);;
  dropCapabilities;;
  out ("[raw_socket] Raw socket ready — fd: " +:+ to_string fd);;
  ret fd.

Definition closeRawSocket (fd : Z) : SockM unit :=
  if fd <? 0 then ret tt
  else
  let! st := get in
  (if negb (String.eqb (iface st) "") then
     let! p := ask (λ h, ioctl_set_flags h fd (iface st) (orig_flags st))
                   (λ r, SetFlags fd (iface st) (orig_flags st) (st_rc r) (st_errno r)) in
     if st_rc p <? 0 then err ("[raw_socket] Failed to restore flags: " +:+ strerror (st_errno p))
     else out ("[raw_socket] Promiscuous mode cleared on " +:+ iface st)
   else ret tt);;
  emit (CloseFd fd);;
  out "[raw_socket] Socket closed".

(** [for (;;)]: the buffer of [size] bytes is doubled until the list does not fill
    it.  [ifc_len] is an [int], both as it is passed and as it is compared;
    [resize] throws when the memory is not granted. *)
Fixpoint conf_loop (alloc : Z → bool) (fuel : nat) (probe_fd size : Z) : SockM (option (list string)) :=
  match fuel with
  | O => out_of_fuel
  | S fuel' =>
      let ifc_len := i32 size in
      let! r := ask (λ h, ioctl_get_conf h probe_fd ifc_len) (GetConf probe_fd ifc_len) in
      match r with
      | ConfError errno =>
          say (log_warn ("getLocalIps: SIOCGIFCONF failed: " +:+ strerror errno));;
          emit (CloseFd probe_fd);;
          ret None
      | Conf names =>
          let ifc_len := u64 (i32 (IFREQ_SIZE * Z.of_nat (length names))) in
          if ifc_len <? size then ret (Some (take (Z.to_nat (ifc_len / IFREQ_SIZE)) names))
          else
            lift (vector_alloc alloc (u64 (size * 2)) 1);;
            conf_loop alloc fuel' probe_fd (u64 (size * 2))
      end
  end.

(** [ntohl] *)
Definition ntohl (v : Z) : Z := htonl v.

Fixpoint addr_loop (probe_fd : Z) (names : list string) (result : gset Z) : SockM (gset Z) :=
  match names with
  | [] => ret result
  | n :: names' =>
      let name := ifr_name n in
      let! r := ask (λ h, ioctl_get_addr h probe_fd name) (GetAddr probe_fd name) in
      match r with
      | AddrError _ => addr_loop probe_fd names' result
      | Addr family s_addr =>
          if negb (family =? AF_INET) then addr_loop probe_fd names' result
          else
            let addr := ntohl s_addr in
            if addr =? 0 then addr_loop probe_fd names' result
            else
              say (log_info ("Local IP detected: " +:+ inet_ntop4 (native_bytes 4 s_addr) +:+
                " on interface " +:+ name));;
              addr_loop probe_fd names' ({[ addr ]} ∪ result)
      end
  end.

Definition getLocalIps (alloc : Z → bool) (fuel : nat) : SockM (gset Z) :=
  let! s := ask socket_inet (λ r, SocketInet (st_rc r) (st_errno r)) in
  let probe_fd := st_rc s in
  if probe_fd <? 0 then
    say (log_warn ("getLocalIps: failed to open probe socket: " +:+ strerror (st_errno s)));;
    ret ∅
  else
  lift (vector_alloc alloc (IFREQ_SIZE * 16) 1);;
  let! names := conf_loop alloc fuel probe_fd (IFREQ_SIZE * 16) in
  match names with
  | None => ret ∅
  | Some names =>
      let! result := addr_loop probe_fd names ∅ in
      emit (CloseFd probe_fd);;
      say (log_info ("[raw_socket] " +:+ to_string (Z.of_nat (size result)) +:+
        " local IPv4 address(es) found"));;
      ret result
  end.

(** ** Views of a history *)

(** The descriptors open after a history; [None] when one was closed that was
    not open. *)
Definition fd_step (o : option (gset Z)) (c : syscall) : option (gset Z) :=
  X ← o;
  match c with
  | SocketPacket fd _ | SocketInet fd _ => Some (if fd <? 0 then X else {[ fd ]} ∪ X)
  | CloseFd fd => if decide (fd ∈ X) then Some (X ∖ {[ fd ]}) else None
  | _ => Some X
  end.
Definition open_fds (h : list syscall) : option (gset Z) := foldl fd_step (Some ∅) h.

(** The interface flags last set successfully. *)
Definition flags_step (o : option Z) (c : syscall) : option Z :=
  match c with SetFlags _ _ flags rc _ => if rc <? 0 then o else Some flags | _ => o end.
Definition flags_set (h : list syscall) : option Z := foldl flags_step None h.

(** The capabilities were dropped. *)
Definition dropped (h : list syscall) : bool :=
  existsb (λ c, match c with CapSetDropped rc _ => rc =? 0 | _ => false end) h.

(** SIOCGIFCONF failed. *)
Definition conf_failed (h : list syscall) : bool :=
  existsb (λ c, match c with GetConf _ _ (ConfError _) => true | _ => false end) h.

(** ** Lemmas *)

Lemma conf_failed_snoc h c :
  conf_failed (h ++ [c]) = conf_failed h || match c with GetConf _ _ (ConfError _) => true | _ => false end.
Proof. unfold conf_failed. rewrite existsb_app. simpl. by rewrite orb_false_r. Qed.
Lemma open_fds_snoc h c : open_fds (h ++ [c]) = fd_step (open_fds h) c.
Proof. unfold open_fds. by rewrite foldl_snoc. Qed.
Lemma flags_set_snoc h c : flags_set (h ++ [c]) = flags_step (flags_set h) c.
Proof. unfold flags_set. by rewrite foldl_snoc. Qed.
Lemma dropped_snoc h c :
  dropped (h ++ [c]) = dropped h || match c with CapSetDropped rc _ => rc =? 0 | _ => false end.
Proof. unfold dropped. rewrite existsb_app. simpl. by rewrite orb_false_r. Qed.

Ltac sock_step :=
  lazymatch goal with
  | |- wp (out _) _ _ => unfold out
  | |- wp (err _) _ _ => unfold err
  | |- _ => wp_base
  end; cbn [obj history log].

(** Evaluate the views on the calls just made, from the descriptors known open. *)
Ltac eval_calls :=
  rewrite ?open_fds_snoc, ?flags_set_snoc, ?dropped_snoc, ?conf_failed_snoc;
  repeat match goal with H : open_fds _ = _ |- _ => rewrite H end;
  repeat first
    [ progress cbn [fd_step flags_step mbind option_bind]
    | match goal with
      | H : (?a <? ?b) = _ |- context [?a <? ?b] => rewrite H
      | |- context [_ || false] => rewrite orb_false_r
      | |- context [_ || true] => rewrite orb_true_r
      | |- context [decide (?x ∈ {[?x]} ∪ _)] => rewrite decide_True by set_solver
      end ].

Lemma dropCapabilities_spec w X :
  open_fds (history w) = Some X →
  wp dropCapabilities w (λ _ w', obj w' = obj w ∧ open_fds (history w') = Some X ∧
    flags_set (history w') = flags_set (history w)).
Proof.
  intros HX. unfold dropCapabilities. repeat sock_step; try destruct r1 as [text|]; repeat sock_step;
    eval_calls; done.
Qed.

(** A new descriptor is not one that is already open. *)
Definition fresh_descriptors : Prop := ∀ h X, open_fds h = Some X →
  (0 ≤ st_rc (socket_packet h) → st_rc (socket_packet h) ∉ X) ∧
  (0 ≤ st_rc (socket_inet h) → st_rc (socket_inet h) ∉ X).


Lemma openRawSocket_spec getenv w X :
  fresh_descriptors → open_fds (history w) = Some X →
  wp (openRawSocket getenv) w (λ fd w',
    if fd <? 0 then fd = -1 ∧ open_fds (history w') = Some X
    else open_fds (history w') = Some ({[ fd ]} ∪ X) ∧ fd ∉ X ∧
      flags_set (history w') = Some (promiscuous (orig_flags (obj w')))).
Proof.
  intros Hfr HX. unfold openRawSocket. do 2 sock_step. sock_step.
  assert (open_fds (history w ++ [Stdout ("[raw_socket] Opening raw socket on interface: " +:+
    default "eth0" (getenv "CAPTURE_INTERFACE"))]) = Some X) as HX1 by (by eval_calls).
  sock_step. sock_step.
  destruct (Hfr _ _ HX1) as [Hfresh _]. sock_step.
  { repeat sock_step. change (-1 <? 0) with true. cbv iota. by eval_calls. }
  assert (st_rc r ∉ X) as Hfd by (subst r; apply Hfresh; by apply Z.ltb_ge).
  assert (({[ st_rc r ]} ∪ X) ∖ {[ st_rc r ]} = X) as HXd by set_solver.
  repeat sock_step.
  1-4: change (-1 <? 0) with true; cbv iota; eval_calls; by rewrite ?HXd.
  eapply wp_mono; [apply (dropCapabilities_spec _ ({[ st_rc r ]} ∪ X)); cbn [history]; by eval_calls|].
  intros _ w1 (Hobj & Hopen & Hflags). repeat sock_step. rewrite Heqb. eval_calls.
  rewrite Hflags. cbn [history]. eval_calls. by rewrite Hobj.
Qed.

Lemma closeRawSocket_spec fd w X :
  open_fds (history w) = Some ({[ fd ]} ∪ X) → fd ∉ X → 0 ≤ fd →
  wp (closeRawSocket fd) w (λ _ w', open_fds (history w') = Some X).
Proof.
  intros HX Hfd Hge. unfold closeRawSocket. rewrite (proj2 (Z.ltb_ge fd 0)) by lia.
  assert (({[ fd ]} ∪ X) ∖ {[ fd ]} = X) as HXd by set_solver.
  repeat sock_step; eval_calls; by rewrite ?HXd.
Qed.

(** Without the capability the flags stay as they are. *)
Lemma closeRawSocket_flags fd w :
  (∀ h fd name flags, dropped h = true → st_rc (ioctl_set_flags h fd name flags) < 0) →
  dropped (history w) = true →
  wp (closeRawSocket fd) w (λ _ w', flags_set (history w') = flags_set (history w)).
Proof.
  intros Hperm Hd. unfold closeRawSocket. repeat sock_step; try done; rewrite ?flags_set_snoc; cbn [flags_step];
    try done.
  - by rewrite Heqb1.
  - apply Z.ltb_ge in Heqb1. pose proof (Hperm (history w) fd (iface (obj w)) (orig_flags (obj w)) Hd). subst r. lia.
Qed.

(** *** Local addresses *)

(** SIOCGIFCONF fails, or fills a buffer with the records of the interfaces [ifs]
    that fit. *)
Definition conf_lists (ifs : list string) : Prop := ∀ h fd size, 0 < size < 2 ^ 31 →
  (∃ errno, ioctl_get_conf h fd size = ConfError errno) ∨
  ioctl_get_conf h fd size = Conf (take (Z.to_nat (size / IFREQ_SIZE)) ifs).

(** Memory for buffers of up to [16 * 2 ^ k] records is granted, and the size in
    bytes of each of them is an [int]. *)
Record conf_buffers (alloc : Z → bool) (k : nat) : Prop := {
  cb_int : (k ≤ 21)%nat;
  cb_alloc : ∀ j, (j ≤ k)%nat → alloc (640 * 2 ^ Z.of_nat j) = true;
}.

Section Local.
(** The interfaces of the machine and their addresses, which do not change while
    they are listed; SIOCGIFCONF fails or fills the buffer with whole records. *)
Context (ifs : list string) (address : string → addr_result).
Hypothesis conf_answer : conf_lists ifs.
Hypothesis addr_answer : ∀ h fd name, ioctl_get_addr h fd name = address name.

(** The addresses that count as local: IPv4, and not 0.0.0.0. *)
Definition local_addr (name : string) : option Z :=
  match address (ifr_name name) with
  | Addr family s_addr =>
      if (family =? AF_INET) && negb (ntohl s_addr =? 0) then Some (ntohl s_addr) else None
  | AddrError _ => None
  end.

(** What one call answers for the [j]-th size tried. *)
Lemma conf_names j :
  take (Z.to_nat (640 * 2 ^ Z.of_nat j / IFREQ_SIZE)) ifs = take (16 * 2 ^ j) ifs.
Proof.
  f_equal. unfold IFREQ_SIZE. replace (640 * 2 ^ Z.of_nat j) with (16 * 2 ^ Z.of_nat j * 40) by lia.
  rewrite Z.div_mul by done. apply Nat2Z.inj. rewrite Z2Nat.id by lia.
  rewrite Nat2Z.inj_mul, Nat2Z.inj_pow. done.
Qed.

(** The sizes tried are positive [int]s. *)
Lemma conf_size alloc k j :
  conf_buffers alloc k → (j ≤ k)%nat → 0 < 640 * 2 ^ Z.of_nat j < 2 ^ 31.
Proof.
  intros [Hk _] Hj. assert (2 ^ Z.of_nat j ≤ 2 ^ 21) by (apply Z.pow_le_mono_r; lia).
  pose proof (Z.pow_pos_nonneg 2 (Z.of_nat j)). lia.
Qed.

Lemma conf_alloc alloc k j :
  conf_buffers alloc k → (j ≤ k)%nat → vector_alloc alloc (640 * 2 ^ Z.of_nat j) 1 = Ret tt.
Proof.
  intros Hb Hj. pose proof (conf_size alloc k j Hb Hj). unfold vector_alloc.
  rewrite Z.div_1_r, (proj2 (Z.ltb_ge _ _)), Z.mul_1_r by lia. by rewrite (cb_alloc _ _ Hb j Hj).
Qed.

(** The length reported for the records that fit. *)
Lemma conf_len alloc k j :
  conf_buffers alloc k → (j ≤ k)%nat →
  let len := IFREQ_SIZE * Z.of_nat (length (take (16 * 2 ^ j) ifs)) in
  u64 (i32 len) = len ∧ ((len <? 640 * 2 ^ Z.of_nat j) = bool_decide (length ifs < 16 * 2 ^ j)%nat).
Proof.
  intros Hb Hj len. pose proof (conf_size alloc k j Hb Hj).
  assert (Z.of_nat (16 * 2 ^ j) = 16 * 2 ^ Z.of_nat j) by (rewrite Nat2Z.inj_mul, Nat2Z.inj_pow; done).
  assert (len = 40 * Z.min (Z.of_nat (16 * 2 ^ j)) (Z.of_nat (length ifs))) as Hlen
    by (unfold len, IFREQ_SIZE; rewrite length_take; lia).
  split; [rewrite i32_small, u64_small by lia; done|].
  case_bool_decide; [apply Z.ltb_lt|apply Z.ltb_ge]; lia.
Qed.

(** What the loop leaves: the interfaces, or nothing and a closed socket. *)
Definition conf_done (w : SockWorld) (fd : Z) (X : gset Z) (r : option (list string)) (w' : SockWorld) : Prop :=
  match r with
  | Some names => names = ifs ∧ open_fds (history w') = Some ({[ fd ]} ∪ X) ∧
      conf_failed (history w') = conf_failed (history w)
  | None => open_fds (history w') = Some X ∧ conf_failed (history w') = true
  end.

Lemma conf_loop_spec alloc n k j fd w X :
  conf_buffers alloc k → (j + n = k)%nat → (length ifs < 16 * 2 ^ k)%nat →
  open_fds (history w) = Some ({[ fd ]} ∪ X) → fd ∉ X →
  wp (conf_loop alloc (S n) fd (640 * 2 ^ Z.of_nat j)) w (conf_done w fd X).
Proof.
  intros Hb Hj Hk HX Hfd. assert (({[ fd ]} ∪ X) ∖ {[ fd ]} = X) as HXd by set_solver.
  revert j w Hj HX. induction n as [|n IH]; intros j w Hj HX;
    pose proof (conf_size alloc k j Hb ltac:(lia)) as Hsz; destruct (conf_len alloc k j Hb ltac:(lia)) as [Hl Hlt];
    remember (640 * 2 ^ Z.of_nat j) as sz eqn:Esz; cbn [conf_loop]; do 2 sock_step;
    rewrite i32_small in * by lia;
    (destruct (conf_answer (history w) fd sz Hsz) as [[e He]|He]; rewrite He in H1; subst r;
     [repeat sock_step; cbn [conf_done history]; eval_calls; by rewrite HXd|]);
    rewrite Esz, conf_names, Hl, <- Esz, Hlt.
  - rewrite bool_decide_true by (by replace j with k by lia). sock_step.
    unfold IFREQ_SIZE. rewrite Z.mul_comm, Z.div_mul, Nat2Z.id, firstn_all by done.
    rewrite take_ge by (replace j with k by lia; lia). cbn [conf_done history]. by eval_calls.
  - case_bool_decide as Hlen.
    + sock_step. unfold IFREQ_SIZE. rewrite Z.mul_comm, Z.div_mul, Nat2Z.id, firstn_all by done.
      rewrite take_ge by lia. cbn [conf_done history]. by eval_calls.
    + assert (640 * 2 ^ Z.of_nat j * 2 = 640 * 2 ^ Z.of_nat (S j)) as E2
        by (rewrite Nat2Z.inj_succ, Z.pow_succ_r by lia; lia).
      pose proof (conf_size alloc k (S j) Hb ltac:(lia)).
      rewrite Esz, E2, u64_small by lia. sock_step.
      eapply wp_lift; [apply (conf_alloc alloc k); [done|lia]|].
      eapply wp_mono; [apply IH; [lia|cbn [history]; by eval_calls]|].
      intros [names|] w'; cbn [conf_done history]; [|done]. intros (? & ? & Hc). split_and!; [done..|].
      rewrite Hc. by eval_calls.
Qed.

Lemma addr_loop_spec fd names acc w X c :
  open_fds (history w) = Some X → conf_failed (history w) = c →
  wp (addr_loop fd names acc) w (λ r w',
    r = acc ∪ list_to_set (omap local_addr names) ∧ open_fds (history w') = Some X ∧
    conf_failed (history w') = c).
Proof.
  revert acc w. induction names as [|n names IH]; intros acc w HX HC; cbn [addr_loop].
  { sock_step. split; [set_solver|done]. }
  do 2 sock_step. rewrite addr_answer in H1. subst r.
  assert (∀ acc' l e,
    acc' ∪ list_to_set (omap local_addr names) = acc ∪ list_to_set (omap local_addr (n :: names)) →
    wp (addr_loop fd names acc') (mkWorld (obj w) (history w ++ [GetAddr fd (ifr_name n) e]) l) (λ r w',
      r = acc ∪ list_to_set (omap local_addr (n :: names)) ∧ open_fds (history w') = Some X ∧
      conf_failed (history w') = c)) as Hrest.
  { intros acc' l e Hset. eapply wp_mono; [apply IH; cbn [history]; by eval_calls|]. intros r w' [-> Hw]. by rewrite Hset. }
  assert (omap local_addr (n :: names) = match local_addr n with
    | Some a => a :: omap local_addr names | None => omap local_addr names end) as Hom by done.
  revert Hrest. rewrite Hom. unfold local_addr at 2 4 6.
  destruct (address (ifr_name n)) as [e|family s_addr]; [intros Hrest; by apply Hrest|].
  destruct (family =? AF_INET); cbn [andb negb]; [|intros Hrest; by apply Hrest].
  destruct (ntohl s_addr =? 0); cbn [negb]; intros Hrest; [by apply Hrest|].
  do 2 sock_step. apply Hrest. cbn [list_to_set list_to_set]. set_solver.
Qed.

Lemma getLocalIps_spec alloc k w X :
  fresh_descriptors → open_fds (history w) = Some X → conf_buffers alloc k → (length ifs < 16 * 2 ^ k)%nat →
  wp (getLocalIps alloc (S k)) w (λ r w', ∃ failed,
    open_fds (history w') = Some X ∧ conf_failed (history w') = conf_failed (history w) || failed ∧
    r = if (st_rc (socket_inet (history w)) <? 0) || failed then ∅ else list_to_set (omap local_addr ifs)).
Proof.
  intros Hfr HX Hb Hk. unfold getLocalIps. do 2 sock_step. destruct (Hfr _ _ HX) as [_ Hfresh].
  rewrite <- H1 in Hfresh |- *. sock_step.
  { repeat sock_step. exists false. by eval_calls. }
  apply Z.ltb_ge in Heqb as Hge. specialize (Hfresh Hge). cbn [orb].
  assert (({[ st_rc r ]} ∪ X) ∖ {[ st_rc r ]} = X) as HXd by set_solver.
  sock_step. eapply wp_lift; [apply (conf_alloc alloc k 0); [done|lia]|].
  sock_step. eapply wp_mono; [apply (conf_loop_spec alloc k k 0 _ _ X); [done|lia|done| |done]|].
  { cbn [history]. by eval_calls. }
  intros [names|] w1; cbn [conf_done history].
  - intros (-> & Ho1 & Hc1). sock_step. eapply wp_mono; [by apply addr_loop_spec|].
    intros ips w2 (-> & Ho2 & Hc2). repeat sock_step. exists false. eval_calls. rewrite HXd, Hc2.
    split_and!; [done|by eval_calls|set_solver].
  - intros [Ho1 Hc1]. sock_step. exists true. by rewrite Hc1, orb_true_r.
Qed.
End Local.
End RawSocket.

(** ** A concrete kernel *)

(** Everything works, except that setting flags needs the capability. *)
Definition demo_fd (n : Z) (h : list syscall) : status :=
  mkStatus (if decide (n ∈ default ∅ (open_fds h)) then -1 else n) 0 0.

Definition demo_net : NetKernel := {|
  strerror _ := "error";
  AF_INET := 2;
  socket_packet := demo_fd 3;
  socket_inet := demo_fd 4;
  ioctl_get_index _ _ _ := mkStatus 0 0 2;
  bind_link _ _ _ := mkStatus 0 0 0;
  ioctl_get_flags _ _ _ := mkStatus 0 0 0x1043;
  ioctl_set_flags h _ _ _ := mkStatus (if dropped h then -1 else 0) 1 0;
  cap_get_proc _ := (true, 0);
  cap_set_proc _ := mkStatus 0 0 0;
  cap_verify _ := Some "=";
  ioctl_get_conf _ _ size := Conf (take (Z.to_nat (size / IFREQ_SIZE)) ["lo"; "eth0"]);
  ioctl_get_addr _ _ name := if String.eqb name "lo" then Addr 2 16777343 else AddrError 99;
|}.

Lemma demo_net_fresh : @fresh_descriptors demo_net.
Proof.
  intros h X HX. cbn. unfold demo_fd. rewrite HX. cbn. split; case_decide; cbn; lia || done.
Qed.

Definition sock_start : SockWorld := mkWorld initial_socket_state [] [].

(** ** Properties *)

(** C27: descriptors are never leaked or closed twice, whatever the kernel answers:
    [openRawSocket] fails with -1 and every descriptor it made closed, or
    returns an open descriptor with the interface flags set to the original
    ones plus promiscuous mode; [closeRawSocket] then closes exactly that one. *)
Theorem raw_socket_balanced `{NetKernel} getenv (w : SockWorld) X :
  fresh_descriptors → open_fds (history w) = Some X →
  ∃ fd w1, openRawSocket getenv w = Ret (fd, w1) ∧
    (fd < 0 → fd = -1 ∧ open_fds (history w1) = Some X) ∧
    (0 ≤ fd → open_fds (history w1) = Some ({[ fd ]} ∪ X) ∧
       flags_set (history w1) = Some (promiscuous (orig_flags (obj w1))) ∧
       ∃ w2, closeRawSocket fd w1 = Ret (tt, w2) ∧ open_fds (history w2) = Some X).
Proof.
  intros Hfresh HX. destruct (wp_elim _ _ _ (openRawSocket_spec getenv w X Hfresh HX)) as (fd & w1 & Hrun & Hq).
  exists fd, w1. split; [done|]. destruct (Z.ltb_spec fd 0); [split; [done|lia]|]. split; [lia|].
  destruct Hq as (Ho & Hfd & Hfl). intros _. split_and!; [done..|].
  destruct (wp_elim _ _ _ (closeRawSocket_spec fd w1 X Ho Hfd ltac:(lia))) as ([] & w2 & ? & ?). eauto.
Qed.

Lemma raw_socket_balanced_witness :
  ∃ fd w1, @openRawSocket demo_net (λ _, None) sock_start = Ret (fd, w1) ∧
    (0 ≤ fd → ∃ w2, @closeRawSocket demo_net fd w1 = Ret (tt, w2) ∧ open_fds (history w2) = Some ∅).
Proof.
  destruct (@raw_socket_balanced demo_net (λ _, None) sock_start ∅ demo_net_fresh eq_refl)
    as (fd & w1 & Hrun & _ & Hclose).
  exists fd, w1. split; [exact Hrun|]. intros Hfd. exact (proj2 (proj2 (Hclose Hfd))).
Defined.

(** C40: promiscuous mode is not cleared on exit.  [openRawSocket] drops
    CAP_NET_ADMIN, which setting interface flags needs; so when the drop worked,
    the restoring call of [closeRawSocket] fails and the interface keeps the
    promiscuous flag. *)
Theorem promiscuous_mode_left_on `{NetKernel} getenv (w w1 : SockWorld) X fd :
  fresh_descriptors → open_fds (history w) = Some X →
  (∀ h fd name flags, dropped h = true → st_rc (ioctl_set_flags h fd name flags) < 0) →
  openRawSocket getenv w = Ret (fd, w1) → 0 ≤ fd → dropped (history w1) = true →
  ∃ w2 flags, closeRawSocket fd w1 = Ret (tt, w2) ∧
    flags_set (history w2) = Some flags ∧ Z.testbit flags 8 = true.
Proof.
  intros Hfresh HX Hperm Hrun Hfd Hdrop.
  destruct (wp_elim _ _ _ (openRawSocket_spec getenv w X Hfresh HX)) as (fd' & w1' & Hrun' & Hq).
  rewrite Hrun in Hrun'. injection Hrun' as <- <-. rewrite (proj2 (Z.ltb_ge fd 0)) in Hq by lia.
  destruct Hq as (_ & _ & Hfl).
  destruct (wp_elim _ _ _ (closeRawSocket_flags fd w1 Hperm Hdrop)) as ([] & w2 & Hc & Hsame).
  exists w2, (promiscuous (orig_flags (obj w1))). rewrite Hsame. split_and!; [done..|].
  unfold promiscuous. rewrite Z.lor_spec. apply orb_true_r.
Qed.

Lemma promiscuous_mode_left_on_witness :
  match @openRawSocket demo_net (λ _, None) sock_start with
  | Ret (fd, w1) => ∃ w2 flags, @closeRawSocket demo_net fd w1 = Ret (tt, w2) ∧
      flags_set (history w2) = Some flags ∧ Z.testbit flags 8 = true
  | _ => False
  end.
Proof.
  destruct (@openRawSocket demo_net (λ _, None) sock_start) as [[fd w1]| | | |] eqn:E;
    [|vm_compute in E; discriminate E..].
  assert (0 ≤ fd ∧ dropped (history w1) = true) as [Hfd Hd].
  { vm_compute in E. injection E as <- <-. split; [lia|reflexivity]. }
  apply (@promiscuous_mode_left_on demo_net (λ _, None) sock_start w1 ∅ fd demo_net_fresh eq_refl).
  - intros h fd' name flags Hd'. cbn. rewrite Hd'. reflexivity.
  - exact E.
  - exact Hfd.
  - exact Hd.
Defined.

(** C28: with memory for the buffers and fewer than [16 * 2 ^ k] interfaces, [k] at
    most 21 so that the buffer sizes are [int]s (33 million interfaces),
    [getLocalIps] terminates, the buffer being doubled until it is larger than
    the list, and closes its probe socket on every path.  It returns the empty set
    when the socket could not be opened or SIOCGIFCONF failed, and otherwise
    exactly the IPv4 addresses of the interfaces other than 0.0.0.0, in host
    order. *)
Theorem getLocalIps_correct `{NativeEndian} `{NetKernel} (ifs : list string)
    (address : string → addr_result) alloc (k : nat) (w : SockWorld) X :
  conf_lists ifs → (∀ h fd name, ioctl_get_addr h fd name = address name) →
  fresh_descriptors → open_fds (history w) = Some X → conf_failed (history w) = false →
  conf_buffers alloc k → (length ifs < 16 * 2 ^ k)%nat →
  ∃ r w', getLocalIps alloc (S k) w = Ret (r, w') ∧ open_fds (history w') = Some X ∧
    r = if (st_rc (socket_inet (history w)) <? 0) || conf_failed (history w') then ∅
        else list_to_set (omap (local_addr address) ifs).
Proof.
  intros Hconf Haddr Hfresh HX Hc Hb Hk.
  destruct (wp_elim _ _ _ (getLocalIps_spec ifs address Hconf Haddr alloc k w X Hfresh HX Hb Hk))
    as (r & w' & Hrun & failed & Ho & Hf & ->).
  eexists _, w'. split; [exact Hrun|]. split; [done|]. by rewrite Hf, Hc.
Qed.

Lemma getLocalIps_correct_witness :
  ∃ w', @getLocalIps LittleEndian demo_net (λ _, true) 1 sock_start = Ret ({[ 2130706433 ]}, w') ∧
    open_fds (history w') = Some ∅.
Proof.
  destruct (@getLocalIps_correct LittleEndian demo_net ["lo"; "eth0"]
    (λ name, if String.eqb name "lo" then Addr 2 16777343 else AddrError 99) (λ _, true) 0 sock_start ∅)
    as (r & w' & Hrun & Ho & Hr).
  - intros h fd size Hs. right. reflexivity.
  - intros. reflexivity.
  - exact demo_net_fresh.
  - reflexivity.
  - reflexivity.
  - split; [lia|reflexivity].
  - simpl. lia.
  - exists w'. split; [|exact Ho]. rewrite Hrun, Hr. vm_compute in Hrun. injection Hrun as _ <-.
    vm_compute. reflexivity.
Defined.
