(* ===== verification/HexDump.v ===== *)
(** * Hex dump (include/utils/hex_dump.h, src/utils/hex_dump.cpp)

    The debugging output of a frame: rows of sixteen bytes with their offset,
    hex and printable forms, and the one-line summary.  A reader of dumps
    specifies the text: the bytes can be read back from it. *)

From Stdlib Require Import Ascii.
From S2P Require Import Prelude.
From S2P Require Import Bytes.
From S2P Require Import Format.
From S2P Require Import Lines.
From S2P Require Import Logger.
From S2P Require Import EthernetParser.

(** [std::isprint] in the C locale. *)
Definition isprint (b : Z) : bool := (32 <=? b) && (b <=? 126).

Definition char_of (b : Z) : ascii := ascii_of_nat (Z.to_nat b).

(** The hex columns of a row: [n] columns left, the next one being number [i]. *)
Fixpoint hex_columns (n : nat) (m : list Z) (data : ptr) (size offset i : Z) : outcome string :=
  match n with
  | O => Ret ""
  | S n' =>
      cell ← (if offset + i <? size then
                b ← load m data (offset + i);
                Ret (to_hex 2 b +:+ " ")
              else Ret "   ");
      rest ← hex_columns n' m data size offset (i + 1);
      Ret (cell +:+ ((if i =? 7 then " " else "") +:+ rest))
  end.

(** The printable form of a row. *)
Fixpoint text_columns (n : nat) (m : list Z) (data : ptr) (size offset i : Z) : outcome string :=
  match n with
  | O => Ret ""
  | S n' =>
      if offset + i <? size then
        b ← load m data (offset + i);
        rest ← text_columns n' m data size offset (i + 1);
        Ret (String (if isprint b then char_of b else "."%char) rest)
      else Ret ""
  end.

(** The rows from [offset] on. *)
Fixpoint dump_rows (fuel : nat) (m : list Z) (data : ptr) (size offset : Z) : outcome string :=
  match fuel with
  | O => OutOfFuel
  | S fuel' =>
      if offset <? size then
        hex ← hex_columns 16 m data size offset 0;
        text ← text_columns 16 m data size offset 0;
        rest ← dump_rows fuel' m data size (offset + 16);
        Ret ("  " +:+ (to_hex 4 offset +:+ ("  " +:+ (hex +:+ (" |" +:+ (text +:+ ("|" +:+ (newline +:+ rest))))))))
      else Ret ""
  end.

(** One row per sixteen bytes, and the last test of the loop. *)
Definition row_fuel (size : Z) : nat := S (Z.to_nat ((size + 15) / 16)).

Definition hexDump (m : list Z) (data : ptr) (size : Z) (label : string) : outcome (list logcall) :=
  if is_null data || (size =? 0) then Ret []
  else
    rows ← dump_rows (row_fuel size) m data size 0;
    Ret [log_info
      ((if negb (String.eqb label "")
        then label +:+ (" (" +:+ (to_string size +:+ (" bytes)" +:+ newline))) else "") +:+ rows)].

Definition formatMAC (m : list Z) (p : ptr) (off : Z) : outcome string :=
  bs ← load_bytes m p off 6;
  Ret (mac_loop true bs).

Definition logFrameSummary (m : list Z) (data : ptr) (size timestamp_ms : Z)
    : outcome (Z * list logcall) :=
  if is_null data || (size <? 14) then
    Ret (0, [log_warn ("logFrameSummary: frame too short (" +:+ to_string size +:+ " bytes) — skipping")])
  else
    dst_mac ← formatMAC m data 0;
    src_mac ← formatMAC m data 6;
    b12 ← load m data 12;
    b13 ← load m data 13;
    let ethertype := u16 (Z.lor (Z.shiftl b12 8) b13) in
    let proto :=
      if ethertype =? 0x0800 then "IPv4"
      else if ethertype =? 0x0806 then "ARP"
      else if ethertype =? 0x86DD then "IPv6"
      else "0x" +:+ to_hex 4 ethertype in
    Ret (ethertype,
      [log_info ("FRAME " +:+ pad_left " "%char 5 (to_string size) +:+ "B" +:+
        "  ts=" +:+ to_string timestamp_ms +:+ "  dst=" +:+ dst_mac +:+ "  src=" +:+ src_mac +:+
        "  EtherType=" +:+ proto)]).

(** ** Specification: reading a dump *)

(** The bytes of [n] columns, the next one being number [i]; an empty column
    ends the row. *)
Fixpoint read_columns (n : nat) (i : Z) (s : string) : list Z :=
  match n with
  | O => []
  | S n' =>
      match s with
      | String c1 (String c2 _) =>
          match digit_val c1, digit_val c2 with
          | Some h, Some l => (h * 16 + l) :: read_columns n' (i + 1) (skip (if i =? 7 then 4 else 3) s)
          | _, _ => []
          end
      | _ => []
      end
  end.

Fixpoint read_dump (fuel : nat) (s : string) : list Z :=
  match fuel, s with
  | S fuel', String _ _ => read_columns 16 0 (skip 8 s) ++ read_dump fuel' (next_line s)
  | _, _ => []
  end.

(** ** Lemmas *)

(** *** Rows as functions of the bytes left *)

Fixpoint cells (n : nat) (i : Z) (bs : list Z) : string :=
  match n with
  | O => ""
  | S n' =>
      (match bs with b :: _ => hex2 b +:+ " " | [] => "   " end) +:+
      ((if i =? 7 then " " else "") +:+ cells n' (i + 1) (tail bs))
  end.

Fixpoint texts (n : nat) (bs : list Z) : string :=
  match n, bs with
  | S n', b :: bs' => String (if isprint b then char_of b else "."%char) (texts n' bs')
  | _, _ => ""
  end.

Section InRange.
Context (m : list Z) (o size : Z).
Hypothesis Hm : bytes m.
Hypothesis Ho : 0 ≤ o.
Hypothesis Hsize : 0 ≤ size ≤ Z.of_nat (length m) - o.

(** The dumped bytes. *)
Definition dumped : list Z := bytes_at m o (Z.to_nat size).

Lemma length_dumped : Z.of_nat (length dumped) = size.
Proof. unfold dumped. rewrite length_bytes_at by lia. lia. Qed.

(** The bytes from offset [k] on, when there are any. *)
Lemma dumped_drop k :
  0 ≤ k → drop (Z.to_nat k) dumped =
    if k <? size then byte_at m o k :: drop (Z.to_nat (k + 1)) dumped else [].
Proof.
  intros Hk. pose proof length_dumped. destruct (Z.ltb_spec k size).
  - rewrite (drop_S _ (byte_at m o k)).
    + do 2 f_equal. lia.
    + unfold dumped, bytes_at. rewrite lookup_take_lt, lookup_drop by lia.
      unfold byte_at. replace (Z.to_nat o + Z.to_nat k)%nat with (Z.to_nat (o + k)) by lia.
      apply list_lookup_lookup_total_lt. lia.
  - apply drop_ge. lia.
Qed.

Lemma hex_columns_in n offset i :
  0 ≤ offset + i →
  hex_columns n m (Ptr o) size offset i = Ret (cells n i (drop (Z.to_nat (offset + i)) dumped)).
Proof.
  revert i. induction n as [|n IH]; intros i Hi; [done|]. cbn [hex_columns cells].
  rewrite (dumped_drop (offset + i)) by done.
  destruct (Z.ltb_spec (offset + i) size) as [Hlt|Hge].
  - rewrite load_in, bind_Ret, bind_Ret by lia. rewrite IH, bind_Ret by lia.
    rewrite to_hex_byte by (by apply byte_at_range).
    cbn [tail]. do 5 f_equal. lia.
  - rewrite bind_Ret, IH, bind_Ret by lia.
    rewrite (dumped_drop (offset + (i + 1))), (proj2 (Z.ltb_ge _ _)) by lia. done.
Qed.

Lemma text_columns_in n offset i :
  0 ≤ offset + i →
  text_columns n m (Ptr o) size offset i = Ret (texts n (drop (Z.to_nat (offset + i)) dumped)).
Proof.
  revert i. induction n as [|n IH]; intros i Hi; [done|]. cbn [text_columns texts].
  rewrite (dumped_drop (offset + i)) by done.
  destruct (Z.ltb_spec (offset + i) size) as [Hlt|Hge]; [|done].
  rewrite load_in, bind_Ret, IH, bind_Ret by lia. do 4 f_equal. lia.
Qed.
End InRange.

(** *** Reading a row *)

Lemma read_columns_cells n i bs rest :
  bytes bs → read_columns n i (cells n i bs +:+ rest) = take n bs.
Proof.
  revert i bs. induction n as [|n IH]; intros i bs Hbs; [done|].
  destruct bs as [|b bs]; [done|]. apply Forall_cons_1 in Hbs as [Hb Hbs].
  assert (0 ≤ b / 16 < 16 ∧ 0 ≤ b mod 16 < 16) as [Hh Hl] by (Z.to_euclidean_division_equations; lia).
  cbn [cells tail take]. rewrite <- (IH (i + 1) bs Hbs). set (X := cells n (i + 1) bs).
  assert (((hex2 b +:+ " ") +:+ ((if i =? 7 then " " else "") +:+ X)) +:+ rest
    = String (digit_char (b / 16)) (String (digit_char (b mod 16)) (String " "%char
        ((if i =? 7 then " " else "") +:+ (X +:+ rest))))) as -> by (by destruct (i =? 7)).
  cbn [read_columns]. rewrite !digit_val_char by lia.
  f_equal; [rewrite (Z.div_mod b 16) at 3 by lia; lia|]. by destruct (i =? 7).
Qed.

(** *** Lines *)

Lemma one_line_cells n i bs : bytes bs → one_line (cells n i bs) = true.
Proof.
  revert i bs. induction n as [|n IH]; intros i bs Hbs; [done|]. cbn [cells].
  rewrite !one_line_app, IH by (destruct Hbs; [constructor|done]).
  destruct (i =? 7); (destruct Hbs as [|b bs Hb Hbs]; [done|]);
    rewrite <- to_hex_byte, one_line_app, one_line_to_hex by done; done.
Qed.

Lemma one_line_texts n bs : bytes bs → one_line (texts n bs) = true.
Proof.
  intros Hbs. revert n. induction Hbs as [|b bs Hb Hbs IH]; intros n; [by destruct n|].
  destruct n as [|n]; [done|]. cbn [texts]. rewrite one_line_cons, IH.
  pose proof (byte_brute (λ b, one_line (String (if isprint b then char_of b else "."%char) ""))
    eq_refl b Hb) as E. cbv beta in E. by rewrite E.
Qed.

(** An offset below 2^16 takes four digits. *)
Lemma length_to_hex4 n : 0 ≤ n < 65536 → String.length (to_hex 4 n) = 4%nat.
Proof.
  intros Hn. unfold to_hex. apply length_pad.
  pose proof (length_digits_go 16 3 16 n "" ltac:(lia) ltac:(simpl; lia)). simpl in *. lia.
Qed.

(** *** The whole dump *)

Section Dump.
Context (m : list Z) (o size : Z).
Hypothesis Hm : bytes m.
Hypothesis Ho : 0 ≤ o.
Hypothesis Hsize : 0 ≤ size ≤ Z.of_nat (length m) - o.
Hypothesis Hsmall : size ≤ 65536.

Lemma dump_rows_in fuel offset :
  0 ≤ offset → size - offset ≤ 16 * (Z.of_nat fuel - 1) → (1 ≤ fuel)%nat →
  ∃ text, dump_rows fuel m (Ptr o) size offset = Ret text ∧
    read_dump fuel text = drop (Z.to_nat offset) (dumped m o size).
Proof.
  revert offset. induction fuel as [|fuel IH]; intros offset Hoff Hfuel Hpos; [lia|].
  cbn [dump_rows]. pose proof (length_dumped m o size Ho Hsize) as Hlen.
  destruct (Z.ltb_spec offset size) as [Hlt|Hge].
  2: { exists "". split; [done|]. by rewrite drop_ge by lia. }
  rewrite hex_columns_in, bind_Ret, text_columns_in, bind_Ret by (done || lia).
  destruct (IH (offset + 16)) as (rest & -> & Hrest); [lia..|].
  rewrite bind_Ret. eexists. split; [done|].
  set (D := drop (Z.to_nat (offset + 0)) (dumped m o size)).
  assert (D = drop (Z.to_nat offset) (dumped m o size)) as HD by (unfold D; by rewrite Z.add_0_r).
  assert (bytes D) as HDb by (by apply Forall_drop, bytes_at_bytes).
  rewrite <- HD.
  assert (∀ s, read_dump (S fuel) (String " "%char s)
    = read_columns 16 0 (skip 8 (String " "%char s)) ++ read_dump fuel (next_line (String " "%char s))) as Hstep
    by done.
  set (row := to_hex 4 offset +:+ _). change ("  " +:+ row) with (String " "%char (" " +:+ row)).
  rewrite Hstep. rewrite <- (take_drop 16 D). f_equal.
  - change (String " "%char (" " +:+ row)) with ("  " +:+ row). unfold row.
    match goal with |- context [cells 16 0 D +:+ ?R] =>
      replace ("  " +:+ (to_hex 4 offset +:+ ("  " +:+ (cells 16 0 D +:+ R))))
        with ((("  " +:+ to_hex 4 offset) +:+ "  ") +:+ (cells 16 0 D +:+ R))
        by (by rewrite !app_assoc_s) end.
    rewrite skip_prefix; [by apply read_columns_cells|].
    change (("  " +:+ to_hex 4 offset) +:+ "  ")
      with (String " "%char (String " "%char (to_hex 4 offset +:+ "  "))).
    pose proof (length_to_hex4 offset ltac:(lia)) as H4.
    destruct (to_hex 4 offset) as [|c1 [|c2 [|c3 [|c4 [|c5 s]]]]]; simpl in H4; try lia. done.
  - change (String " "%char (" " +:+ row)) with ("  " +:+ row). unfold row.
    match goal with |- context [next_line ?t] =>
      replace t with (("  " +:+ (to_hex 4 offset +:+ ("  " +:+ (cells 16 0 D +:+ (" |" +:+
        (texts 16 D +:+ "|")))))) +:+ (newline +:+ rest)) by (by rewrite !app_assoc_s) end.
    rewrite next_line_app; [|by rewrite !one_line_app, one_line_to_hex, one_line_cells, one_line_texts].
    rewrite Hrest, HD, drop_drop. f_equal. lia.
Qed.
End Dump.

(** ** Properties *)

(** A dump of up to 65536 bytes is one log line from which the bytes can be read
    back: every byte appears, in order, sixteen per row, and nothing outside the
    given range is read. *)
Lemma hexDump_readable (m : list Z) (o size : Z) :
  bytes m → 0 ≤ o → 0 < size ≤ 65536 → o + size ≤ Z.of_nat (length m) →
  ∃ text, hexDump m (Ptr o) size "" = Ret [log_info text] ∧
    read_dump (row_fuel size) text = bytes_at m o (Z.to_nat size).
Proof.
  intros Hm Ho Hs Hin. unfold hexDump. cbn [is_null orb]. rewrite (proj2 (Z.eqb_neq size 0)) by lia.
  destruct (dump_rows_in m o size Hm Ho ltac:(lia) ltac:(lia) (row_fuel size) 0) as (text & -> & Hread).
  - lia.
  - unfold row_fuel. Z.to_euclidean_division_equations. lia.
  - unfold row_fuel. lia.
  - exists text. split; [done|]. rewrite Hread. by rewrite drop_0.
Qed.

(** The line for a frame. *)
Definition ethertype_name (ty : Z) : string :=
  if ty =? ETHERTYPE_IPV4 then "IPv4" else if ty =? ETHERTYPE_ARP then "ARP"
  else if ty =? ETHERTYPE_IPV6 then "IPv6" else "0x" +:+ to_hex 4 ty.
Definition summary_line (f : EthernetFrame) (size ts : Z) : string :=
  "FRAME " +:+ pad_left " "%char 5 (to_string size) +:+ "B" +:+ "  ts=" +:+ to_string ts +:+
  "  dst=" +:+ dstMacString f +:+ "  src=" +:+ srcMacString f +:+
  "  EtherType=" +:+ ethertype_name (eth_ethertype f).

(** The frame summary agrees with the Ethernet parser: on a readable frame of
    at least 14 bytes it reads nothing outside the header, returns the type and
    logs one line with the addresses and the type as the parser reports and
    prints them (the parser wants one byte of payload more); a null pointer or a
    shorter frame gives a warning and type 0. *)
Lemma logFrameSummary_agrees (m : list Z) (o size ts : Z) :
  bytes m → 0 ≤ o → is_u64 size → o + Z.min size 14 ≤ Z.of_nat (length m) →
  let f := eth_frame_at m o size in
  ethernet_parse m (Ptr o) size = Ret (if size <? 15 then empty_frame else f) ∧
  (14 ≤ size → logFrameSummary m (Ptr o) size ts = Ret (eth_ethertype f, [log_info (summary_line f size ts)])) ∧
  (∀ p, p = nullptr ∨ size < 14 → ∃ w, logFrameSummary m p size ts = Ret (0, [log_warn w])).
Proof.
  intros Hm Ho Hs Hin f. split; [by apply ethernet_parse_in|]. split.
  - intros H14. unfold logFrameSummary, formatMAC. cbn [is_null orb]. rewrite (proj2 (Z.ltb_ge _ _)) by lia.
    rewrite !load_bytes_in, !bind_Ret, !load_in, !bind_Ret by lia.
    rewrite be16_lor, Z.add_0_r by (auto with words). unfold f, eth_frame_at, summary_line, dstMacString, srcMacString, macToString.
    cbn [eth_ethertype eth_dst_mac eth_src_mac].
    rewrite !(take_ge (bytes_at _ _ _)) by (unfold bytes_at; rewrite length_take; lia). done.
  - intros p [->|Hlt]; [by eexists|]. unfold logFrameSummary.
    rewrite (proj2 (Z.ltb_lt size 14)), orb_true_r by done. by eexists.
Qed.

