(* ===== verification/FlowDirection.v ===== *)
(** * Direction of flows

    The key of a flow names its source and destination in this order, and the
    direction of a packet is a function of the two addresses; so all packets of
    a flow have one direction, and a flow record counts bytes on one side only. *)

From S2P Require Import Prelude.
From S2P Require Import Bytes.
From S2P Require Import Format.
From S2P Require Import Logger.
From S2P Require Import PacketBuffer.
From S2P Require Import EthernetParser.
From S2P Require Import IpParser.
From S2P Require Import TcpParser.
From S2P Require Import UdpParser.
From S2P Require Import IcmpParser.
From S2P Require Import ArpParser.
From S2P Require Import FilterStage.
From S2P Require Import DissectorStage.
From S2P Require Import StatsStage.
From S2P Require Import FlowTracker.
From S2P Require Import PublisherJson.
From S2P Require Import Ranges.
From S2P Require Import Engine.

(** The address peeked at is the one parsed. *)
Lemma load_shift m o i n : load m (Ptr (o + i)) n = load m (Ptr o) (i + n).
Proof. unfold load. by rewrite Z.add_assoc. Qed.

Lemma peek_ip_read m p i v w :
  peek_ip m p i = Ret v → (q ← ptr_add m p i; readU32Be m q) = Ret w → v = w.
Proof.
  intros Hp Hr. apply bind_eq_Ret in Hr as (q & Hq & Hr). destruct p as [|o]; [done|].
  unfold ptr_add in Hq. destruct (_ && _); [|done]. injection Hq as <-.
  unfold peek_ip in Hp. unfold readU32Be in Hr. rewrite !load_shift, Z.add_0_r in Hr.
  destruct (load m (Ptr o) i) as [b0| | | |]; try done. cbn [mbind outcome_bind] in *.
  destruct (load m (Ptr o) (i + 1)) as [b1| | | |]; try done. cbn [mbind outcome_bind] in *.
  destruct (load m (Ptr o) (i + 2)) as [b2| | | |]; try done. cbn [mbind outcome_bind] in *.
  destruct (load m (Ptr o) (i + 3)) as [b3| | | |]; try done. cbn [mbind outcome_bind] in *.
  congruence.
Qed.

Lemma parseIpHeader_addresses m p len dir ip :
  parseIpHeader m p len dir = Ret (Some ip) →
  ip_direction ip = dir ∧ (q ← ptr_add m p 12; readU32Be m q) = Ret (ip_src_ip ip) ∧
  (q ← ptr_add m p 16; readU32Be m q) = Ret (ip_dst_ip ip).
Proof.
  unfold parseIpHeader. intros E. destruct (len <? 20); [done|].
  apply bind_eq_Ret in E as (b0 & _ & E). cbv zeta in E.
  destruct (negb _); [done|]. destruct (_ || _); [done|].
  apply bind_eq_Ret in E as (total & _ & E). destruct (len <? total); [done|].
  apply bind_eq_Ret in E as (ttl & _ & E). apply bind_eq_Ret in E as (proto & _ & E).
  apply bind_eq_Ret in E as (src & Hsrc & E). apply bind_eq_Ret in E as (dst & Hdst & E).
  apply bind_eq_Ret in E as (ok & _ & E). apply bind_eq_Ret in E as (pl & _ & E).
  apply (inj Ret), (inj Some) in E. subst ip. done.
Qed.

Definition dissected_ip (d : DissectedFrame) : option IpHeader :=
  match d with
  | DTcp f => Some (itf_ip f) | DUdp f => Some (iuf_ip f) | DIcmp f => Some (iif_ip f)
  | DArp _ => None | DOther f => Some (iof_ip f)
  end.

Lemma dissect_transport_ip m eth ip ts d l :
  dissect_transport m eth ip ts = Ret (Some d, l) → dissected_ip d = Some ip.
Proof.
  unfold dissect_transport. intros E.
  destruct (ip_protocol ip =? 6); [|destruct (ip_protocol ip =? 17); [|destruct (ip_protocol ip =? 1)]].
  - apply bind_eq_Ret in E as ([t|] & _ & E); [|done]. by injection E as <- <-.
  - apply bind_eq_Ret in E as ([t|] & _ & E); [|done]. by injection E as <- <-.
  - apply bind_eq_Ret in E as ([t|] & _ & E); [|done]. by injection E as <- <-.
  - by injection E as <- <-.
Qed.

(** The direction the dissector gives an IP packet. *)
Lemma dissector_stage_direction m ff ips d l ip :
  dissector_stage m ff ips = Ret (Some d, l) → dissected_ip d = Some ip →
  ip_direction ip = resolveDirection (ip_src_ip ip) (ip_dst_ip ip) ips.
Proof.
  unfold dissector_stage. cbv zeta. intros E Hip.
  destruct (_ =? ETHERTYPE_ARP).
  { apply bind_eq_Ret in E as ([a|] & _ & E); [|done]. injection E as <- <-. done. }
  destruct (_ <? 20); [done|].
  apply bind_eq_Ret in E as (src & Hsrc & E). apply bind_eq_Ret in E as (dst & Hdst & E).
  apply bind_eq_Ret in E as ([ip'|] & Hparse & E); [|done].
  apply dissect_transport_ip in E. rewrite E in Hip. injection Hip as ->.
  apply parseIpHeader_addresses in Hparse as (-> & Hs & Hd).
  by rewrite (peek_ip_read _ _ _ _ _ Hsrc Hs), (peek_ip_read _ _ _ _ _ Hdst Hd).
Qed.

Section Flows.
Context `{NativeEndian} (ips : gset Z).

(** What the key of a frame says of its direction. *)
Definition directed (e : EnrichedFrame) : Prop :=
  (∃ src sport dst dport, e_flow_key e = makeFlowKey src sport dst dport ∧
     is_u32 src ∧ is_u16 sport ∧ is_u32 dst ∧ is_u16 dport ∧
     e_direction e = resolveDirection src dst ips) ∨
  (∃ sender, e_flow_key e = makeArpFlowKey sender ∧ e_direction e = Unknown).

Lemma directed_same_key e1 e2 :
  directed e1 → directed e2 → e_flow_key e1 = e_flow_key e2 → e_direction e1 = e_direction e2.
Proof.
  intros [(s1 & p1 & d1 & q1 & E1 & ? & ? & ? & ? & ->)|(a1 & E1 & ->)]
         [(s2 & p2 & d2 & q2 & E2 & ? & ? & ? & ? & ->)|(a2 & E2 & ->)] E; rewrite E1, E2 in E.
  - apply makeFlowKey_injective in E as (-> & _ & -> & _); done.
  - by apply flow_keys_disjoint in E.
  - symmetry in E. by apply flow_keys_disjoint in E.
  - done.
Qed.

Lemma stats_stage_directed d e :
  dissected_ranges d →
  (∀ ip, dissected_ip d = Some ip → ip_direction ip = resolveDirection (ip_src_ip ip) (ip_dst_ip ip) ips) →
  stats_stage d = Some e → directed e.
Proof.
  intros Hd Hdir E. destruct d as [f|f|f|f|f]; injection E as <-; cbn in Hd, Hdir; destruct_and?;
    try (match goal with H : ip_ranges _ |- _ => destruct H end);
    try (specialize (Hdir _ eq_refl)).
  4: by right; eexists.
  all: left; eexists _, _, _, _; split; [done|]; split_and!; try lia; done.
Qed.

Lemma packet_frames_directed buf ps :
  bytes buf → Forall (λ p, bytes p.2 ∧ is_u64 p.1) ps → Forall directed (packet_frames ips buf ps).
Proof.
  intros Hb Hps. revert buf Hb. induction Hps as [|p ps [Hp Hts] Hps IH]; intros buf Hb; [constructor|].
  assert (bytes (copied buf p)) as Hcb by (apply Forall_app_2; [done|by apply Forall_drop]).
  cbn [packet_frames]. apply Forall_app. split; [|by apply IH].
  destruct (packet_frame ips buf p) as [e|] eqn:E; simpl; [|constructor]. apply Forall_singleton.
  unfold packet_frame in E. destruct (filter_keeps p.2); [|done]. fold (copied buf p) in E.
  pose proof (dissector_stage_range (copied buf p) Hcb (filtered_frame p.1 p.2) ips) as Hr.
  destruct (dissector_stage (copied buf p) _ ips) as [[[d|] l]| | | |] eqn:Ed; try done.
  eapply stats_stage_directed; [apply Hr| |exact E]. intros ip. by eapply dissector_stage_direction.
Qed.

(** The frames of one flow in a directed history. *)
Lemma flow_frames_direction k h e :
  Forall directed h → e ∈ flow_frames k h → Forall (λ e', e_direction e' = e_direction e) (flow_frames k h).
Proof.
  intros Hh He. unfold flow_frames in *. apply list_elem_of_filter in He as [Hk Hin].
  rewrite Forall_forall in Hh. apply list.Forall_forall. intros e' He'.
  apply list_elem_of_filter in He' as [Hk' Hin']. apply directed_same_key; [auto..|congruence].
Qed.

Lemma sum_sizes_other d d' l :
  Forall (λ e, e_direction e = d') l → d ≠ d' → sum_sizes (filter (λ e, e_direction e = d) l) = 0.
Proof.
  intros Hl Hne. induction Hl as [|e l He Hl IH]; [done|].
  rewrite filter_cons, decide_False by congruence. done.
Qed.

Lemma filter_all (P : EnrichedFrame → Prop) `{∀ e, Decision (P e)} l : Forall P l → filter P l = l.
Proof. induction 1; [done|]. by rewrite filter_cons, decide_True, IHForall. Qed.
End Flows.

(** ** Properties *)

(** C30: a flow is one-way: whatever packets were captured, no flow record of the
    pipeline's table counts bytes in both directions, and one that counts bytes
    in a direction counts all its bytes there; the two halves of a conversation
    are two flows. *)
Theorem flow_record_one_direction `{NativeEndian} `{PacketSource B} (ips : gset Z) (b : B)
    (buf : list Z) (key : string) :
  ps_ok b → bytes buf →
  let r := FlowTable_get (track (packet_frames ips buf (ps_packets b))) key in
  inbound_bytes r = 0 ∧ outbound_bytes r = 0 ∨
  inbound_bytes r = total_bytes r ∧ outbound_bytes r = 0 ∨
  inbound_bytes r = 0 ∧ outbound_bytes r = total_bytes r.
Proof.
  intros Hok Hb r. set (h := packet_frames ips buf (ps_packets b)) in *.
  assert (Forall (directed ips) h) as Hdir.
  { apply packet_frames_directed; [done|]. apply list.Forall_forall. intros [ts f] Hin.
    by destruct (ps_packet b ts f Hok Hin) as (_ & ? & ?). }
  unfold r, FlowTable_get. rewrite track_lookup by apply packet_frames_keyed.
  destruct (flow_frames key h) as [|e l] eqn:Hl; [by left|].
  pose proof (flow_frames_direction ips key h e Hdir ltac:(rewrite Hl; left)) as Hd. rewrite Hl in Hd.
  cbn [summary inbound_bytes outbound_bytes total_bytes].
  assert (∀ d, e_direction e = d → filter (λ e', e_direction e' = d) (e :: l) = e :: l) as Hall.
  { intros d <-. apply filter_all. done. }
  destruct (e_direction e) eqn:Ed.
  - right. left. rewrite (Hall Inbound), (sum_sizes_other Outbound Inbound) by done. done.
  - right. right. rewrite (Hall Outbound), (sum_sizes_other Inbound Outbound) by done. done.
  - left. rewrite !(sum_sizes_other _ Unknown) by done. done.
Qed.

Lemma flow_record_one_direction_witness :
  let _ : NativeEndian := LittleEndian in
  let r := FlowTable_get (track (packet_frames {[ 0x0A000001 ]} (replicate 2040 0) (ps_packets demo_one_packet)))
             "10.0.0.1:1000->10.0.0.2:53" in
  total_bytes r = 28 ∧
  (inbound_bytes r = 0 ∧ outbound_bytes r = 0 ∨
   inbound_bytes r = total_bytes r ∧ outbound_bytes r = 0 ∨
   inbound_bytes r = 0 ∧ outbound_bytes r = total_bytes r).
Proof.
  intros ? r. split; [vm_compute; reflexivity|].
  apply (flow_record_one_direction (B := PacketBuffer) {[ 0x0A000001 ]} demo_one_packet (replicate 2040 0)).
  - exact demo_one_packet_ok.
  - apply Forall_replicate. lia.
Defined.
