(* ===== verification/Threads.v ===== *)
(** * Capture and pipeline together (the threads of src/main.cpp)

    A run of the two threads is a schedule of their operations on the packet
    buffer, each of which holds the mutex throughout, so that a schedule is a
    sequence (Simulation.v shows that the interleaved threads of Concurrency.v
    do no more); an operation that would block leaves the state as it is and the
    other thread goes on. *)

From S2P Require Import Prelude.
From S2P Require Import Bytes.
From S2P Require Import Format.
From S2P Require Import Logger.
From S2P Require Import Effects.
From S2P Require Import RingBuffer.
From S2P Require Import PacketBuffer.
From S2P Require Import FilterStage.
From S2P Require Import DissectorStage.
From S2P Require Import StatsStage.
From S2P Require Import FlowTracker.
From S2P Require Import Publisher.
From S2P Require Import Engine.

(** ** The threads *)

(** The capture thread stores a received frame: the loads of the stop flag, the
    clock, the stack bytes and the frame; or the pipeline thread runs its loop
    body once. *)
Inductive action : Type :=
  | Capture (s : stop_loads) (clock_ms : Z) (slot_buf frame : list Z)
  | Process (it : iteration).

(** The shared state, and the packets stored so far. *)
Record system : Type := mkSystem {
  sy_engine : Engine PacketBuffer;
  sy_stored : list (Z * list Z);
}.

(** A blocked operation is retried later. *)
Definition unless_blocked {A} (o : outcome A) (a : A) : outcome A :=
  match o with Blocked => Ret a | _ => o end.

(** The capture thread's [packet_buf.write]. *)
Definition system_write `{NativeEndian} (sy : system) (s : stop_loads) (clock : Z) (slot data : list Z) (size : Z)
    : outcome (bool * system) :=
  let en := sy_engine sy in
  '(ok, buf) ← PacketBuffer_write (en_buf en) s clock slot data size;
  Ret (ok, mkSystem (mkEngine buf (en_frame_buf en) (en_table en) (en_pub en))
    (sy_stored sy ++ if ok : bool then [(nowMillis clock, take (Z.to_nat size) data)] else [])).

#[export] Instance system_sink `{NativeEndian} : PacketSink system := {|
  sk_write := system_write;
  sk_full sy := PacketBuffer_isFull (en_buf (sy_engine sy));
|}.

Section Run.
Context `{NativeEndian} `{Amqp}.

Definition act (local_ips : gset Z) (a : action) (sy : system) : outcome system :=
  match a with
  | Capture s clock slot f =>
      '(_, sy') ← unless_blocked (system_write sy s clock slot f (Z.of_nat (length f))) (false, sy);
      Ret sy'
  | Process it =>
      '(_, en') ← unless_blocked (pipeline_iteration local_ips it (sy_engine sy)) (Continue, sy_engine sy);
      Ret (mkSystem en' (sy_stored sy))
  end.

Fixpoint run_threads (local_ips : gset Z) (sched : list action) (sy : system) : outcome system :=
  match sched with
  | [] => Ret sy
  | a :: sched' => sy' ← act local_ips a sy; run_threads local_ips sched' sy'
  end.

(** The zero-initialised static array of the pipeline thread. *)
Definition static_frame_buf : list Z := replicate 2040 0.

(** The threads start with these. *)
Definition fresh_system (buf : PacketBuffer) (pub : PubWorld) : system :=
  mkSystem (mkEngine buf static_frame_buf empty_table pub) [].

(** ** Lemmas *)

(** A write when there is room, whatever its data are followed by, what it loads
    from the stop flag and what was on its stack. *)
Definition system_stored (sy : system) (clock : Z) (f : list Z) : system :=
  let en := sy_engine sy in
  mkSystem (mkEngine (mkPacketBuffer (ring_stored (ring_ (en_buf en)) (packet_slot clock f)))
    (en_frame_buf en) (en_table en) (en_pub en)) (sy_stored sy ++ [(nowMillis clock, f)]).

Lemma system_write_room sy s clock slot data size :
  packet_buffer_ok (en_buf (sy_engine sy)) → sk_full sy = false →
  length slot = 2048%nat → 0 < size ≤ 2040 → size ≤ Z.of_nat (length data) →
  system_write sy s clock slot data size = Ret (true, system_stored sy clock (take (Z.to_nat size) data)).
Proof.
  intros Hok Hf Hslot Hsize Hlen. unfold system_write.
  by rewrite PacketBuffer_write_room by (done || apply Hok || by apply isFull_room).
Qed.

Lemma act_capture_room ips sy s clock slot f :
  packet_buffer_ok (en_buf (sy_engine sy)) → sk_full sy = false →
  length slot = 2048%nat → (0 < length f ≤ 2040)%nat →
  act ips (Capture s clock slot f) sy = Ret (system_stored sy clock f).
Proof.
  intros. unfold act. rewrite system_write_room by (done || lia). cbn. by rewrite Nat2Z.id, firstn_all.
Qed.

(** The pipeline thread stores nothing. *)
Lemma act_process_stored ips it sy sy' : act ips (Process it) sy = Ret sy' → sy_stored sy' = sy_stored sy.
Proof. intros ([e en'] & _ & [= <-])%bind_eq_Ret. done. Qed.

Lemma run_threads_app ips l1 l2 sy :
  run_threads ips (l1 ++ l2) sy = (sy' ← run_threads ips l1 sy; run_threads ips l2 sy').
Proof.
  revert sy. induction l1 as [|a l1 IH]; intros sy; [done|]. cbn [app run_threads].
  rewrite bind_assoc. destruct (act ips a sy); simpl; auto.
Qed.

Lemma run_rounds_stored ips its sy sy' :
  run_threads ips (Process <$> its) sy = Ret sy' → sy_stored sy' = sy_stored sy.
Proof.
  revert sy. induction its as [|it its IH]; intros sy; [by intros [= ->]|].
  intros (sy1 & Ha & Hr)%bind_eq_Ret. by rewrite (IH _ Hr), (act_process_stored _ _ _ _ Ha).
Qed.

(** An operation before the stop request, on a frame of bytes. *)
Definition before_stop (a : action) : Prop :=
  match a with
  | Capture s _ slot f => stop_mono s ∧ stop_wait s = false ∧ length slot = 2048%nat ∧ bytes f
  | Process it => running it ∧ stop_wait (it_read it) = false
  end.

Lemma packet_frames_app ips buf ps qs :
  packet_frames ips buf (ps ++ qs)
  = packet_frames ips buf ps ++ packet_frames ips (foldl copied buf ps) qs.
Proof.
  revert buf. induction ps as [|p ps IH]; intros buf; simpl; [done|]. by rewrite IH, app_assoc.
Qed.

Lemma packet_frames_snoc ips buf ps p :
  packet_frames ips buf (ps ++ [p])
  = packet_frames ips buf ps ++ option_list (packet_frame ips (foldl copied buf ps) p).
Proof. rewrite packet_frames_app. simpl. by rewrite app_nil_r. Qed.

(** What holds between two operations, [ps] being the packets processed. *)
Record system_ok (ips : gset Z) (pub0 : PubWorld) (ps : list (Z * list Z)) (sy : system) : Prop := {
  so_engine : engine_ok (sy_engine sy);
  so_stored : sy_stored sy = ps ++ packets (en_buf (sy_engine sy));
  so_frame_buf : en_frame_buf (sy_engine sy) = foldl copied static_frame_buf ps;
  so_table : en_table (sy_engine sy) = track (packet_frames ips static_frame_buf ps);
  so_pub : ∀ reqs w', publishes reqs (en_pub (sy_engine sy)) w' →
    publishes (requests [] (packet_frames ips static_frame_buf ps) ++ reqs) pub0 w';
}.

Section Threads.
Hypothesis new_connection_nonnull : ∀ h, amqp_new_connection h ≠ 0.
Context (ips : gset Z) (pub0 : PubWorld).

Lemma act_capture s clock slot f ps sy :
  system_ok ips pub0 ps sy → before_stop (Capture s clock slot f) →
  ∃ sy', act ips (Capture s clock slot f) sy = Ret sy' ∧ system_ok ips pub0 ps sy'.
Proof.
  intros [Hen Hst Hfb Htab Hpub] (Hmono & Hs & Hslot & Hf). unfold act, system_write.
  pose proof (PacketBuffer_write_queue (en_buf (sy_engine sy)) s clock slot f (Z.of_nat (length f))
    (eo_buf _ Hen) Hmono Hslot Hf ltac:(lia)) as Hw.
  rewrite Nat2Z.id, firstn_all in *. unfold packets_write in Hw. rewrite Hs in Hw.
  destruct (_ || _); [|destruct (_ <? _)].
  - destruct Hw as (pb' & -> & Hok & Hp & _). eexists. split; [done|].
    destruct Hen. by split; cbn; rewrite ?Hp, ?app_nil_r.
  - destruct Hw as (pb' & -> & Hok & Hp & _). eexists. split; [done|].
    destruct Hen. split; cbn; rewrite ?Hp, ?Hst, ?app_assoc; done.
  - destruct Hw as [_ ->]. eexists. split; [done|].
    destruct Hen. by split; cbn; rewrite ?app_nil_r.
Qed.

(** One round of the pipeline on the oldest packet. *)
Lemma act_process_packet it ps sy p q :
  system_ok ips pub0 ps sy → running it → packets (en_buf (sy_engine sy)) = p :: q →
  ∃ en', pipeline_iteration ips it (sy_engine sy) = Ret (Continue, en') ∧
    system_ok ips pub0 (ps ++ [p]) (mkSystem en' (sy_stored sy)).
Proof.
  intros [Hen Hst Hfb Htab Hpub] Hit Hq.
  destruct (pipeline_iteration_spec new_connection_nonnull ips it (sy_engine sy) _ p q Hen (ru_sound it Hit)
    (packet_frames_keyed ips static_frame_buf ps) Htab Hq) as (en' & Hi & Hen' & Hq' & Hfb' & Htab' & Hpub').
  unfold ends in Hi. rewrite (ru_after it Hit) in Hi. exists en'. split; [done|]. cbn in Hq'.
  split; cbn [sy_engine sy_stored]; rewrite ?packet_frames_snoc, <- ?Hfb; try done.
  - by rewrite Hst, Hq', Hq, <- app_assoc.
  - by rewrite foldl_app, <- Hfb.
  - intros reqs w' Hr. rewrite requests_app, <- app_assoc. apply Hpub. by apply Hpub'.
Qed.

Lemma act_process it ps sy :
  system_ok ips pub0 ps sy → before_stop (Process it) →
  ∃ sy' ps', act ips (Process it) sy = Ret sy' ∧ system_ok ips pub0 ps' sy'.
Proof.
  intros Hsy [Hit Hs]. unfold act. destruct (packets (en_buf (sy_engine sy))) as [|p q] eqn:Hq.
  - rewrite pipeline_iteration_blocked by (done || apply Hsy || apply Hit). exists sy, ps. by destruct sy.
  - destruct (act_process_packet it ps sy p q Hsy Hit Hq) as (en' & -> & Hsy'). by eexists _, _.
Qed.

Lemma run_threads_spec sched ps sy :
  system_ok ips pub0 ps sy → Forall before_stop sched →
  ∃ sy' ps', run_threads ips sched sy = Ret sy' ∧ system_ok ips pub0 ps' sy'.
Proof.
  intros Hsy Hs. revert ps sy Hsy. induction Hs as [|a sched Ha Hs IH]; intros ps sy Hsy; [by exists sy, ps|].
  cbn [run_threads]. destruct a as [s clock slot f|it].
  - destruct (act_capture s clock slot f ps sy Hsy Ha) as (sy' & -> & Hsy'). by apply (IH ps).
  - destruct (act_process it ps sy Hsy Ha) as (sy' & ps' & -> & Hsy'). by apply (IH ps').
Qed.

Lemma system_ok_initial buf :
  packet_buffer_ok buf → packets buf = [] → publisher_ok pub0 →
  system_ok ips pub0 [] (fresh_system buf pub0).
Proof.
  intros Hb Hp Hpub. split; cbn [sy_engine sy_stored]; try done.
  split; try done. apply Forall_replicate. lia.
Qed.

(** The loop of the pipeline thread, run to its end after the last operation of
    the capture thread. *)
Lemma pipeline_exit its ps sy n :
  system_ok ips pub0 ps sy → Forall sound its →
  consumed its (packets (en_buf (sy_engine sy))) = Some n →
  ∃ en', pipeline_loop ips its (sy_engine sy) = Ret en' ∧
    system_ok ips pub0 (ps ++ take n (packets (en_buf (sy_engine sy)))) (mkSystem en' (sy_stored sy)).
Proof.
  intros [Hen Hst Hfb Htab Hpub] Hits Hn.
  pose proof (pipeline_loop_spec new_connection_nonnull ips its (sy_engine sy) _ Hen Hits
    (packet_frames_keyed ips static_frame_buf ps) Htab) as Hs.
  cbn in Hs. rewrite Hn in Hs. destruct Hs as (en' & Hrun & Hok & Hq & _ & Hb & Ht & Hp).
  exists en'. split; [done|]. cbn in *. rewrite Hfb in *.
  split; cbn [sy_engine sy_stored]; rewrite ?packet_frames_app; try done.
  - by rewrite Hst, Hq, <- app_assoc, take_drop.
  - by rewrite foldl_app.
  - intros reqs w' Hr. rewrite requests_app, <- app_assoc. by apply Hpub, Hp.
Qed.

(** What has been published between two operations. *)
Lemma system_published ps sy :
  system_ok ips pub0 ps sy →
  publishes (requests [] (packet_frames ips static_frame_buf ps)) pub0 (en_pub (sy_engine sy)).
Proof.
  intros Hsy. rewrite <- (app_nil_r (requests [] (packet_frames ips static_frame_buf ps))).
  apply Hsy. by constructor.
Qed.
End Threads.
End Run.

(** An empty packet buffer of two slots, for the witnesses. *)
Definition demo_empty : PacketBuffer := mkPacketBuffer
  {| head_ := 0; tail_ := 0; capacity_ := 2; buffer_ := replicate 4096 0;
     slot_sizes_ := [0; 0]; count_ := 0 |}.

Lemma demo_empty_ok : packet_buffer_ok demo_empty.
Proof.
  split; [|constructor]. split; simpl; try lia; repeat constructor; unfold SLOT_SIZE; lia.
Qed.

