(* ===== verification/Simulation.v ===== *)
(** * The interleaved threads do what a schedule does

    Concurrency.v interleaves the threads line by line, with the mutex, the
    condition variables and the signal handler; Threads.v runs whole operations
    one after the other.  Every run of the former is matched, step by step, by a
    schedule of the latter: an operation takes effect at the one step that
    executes the body of its critical section, and no other step changes the
    packet buffer. *)

From S2P Require Import Prelude.
From S2P Require Import Bytes.
From S2P Require Import Logger.
From S2P Require Import Effects.
From S2P Require Import RingBuffer.
From S2P Require Import PacketBuffer.
From S2P Require Import FilterStage.
From S2P Require Import DissectorStage.
From S2P Require Import StatsStage.
From S2P Require Import FlowTracker.
From S2P Require Import Publisher.
From S2P Require Import Engine.
From S2P Require Import Threads.
From S2P Require Import Concurrency.

(** ** The slots in flight *)

Section Slots.
Context `{NativeEndian}.

(** What [PacketBuffer::write] hands to the ring. *)
Definition is_slot (f : list Z) : Prop :=
  ∃ clock frame, f = packet_slot clock frame ∧ bytes frame ∧ (0 < length frame ≤ 2040)%nat.

Definition slots_ok (s : state) : Prop :=
  Forall is_slot (pending s) ∧
  match ppc s with PLock f | PCheck f | PEnter f | PWaiting f | PBody f _ => is_slot f | _ => True end.

Lemma length_packet_slot clock f : length (packet_slot clock f) = (8 + length f)%nat.
Proof. unfold packet_slot. rewrite length_app, length_native_bytes; done. Qed.

Lemma slots_ok_step s s' : slots_ok s → step s s' → slots_ok s'.
Proof.
  intros [Hp Hf] Hst. destruct s as [rb m st pc cc hc pend wr tk]. unfold slots_ok in *. simpl in *.
  destruct Hst as [Hin|Hin|Hin|Hin].
  - unfold producer_next in Hin. destruct pc; simpl in *.
    + apply elem_of_app in Hin as [Hin|Hin]; [destruct st; successor Hin; done|].
      destruct pend as [|f pend]; successor Hin. apply Forall_cons in Hp as [? ?].
      by destruct (bad_size f).
    + destruct m; by successor Hin.
    + successor Hin. simpl. by destruct (negb _ || _).
    + by successor Hin.
    + by successor Hin.
    + destruct (RingBuffer_write _ _ _ _) as [[[] ?]| | | |]; by successor Hin.
    + successor Hin. unfold notify_data. by destruct cc.
    + by successor Hin.
    + by successor Hin.
    + by successor Hin.
  - unfold consumer_next in Hin. destruct cc; simpl in *.
    + by successor Hin.
    + destruct m; by successor Hin.
    + by successor Hin.
    + by successor Hin.
    + by successor Hin.
    + destruct (RingBuffer_read _ _ _ _) as [r| | | |]; [destruct (rr_ok r)|..]; by successor Hin.
    + successor Hin. unfold notify_space. by destruct pc.
    + by successor Hin.
    + by successor Hin.
    + by successor Hin.
  - unfold handler_next in Hin. destruct hc; successor Hin; unfold notify_data, notify_space; simpl;
      destruct cc, pc; done.
  - unfold spurious_next in Hin. apply elem_of_app in Hin as [Hin|Hin].
    + simpl in Hin. destruct cc; by successor Hin.
    + simpl in Hin. destruct pc; by successor Hin.
Qed.
End Slots.

(** ** Effective steps *)

(** A step leaves the ring and the slots taken as they are, or is the body of a
    successful [write] or [read]. *)
Definition quiet (s s' : state) : Prop := ring s' = ring s ∧ taken s' = taken s.

Lemma producer_effect s s' :
  inv s → s' ∈ producer_next s →
  quiet s s' ∨
  ∃ f b, ppc s = PBody f b ∧ count_ (ring s) < capacity_ (ring s) ∧ taken s' = taken s ∧
    RingBuffer_write (ring s) (mkStop false false) f (Z.of_nat (length f)) = Ret (true, ring s').
Proof.
  intros H Hin. unfold producer_next in Hin. unfold quiet.
  destruct (ppc s) eqn:Epc; [open_inv s H; subst pc..|].
  - left. destruct st, pend as [|f pend]; simpl in Hin; successor Hin; try destruct (bad_size f); done.
  - left. destruct m; by successor Hin.
  - left. by successor Hin.
  - left. by successor Hin.
  - by successor Hin.
  - destruct Pinv as (Hsz & Hmono & Hfull).
    destruct (write_body rb f stopped st Hok Hsz Hmono Hfull) as [(? & ? & Hw)|(rb' & Hw & Hok' & Hcon)];
      rewrite Hw in Hin; successor Hin; [by left|right]. exists f, stopped. cbn.
    pose proof (ok_count rb Hok).
    assert (count_ rb < capacity_ rb) as Hlt.
    { destruct (isFull rb) eqn:Hf; unfold isFull in Hf; bool_hyps; [|lia].
      rewrite RingBuffer_write_full in Hw; [by destruct (stop_wait _)|by apply Z.eqb_eq|done..]. }
    unfold bad_size in Hsz. apply orb_false_iff in Hsz as [Hz Hs]. apply Z.eqb_neq in Hz. apply Z.ltb_ge in Hs.
    rewrite RingBuffer_write_room in Hw by (done || lia). split_and!; try done.
    rewrite RingBuffer_write_room by (done || lia). by rewrite Hw.
  - left. successor Hin. unfold notify_data. by destruct cc.
  - left. by successor Hin.
  - by successor Hin.
  - by successor Hin.
Qed.

Lemma consumer_effect s s' :
  inv s → s' ∈ consumer_next s →
  quiet s s' ∨
  ∃ f r, RingBuffer_read (ring s) (mkStop false false) out_buffer 0 = Ret r ∧ rr_ring r = ring s' ∧
    taken s' = taken s ++ [f] ∧ contents (ring s) = f :: contents (ring s').
Proof.
  intros H Hin. unfold consumer_next in Hin. unfold quiet.
  destruct (cpc s) eqn:Ecc; [open_inv s H; subst cc..|].
  - left. by successor Hin.
  - left. destruct m; by successor Hin.
  - left. by successor Hin.
  - left. by successor Hin.
  - by successor Hin.
  - destruct Cinv as (Hmono & Hempty).
    destruct (read_body rb stopped st Hok Hmono Hempty)
      as [(? & ? & Hr)|(f & r & Hr & Hrok & Hf & Hok' & Hcon)]; rewrite Hr in Hin.
    { left. by successor Hin. }
    rewrite Hrok in Hin. successor Hin. right. cbn. rewrite Hf. exists f, r. split_and!; try done.
    destruct (isEmpty rb) eqn:He.
    { apply contents_empty in He; [|done]. by rewrite He in Hcon. }
    unfold RingBuffer_read in *. rewrite He in *. cbn in *. by rewrite andb_false_r in Hr.
  - left. successor Hin. unfold notify_space. by destruct pc.
  - left. by successor Hin.
  - by successor Hin.
  - by successor Hin.
Qed.

Lemma other_effect s s' : s' ∈ handler_next s ∨ s' ∈ spurious_next s → quiet s s'.
Proof.
  unfold quiet, handler_next, spurious_next. destruct s as [rb m st pc cc hc pend wr tk]. simpl.
  intros [Hin|Hin].
  - destruct hc; successor Hin; unfold notify_data, notify_space; simpl; destruct cc, pc; done.
  - apply elem_of_app in Hin as [Hin|Hin]; [destruct cc|destruct pc]; by successor Hin.
Qed.

(** ** The simulation *)

Section Simulation.
Context `{NativeEndian} `{Amqp}.
Hypothesis new_connection_nonnull : ∀ h, amqp_new_connection h ≠ 0.
Context (ips : gset Z) (pub0 : PubWorld).

(** A state of the threads and a state of a schedule: the same ring, and the
    slots taken are the packets processed. *)
Record matches (s : state) (sy : system) : Prop := {
  ma_ring : ring_ (en_buf (sy_engine sy)) = ring s;
  ma_system : system_ok ips pub0 (slot_packet <$> taken s) sy;
}.

Lemma matches_quiet s s' sy : quiet s s' → matches s sy → matches s' sy.
Proof. intros [Hr Ht] [Hring Hsy]. by split; rewrite ?Hr, ?Ht. Qed.

(** The ring after one round of the pipeline is the ring after its read. *)
Lemma pipeline_iteration_ring it (en en' : Engine PacketBuffer) e r :
  RingBuffer_read (ring_ (en_buf en)) (it_read it) (it_slot it) 0 = Ret r →
  pipeline_iteration ips it en = Ret (e, en') → ring_ (en_buf en') = rr_ring r.
Proof.
  intros Hr Hi. unfold pipeline_iteration in Hi. apply bind_eq_Ret in Hi as (fr & Hf & Hi).
  assert (ring_ (fr_buf fr) = rr_ring r) as <-.
  { unfold filter_stage in Hf. apply bind_eq_Ret in Hf as (pr & Hp & Hf).
    assert (ring_ (pr_buf pr) = rr_ring r) as <-.
    { destruct (PacketBuffer_read_ring _ _ _ _ _ _ _ _ Hp) as (rr & Hr' & ->). rewrite Hr in Hr'. by injection Hr' as ->. }
    destruct (negb (pr_ok pr)); [by simplify_eq|].
    apply bind_eq_Ret in Hf as ([f l] & _ & Hf). by simplify_eq. }
  destruct (fr_frame fr); [|by simplify_eq].
  apply bind_eq_Ret in Hi as ([d l] & _ & Hi). destruct d; [|by simplify_eq].
  destruct (stats_stage _); [|by simplify_eq]. destruct (flow_tracker _ _) as [[flow x] table].
  apply bind_eq_Ret in Hi as ([b w] & _ & Hi). by simplify_eq.
Qed.

Definition sim_capture (clock : Z) (frame : list Z) : action :=
  Capture (mkStop false false) clock out_buffer frame.
Definition sim_process : action :=
  Process (mkIteration false (mkStop false false) out_buffer false).

Lemma sim_process_ok : before_stop sim_process.
Proof. split; [|done]. by split. Qed.

Lemma sim_write s s' sy f b :
  matches s sy → slots_ok s → ppc s = PBody f b → count_ (ring s) < capacity_ (ring s) →
  taken s' = taken s →
  RingBuffer_write (ring s) (mkStop false false) f (Z.of_nat (length f)) = Ret (true, ring s') →
  ∃ a sy', before_stop a ∧ act ips a sy = Ret sy' ∧ matches s' sy'.
Proof.
  intros [Hring Hsy] [_ Hslot] Hpc Hroom Htk Hw. rewrite Hpc in Hslot.
  destruct Hslot as (clock & frame & -> & Hb & Hlen).
  assert (before_stop (sim_capture clock frame)) as Hbs by (by split_and!).
  exists (sim_capture clock frame).
  destruct (act_capture ips pub0 (mkStop false false) clock out_buffer frame _ sy Hsy Hbs) as (sy' & Hact & Hsy').
  exists sy'. split; [done|]. split; [exact Hact|]. split; [|by rewrite Htk].
  assert (ring_ok (ring s)) as Hok by (rewrite <- Hring; apply Hsy).
  unfold sim_capture in Hact. rewrite act_capture_room in Hact;
    [|apply Hsy|unfold sk_full; cbn; unfold PacketBuffer_isFull, isFull; rewrite Hring; apply Z.eqb_neq; lia|done|lia].
  rewrite RingBuffer_write_room in Hw by (unfold SLOT_SIZE; rewrite ?length_packet_slot; done || lia).
  rewrite Nat2Z.id, firstn_all in Hw. injection Hact as <-. cbn. rewrite Hring. by injection Hw as <-.
Qed.

Lemma sim_read s s' sy f r :
  matches s sy → RingBuffer_read (ring s) (mkStop false false) out_buffer 0 = Ret r → rr_ring r = ring s' →
  taken s' = taken s ++ [f] → contents (ring s) = f :: contents (ring s') →
  ∃ a sy', before_stop a ∧ act ips a sy = Ret sy' ∧ matches s' sy'.
Proof.
  intros [Hring Hsy] Hr Hr' Htk Hc. exists sim_process.
  assert (packets (en_buf (sy_engine sy)) = slot_packet f :: (slot_packet <$> contents (ring s'))) as Hp.
  { unfold packets. by rewrite Hring, Hc. }
  destruct (act_process_packet new_connection_nonnull ips pub0 (mkIteration false (mkStop false false) out_buffer false)
    _ sy _ _ Hsy (proj1 sim_process_ok) Hp) as (en' & Hi & Hsy').
  exists (mkSystem en' (sy_stored sy)). split; [apply sim_process_ok|]. split.
  - cbn [act sim_process]. by rewrite Hi.
  - split; cbn [sy_engine].
    + rewrite <- Hr'. eapply pipeline_iteration_ring; [|exact Hi]. by rewrite Hring.
    + by rewrite Htk, fmap_app.
Qed.

(** One step of the threads is no operation or one operation. *)
Lemma simulation_step s s' sy :
  inv s → slots_ok s → matches s sy → step s s' →
  matches s' sy ∨ ∃ a sy', before_stop a ∧ act ips a sy = Ret sy' ∧ matches s' sy'.
Proof.
  intros Hinv Hsl Hm [Hin|Hin|Hin|Hin].
  - destruct (producer_effect s s' Hinv Hin) as [Hq|(f & b & ? & ? & ? & ?)];
      [left; by eapply matches_quiet|right; by eapply sim_write].
  - destruct (consumer_effect s s' Hinv Hin) as [Hq|(f & r & ? & ? & ? & ?)];
      [left; by eapply matches_quiet|right; by eapply sim_read].
  - left. eapply matches_quiet; [apply other_effect; eauto|done].
  - left. eapply matches_quiet; [apply other_effect; eauto|done].
Qed.

Lemma simulation_run s s' sy0 sched sy :
  rtc step s s' → inv s → slots_ok s →
  Forall before_stop sched → run_threads ips sched sy0 = Ret sy → matches s sy →
  ∃ sched' sy', Forall before_stop sched' ∧ run_threads ips sched' sy0 = Ret sy' ∧ matches s' sy' ∧ inv s'.
Proof.
  intros Hr. revert sched sy. induction Hr as [s|s s1 s' Hst _ IH]; intros sched sy Hinv Hsl Hs Hrun Hm.
  { by exists sched, sy. }
  pose proof (inv_step s s1 Hinv Hst) as Hinv1. pose proof (slots_ok_step s s1 Hsl Hst) as Hsl1.
  destruct (simulation_step s s1 sy Hinv Hsl Hm Hst) as [Hm1|(a & sy1 & Ha & Hact & Hm1)].
  - by eapply IH.
  - eapply (IH (sched ++ [a]) sy1); try done.
    + apply Forall_app. by rewrite Forall_singleton.
    + rewrite run_threads_app, Hrun, bind_Ret. cbn. by rewrite Hact.
Qed.
End Simulation.

(** ** Properties *)

(** C5: the interleaved threads refine the schedules of whole operations: from
    an empty buffer, with any packets to come, whatever the interleaving of the
    capture thread, the pipeline thread, the signal handler and spurious
    wake-ups, also after the stop request, there is a schedule that leads to the
    same ring.  So the packets stored are those the capture thread wrote, and
    for the slots the pipeline thread has taken the pipeline builds the flow
    table of their frames and publishes exactly these frames, in order. *)
Theorem threads_refine_schedules `{NativeEndian} `{Amqp} (ips : gset Z) (buf : PacketBuffer) (pub : PubWorld)
    (packets_to_come : list (Z * list Z)) (s : state) :
  (∀ h, amqp_new_connection h ≠ 0) → packet_buffer_ok buf → packets buf = [] → publisher_ok pub →
  Forall (λ p, bytes p.2 ∧ (0 < length p.2 ≤ 2040)%nat) packets_to_come →
  rtc step (initial (ring_ buf) ((λ p, packet_slot p.1 p.2) <$> packets_to_come)) s →
  ∃ sched sy, Forall before_stop sched ∧
    run_threads ips sched (fresh_system buf pub) = Ret sy ∧
    ring_ (en_buf (sy_engine sy)) = ring s ∧ sy_stored sy = slot_packet <$> written s ∧
    let fs := packet_frames ips static_frame_buf (slot_packet <$> taken s) in
    en_table (sy_engine sy) = track fs ∧ publishes (requests [] fs) pub (en_pub (sy_engine sy)).
Proof.
  intros Hnew Hb Hp Hpub Hps Hr.
  assert (contents (ring_ buf) = []) as Hc by (by eapply fmap_nil_inv).
  pose proof (inv_initial (ring_ buf) ((λ p, packet_slot p.1 p.2) <$> packets_to_come) (pb_ring _ Hb) Hc) as Hinv.
  set (sy0 := fresh_system buf pub).
  destruct (simulation_run Hnew ips pub _ s sy0 [] sy0 Hr Hinv) as (sched & sy & Hs & Hrun & [Hring Hsy] & Hinv').
  - split; [|done]. cbn. apply Forall_fmap. eapply Forall_impl; [exact Hps|].
    intros [clock f] [? ?]. by exists clock, f.
  - constructor.
  - done.
  - split; [done|]. by apply system_ok_initial.
  - exists sched, sy. destruct Hsy as [Hen Hst Hfb Htab Hreq]. cbv zeta. split_and!; try done.
    + rewrite Hst, (inv_fifo s Hinv'), fmap_app. unfold packets. by rewrite Hring.
    + rewrite <- (app_nil_r (requests _ _)). apply Hreq. by constructor.
Qed.

(** The capture thread stores a packet and the pipeline thread takes it. *)
Definition demo_run : list thread := replicate 6 Producer ++ replicate 6 Consumer.

Lemma threads_refine_schedules_witness :
  let _ : NativeEndian := LittleEndian in let _ := friendly_amqp in
  ∃ s sched sy, rtc step (initial (ring_ demo_empty) [packet_slot 5 demo_packet]) s ∧
    length (taken s) = 1%nat ∧
    run_threads ∅ sched
      (fresh_system demo_empty (initial_world default_config)) = Ret sy ∧
    ring_ (en_buf (sy_engine sy)) = ring s ∧ sy_stored sy = slot_packet <$> written s.
Proof.
  intros ? ?. set (s0 := initial (ring_ demo_empty) [packet_slot 5 demo_packet]).
  destruct (drive demo_run s0) as [s|] eqn:Hd; [|vm_compute in Hd; discriminate].
  assert (length (taken s) = 1%nat) as Ht.
  { assert (length ∘ taken <$> drive demo_run s0 = Some 1%nat) as Hl by (vm_compute; reflexivity).
    rewrite Hd in Hl. by injection Hl. }
  destruct (threads_refine_schedules ∅ demo_empty (initial_world default_config) [(5, demo_packet)] s)
    as (sched & sy & _ & Hrun & Hring & Hst & _).
  - intros h. discriminate.
  - exact demo_empty_ok.
  - reflexivity.
  - split; [reflexivity|discriminate].
  - repeat constructor; simpl; lia.
  - exact (drive_rtc demo_run s0 s Hd).
  - exists s, sched, sy. split; [exact (drive_rtc demo_run s0 s Hd)|].
    split; [exact Ht|]. split; [exact Hrun|]. split; [exact Hring|exact Hst].
Defined.
