(* ===== verification/EndToEnd.v ===== *)
(** * From the socket to the broker

    The capture loop of CaptureSession.v with the whole engine behind the buffer
    it writes to: before each of its writes the pipeline thread has run its loop
    body any number of times, also none at all; only a write to a full buffer
    waits for it.  Such a run is a schedule of Threads.v, so what the kernel
    delivers is what is stored, processed and published. *)

From S2P Require Import Prelude.
From S2P Require Import Bytes.
From S2P Require Import Logger.
From S2P Require Import Effects.
From S2P Require Import RingBuffer.
From S2P Require Import PacketBuffer.
From S2P Require Import FilterStage.
From S2P Require Import FlowTracker.
From S2P Require Import Publisher.
From S2P Require Import CaptureSession.
From S2P Require Import Engine.
From S2P Require Import Threads.
From S2P Require Import Simulation.

Section Rounds.
Context `{NativeEndian} `{Amqp}.

(** The pipeline thread, seen from the capture thread: the iterations it runs
    before a write of the capture thread gets at the buffer.  The scheduler
    chooses them, from the history and the state at the write. *)
Definition pipeline_rounds (ips : gset Z) (rounds : list event → system → list iteration) (h : list event)
    (sy : system) : outcome system := run_threads ips (Process <$> rounds h sy) sy.

(** The iterations are those of a pipeline that has not left its loop, and a write
    to a buffer that is still full ends its wait only for the stop request.  (An
    iteration that takes a packet does the same whatever it loads from the stop
    flag, so the last one before the loop is left is such an iteration as well.) *)
Record rounds_ok `{Kernel} (ips : gset Z) (rounds : list event → system → list iteration) : Prop := {
  ro_running : ∀ h sy, Forall before_stop (Process <$> rounds h sy);
  ro_wait : ∀ h pub0 ps sy sy', system_ok ips pub0 ps sy → pipeline_rounds ips rounds h sy = Ret sy' →
    sk_full sy' = false ∨ stop_wait (write_loads h) = true;
}.

(** ** The capture loop is part of a schedule *)

Section Linked.
Hypothesis new_connection_nonnull : ∀ h, amqp_new_connection h ≠ 0.
Context (ips : gset Z) (pub0 : PubWorld) (sy0 : system).

(** A schedule of the threads leads from [sy0] to this system, and the packets
    [st] were stored in it. *)
Definition scheduled (sy : system) (st : list (Z * list Z)) : Prop :=
  ∃ sched ps, Forall before_stop sched ∧ run_threads ips sched sy0 = Ret sy ∧
    system_ok ips pub0 ps sy ∧ sy_stored sy = st.

Lemma scheduled_app sy st sched' sy' ps' st' :
  scheduled sy st → Forall before_stop sched' → run_threads ips sched' sy = Ret sy' →
  system_ok ips pub0 ps' sy' → sy_stored sy' = st' → scheduled sy' st'.
Proof.
  intros (sched & ps & Hs & Hrun & _ & _) Hs' Hrun' Hsy' Hst'. exists (sched ++ sched'), ps'.
  split_and!; [by apply Forall_app_2| |done|done]. by rewrite run_threads_app, Hrun, bind_Ret.
Qed.

Lemma scheduled_buffer sy st : scheduled sy st → packet_buffer_ok (en_buf (sy_engine sy)).
Proof. intros (sched & ps & _ & _ & Hsy & _). apply Hsy. Qed.

#[global] Instance scheduled_laws : SinkLaws scheduled.
Proof.
  split; intros sy st s clock slot data size Hsch Hmono Hslot Hdata Hsize Hlen Hf;
    pose proof (scheduled_buffer _ _ Hsch) as Hok.
  - eexists. split; [by apply system_write_room|].
    set (f := take (Z.to_nat size) data). set (a := Capture (mkStop false false) clock slot f).
    assert (before_stop a) as Ha by (split_and!; [done..|by apply Forall_take]).
    assert (Z.of_nat (length f) = size) as Hlf by (unfold f; rewrite length_take; lia).
    destruct Hsch as (sched & ps & Hs & Hrun & Hsy & Hst).
    assert (act ips a sy = Ret (system_stored sy clock f)) as Hact by (apply act_capture_room; done || lia).
    destruct (act_capture ips pub0 _ clock slot f ps sy Hsy Ha) as (sy' & Hact' & Hsy').
    fold a in Hact'. rewrite Hact in Hact'. injection Hact' as <-.
    eapply (scheduled_app sy st [a]); [by eexists _, _|by apply Forall_singleton| |done|by rewrite <- Hst].
    cbn [run_threads]. by rewrite Hact.
  - intros Hs. exists sy. split; [|done]. cbn. unfold system_write.
    rewrite PacketBuffer_write_stopped by done. cbn. rewrite app_nil_r. by destruct sy as [[] ?].
Qed.

Lemma rounds_peer `{Kernel} rounds : rounds_ok ips rounds → peer_ok (pipeline_rounds ips rounds) scheduled.
Proof.
  intros [Hrun Hwait] h sy st Hsch.
  pose proof Hsch as (_ & ps & _ & _ & Hsy & Hst).
  destruct (run_threads_spec new_connection_nonnull ips pub0 (Process <$> rounds h sy) ps sy Hsy (Hrun h sy))
    as (sy' & ps' & Hrun' & Hsy').
  exists sy'. split_and!; [done| |by eapply (Hwait h pub0 ps sy)].
  eapply scheduled_app; [exact Hsch|apply Hrun|exact Hrun'|exact Hsy'|].
  by rewrite (run_rounds_stored _ _ _ _ Hrun').
Qed.
End Linked.

(** The capture loop from an empty buffer. *)
Lemma capture_spec `{Kernel} (new_connection_nonnull : ∀ h, amqp_new_connection h ≠ 0)
    N fuel fd ips rounds buf local pub :
  kernel_ok → rounds_ok ips rounds → (∀ h, (N ≤ length h)%nat → stop_flag_load h = true) → (N < fuel)%nat →
  packet_buffer_ok buf → packets buf = [] → length local = 2040%nat → bytes local → publisher_ok pub →
  ∃ w', captureLoop (pipeline_rounds ips rounds) fuel fd (mkWorld (mkCapture (fresh_system buf pub) local) [] [])
      = Ret (tt, w') ∧
    scheduled ips pub (fresh_system buf pub) (packet_buf (obj w')) (stored (history w')) ∧
    nothing_lost (history w') ∧
    closed (history w') = (let fd := (epoll_create1 []).1 in if fd <? 0 then [] else [fd]).
Proof.
  intros Hk Hro Hstops Hfuel Hb Hp Hl Hby Hpub. set (sy0 := fresh_system buf pub).
  assert (scheduled ips pub sy0 sy0 []) as Hsch.
  { exists [], []. split_and!; try done. by apply system_ok_initial. }
  assert (capture_ok (scheduled ips pub sy0) (mkWorld (mkCapture sy0 local) [] [])) as Hok.
  { split; cbn; auto using clock_read_nil. }
  destruct (wp_elim _ _ _ (captureLoop_spec (pipeline_rounds ips rounds) (scheduled ips pub sy0) Hk
    (rounds_peer new_connection_nonnull ips pub sy0 rounds Hro) N Hstops fuel fd _ Hok Hfuel))
    as ([] & w' & Hloop & [Hinv _ _ _] & Hlost & _ & Hcl).
  by exists w'.
Qed.
End Rounds.

(** ** Properties *)

(** C8: from the socket to the broker.  The capture loop runs from an empty
    buffer, and before each of its writes the pipeline thread runs its loop body
    any number of times the scheduler chooses, also none, except that a write to
    a full buffer waits until a packet was taken or the stop request came.  When
    the stop flag is eventually set the loop returns,
    and the whole run is a schedule of the two threads: the packets processed
    followed by those still buffered are the packets stored, which are, in order
    and cut to 2040 bytes, the packets received from the socket, but for at most
    one in hand when the stop request came; the flow table is that of the frames
    in the processed packets, and exactly these frames were published, in order,
    with their flows. *)
Theorem capture_to_publish `{NativeEndian} `{Kernel} `{Amqp} (N fuel : nat) (fd : Z) (ips : gset Z)
    (rounds : list event → system → list iteration) (buf : PacketBuffer) (local : list Z) (pub : PubWorld) :
  (∀ h, amqp_new_connection h ≠ 0) → kernel_ok → rounds_ok ips rounds →
  (∀ h, (N ≤ length h)%nat → stop_flag_load h = true) → (N < fuel)%nat →
  packet_buffer_ok buf → packets buf = [] → length local = 2040%nat → bytes local → publisher_ok pub →
  ∃ w' sched ps,
    captureLoop (pipeline_rounds ips rounds) fuel fd (mkWorld (mkCapture (fresh_system buf pub) local) [] [])
      = Ret (tt, w') ∧
    Forall before_stop sched ∧ run_threads ips sched (fresh_system buf pub) = Ret (packet_buf (obj w')) ∧
    nothing_lost (history w') ∧
    let en := sy_engine (packet_buf (obj w')) in
    let fs := packet_frames ips static_frame_buf ps in
    stored (history w') = ps ++ packets (en_buf en) ∧
    en_table en = track fs ∧ publishes (requests [] fs) pub (en_pub en).
Proof.
  intros Hnew Hk Hro Hstops Hfuel Hb Hp Hl Hby Hpub.
  destruct (capture_spec Hnew N fuel fd ips rounds buf local pub Hk Hro Hstops Hfuel Hb Hp Hl Hby Hpub)
    as (w' & Hloop & (sched & ps & Hs & Hrun & Hsy & Hst) & Hlost & _).
  pose proof (system_published ips pub ps _ Hsy) as Hpubs. destruct Hsy as [_ Hps _ Htab _].
  exists w', sched, ps. cbv zeta. by rewrite <- Hst.
Qed.

(** A kernel that delivers a packet per wake-up, and a pipeline thread that only
    runs when the buffer is full. *)
#[local] Instance pulling_kernel : Kernel := {|
  EINTR := 4; EAGAIN := 11; EWOULDBLOCK := 11;
  strerror _ := "error";
  epoll_create1 _ := (5, 0);
  epoll_ctl_add _ _ _ := (0, 0);
  epoll_wait _ _ := (1, 0);
  recvfrom h _ := match last h with Some (Buffered _ _ _ _) => RecvError 11 | _ => RecvPacket demo_packet end;
  stop_flag_load h := (15 <=? Z.of_nat (length h)) || saw_stop h;
  clock_ms h := 1000 + Z.of_nat (length h);
  stack_bytes _ := replicate 2048 0;
  write_loads _ := mkStop false false;
|}.

Lemma pulling_kernel_ok : kernel_ok.
Proof.
  split.
  - intros h fd p Hp. cbn in Hp. destruct (last h) as [[]|]; simplify_eq; repeat constructor; lia.
  - intros h. apply length_replicate.
  - intros h. discriminate.
  - intros h Hs. cbn. rewrite Hs. apply orb_true_r.
Qed.

Definition when_full (_ : list event) (sy : system) : list iteration :=
  if PacketBuffer_isFull (en_buf (sy_engine sy)) then [demo_iteration false] else [].

(** A round on a full buffer makes room. *)
Lemma when_full_ok `{NativeEndian} `{Amqp} ips :
  (∀ h, amqp_new_connection h ≠ 0) → rounds_ok ips when_full.
Proof.
  intros Hnew. assert (running (demo_iteration false)) as Hit by (by split). split.
  { intros h sy. unfold when_full. destruct (PacketBuffer_isFull _); [|constructor]. apply Forall_singleton. by split. }
  intros h pub0 ps sy sy' Hsy. unfold pipeline_rounds, when_full.
  destruct (PacketBuffer_isFull _) eqn:Hfull; [|by intros [= <-]; left].
  intros (sy1 & Ha & [= <-])%bind_eq_Ret. left.
  pose proof (eo_buf _ (so_engine _ _ _ _ Hsy)) as Hok. cbn in Hok.
  pose proof (ok_capacity _ (pb_ring _ Hok)). pose proof (length_packets _ Hok) as Hn.
  apply Z.eqb_eq in Hfull. destruct (packets (en_buf (sy_engine sy))) as [|p q] eqn:Hq; [cbn in *; lia|].
  apply Z.eqb_neq. fold (ring_ (en_buf (sy_engine sy1))).
  destruct (act_process_packet Hnew ips pub0 (demo_iteration false) ps sy p q Hsy Hit Hq) as (en' & Hi & Hsy').
  unfold act in Ha. rewrite Hi in Ha. injection Ha as <-. cbn [sy_engine] in *.
  pose proof (RingBuffer_read_queue (ring_ (en_buf (sy_engine sy))) (mkStop false false) (replicate 2048 0) 0
    (pb_ring _ Hok) ltac:(done) ltac:(by rewrite length_replicate)) as Hr.
  unfold packets in Hq. destruct (contents (ring_ (en_buf (sy_engine sy)))) as [|f l] eqn:Hc; [done|].
  cbn [queue_read] in Hr. destruct Hr as (rb' & Hr & Hok' & Hc' & Hcap).
  rewrite (pipeline_iteration_ring ips (demo_iteration false) _ _ _ _ Hr Hi). cbn [rr_ring].
  rewrite Hcap, <- (length_contents _ Hok'), Hc'.
  pose proof (length_contents _ (pb_ring _ Hok)) as Hl. rewrite Hc in Hl. cbn [length] in Hl. cbn in Hfull. lia.
Qed.

(** Packets are written one after the other until the buffer is full. *)
Lemma capture_to_publish_witness :
  let _ : NativeEndian := LittleEndian in let _ := friendly_amqp in
  ∃ w' sched ps,
    captureLoop (pipeline_rounds ∅ when_full) 16 3
      (mkWorld (mkCapture (fresh_system demo_empty (initial_world default_config)) (replicate 2040 0)) [] [])
      = Ret (tt, w') ∧
    Forall before_stop sched ∧
    stored (history w') = ps ++ packets (en_buf (sy_engine (packet_buf (obj w')))).
Proof.
  intros ? ?.
  destruct (capture_to_publish 15 16 3 ∅ when_full demo_empty (replicate 2040 0) (initial_world default_config))
    as (w' & sched & ps & Hloop & Hs & _ & _ & Hst & _).
  - intros h. discriminate.
  - exact pulling_kernel_ok.
  - apply when_full_ok. intros h. discriminate.
  - intros h Hh. cbn. rewrite (proj2 (Z.leb_le 15 _)); [reflexivity|lia].
  - lia.
  - exact demo_empty_ok.
  - reflexivity.
  - reflexivity.
  - apply Forall_replicate. lia.
  - split; [reflexivity|discriminate].
  - exists w', sched, ps. split; [exact Hloop|]. split; [exact Hs|exact Hst].
Defined.
