(* ===== verification/Shutdown.v ===== *)
(** * How long a shutdown takes

    After the stop request the capture thread makes a bounded number of calls,
    and waits for packets at most once more; the pipeline thread waits at most
    nine seconds for the broker. *)

From S2P Require Import Prelude.
From S2P Require Import Bytes.
From S2P Require Import Format.
From S2P Require Import Logger.
From S2P Require Import Effects.
From S2P Require Import RingBuffer.
From S2P Require Import PacketBuffer.
From S2P Require Import StatsStage.
From S2P Require Import FlowTracker.
From S2P Require Import IpParser.
From S2P Require Import PublisherJson.
From S2P Require Import Publisher.
From S2P Require Import CaptureSession.

(** ** The publisher *)

Module Broker.
Import Publisher.

(** Milliseconds the calls may take by their arguments: sleeping, and the
    timeout of a poll. *)
Definition wait_ms (c : call) : nat :=
  match c with
  | SleepFor s => Z.to_nat (1000 * s)
  | WaitFrame _ s us _ => Z.to_nat (1000 * s + us / 1000)
  | _ => 0
  end.

Section Waiting.
Context `{NativeEndian} `{Amqp}.

(** The same, with only the polls that ran out of time. *)
Definition idle_ms (c : call) : nat :=
  match c with
  | WaitFrame _ _ _ r => if wait_rc r =? AMQP_STATUS_TIMEOUT then wait_ms c else 0
  | _ => wait_ms c
  end.

Lemma idle_ms_le c : (idle_ms c ≤ wait_ms c)%nat.
Proof. destruct c; simpl; try lia. destruct (_ =? _); lia. Qed.

Section Unconditional.
Context (n : nat).

Lemma disconnect_costs k : costs wait_ms n disconnect k.
Proof. unfold disconnect, set_conn. repeat costs_step. Qed.

(** The sleep after the failed attempt number [a]. *)
Definition retry_ms (a : Z) : nat := if a <? MAX_ATTEMPTS then 2000 else 0.

Lemma give_up_costs a : costs wait_ms n (give_up_attempt a) (retry_ms a).
Proof.
  unfold give_up_attempt, set_conn, retry_ms. repeat costs_step. by apply costs_emit.
Qed.

Lemma connect_attempt_costs a : costs wait_ms n (connect_attempt a) (retry_ms a).
Proof.
  assert (∀ B (m : PubM B), (∀ k, costs wait_ms n m k) →
    costs wait_ms n (bindM (give_up_attempt a) (λ _, m)) (retry_ms a)) as Hgive.
  { intros B m Hm. rewrite <- (Nat.add_0_r (retry_ms a)). apply costs_bind; [apply give_up_costs|auto]. }
  unfold connect_attempt, set_conn.
  repeat first [apply Hgive; intros k; apply costs_ret | costs_step].
Qed.

Lemma connect_loop_costs fuel a : 1 ≤ a → costs wait_ms n (connect_loop fuel a) (2000 * Z.to_nat (3 - a)).
Proof.
  revert a. induction fuel as [|fuel IH]; intros a Ha; cbn [connect_loop]; [apply costs_out_of_fuel|].
  costs_step; [|repeat costs_step]. apply Z.leb_le in Heqb. unfold MAX_ATTEMPTS in Heqb.
  apply (costs_mono _ _ _ (retry_ms a + 2000 * Z.to_nat (3 - (a + 1)))).
  - apply costs_bind; [apply connect_attempt_costs|]. intros []; [apply costs_ret..|]. apply IH. lia.
  - unfold retry_ms, MAX_ATTEMPTS. destruct (Z.ltb_spec a 3); lia.
Qed.

Lemma connect_costs : costs wait_ms n connect 4000.
Proof.
  unfold connect. costs_step; [costs_step|]. costs_step; [costs_step; [apply disconnect_costs|costs_step]|].
  by apply (connect_loop_costs 4 1).
Qed.

(** [k] polls are left. *)
Lemma confirm_loop_costs fuel k : costs wait_ms n (confirm_loop fuel (5000 - 50 * Z.of_nat k)) (50 * k).
Proof.
  revert k. induction fuel as [|fuel IH]; intros k; cbn [confirm_loop]; [apply costs_out_of_fuel|].
  costs_step; [|costs_step]. destruct k as [|k]; [discriminate Heqb|].
  costs_step; [costs_step|]. replace (50 * S k)%nat with (50 + 50 * k)%nat by lia.
  apply costs_bind; [apply costs_ask; intros r; vm_compute; lia|]. intros r.
  replace (5000 - 50 * Z.of_nat (S k) + POLL_INTERVAL_MS) with (5000 - 50 * Z.of_nat k)
    by (unfold POLL_INTERVAL_MS; lia).
  unfold set_connected. repeat first [apply IH | costs_step].
Qed.

Lemma publish_connected_costs f flow r : costs wait_ms n (publish_connected f flow r) 5000.
Proof.
  unfold publish_connected. costs_step; [costs_step|]. costs_step; [costs_step|]. costs_step.
  { unfold set_connected. repeat costs_step. }
  replace 5000%nat with (5000 + 0)%nat by lia. apply costs_bind.
  - apply (confirm_loop_costs 101 100).
  - intros [[]|]; unfold set_connected; repeat costs_step.
Qed.

Lemma publish_costs f flow r : costs wait_ms n (publish f flow r) (4000 + 5000).
Proof.
  unfold publish. costs_step; [costs_step|]. costs_step; [costs_step|].
  costs_step; [|eapply costs_mono; [apply publish_connected_costs|lia]].
  costs_step; [costs_step|].
  apply costs_bind; [apply connect_costs|]. intros b. costs_step; [unfold set_connected; repeat costs_step|].
  costs_step; [repeat costs_step|apply publish_connected_costs].
Qed.
End Unconditional.

(** The stop flag was set by the time [n] calls were made. *)
Section Stopped.
Context (n : nat).
Hypothesis stopped : ∀ h, (n ≤ length h)%nat → stop_flag_load h = true.

(** A poll that runs out of time is the last one. *)
Lemma confirm_loop_idle fuel waited : costs idle_ms n (confirm_loop fuel waited) 50.
Proof.
  revert waited. induction fuel as [|fuel IH]; intros waited; cbn [confirm_loop]; [apply costs_out_of_fuel|].
  costs_step; [|costs_step]. costs_step; [costs_step|].
  apply costs_answer. intros h Hh. set (r := amqp_simple_wait_frame_noblock _ _ _ _).
  change (idle_ms (WaitFrame _ _ _ r)) with (if wait_rc r =? AMQP_STATUS_TIMEOUT then 50%nat else 0%nat).
  destruct (wait_rc r =? AMQP_STATUS_TIMEOUT).
  - exists 0%nat. split; [|lia]. apply costs_answer. intros h' Hh'. rewrite stopped by done.
    exists 0%nat. split; [apply costs_ret|done].
  - exists 50%nat. split; [|lia]. unfold set_connected. repeat first [apply IH | costs_step].
Qed.

Lemma publish_connected_idle f flow r : costs idle_ms n (publish_connected f flow r) 50.
Proof.
  unfold publish_connected. costs_step; [costs_step|]. costs_step; [costs_step|]. costs_step.
  { unfold set_connected. repeat costs_step. }
  apply (costs_bind _ _ _ _ 50 0); [apply confirm_loop_idle|].
  intros [[]|]; unfold set_connected; repeat costs_step.
Qed.

Lemma publish_idle f flow r : costs idle_ms n (publish f flow r) (4000 + 50).
Proof.
  unfold publish. costs_step; [costs_step|]. costs_step; [costs_step|].
  costs_step; [|eapply costs_mono; [apply publish_connected_idle|lia]].
  costs_step; [costs_step|].
  apply costs_bind; [eapply costs_lighter; [apply idle_ms_le|apply connect_costs]|].
  intros b. costs_step; [unfold set_connected; repeat costs_step|].
  costs_step; [repeat costs_step|apply publish_connected_idle].
Qed.
End Stopped.
End Waiting.

(** C18: the broker cannot hold up the pipeline: a call of [publish] returns after at
    most nine seconds of sleeping between connection attempts and of polling,
    whatever the broker answers; when the stop flag is already set, the first
    poll that runs out of time is the last, and at most 4.05 seconds pass idle. *)
Theorem publish_waits_bounded `{NativeEndian} `{Amqp} (f : EnrichedFrame) (flow : FlowRecord) (r : bool)
    (w : PubWorld) :
  (∀ h, amqp_new_connection h ≠ 0) → publisher_ok w →
  ∃ b w' l, publish f flow r w = Ret (b, w') ∧ history w' = history w ++ l ∧
    Z.of_nat (total wait_ms l) ≤ 9000 ∧
    ((∀ h, (length (history w) ≤ length h)%nat → stop_flag_load h = true) →
     Z.of_nat (total idle_ms l) ≤ 4050).
Proof.
  intros Hnew Hok. destruct (wp_elim _ _ _ (publish_spec Hnew f flow r w Hok)) as (b & w' & Hp & _).
  destruct (publish_costs 0 f flow r w b w' ltac:(lia) Hp) as (l & Hl & Ht).
  exists b, w', l. split_and!; [done|done|lia|]. intros Hs.
  destruct (publish_idle (length (history w)) Hs f flow r w b w' ltac:(lia) Hp) as (l' & Hl' & Ht').
  rewrite Hl in Hl'. apply app_inv_head in Hl' as <-. lia.
Qed.

Lemma publish_waits_bounded_witness :
  let _ : NativeEndian := LittleEndian in let _ := friendly_amqp in
  ∃ b w' l, publish (demo_frame "a" 1 6 2 100 40 Inbound) empty_record false (initial_world default_config)
      = Ret (b, w') ∧ history w' = l ∧ Z.of_nat (total wait_ms l) ≤ 9000.
Proof.
  intros E1 E2.
  destruct (publish_waits_bounded (demo_frame "a" 1 6 2 100 40 Inbound) empty_record false
    (initial_world default_config)) as (b & w' & evs & Hp & Hh & Ht & _).
  - intros h. discriminate.
  - split; [reflexivity|discriminate].
  - exists b, w', evs. split; [exact Hp|]. split; [exact Hh|exact Ht].
Defined.
End Broker.

(** ** The capture loop *)

Module Capture.
Import CaptureSession.

(** The calls that wait for packets. *)
Definition is_wait (e : event) : bool := match e with EpollWait _ _ _ _ => true | _ => false end.

Section Prompt.
Context `{Kernel} `{PacketSink B} (other_thread : list event → B → outcome B).

(** Calls, and waits among them. *)
Definition calls (_ : event) : nat := 1.
Definition waits (e : event) : nat := if is_wait e then 1 else 0.

Lemma buffer_write_costs weight n size k :
  (∀ c f s ok, (weight (Buffered c f s ok) ≤ k)%nat) → costs weight n (buffer_write other_thread size) k.
Proof.
  intros Hk w ok w' _ Hr. unfold buffer_write in Hr. apply bind_eq_Ret in Hr as (b & _ & Hr).
  apply bind_eq_Ret in Hr as ([b' pb] & _ & [= <- <-]). eexists [_]. split; [done|].
  unfold total. simpl. rewrite Nat.add_0_r. apply Hk.
Qed.

Lemma recv_into_costs weight n fd k : (∀ r, (weight (RecvFrom fd r) ≤ k)%nat) → costs weight n (recv_into fd : CapM B _) k.
Proof.
  intros Hk. unfold recv_into. rewrite <- (Nat.add_0_r k). apply costs_bind; [by apply costs_ask|].
  intros [|p]; repeat costs_step.
Qed.

(** A batch: a receipt, a write and a load of the stop flag per packet, and no wait. *)
Lemma batch_costs n m fd i keep : costs calls n (batch other_thread m fd i keep) (3 * m).
Proof.
  revert i keep. induction m as [|m IH]; intros i keep; cbn [batch]; [costs_step|].
  replace (3 * S m)%nat with (1 + (1 + (1 + 3 * m)))%nat by lia.
  apply costs_bind; [by apply recv_into_costs|]. intros got.
  cbv zeta. costs_step; [repeat costs_step|]. costs_step; [repeat costs_step|].
  apply costs_bind; [by apply buffer_write_costs|]. intros ok.
  costs_step; [|eapply costs_mono; [apply IH|lia]].
  apply costs_bind; [by apply costs_ask|]. intros stop. repeat first [apply IH | costs_step].
Qed.

Lemma batch_waits n m fd i keep : costs waits n (batch other_thread m fd i keep) 0.
Proof.
  revert i keep. induction m as [|m IH]; intros i keep; cbn [batch]; [costs_step|].
  costs_step; [by apply recv_into_costs|]. cbv zeta. costs_step; [repeat costs_step|]. costs_step; [repeat costs_step|].
  costs_step; [by apply buffer_write_costs|]. repeat first [apply IH | by apply costs_ask | costs_step].
Qed.

(** ** The loops, when the flag is set after [N] calls *)

Context (N : nat).
Hypothesis stops : ∀ h, (N ≤ length h)%nat → stop_flag_load h = true.

(** Waits are made by call number [N] at the latest. *)
Definition waits_early (h : list event) : Prop := ∀ i e, h !! i = Some e → is_wait e = true → (i ≤ N)%nat.

Lemma waits_early_app h l : waits_early h → total waits l = 0%nat → waits_early (h ++ l).
Proof.
  intros Hh Hl i e Hi He. apply lookup_app_Some in Hi as [Hi|[_ Hi]]; [by eapply Hh|].
  exfalso. assert (∀ l : list event, total waits l = 0%nat → ∀ j, l !! j = Some e → False) as Hno; [|by eapply Hno].
  clear -He. induction l as [|e' l IH]; intros Hl j Hj; [done|]. unfold total in *. simpl in Hl.
  destruct j as [|j]; [|eapply IH; [lia|exact Hj]]. injection Hj as ->. unfold waits in Hl. rewrite He in Hl. lia.
Qed.

Lemma waits_early_snoc h e : waits_early h → is_wait e = false ∨ (length h ≤ N)%nat → waits_early (h ++ [e]).
Proof.
  intros Hh He i e' Hi Hw. apply lookup_app_Some in Hi as [Hi|[Hge Hi]]; [by eapply Hh|].
  apply list_lookup_singleton_Some in Hi as [Hi <-]. destruct He as [He|He]; [congruence|lia].
Qed.

Lemma not_stopped h : stop_flag_load h = false → (length h < N)%nat.
Proof. intros Hs. destruct (decide (N ≤ length h)%nat) as [Hge|]; [|lia]. by rewrite stops in Hs. Qed.

Lemma drain_prompt fuel fd keep w c w' :
  drain other_thread fuel fd keep w = Ret (c, w') → waits_early (history w) →
  waits_early (history w') ∧ (length (history w') ≤ max (length (history w) + 1) (N + 193))%nat.
Proof.
  revert keep w. induction fuel as [|fuel IH]; intros keep w Hr Hw; [done|]. cbn [drain] in Hr.
  destruct keep; [|injection Hr as <- <-; split; [done|lia]].
  apply bindM_Ret in Hr as (stop & w1 & [-> ->]%ask_Ret & Hr).
  set (w1 := mkWorld _ _ _) in Hr.
  assert (waits_early (history w1)) as Hw1 by (apply waits_early_snoc; auto).
  assert (length (history w1) = length (history w) + 1)%nat as Hl1 by (cbn; rewrite length_app; done).
  destruct (stop_flag_load (history w)) eqn:Hs; [injection Hr as <- <-; split; [done|lia]|].
  pose proof (not_stopped _ Hs) as Hlt.
  apply bindM_Ret in Hr as (e & w2 & Hb & Hr).
  destruct (batch_costs 0 _ _ _ _ w1 e w2 ltac:(lia) Hb) as (l & Hl & Ht).
  destruct (batch_waits 0 _ _ _ _ w1 e w2 ltac:(lia) Hb) as (l' & Hl' & Ht'). rewrite Hl in Hl'.
  apply app_inv_head in Hl' as <-.
  assert (total calls l = length l) as Hlen.
  { clear. induction l as [|e l IH]; [done|]. unfold total in *. simpl. by rewrite IH. }
  change (3 * Z.to_nat BATCH_DRAIN)%nat with 192%nat in Ht.
  assert (waits_early (history w2) ∧ (length (history w2) ≤ N + 192)%nat) as [Hw2 Hl2].
  { rewrite Hl, length_app. split; [apply waits_early_app; [done|lia]|lia]. }
  destruct e as [keep'|]; [|injection Hr as <- <-; split; [done|lia]].
  destruct (IH _ _ Hr Hw2) as [? ?]. split; [done|lia].
Qed.

Lemma capture_while_prompt fuel epoll_fd fd w w' :
  capture_while other_thread fuel epoll_fd fd w = Ret (tt, w') → waits_early (history w) →
  waits_early (history w') ∧ (length (history w') ≤ max (length (history w) + 1) (N + 194))%nat.
Proof.
  revert w. induction fuel as [|fuel IH]; intros w Hr Hw; [done|]. cbn [capture_while] in Hr.
  apply bindM_Ret in Hr as (stop & w1 & [-> ->]%ask_Ret & Hr).
  destruct (stop_flag_load (history w)) eqn:Hs.
  { injection Hr as <-. cbn [history]. split; [apply waits_early_snoc; auto|]. rewrite length_app. simpl. lia. }
  pose proof (not_stopped _ Hs) as Hlt. apply bindM_Ret in Hr as (got & w2 & [_ ->]%ask_Ret & Hr).
  set (w2 := mkWorld _ _ _) in Hr.
  assert (waits_early (history w2) ∧ (length (history w2) ≤ N + 1)%nat) as [Hw2 Hl2].
  { cbn [w2 history]. rewrite !length_app. simpl. split; [|lia].
    apply waits_early_snoc; [apply waits_early_snoc; auto|]. right. rewrite length_app. simpl. lia. }
  clearbody w2. assert (∀ w3, waits_early (history w3) → (length (history w3) ≤ N + 193)%nat →
    capture_while other_thread fuel epoll_fd fd w3 = Ret (tt, w') →
    waits_early (history w') ∧ (length (history w') ≤ max (length (history w) + 1) (N + 194))%nat) as Hnext.
  { intros w3 Hw3 Hl3 Hr3. destruct (IH w3 Hr3 Hw3). split; [done|lia]. }
  cbv zeta in Hr. destruct (got.1 <? 0).
  { destruct (got.2 =? EINTR); [apply (Hnext w2); [done|lia|done]|].
    injection Hr as <-. cbn [history]. split; [done|lia]. }
  destruct (got.1 =? 0); [apply (Hnext w2); [done|lia|done]|].
  apply bindM_Ret in Hr as (c & w3 & Hd & Hr). destruct (drain_prompt _ _ _ _ _ _ Hd Hw2) as [Hw3 Hl3].
  destruct c; [injection Hr as <-; split; [done|lia]|]. apply (Hnext w3); [done|lia|done].
Qed.

Lemma captureLoop_prompt fuel fd o w' :
  captureLoop other_thread fuel fd (mkWorld o [] []) = Ret (tt, w') →
  waits_early (history w') ∧ (length (history w') ≤ N + 195)%nat.
Proof.
  intros Hr. unfold captureLoop in Hr. apply bindM_Ret in Hr as (created & w1 & [-> ->]%ask_Ret & Hr).
  assert (waits_early ([] ++ [EpollCreate (epoll_create1 []).1 (epoll_create1 []).2])) as Hw1.
  { apply waits_early_snoc; [by intros ? ? Hi|auto]. }
  cbv zeta in Hr. cbn [history] in Hr. destruct (_ <? 0); [injection Hr as <-; split; [exact Hw1|simpl; lia]|].
  apply bindM_Ret in Hr as (added & w2 & [_ ->]%ask_Ret & Hr). cbn [history] in Hr.
  set (h2 := _ ++ [EpollCtlAdd _ _ _ _]) in Hr.
  assert (waits_early h2 ∧ length h2 = 2%nat) as [Hw2 Hl2] by (split; [apply waits_early_snoc; auto|done]).
  clearbody h2. destruct (_ <? 0).
  { apply bindM_Ret in Hr as ([] & w3 & [= <-] & Hr). injection Hr as <-. cbn [history].
    split; [apply waits_early_snoc; auto|rewrite length_app; simpl; lia]. }
  apply bindM_Ret in Hr as ([] & w3 & [= <-] & Hr). apply bindM_Ret in Hr as ([] & w4 & [= <-] & Hr).
  apply bindM_Ret in Hr as ([] & w5 & Hc & Hr). apply capture_while_prompt in Hc as [Hw5 Hl5]; [|done].
  cbn [history] in Hl5.
  apply bindM_Ret in Hr as ([] & w6 & [= <-] & Hr). injection Hr as <-. cbn [history].
  split; [apply waits_early_snoc; auto|rewrite length_app; simpl; lia].
Qed.
End Prompt.

(** C17: the capture thread stops promptly: when the stop flag is set after [N] calls
    the loop returns, having begun to wait for packets at most once more (by
    call number [N]), and after at most 195 more calls, three for each packet of
    a batch of 64 and three on the way out. *)
Theorem capture_stops_promptly `{Kernel} `{PacketSink B} (inv : B → list (Z * list Z) → Prop) `{!SinkLaws inv}
    (other_thread : list event → B → outcome B) (N : nat) (fd : Z) (b : B) (local : list Z) :
  kernel_ok → peer_ok other_thread inv → (∀ h, (N ≤ length h)%nat → stop_flag_load h = true) →
  inv b [] → length local = 2040%nat → bytes local →
  ∃ w', captureLoop other_thread (S N) fd (mkWorld (mkCapture b local) [] []) = Ret (tt, w') ∧
    (length (history w') ≤ N + 195)%nat ∧
    ∀ i epoll_fd timeout n errno, history w' !! i = Some (EpollWait epoll_fd timeout n errno) → (i ≤ N)%nat.
Proof.
  intros Hk Hpeer Hs Hb Hl Hby.
  assert (capture_ok inv (mkWorld (mkCapture b local) [] [])) as Hok by (split; cbn; auto using clock_read_nil).
  destruct (wp_elim _ _ _ (captureLoop_spec other_thread inv Hk Hpeer N Hs (S N) fd _ Hok ltac:(lia)))
    as ([] & w' & Hrun & _).
  destruct (captureLoop_prompt other_thread N Hs _ _ _ _ Hrun) as [Hw Hlen].
  exists w'. split_and!; [done|done|]. intros i e t n er Hi. by eapply Hw.
Qed.

Lemma capture_stops_promptly_witness :
  let _ : NativeEndian := LittleEndian in let _ : Kernel := demo_kernel in
  ∃ w', captureLoop demo_reader 11 3 (mkWorld (mkCapture (mkPacketBuffer demo_ring) (replicate 2040 0)) [] [])
      = Ret (tt, w') ∧
    (length (history w') ≤ 205)%nat ∧ EpollWait 5 EPOLL_TIMEOUT_MS 1 0 ∈ history w'.
Proof.
  intros ??.
  destruct (capture_stops_promptly buffer_inv demo_reader 10 3 (mkPacketBuffer demo_ring) (replicate 2040 0))
    as (w' & Hrun & Hlen & _).
  - exact demo_kernel_ok.
  - intros h pb st _. eexists. split; [reflexivity|]. split; [|left; reflexivity].
    split; [apply demo_packet_buffer_ok|]. exists st. symmetry. apply app_nil_r.
  - intros h Hh. cbn. rewrite (proj2 (Z.leb_le 10 _)); [reflexivity|lia].
  - split; [apply demo_packet_buffer_ok|]. exists []. reflexivity.
  - apply length_replicate.
  - apply Forall_replicate. lia.
  - exists w'. split; [exact Hrun|]. split; [exact Hlen|].
    vm_compute in Hrun. injection Hrun as <-. apply list_elem_of_In. cbn. tauto.
Defined.
End Capture.
