(* ===== verification/Main.v ===== *)
(** * The program (src/main.cpp)

    [main]: it registers the signal handlers and sets the log level, opens the
    socket, builds the packet buffer, the flow table and the publisher, runs the
    two threads and releases everything.  The capture thread is [captureLoop];
    the pipeline thread runs its loop body between the writes of the capture
    thread (the only point where they meet), and the rest of its loop, up to the
    iteration that sees the stop request, after the last of them.  That covers a
    pipeline thread that ends before the capture thread does: the test of the flag
    that ends it changes nothing the capture thread can see, and finds the same
    after the writes that follow.  The log lines of the threads are recorded in
    one of their possible orders. *)

From S2P Require Import Prelude.
From S2P Require Import Bytes.
From S2P Require Import Format.
From S2P Require Import Logger.
From S2P Require Import Effects.
From S2P Require Import RingBuffer.
From S2P Require Import PacketBuffer.
From S2P Require Import FilterStage.
From S2P Require Import DissectorStage.
From S2P Require Import StatsStage.
From S2P Require Import FlowTracker.
From S2P Require Import Publisher.
From S2P Require Import Engine.
From S2P Require Import Threads.
From S2P Require Import CaptureSession.
From S2P Require Import EndToEnd.
From S2P Require Import RawSocket.

(** ** The process *)

(** What a signal does, and the numbers of the signals on Linux. *)
Inductive disposition : Type := SIG_DFL | SIG_IGN | RunSignalHandler.
Definition SIGINT : Z := 2.
Definition SIGPIPE : Z := 13.
Definition SIGTERM : Z := 15.

Record process : Type := mkProcess { handlers : gmap Z disposition; logger : Logger }.

(** [std::signal] *)
Definition signal (sig : Z) (d : disposition) (p : process) : process :=
  mkProcess (<[sig := d]> (handlers p)) (logger p).

(** The first lines of [main]. *)
Definition main_setup (p : process) : process :=
  let p := signal SIGINT RunSignalHandler p in
  let p := signal SIGTERM RunSignalHandler p in
  let p := signal SIGPIPE SIG_IGN p in
  mkProcess (handlers p) (setLevel (logger p) INFO).

(** ** The main function *)

Section Main.
Context `{NativeEndian} `{Amqp} `{NetKernel} `{Kernel}.

Definition main_says (l : list logcall) (w : SockWorld) : SockWorld :=
  mkWorld (obj w) (history w) (log w ++ l).

(** What is logged while the threads are started. *)
Definition thread_lines (fd : Z) : list logcall :=
  [log_info "Spawning Thread 1 — capture";
   log_info ("Thread 1 started — capturing on socket fd " +:+ to_string fd);
   log_info "Spawning Thread 2 — pipeline";
   log_info "Thread 2 started — pipeline stub running";
   log_info "Engine running — press Ctrl+C to stop";
   log_info "Thread 2: pipeline loop started"].

(** The exit code, the process, the sockets, the publisher if it was constructed,
    and the capture thread if it was started.  An uncaught exception is [Throw].
    [ips_fuel] bounds the loop of [getLocalIps] and [loop_fuel] the capture loop;
    [frame_local] is what its array holds at first; [rounds] and [rest] are what
    the iterations of the pipeline thread meet before each write of the capture
    thread, and after its end in the state it leaves. *)
Definition main (getenv : string → option string) (alloc : Z → bool) (ips_fuel loop_fuel : nat)
    (frame_local : list Z) (rounds : list event → system → list iteration) (rest : system → list iteration)
    (p0 : process) (w0 : SockWorld)
    : outcome (Z * process * SockWorld * option PubWorld * option (CapWorld system)) :=
  let p := main_setup p0 in
  '(fd, w) ← openRawSocket getenv (main_says [log_info "Engine starting"] w0);
  if fd <? 0 then
    Ret (1, p, main_says [log_error "Failed to open raw socket — exiting"] w, None, None)
  else
  '(packet_buf, l) ← make_packet_buffer getenv alloc;
  let w := main_says l w in
  let flow_table := empty_table in
  pub_cfg ← publisherConfigFromEnv getenv;
  '(_, publisher) ← construct (initial_world pub_cfg);
  if negb (isConnected (obj publisher)) then
    let w := main_says [log_error "Failed to connect to RabbitMQ — exiting"] w in
    '(_, w) ← closeRawSocket fd w;
    '(_, publisher) ← destruct_publisher publisher;
    Ret (1, p, w, Some publisher, None)
  else
  let w := main_says (thread_lines fd) w in
  '(local_ips, w) ← getLocalIps alloc ips_fuel w;
  let engine := mkSystem (mkEngine packet_buf static_frame_buf flow_table publisher) [] in
  '(_, t1) ← captureLoop (pipeline_rounds local_ips rounds) loop_fuel fd
    (mkWorld (mkCapture engine frame_local) [] []);
  let engine := CaptureSession.packet_buf (obj t1) in
  t2 ← pipeline_loop local_ips (rest engine) (sy_engine engine);
  let w := main_says (log t1 ++ [log_info "Thread 2: pipeline loop stopped"]) w in
  '(_, w) ← closeRawSocket fd w;
  let w := main_says [log_info "Engine stopped cleanly"] w in
  '(_, publisher) ← destruct_publisher (en_pub t2);
  Ret (0, p, w, Some publisher, Some t1).

(** *** Start-up *)

(** A configuration the program can start with. *)
Record startable (getenv : string → option string) (alloc : Z → bool) (cap : Z) : Prop := {
  st_capacity : ring_capacity getenv = Ret cap;
  st_range : 0 < cap ≤ 65536;
  st_slots : alloc (cap * SLOT_SIZE) = true;
  st_sizes : alloc (cap * 8) = true;
}.

Lemma make_packet_buffer_ok getenv alloc cap :
  startable getenv alloc cap →
  ∃ buf l, make_packet_buffer getenv alloc = Ret (buf, l) ∧ packet_buffer_ok buf ∧ packets buf = [].
Proof.
  intros [Hcap Hr Ha1 Ha2]. unfold make_packet_buffer, PacketBuffer_make. rewrite Hcap, bind_Ret.
  destruct (RingBuffer_make_spec alloc cap ltac:(lia)) as (Hspec & Hmake & _).
  destruct (Hmake Hr Ha1 Ha2) as [rb Hrb]. destruct (Hspec rb Hrb) as (Hok & Hc & _).
  rewrite Hrb. eexists _, _. split; [done|]. unfold packets. cbn. rewrite Hc. split; [|done].
  split; [done|]. cbn. by rewrite Hc.
Qed.

(** Other capacities end in an exception. *)
Lemma make_packet_buffer_throws getenv alloc :
  (∀ cap, ring_capacity getenv = Ret cap → cap = 0 ∨ 65536 < cap) →
  ∃ e, make_packet_buffer getenv alloc = Throw e.
Proof.
  intros Hbad. unfold make_packet_buffer, PacketBuffer_make.
  pose proof (ring_capacity_outcome getenv) as Ho.
  destruct (ring_capacity getenv) as [cap|e| | |]; try done; [|by eexists].
  destruct (RingBuffer_make_throws alloc cap (Hbad cap eq_refl)) as [e He].
  rewrite bind_Ret, He. by exists e.
Qed.

(** The constructor leaves a publisher that can be used or destroyed. *)
Lemma construct_ok cfg :
  (∀ h, amqp_new_connection h ≠ 0) →
  ∃ pub, construct (initial_world cfg) = Ret (tt, pub) ∧ publisher_ok pub.
Proof.
  intros Hnew. apply (wp_elim_unit construct). eapply wp_mono; [by apply construct_spec|]. by intros _ w [].
Qed.

Lemma destruct_ok pub :
  publisher_ok pub → ∃ pub', destruct_publisher pub = Ret (tt, pub') ∧ run (history pub') = Some None.
Proof.
  intros Hok. apply (wp_elim_unit destruct_publisher). eapply wp_mono; [by apply disconnect_spec, Hok|].
  by intros [] w (_ & ? & _).
Qed.

(** After the end of the capture thread the pipeline thread sees the stop request
    sooner or later. *)
Definition sees_stop (rest : system → list iteration) : Prop :=
  ∀ sy, Forall sound (rest sy) ∧ consumed (rest sy) (packets (en_buf (sy_engine sy))) ≠ None.

Section Exit.
Hypothesis new_connection_nonnull : ∀ h, amqp_new_connection h ≠ 0.
Hypothesis fresh : fresh_descriptors.
(** The interfaces, as in RawSocket.v. *)
Context (ifs : list string) (address : string → addr_result) (k : nat).
Hypothesis conf_answer : conf_lists ifs.
Hypothesis addr_answer : ∀ h fd name, ioctl_get_addr h fd name = address name.
Hypothesis few_interfaces : (length ifs < 16 * 2 ^ k)%nat.

Lemma closeRawSocket_ok fd w X :
  open_fds (history w) = Some ({[ fd ]} ∪ X) → fd ∉ X → 0 ≤ fd →
  ∃ w', closeRawSocket fd w = Ret (tt, w') ∧ open_fds (history w') = Some X.
Proof. intros. by apply (wp_elim_unit (closeRawSocket fd)), closeRawSocket_spec. Qed.

Hypothesis Hk : kernel_ok.
Context (N : nat) (rounds : list event → system → list iteration) (rest : system → list iteration).
Hypothesis stops : ∀ h, (N ≤ length h)%nat → stop_flag_load h = true.
Hypothesis Hrounds : ∀ ips, rounds_ok ips rounds.
Hypothesis Hrest : sees_stop rest.

(** What the threads have done, from the publisher [pub] on, with [t1] the capture
    thread at its end: of the packets stored, [ps] were processed while it ran and
    [n] of those it left in the buffer afterwards, up to the stop request. *)
Record engine_ran (pub pub' : PubWorld) (t1 : CapWorld system) : Prop := {
  er_closed : closed (history t1) = (let fd := (epoll_create1 []).1 in if fd <? 0 then [] else [fd]);
  er_lost : nothing_lost (history t1);
  er_published : let sy := CaptureSession.packet_buf (obj t1) in
    let left := packets (en_buf (sy_engine sy)) in
    ∃ ips ps n, (ips = ∅ ∨ ips = list_to_set (omap (local_addr address) ifs)) ∧
      stored (history t1) = ps ++ left ∧ consumed (rest sy) left = Some n ∧
      publishes (requests [] (packet_frames ips static_frame_buf (ps ++ take n left))) pub pub';
}.

(** The two threads. *)
Lemma threads_ok fd ips buf local pub loop_fuel :
  packet_buffer_ok buf → packets buf = [] → publisher_ok pub → length local = 2040%nat → bytes local →
  (N < loop_fuel)%nat → ips = ∅ ∨ ips = list_to_set (omap (local_addr address) ifs) →
  ∃ t1 t2, captureLoop (pipeline_rounds ips rounds) loop_fuel fd
      (mkWorld (mkCapture (fresh_system buf pub) local) [] []) = Ret (tt, t1) ∧
    (let sy := CaptureSession.packet_buf (obj t1) in
     pipeline_loop ips (rest sy) (sy_engine sy) = Ret t2) ∧
    publisher_ok (en_pub t2) ∧ engine_ran pub (en_pub t2) t1.
Proof.
  intros Hb Hp Hpub Hl Hby Hfuel Hips.
  destruct (capture_spec new_connection_nonnull N loop_fuel fd ips rounds buf local pub Hk (Hrounds ips)
    stops Hfuel Hb Hp Hl Hby Hpub) as (t1 & Hloop & (sched & ps & _ & _ & Hsy & Hst) & Hlost & Hcl).
  destruct (Hrest (CaptureSession.packet_buf (obj t1))) as [Hsound Hseen].
  destruct (consumed _ _) as [n|] eqn:Hn; [|done].
  destruct (pipeline_exit new_connection_nonnull ips pub _ ps _ n Hsy Hsound Hn) as (t2 & Hrun & Hsy2).
  exists t1, t2. split_and!; try done; [apply (eo_pub _ (so_engine _ _ _ _ Hsy2))|]. split; [done..|].
  exists ips, ps, n. split_and!; [done| |done|exact (system_published _ _ _ _ Hsy2)].
  rewrite <- Hst. apply Hsy.
Qed.

(** The program, from the first log line on. *)
Lemma main_exit getenv alloc cap cfg loop_fuel local pr w X :
  startable getenv alloc cap → conf_buffers alloc k → publisherConfigFromEnv getenv = Ret cfg →
  open_fds (history w) = Some X → length local = 2040%nat → bytes local → (N < loop_fuel)%nat →
  ∃ fd w1 pub code w' p t1,
    openRawSocket getenv (main_says [log_info "Engine starting"] w) = Ret (fd, w1) ∧
    construct (initial_world cfg) = Ret (tt, pub) ∧
    main getenv alloc (S k) loop_fuel local rounds rest pr w = Ret (code, main_setup pr, w', p, t1) ∧
    code = (if (0 <=? fd) && isConnected (obj pub) then 0 else 1) ∧
    open_fds (history w') = Some X ∧ from_option (λ p, run (history p) = Some None) True p ∧
    (code = 0 → ∃ t pub' p', t1 = Some t ∧ p = Some p' ∧ engine_ran pub pub' t ∧
      destruct_publisher pub' = Ret (tt, p')).
Proof.
  intros Hst Hcb Hcfg HX Hl Hby Hfuel. unfold main.
  destruct (wp_elim _ _ _ (openRawSocket_spec getenv (main_says [log_info "Engine starting"] w) X fresh HX))
    as (fd & w1 & Hopen & Hfd).
  destruct (construct_ok cfg new_connection_nonnull) as (pub & Hpub & Hpok).
  destruct (make_packet_buffer_ok getenv alloc cap Hst) as (buf & l & Hbuf & Hbok & Hb0).
  rewrite Hopen, bind_Ret. exists fd, w1, pub. rewrite Z.leb_antisym.
  destruct (Z.ltb_spec fd 0) as [Hneg|Hge].
  { destruct Hfd as [_ Hfds]. eexists _, _, _, _. by split_and!. }
  destruct Hfd as (Hfds & Hnew & _). rewrite Hbuf, bind_Ret, Hcfg, bind_Ret, Hpub, bind_Ret. cbv zeta.
  destruct (isConnected (obj pub)) eqn:Hcon; cbn [negb andb].
  - destruct (wp_elim _ _ _ (getLocalIps_spec ifs address conf_answer addr_answer alloc k
      (main_says (thread_lines fd) (main_says l w1)) _ fresh Hfds Hcb few_interfaces))
      as (ips & w2 & Hips & failed & Hfds2 & _ & Hset).
    rewrite Hips, bind_Ret.
    destruct (threads_ok fd ips buf local pub loop_fuel) as (t1 & t2 & Hloop & Hrun & Hok2 & Hran); try done.
    { rewrite Hset. destruct (_ || _); auto. }
    unfold fresh_system in Hloop. rewrite Hloop, bind_Ret, Hrun, bind_Ret.
    destruct (closeRawSocket_ok fd (main_says (log t1 ++ [log_info "Thread 2: pipeline loop stopped"]) w2) X)
      as (w3 & Hclose & Hfds3); [done..|].
    rewrite Hclose, bind_Ret. destruct (destruct_ok _ Hok2) as (pub' & Hd & Hrel).
    rewrite Hd, bind_Ret. eexists _, _, _, _. split_and!; try done. intros _. by eexists _, _, _.
  - destruct (closeRawSocket_ok fd (main_says [log_error "Failed to connect to RabbitMQ — exiting"]
      (main_says l w1)) X) as (w3 & Hclose & Hfds3); [done..|].
    rewrite Hclose, bind_Ret. destruct (destruct_ok pub Hpok) as (pub' & Hd & Hrel).
    rewrite Hd, bind_Ret. eexists _, _, _, _. by split_and!.
Qed.
End Exit.
End Main.

(** ** Properties *)

(** C9: the whole program.  Given a usable ring capacity and configuration, memory
    for the interface list, connection objects that can be allocated, descriptors
    that are new when they are opened, a stop flag that is set eventually, and
    threads that see it (each wait of a write ends, and the pipeline thread finds
    the request: no wake-up is lost at the shutdown), [main] returns,
    with code 0 exactly when the socket
    could be opened and the broker reached and code 1 otherwise; every descriptor
    it opened is closed, and every broker connection it made is released, on each
    of these paths, whatever else the kernel and the broker answered and however
    often the scheduler let the pipeline thread run before each write.  It
    runs with the handler on SIGINT and SIGTERM, with SIGPIPE ignored and with
    every log level shown.  When the threads ran, every packet received from the
    socket was stored but at most the last, and exactly the frames carried by the
    packets stored, up to the one at which the pipeline thread saw the stop
    request, were published, in order and with their flows, before the publisher
    was destroyed. *)
Theorem main_correct `{NativeEndian} `{Amqp} `{NetKernel} `{Kernel} (ifs : list string)
    (address : string → addr_result) (k N loop_fuel : nat) getenv alloc cap cfg
    (local : list Z) (rounds : list event → system → list iteration) (rest : system → list iteration)
    (pr : process) (w : SockWorld) X :
  (∀ h, amqp_new_connection h ≠ 0) → fresh_descriptors →
  conf_lists ifs → (∀ h fd name, ioctl_get_addr h fd name = address name) →
  conf_buffers alloc k → (length ifs < 16 * 2 ^ k)%nat →
  kernel_ok → (∀ h, (N ≤ length h)%nat → stop_flag_load h = true) → (N < loop_fuel)%nat →
  (∀ ips, rounds_ok ips rounds) → sees_stop rest →
  startable getenv alloc cap → publisherConfigFromEnv getenv = Ret cfg →
  open_fds (history w) = Some X → length local = 2040%nat → bytes local →
  ∃ fd w1 pub code pr' w' p t1,
    openRawSocket getenv (main_says [log_info "Engine starting"] w) = Ret (fd, w1) ∧
    construct (initial_world cfg) = Ret (tt, pub) ∧
    main getenv alloc (S k) loop_fuel local rounds rest pr w = Ret (code, pr', w', p, t1) ∧
    handlers pr' !! SIGINT = Some RunSignalHandler ∧ handlers pr' !! SIGTERM = Some RunSignalHandler ∧
    handlers pr' !! SIGPIPE = Some SIG_IGN ∧ level_ (logger pr') = INFO ∧
    code = (if (0 <=? fd) && isConnected (obj pub) then 0 else 1) ∧
    open_fds (history w') = Some X ∧ from_option (λ p, run (history p) = Some None) True p ∧
    (code = 0 → ∃ t pub' p', t1 = Some t ∧ p = Some p' ∧ engine_ran ifs address rest pub pub' t ∧
      destruct_publisher pub' = Ret (tt, p')).
Proof.
  intros Hnew Hfr Hc Ha Hcb Hif Hk Hstops Hfuel Hro Hrest Hst Hcfg HX Hl Hby.
  destruct (main_exit Hnew Hfr ifs address k Hc Ha Hif Hk N rounds rest Hstops Hro Hrest
    getenv alloc cap cfg loop_fuel local pr w X Hst Hcb Hcfg HX Hl Hby Hfuel)
    as (fd & w1 & pub & code & w' & p & t1 & Ho & Hp & Hm & Hcode & Hfds & Hrel & Hran).
  exists fd, w1, pub, code, (main_setup pr), w', p, t1. split_and!; try done; cbn.
  - rewrite !lookup_insert_ne by done. by rewrite lookup_insert_eq.
  - rewrite lookup_insert_ne by done. by rewrite lookup_insert_eq.
  - by rewrite lookup_insert_eq.
Qed.

(** C32: the environment configures the program: with the decimal text of a port
    and of a ring capacity in their variables these are the numbers used (a
    negative port included), without them 5672 and 1024; the other settings are
    taken over as they are or keep their defaults, and no value of theirs makes
    reading the configuration fail. *)
Theorem environment_configures (getenv : string → option string) (p cap : Z) :
  - 2 ^ 31 ≤ p < 2 ^ 31 → is_u64 cap →
  getenv "RABBITMQ_PORT" ∈ [Some (int_to_string p); None] →
  getenv "RING_BUFFER_CAPACITY" ∈ [Some (to_string cap); None] →
  ring_capacity getenv = Ret (if getenv "RING_BUFFER_CAPACITY" then cap else 1024) ∧
  publisherConfigFromEnv getenv = Ret {|
    host := default "localhost" (getenv "RABBITMQ_HOST");
    port := if getenv "RABBITMQ_PORT" then p else 5672;
    username := default "guest" (getenv "RABBITMQ_USER");
    password := default "guest" (getenv "RABBITMQ_PASS");
    exchange := default "raw_packets" (getenv "RABBITMQ_EXCHANGE");
    routing_key := default "packet.raw" (getenv "RABBITMQ_ROUTING_KEY");
    channel := 1 |}.
Proof.
  intros Hp Hc Hpe Hce. rewrite !elem_of_cons, elem_of_nil in Hpe, Hce.
  unfold ring_capacity, publisherConfigFromEnv. split.
  - destruct Hce as [->|[->|[]]]; [by apply stoul_number|done].
  - destruct Hpe as [->|[->|[]]]; [by rewrite atoi_int|done].
Qed.

(** C37: an unusable RING_BUFFER_CAPACITY (no number, 0, or above 65536) is only
    noticed after the socket was opened: [main] then ends by an exception that
    nothing catches, with the interface still in promiscuous mode. *)
Theorem bad_capacity_after_promiscuous `{NativeEndian} `{Amqp} `{NetKernel} `{Kernel}
    getenv alloc ips_fuel loop_fuel local rounds rest (pr : process) (w w1 : SockWorld) X fd :
  fresh_descriptors → open_fds (history w) = Some X →
  (∀ cap, ring_capacity getenv = Ret cap → cap = 0 ∨ 65536 < cap) →
  openRawSocket getenv (main_says [log_info "Engine starting"] w) = Ret (fd, w1) → 0 ≤ fd →
  (∃ e, main getenv alloc ips_fuel loop_fuel local rounds rest pr w = Throw e) ∧
  ∃ flags, flags_set (history w1) = Some flags ∧ Z.testbit flags 8 = true.
Proof.
  intros Hfr HX Hbad Hopen Hfd.
  destruct (wp_elim _ _ _ (openRawSocket_spec getenv (main_says [log_info "Engine starting"] w) X Hfr HX))
    as (fd' & w1' & Hopen' & Hspec).
  rewrite Hopen in Hopen'. injection Hopen' as <- <-.
  rewrite (proj2 (Z.ltb_ge fd 0) Hfd) in Hspec. destruct Hspec as (_ & _ & Hflags). split.
  - unfold main. rewrite Hopen, bind_Ret, (proj2 (Z.ltb_ge fd 0) Hfd).
    destruct (make_packet_buffer_throws getenv alloc Hbad) as [e He]. rewrite He. by exists e.
  - eexists. split; [exact Hflags|]. unfold promiscuous. by rewrite Z.lor_spec, orb_true_r.
Qed.

(** ** Witnesses *)

(** An environment that sets nothing, and one with a capacity that is too large. *)
Definition demo_env (cap : option string) : string → option string :=
  λ v, if String.eqb v "RING_BUFFER_CAPACITY" then cap else None.

Definition demo_process : process := mkProcess ∅ Logger_instance.

(** The pipeline thread drains the buffer, and then sees the stop request. *)
Definition demo_rest `{NativeEndian} (sy : system) : list iteration :=
  replicate (length (packets (en_buf (sy_engine sy)))) (demo_iteration false) ++ [demo_iteration true].

Lemma demo_rest_stops `{NativeEndian} : sees_stop demo_rest.
Proof.
  intros sy. assert (∀ head, sound (demo_iteration head)) as Hs by done. split.
  - apply Forall_app. split; [apply Forall_replicate, Hs|by repeat constructor].
  - unfold demo_rest. induction (packets _) as [|p ps IH]; [done|].
    cbn. by destruct (consumed _ ps).
Qed.

Lemma main_correct_witness :
  let _ : NativeEndian := LittleEndian in let _ := friendly_amqp in let _ := demo_net in
  let _ := pulling_kernel in
  ∃ pr' w' p t1, main (demo_env (Some "2")) (λ _, true) 1 16 (replicate 2040 0) when_full demo_rest
      demo_process sock_start = Ret (0, pr', w', p, Some t1) ∧
    open_fds (history w') = Some ∅ ∧ nothing_lost (history t1).
Proof.
  intros ? ? ? ?.
  destruct (main_correct ["lo"; "eth0"] (λ name, if String.eqb name "lo" then Addr 2 16777343 else AddrError 99)
    0 15 16 (demo_env (Some "2")) (λ _, true) 2 default_config (replicate 2040 0) when_full demo_rest
    demo_process sock_start ∅)
    as (fd & w1 & pub & code & pr' & w' & po & t1 & Hopen & Hpub & Hmain & _ & _ & _ & _ & Hcode & Hfds & _ & Hran).
  - intros h. discriminate.
  - exact demo_net_fresh.
  - intros h fd size Hs. right. reflexivity.
  - reflexivity.
  - split; [lia|reflexivity].
  - simpl. lia.
  - exact pulling_kernel_ok.
  - intros h Hh. cbn. rewrite (proj2 (Z.leb_le 15 _)); [reflexivity|lia].
  - lia.
  - intros ips. apply when_full_ok. intros h. discriminate.
  - exact demo_rest_stops.
  - split; [reflexivity|lia|reflexivity|reflexivity].
  - reflexivity.
  - reflexivity.
  - reflexivity.
  - apply Forall_replicate. lia.
  - vm_compute in Hopen. injection Hopen as <- _. vm_compute in Hpub. injection Hpub as <-.
    cbn in Hcode. subst code. destruct (Hran eq_refl) as (t & pub' & p' & -> & _ & [_ Hlost _] & _).
    exists pr', w', po, t. split; [exact Hmain|]. split; [exact Hfds|exact Hlost].
Defined.

Lemma bad_capacity_after_promiscuous_witness :
  let _ : NativeEndian := LittleEndian in let _ := friendly_amqp in let _ := demo_net in
  let _ := pulling_kernel in
  ∃ e, main (demo_env (Some "100000")) (λ _, true) 1 16 [] when_full demo_rest demo_process sock_start = Throw e.
Proof.
  intros ? ? ? ?.
  destruct (openRawSocket (demo_env (Some "100000")) (main_says [log_info "Engine starting"] sock_start))
    as [[fd w1]| | | |] eqn:Hopen; try (vm_compute in Hopen; discriminate).
  apply (bad_capacity_after_promiscuous (demo_env (Some "100000")) (λ _, true) 1 16 [] when_full demo_rest
    demo_process sock_start w1 ∅ fd).
  - exact demo_net_fresh.
  - reflexivity.
  - intros cap Hcap. vm_compute in Hcap. injection Hcap as <-. right. reflexivity.
  - exact Hopen.
  - vm_compute in Hopen. injection Hopen as <- _. discriminate.
Defined.

Lemma environment_configures_witness :
  ring_capacity (demo_env (Some "512")) = Ret 512.
Proof.
  apply (environment_configures (demo_env (Some "512")) (-1) 512).
  - lia.
  - lia.
  - right. left.
  - left.
Defined.
