(* ===== verification/Tests.v ===== *)
(** * The unit tests of the repository, on the model

    Each test program under tests/ is a module: its fixtures, and for every TEST
    its name with the conjunction of its expectations as a boolean of the model.
    The expectations are those of the authors, so that a definition that departs
    from the code where a test looks is noticed here. *)

From S2P Require Import Prelude.
From S2P Require Import Bytes.
From S2P Require Import Checksum.
From S2P Require Import RingBuffer.
From S2P Require Import PacketBuffer.
From S2P Require Import EthernetParser.
From S2P Require Import IpParser.
From S2P Require Import TcpParser.
From S2P Require Import UdpParser.
From S2P Require Import IcmpParser.
From S2P Require Import ArpParser.
From S2P Require Import FilterStage.
From S2P Require Import DissectorStage.
From S2P Require Import StatsStage.
From S2P Require Import FlowTracker.
From S2P Require Import Effects.
From S2P Require Import CaptureSession.
From S2P Require Import Concurrency.

(** ** Expectations *)

(** A call that returns a value with the property. *)
Definition expect {A} (o : outcome A) (p : A → bool) : bool :=
  match o with Ret a => p a | _ => false end.
(** [has_value()], and the property of the value. *)
Definition has_value {A} (o : outcome (option A)) (p : A → bool) : bool :=
  expect o (λ r, match r with Some a => p a | None => false end).
Definition rejected {A} (o : outcome (option A)) : bool :=
  expect o (λ r, match r with Some _ => false | None => true end).
(** [p[i] == b], and the same of an array. *)
Definition byte_is (m : list Z) (p : ptr) (i b : Z) : bool := expect (load m p i) (Z.eqb b).
Definition mac_is (mac : list Z) (i b : Z) : bool := byte_is mac (Ptr 0) i b.

(** The names of the tests that do not hold. *)
Definition failures (tests : list (string * bool)) : list string :=
  (filter (λ t, t.2 = false) tests).*1.

(** ** Parsers and pipeline *)

(** *** tests/test_checksum.cpp *)
Module ChecksumTest.
Definition kGoodHeader : list Z := [0x45; 0x00; 0x00; 0x34; 0x00; 0x00; 0x00; 0x00; 0x40; 0x06; 0xAF; 0x1A;
  0xC0; 0xA8; 0x01; 0x01; 0x0A; 0x00; 0x00; 0x01].
Definition kZeroedChecksumHeader : list Z := [0x45; 0x00; 0x00; 0x34; 0x00; 0x00; 0x00; 0x00; 0x40; 0x06; 0x00;
  0x00; 0xC0; 0xA8; 0x01; 0x01; 0x0A; 0x00; 0x00; 0x01].
Definition kBadHeader : list Z := [0x45; 0x00; 0x00; 0x34; 0x00; 0x00; 0x00; 0x00; 0x40; 0x06; 0xDE; 0xAD; 0xC0;
  0xA8; 0x01; 0x01; 0x0A; 0x00; 0x00; 0x01].

Definition checksum_tests : list (string * bool) := [
  ("AllZeroesIsZero",
   expect (internetChecksum [0; 0; 0; 0] (Ptr 0) 4) (λ cs, cs =? 0xFFFF));
  ("KnownGoodHeaderChecksumFieldIsCorrect",
   expect (internetChecksum kGoodHeader (Ptr 0) 20) (λ cs, cs =? 0x0000));
  ("ComputedChecksumMatchesKnownValue",
   expect (internetChecksum kZeroedChecksumHeader (Ptr 0) 20) (λ cs, cs =? 0xAF1A));
  ("BadChecksumIsNonZero",
   expect (internetChecksum kBadHeader (Ptr 0) 20) (λ cs, negb (cs =? 0x0000)));
  ("OddLengthBuffer",
   expect (internetChecksum [0x00; 0x01; 0x02] (Ptr 0) 3) (λ cs, cs =? 0xFDFE));
  ("SingleByteBuffer",
   expect (internetChecksum [0xFF] (Ptr 0) 1) (λ cs, cs =? 0x00FF));
  ("TwoByteKnownValue",
   expect (internetChecksum [0x45; 0x00] (Ptr 0) 2) (λ cs, cs =? 0xBAFF));
  ("CarryFoldingWorksCorrectly",
   expect (internetChecksum [0xFF; 0xFF; 0xFF; 0xFF] (Ptr 0) 4) (λ cs, cs =? 0x0000));
  ("GoodHeaderReturnsTrue",
   expect (verifyIpChecksum kGoodHeader (Ptr 0) 20) id);
  ("BadChecksumReturnsFalse",
   expect (verifyIpChecksum kBadHeader (Ptr 0) 20) negb);
  ("ZeroedChecksumReturnsFalse",
   expect (verifyIpChecksum kZeroedChecksumHeader (Ptr 0) 20) negb)
].

Example test_checksum_pass : failures checksum_tests = [].
Proof. vm_compute. reflexivity. Qed.
End ChecksumTest.

(** *** tests/test_ethernet_parser.cpp *)
Module EthernetParserTest.
Definition IPV4_FRAME : list Z := [0xaa; 0xbb; 0xcc; 0xdd; 0xee; 0xff; 0x11; 0x22; 0x33; 0x44; 0x55; 0x66; 0x08;
  0x00; 0x45; 0x00; 0x00; 0x3c; 0x1c; 0x46; 0x40; 0x00; 0x40; 0x06; 0xb8; 0xfa; 0xc0; 0xa8; 0x01; 0x65; 0x08;
  0x08; 0x08; 0x08].
Definition ARP_FRAME : list Z := [0xff; 0xff; 0xff; 0xff; 0xff; 0xff; 0xde; 0xad; 0xbe; 0xef; 0x00; 0x01; 0x08;
  0x06; 0x00; 0x01; 0x08; 0x00; 0x06; 0x04; 0x00; 0x01; 0xde; 0xad; 0xbe; 0xef; 0x00; 0x01; 0xc0; 0xa8; 0x01;
  0x01; 0x00; 0x00; 0x00; 0x00; 0x00; 0x00; 0xc0; 0xa8; 0x01; 0x65].
Definition MIN_FRAME : list Z := [0x00; 0x00; 0x00; 0x00; 0x00; 0x01; 0x00; 0x00; 0x00; 0x00; 0x00; 0x02; 0x08;
  0x00; 0x45].
Definition TOO_SHORT_FRAME : list Z := [0xaa; 0xbb; 0xcc; 0xdd; 0xee; 0xff; 0x11; 0x22; 0x33; 0x44; 0x55; 0x66;
  0x08].

Definition ethernet_parser_tests : list (string * bool) := [
  ("IPv4EtherTypeCorrect",
   expect (ethernet_parse IPV4_FRAME (Ptr 0) 34) (λ eth, eth_valid eth && (eth_ethertype eth =?
     ETHERTYPE_IPV4)));
  ("IPv4SrcMACCorrect",
   expect (ethernet_parse IPV4_FRAME (Ptr 0) 34) (λ eth, eth_valid eth && mac_is (eth_src_mac eth) 0 0x11 &&
     mac_is (eth_src_mac eth) 1 0x22 && mac_is (eth_src_mac eth) 2 0x33 && mac_is (eth_src_mac eth) 3 0x44 &&
     mac_is (eth_src_mac eth) 4 0x55 && mac_is (eth_src_mac eth) 5 0x66));
  ("IPv4DstMACCorrect",
   expect (ethernet_parse IPV4_FRAME (Ptr 0) 34) (λ eth, eth_valid eth && mac_is (eth_dst_mac eth) 0 0xaa &&
     mac_is (eth_dst_mac eth) 1 0xbb && mac_is (eth_dst_mac eth) 2 0xcc && mac_is (eth_dst_mac eth) 3 0xdd &&
     mac_is (eth_dst_mac eth) 4 0xee && mac_is (eth_dst_mac eth) 5 0xff));
  ("IPv4MACStringFormat",
   expect (ethernet_parse IPV4_FRAME (Ptr 0) 34) (λ eth, eth_valid eth && String.eqb (srcMacString eth)
     "11:22:33:44:55:66" && String.eqb (dstMacString eth) "aa:bb:cc:dd:ee:ff"));
  ("IPv4PayloadPointerCorrect",
   expect (ethernet_parse IPV4_FRAME (Ptr 0) 34) (λ eth, eth_valid eth && negb (bool_decide (eth_payload eth =
     nullptr)) && bool_decide (eth_payload eth = Ptr ETHERNET_HEADER_SIZE) && byte_is IPV4_FRAME (eth_payload
     eth) 0 0x45));
  ("IPv4PayloadSizeCorrect",
   expect (ethernet_parse IPV4_FRAME (Ptr 0) 34) (λ eth, eth_valid eth && (eth_payload_size eth =? 34 -
     ETHERNET_HEADER_SIZE)));
  ("ARPEtherTypeCorrect",
   expect (ethernet_parse ARP_FRAME (Ptr 0) 42) (λ eth, eth_valid eth && (eth_ethertype eth =? ETHERTYPE_ARP)));
  ("ARPDstMACIsBroadcast",
   expect (ethernet_parse ARP_FRAME (Ptr 0) 42) (λ eth, eth_valid eth && bool_decide (eth_dst_mac eth =
     replicate 6 0xff) && String.eqb (dstMacString eth) "ff:ff:ff:ff:ff:ff"));
  ("ARPSrcMACCorrect",
   expect (ethernet_parse ARP_FRAME (Ptr 0) 42) (λ eth, eth_valid eth && mac_is (eth_src_mac eth) 0 0xde &&
     mac_is (eth_src_mac eth) 1 0xad && mac_is (eth_src_mac eth) 2 0xbe && mac_is (eth_src_mac eth) 3 0xef &&
     mac_is (eth_src_mac eth) 4 0x00 && mac_is (eth_src_mac eth) 5 0x01));
  ("ARPPayloadPointerCorrect",
   expect (ethernet_parse ARP_FRAME (Ptr 0) 42) (λ eth, eth_valid eth && negb (bool_decide (eth_payload eth =
     nullptr)) && bool_decide (eth_payload eth = Ptr ETHERNET_HEADER_SIZE) && byte_is ARP_FRAME (eth_payload
     eth) 0 0x00 && byte_is ARP_FRAME (eth_payload eth) 1 0x01));
  ("ARPPayloadSizeCorrect",
   expect (ethernet_parse ARP_FRAME (Ptr 0) 42) (λ eth, eth_valid eth && (eth_payload_size eth =? 42 -
     ETHERNET_HEADER_SIZE)));
  ("IPv4EtherTypeIsNotARP",
   expect (ethernet_parse IPV4_FRAME (Ptr 0) 34) (λ eth, eth_valid eth && negb (eth_ethertype eth =?
     ETHERTYPE_ARP)));
  ("ARPEtherTypeIsNotIPv4",
   expect (ethernet_parse ARP_FRAME (Ptr 0) 42) (λ eth, eth_valid eth && negb (eth_ethertype eth =?
     ETHERTYPE_IPV4)));
  ("MinimumValidFrameParsesCorrectly",
   expect (ethernet_parse MIN_FRAME (Ptr 0) 15) (λ eth, eth_valid eth && (eth_ethertype eth =? ETHERTYPE_IPV4)
     && (eth_payload_size eth =? 1) && byte_is MIN_FRAME (eth_payload eth) 0 0x45));
  ("TooShortFrameIsInvalid",
   expect (ethernet_parse TOO_SHORT_FRAME (Ptr 0) 13) (λ eth, negb (eth_valid eth) && bool_decide (eth_payload
     eth = nullptr) && (eth_ethertype eth =? 0)));
  ("ExactlyHeaderSizeIsInvalid",
   expect (ethernet_parse IPV4_FRAME (Ptr 0) ETHERNET_HEADER_SIZE) (λ eth, negb (eth_valid eth)));
  ("NullPointerIsInvalid",
   expect (ethernet_parse [] nullptr 100) (λ eth, negb (eth_valid eth) && bool_decide (eth_payload eth =
     nullptr)));
  ("ZeroSizeIsInvalid",
   expect (ethernet_parse IPV4_FRAME (Ptr 0) 0) (λ eth, negb (eth_valid eth)));
  ("EtherTypeBigEndianCorrect",
   expect (ethernet_parse [0x00; 0x00; 0x00; 0x00; 0x00; 0x00; 0x00; 0x00; 0x00; 0x00; 0x00; 0x00; 0x08; 0x00;
     0x45] (Ptr 0) 15) (λ r, eth_valid r && (eth_ethertype r =? 0x0800) && negb (eth_ethertype r =? 0x0008)))
].

Example test_ethernet_parser_pass : failures ethernet_parser_tests = [].
Proof. vm_compute. reflexivity. Qed.
End EthernetParserTest.

(** *** tests/test_ip_parser.cpp *)
Module IpParserTest.
Definition kTcpInbound : list Z := [0x45; 0x00; 0x00; 0x28; 0x00; 0x01; 0x40; 0x00; 0x80; 0x06; 0x2F; 0x18;
  0xC0; 0xA8; 0x01; 0x0A; 0x0A; 0x00; 0x00; 0x05; 0x00; 0x50; 0x1F; 0x90; 0x00; 0x00; 0x00; 0x01; 0x00; 0x00;
  0x00; 0x00; 0x50; 0x02; 0x20; 0x00; 0x00; 0x00; 0x00; 0x00].
Definition kUdpOutbound : list Z := [0x45; 0x00; 0x00; 0x24; 0x00; 0x02; 0x00; 0x00; 0x40; 0x11; 0xAF; 0x10;
  0x0A; 0x00; 0x00; 0x05; 0xC0; 0xA8; 0x01; 0x0A; 0x00; 0x35; 0x04; 0x00; 0x00; 0x10; 0x00; 0x00; 0x00; 0x00;
  0x00; 0x00; 0x00; 0x00; 0x00; 0x00].
Definition kIcmpHeader : list Z := [0x45; 0x00; 0x00; 0x1C; 0x00; 0x03; 0x00; 0x00; 0xFF; 0x01; 0x1B; 0x33;
  0xC0; 0xA8; 0x00; 0x01; 0xE0; 0x00; 0x00; 0x01; 0x08; 0x00; 0xF7; 0xFD; 0x00; 0x01; 0x00; 0x01].
Definition kBadChecksum : list Z := [0x45; 0x00; 0x00; 0x14; 0x00; 0x00; 0x00; 0x00; 0x40; 0x06; 0xDE; 0xAD;
  0xC0; 0xA8; 0x01; 0x01; 0x0A; 0x00; 0x00; 0x01].
Definition kTooShort : list Z := [0x45; 0x00; 0x00; 0x13; 0x00; 0x00; 0x00; 0x00; 0x40; 0x06; 0x00; 0x00; 0xC0;
  0xA8; 0x01; 0x01; 0x0A; 0x00; 0x00].
Definition kIpv6Version : list Z := [0x65; 0x00; 0x00; 0x14; 0x00; 0x00; 0x00; 0x00; 0x40; 0x06; 0x00; 0x00;
  0xC0; 0xA8; 0x01; 0x01; 0x0A; 0x00; 0x00; 0x01].
Definition kSmallIhl : list Z := [0x43; 0x00; 0x00; 0x14; 0x00; 0x00; 0x00; 0x00; 0x40; 0x06; 0x00; 0x00; 0xC0;
  0xA8; 0x01; 0x01; 0x0A; 0x00; 0x00; 0x01].
Definition kTotalLengthTooLarge : list Z := [0x45; 0x00; 0xFF; 0xFF; 0x00; 0x00; 0x00; 0x00; 0x40; 0x06; 0x00;
  0x00; 0xC0; 0xA8; 0x01; 0x01; 0x0A; 0x00; 0x00; 0x01].

Definition ip_parser_tests : list (string * bool) := [
  ("ParsesTcpInboundCorrectly",
   has_value (parseIpHeader kTcpInbound (Ptr 0) 40 Inbound) (λ r, (ip_ihl r =? 5) && (ip_ttl r =? 128) &&
     (ip_protocol r =? 6) && (ip_total_length r =? 40) && (ip_src_ip r =? 0xC0A8010A) && (ip_dst_ip r =?
     0x0A000005) && ip_checksum_ok r && bool_decide (ip_direction r = Inbound)));
  ("ParsesUdpOutboundCorrectly",
   has_value (parseIpHeader kUdpOutbound (Ptr 0) 36 Outbound) (λ r, (ip_protocol r =? 17) && (ip_ttl r =? 64) &&
     (ip_total_length r =? 36) && (ip_src_ip r =? 0x0A000005) && (ip_dst_ip r =? 0xC0A8010A) && ip_checksum_ok r
     && bool_decide (ip_direction r = Outbound)));
  ("ParsesIcmpProtocolField",
   has_value (parseIpHeader kIcmpHeader (Ptr 0) 28 Unknown) (λ r, (ip_protocol r =? 1) && (ip_ttl r =? 255) &&
     ip_checksum_ok r));
  ("TotalLengthExtractedCorrectly",
   has_value (parseIpHeader kTcpInbound (Ptr 0) 40 Inbound) (λ r, ip_total_length r =? 40));
  ("PayloadPointerAndLengthCorrect",
   has_value (parseIpHeader kTcpInbound (Ptr 0) 40 Inbound) (λ r, (ip_payload_len r =? 20) && bool_decide
     (ip_payload r = Ptr 20)));
  ("DirectionInboundPreserved",
   has_value (parseIpHeader kTcpInbound (Ptr 0) 40 Inbound) (λ r, bool_decide (ip_direction r = Inbound)));
  ("DirectionOutboundPreserved",
   has_value (parseIpHeader kUdpOutbound (Ptr 0) 36 Outbound) (λ r, bool_decide (ip_direction r = Outbound)));
  ("DirectionUnknownWhenNotSupplied",
   has_value (parseIpHeader kTcpInbound (Ptr 0) 40 Unknown) (λ r, bool_decide (ip_direction r = Unknown)));
  ("ValidChecksumSetsChecksumOkTrue",
   has_value (parseIpHeader kTcpInbound (Ptr 0) 40 Inbound) (λ r, ip_checksum_ok r));
  ("CorruptChecksumSetsChecksumOkFalse",
   has_value (parseIpHeader kBadChecksum (Ptr 0) 20 Unknown) (λ r, negb (ip_checksum_ok r)));
  ("RejectsBufferSmallerThanMinimumHeader",
   rejected (parseIpHeader kTooShort (Ptr 0) 19 Unknown));
  ("RejectsIpv6VersionField",
   rejected (parseIpHeader kIpv6Version (Ptr 0) 20 Unknown));
  ("RejectsIhlBelowMinimum",
   rejected (parseIpHeader kSmallIhl (Ptr 0) 20 Unknown));
  ("RejectsTotalLengthExceedingBuffer",
   rejected (parseIpHeader kTotalLengthTooLarge (Ptr 0) 20 Unknown));
  ("RejectsEmptyBuffer",
   rejected (parseIpHeader [] nullptr 0 Unknown));
  ("RejectsSingleByteBuffer",
   rejected (parseIpHeader [0x45] (Ptr 0) 1 Unknown));
  ("TtlOf255ParsedCorrectly",
   has_value (parseIpHeader kIcmpHeader (Ptr 0) 28 Unknown) (λ r, ip_ttl r =? 255));
  ("TtlOf128ParsedCorrectly",
   has_value (parseIpHeader kTcpInbound (Ptr 0) 40 Inbound) (λ r, ip_ttl r =? 128));
  ("TtlOf64ParsedCorrectly",
   has_value (parseIpHeader kUdpOutbound (Ptr 0) 36 Outbound) (λ r, ip_ttl r =? 64))
].

Example test_ip_parser_pass : failures ip_parser_tests = [].
Proof. vm_compute. reflexivity. Qed.
End IpParserTest.

(** *** tests/test_tcp_parser.cpp *)
Module TcpParserTest.
Definition kSynPacket : list Z := [0x30; 0x39; 0x00; 0x50; 0x00; 0x00; 0x00; 0x01; 0x00; 0x00; 0x00; 0x00; 0x50;
  0x02; 0xFF; 0xFF; 0x00; 0x00; 0x00; 0x00].
Definition kSynAckPacket : list Z := [0x00; 0x50; 0x30; 0x39; 0xDE; 0xAD; 0xBE; 0xEF; 0x00; 0x00; 0x00; 0x02;
  0x50; 0x12; 0xFF; 0xFF; 0x00; 0x00; 0x00; 0x00].
Definition kRstPacket : list Z := [0x00; 0x50; 0x30; 0x39; 0x00; 0x00; 0x00; 0x03; 0x00; 0x00; 0x00; 0x00; 0x50;
  0x04; 0x00; 0x00; 0x00; 0x00; 0x00; 0x00].
Definition kSynFinPacket : list Z := [0x04; 0xD2; 0x00; 0x50; 0x00; 0x00; 0x00; 0x04; 0x00; 0x00; 0x00; 0x00;
  0x50; 0x03; 0x00; 0x00; 0x00; 0x00; 0x00; 0x00].
Definition kNullScanPacket : list Z := [0x04; 0xD2; 0x00; 0x50; 0x00; 0x00; 0x00; 0x05; 0x00; 0x00; 0x00; 0x00;
  0x50; 0x00; 0x00; 0x00; 0x00; 0x00; 0x00; 0x00].
Definition kXmasPacket : list Z := [0x04; 0xD2; 0x00; 0x50; 0x00; 0x00; 0x00; 0x06; 0x00; 0x00; 0x00; 0x00;
  0x50; 0x29; 0x00; 0x00; 0x00; 0x00; 0x00; 0x00].
Definition kOptionsPacket : list Z := [0x04; 0xD2; 0x1F; 0x90; 0x00; 0x00; 0x00; 0x07; 0x00; 0x00; 0x00; 0x00;
  0x80; 0x18; 0x00; 0x72; 0x00; 0x00; 0x00; 0x00; 0x01; 0x01; 0x01; 0x01; 0x01; 0x01; 0x01; 0x01; 0x01; 0x01;
  0x01; 0x01; 0xDE; 0xAD; 0xBE; 0xEF].
Definition kSmallOffset : list Z := [0x00; 0x50; 0x04; 0xD2; 0x00; 0x00; 0x00; 0x00; 0x00; 0x00; 0x00; 0x00;
  0x40; 0x02; 0x00; 0x00; 0x00; 0x00; 0x00; 0x00].
Definition kOffsetExceedsBuffer : list Z := [0x00; 0x50; 0x04; 0xD2; 0x00; 0x00; 0x00; 0x00; 0x00; 0x00; 0x00;
  0x00; 0xF0; 0x02; 0x00; 0x00; 0x00; 0x00; 0x00; 0x00].

Definition tcp_parser_tests : list (string * bool) := [
  ("ParsesSrcPortCorrectly",
   has_value (parseTcpHeader kSynPacket (Ptr 0) 20) (λ r, tcp_src_port r =? 12345));
  ("ParsesDstPortCorrectly",
   has_value (parseTcpHeader kSynPacket (Ptr 0) 20) (λ r, tcp_dst_port r =? 80));
  ("ParsesPortsReversedInReply",
   has_value (parseTcpHeader kSynAckPacket (Ptr 0) 20) (λ r, (tcp_src_port r =? 80) && (tcp_dst_port r =?
     12345)));
  ("ParsesSequenceNumberCorrectly",
   has_value (parseTcpHeader kSynPacket (Ptr 0) 20) (λ r, tcp_seq_num r =? 1));
  ("ParsesLargeSequenceNumber",
   has_value (parseTcpHeader kSynAckPacket (Ptr 0) 20) (λ r, tcp_seq_num r =? 0xDEADBEEF));
  ("SynFlagParsedCorrectly",
   has_value (parseTcpHeader kSynPacket (Ptr 0) 20) (λ r, (Z.land (tcp_flags r) SYN =? SYN) && (Z.land
     (tcp_flags r) ACK =? 0)));
  ("SynAckFlagsParsedCorrectly",
   has_value (parseTcpHeader kSynAckPacket (Ptr 0) 20) (λ r, Z.land (tcp_flags r) SYN_ACK =? SYN_ACK));
  ("RstFlagParsedCorrectly",
   has_value (parseTcpHeader kRstPacket (Ptr 0) 20) (λ r, (Z.land (tcp_flags r) RST =? RST) && (Z.land
     (tcp_flags r) SYN =? 0)));
  ("MalformedSynFinDetected",
   has_value (parseTcpHeader kSynFinPacket (Ptr 0) 20) (λ r, Z.land (tcp_flags r) SYN_FIN =? SYN_FIN));
  ("NullScanDetected",
   has_value (parseTcpHeader kNullScanPacket (Ptr 0) 20) (λ r, tcp_flags r =? NULL_SCAN));
  ("XmasScanDetected",
   has_value (parseTcpHeader kXmasPacket (Ptr 0) 20) (λ r, Z.land (tcp_flags r) XMAS =? XMAS));
  ("ReservedBitsNotIncludedInFlags",
   has_value (parseTcpHeader kSynPacket (Ptr 0) 20) (λ r, Z.land (tcp_flags r) 0xC0 =? 0));
  ("DataOffsetFiveParsedCorrectly",
   has_value (parseTcpHeader kSynPacket (Ptr 0) 20) (λ r, tcp_data_offset r =? 5));
  ("DataOffsetEightParsedCorrectly",
   has_value (parseTcpHeader kOptionsPacket (Ptr 0) 36) (λ r, tcp_data_offset r =? 8));
  ("NoPayloadWhenHeaderFillsBuffer",
   has_value (parseTcpHeader kSynPacket (Ptr 0) 20) (λ r, (tcp_payload_len r =? 0) && bool_decide (tcp_payload r
     = Ptr 20)));
  ("PayloadPointerCorrectWithOptions",
   has_value (parseTcpHeader kOptionsPacket (Ptr 0) 36) (λ r, (tcp_payload_len r =? 4) && bool_decide
     (tcp_payload r = Ptr 32) && byte_is kOptionsPacket (tcp_payload r) 0 0xDE && byte_is kOptionsPacket
     (tcp_payload r) 3 0xEF));
  ("RejectsNullPointer",
   rejected (parseTcpHeader [] nullptr 20));
  ("RejectsBufferSmallerThan20Bytes",
   rejected (parseTcpHeader kSynPacket (Ptr 0) 19));
  ("RejectsDataOffsetBelowMinimum",
   rejected (parseTcpHeader kSmallOffset (Ptr 0) 20));
  ("RejectsDataOffsetExceedingBuffer",
   rejected (parseTcpHeader kOffsetExceedsBuffer (Ptr 0) 20));
  ("RejectsEmptyBuffer",
   rejected (parseTcpHeader [0x50] (Ptr 0) 0))
].

Example test_tcp_parser_pass : failures tcp_parser_tests = [].
Proof. vm_compute. reflexivity. Qed.
End TcpParserTest.

(** *** tests/test_udp_parser.cpp *)
Module UdpParserTest.
Definition kDnsQuery : list Z := [0xD4; 0x31; 0x00; 0x35; 0x00; 0x14; 0x00; 0x00; 0x12; 0x34; 0x01; 0x00; 0x00;
  0x01; 0x00; 0x00; 0x00; 0x00; 0x00; 0x00].
Definition kDnsReply : list Z := [0x00; 0x35; 0xD4; 0x31; 0x00; 0x14; 0x00; 0x00; 0x12; 0x34; 0x81; 0x80; 0x00;
  0x01; 0x00; 0x01; 0x00; 0x00; 0x00; 0x00].
Definition kPlainUdp : list Z := [0x30; 0x39; 0x27; 0x0F; 0x00; 0x10; 0x00; 0x00; 0xAA; 0xBB; 0xCC; 0xDD; 0xEE;
  0xFF; 0x11; 0x22].
Definition kHeaderOnly : list Z := [0x04; 0xD2; 0x1F; 0x90; 0x00; 0x08; 0x00; 0x00].
Definition kLengthTooSmall : list Z := [0x04; 0xD2; 0x1F; 0x90; 0x00; 0x04; 0x00; 0x00].
Definition kLengthExceedsBuffer : list Z := [0x04; 0xD2; 0x1F; 0x90; 0xFF; 0xFF; 0x00; 0x00].

Definition udp_parser_tests : list (string * bool) := [
  ("ParsesSrcPortCorrectly",
   has_value (parseUdpHeader kDnsQuery (Ptr 0) 20) (λ r, udp_src_port r =? 54321));
  ("ParsesDstPortCorrectly",
   has_value (parseUdpHeader kDnsQuery (Ptr 0) 20) (λ r, udp_dst_port r =? 53));
  ("ParsesNonDnsPorts",
   has_value (parseUdpHeader kPlainUdp (Ptr 0) 16) (λ r, (udp_src_port r =? 12345) && (udp_dst_port r =? 9999)));
  ("DnsQueryDetectedByDstPort",
   has_value (parseUdpHeader kDnsQuery (Ptr 0) 20) (λ r, udp_is_dns r));
  ("DnsReplyDetectedBySrcPort",
   has_value (parseUdpHeader kDnsReply (Ptr 0) 20) (λ r, udp_is_dns r));
  ("NonDnsTrafficNotFlagged",
   has_value (parseUdpHeader kPlainUdp (Ptr 0) 16) (λ r, negb (udp_is_dns r)));
  ("DnsPortConstantIsCorrect",
   UDP_PORT_DNS =? 53);
  ("LengthFieldParsedCorrectly",
   has_value (parseUdpHeader kDnsQuery (Ptr 0) 20) (λ r, udp_length r =? 20));
  ("HeaderOnlyLengthIsEight",
   has_value (parseUdpHeader kHeaderOnly (Ptr 0) 8) (λ r, udp_length r =? 8));
  ("PayloadPointerCorrectForDnsQuery",
   has_value (parseUdpHeader kDnsQuery (Ptr 0) 20) (λ r, (udp_payload_len r =? 12) && bool_decide (udp_payload r
     = Ptr 8) && byte_is kDnsQuery (udp_payload r) 0 0x12));
  ("PayloadPointerCorrectForPlainUdp",
   has_value (parseUdpHeader kPlainUdp (Ptr 0) 16) (λ r, (udp_payload_len r =? 8) && bool_decide (udp_payload r
     = Ptr 8) && byte_is kPlainUdp (udp_payload r) 0 0xAA));
  ("ZeroPayloadLenWhenHeaderOnly",
   has_value (parseUdpHeader kHeaderOnly (Ptr 0) 8) (λ r, (udp_payload_len r =? 0) && bool_decide (udp_payload r
     = Ptr 8)));
  ("RejectsNullPointer",
   rejected (parseUdpHeader [] nullptr 8));
  ("RejectsBufferSmallerThan8Bytes",
   rejected (parseUdpHeader kHeaderOnly (Ptr 0) 7));
  ("RejectsLengthFieldBelowMinimum",
   rejected (parseUdpHeader kLengthTooSmall (Ptr 0) 8));
  ("RejectsLengthFieldExceedingBuffer",
   rejected (parseUdpHeader kLengthExceedsBuffer (Ptr 0) 8));
  ("RejectsEmptyBuffer",
   rejected (parseUdpHeader [0x00] (Ptr 0) 0))
].

Example test_udp_parser_pass : failures udp_parser_tests = [].
Proof. vm_compute. reflexivity. Qed.
End UdpParserTest.

(** *** tests/test_icmp_parser.cpp *)
Module IcmpParserTest.
Definition kEchoRequest : list Z := [0x08; 0x00; 0xF7; 0xFD; 0x00; 0x01; 0x00; 0x01; 0xDE; 0xAD; 0xBE; 0xEF].
Definition kEchoReply : list Z := [0x00; 0x00; 0xFF; 0xFD; 0x00; 0x01; 0x00; 0x01].
Definition kDestUnreachable : list Z := [0x03; 0x01; 0x00; 0x00; 0x00; 0x00; 0x00; 0x00].
Definition kTtlExceeded : list Z := [0x0B; 0x00; 0x00; 0x00; 0x00; 0x00; 0x00; 0x00].

Definition icmp_parser_tests : list (string * bool) := [
  ("ParsesEchoRequestType",
   has_value (parseIcmpHeader kEchoRequest (Ptr 0) 12 32) (λ r, (icmp_type r =? ECHO_REQUEST) && (icmp_code r =?
     0)));
  ("ParsesEchoReplyType",
   has_value (parseIcmpHeader kEchoReply (Ptr 0) 8 28) (λ r, icmp_type r =? ECHO_REPLY));
  ("ParsesDestUnreachableTypeAndCode",
   has_value (parseIcmpHeader kDestUnreachable (Ptr 0) 8 28) (λ r, (icmp_type r =? DEST_UNREACHABLE) &&
     (icmp_code r =? 1)));
  ("ParsesTtlExceededType",
   has_value (parseIcmpHeader kTtlExceeded (Ptr 0) 8 28) (λ r, icmp_type r =? TTL_EXCEEDED));
  ("PacketSizeIsIpTotalLength",
   has_value (parseIcmpHeader kEchoRequest (Ptr 0) 12 500) (λ r, icmp_packet_size r =? 500));
  ("NormalSizedPacketNotFlagged",
   has_value (parseIcmpHeader kEchoRequest (Ptr 0) 12 1500) (λ r, negb (icmp_is_oversized r)));
  ("PacketAtExactMtuNotFlagged",
   has_value (parseIcmpHeader kEchoRequest (Ptr 0) 12 1500) (λ r, (icmp_packet_size r =? ICMP_NORMAL_MTU) &&
     negb (icmp_is_oversized r)));
  ("PacketOneByteOverMtuIsFlagged",
   has_value (parseIcmpHeader kEchoRequest (Ptr 0) 12 1501) (λ r, icmp_is_oversized r));
  ("PingOfDeathSizedPacketFlagged",
   has_value (parseIcmpHeader kEchoRequest (Ptr 0) 12 65535) (λ r, icmp_is_oversized r));
  ("SmallPacketNotFlagged",
   has_value (parseIcmpHeader kEchoRequest (Ptr 0) 12 28) (λ r, negb (icmp_is_oversized r)));
  ("MtuConstantIsCorrect",
   ICMP_NORMAL_MTU =? 1500);
  ("PayloadPointerCorrectForEchoRequest",
   has_value (parseIcmpHeader kEchoRequest (Ptr 0) 12 32) (λ r, (icmp_payload_len r =? 4) && bool_decide
     (icmp_payload r = Ptr 8) && byte_is kEchoRequest (icmp_payload r) 0 0xDE && byte_is kEchoRequest
     (icmp_payload r) 3 0xEF));
  ("ZeroPayloadLenWhenHeaderFillsBuffer",
   has_value (parseIcmpHeader kEchoReply (Ptr 0) 8 28) (λ r, (icmp_payload_len r =? 0) && bool_decide
     (icmp_payload r = Ptr 8)));
  ("RejectsNullPointer",
   rejected (parseIcmpHeader [] nullptr 8 28));
  ("RejectsBufferSmallerThan8Bytes",
   rejected (parseIcmpHeader kEchoReply (Ptr 0) 7 28));
  ("RejectsEmptyBuffer",
   rejected (parseIcmpHeader [0x08] (Ptr 0) 0 28))
].

Example test_icmp_parser_pass : failures icmp_parser_tests = [].
Proof. vm_compute. reflexivity. Qed.
End IcmpParserTest.

(** *** tests/test_arp_parser.cpp *)
Module ArpParserTest.
Definition kArpRequest : list Z := [0x00; 0x01; 0x08; 0x00; 0x06; 0x04; 0x00; 0x01; 0xAA; 0xBB; 0xCC; 0xDD;
  0xEE; 0xFF; 0xC0; 0xA8; 0x01; 0x0A; 0x00; 0x00; 0x00; 0x00; 0x00; 0x00; 0xC0; 0xA8; 0x01; 0x01].
Definition kArpReply : list Z := [0x00; 0x01; 0x08; 0x00; 0x06; 0x04; 0x00; 0x02; 0x11; 0x22; 0x33; 0x44; 0x55;
  0x66; 0xC0; 0xA8; 0x01; 0x01; 0xAA; 0xBB; 0xCC; 0xDD; 0xEE; 0xFF; 0xC0; 0xA8; 0x01; 0x0A].
Definition kSpoofedReply : list Z := [0x00; 0x01; 0x08; 0x00; 0x06; 0x04; 0x00; 0x02; 0xDE; 0xAD; 0xBE; 0xEF;
  0xCA; 0xFE; 0xC0; 0xA8; 0x01; 0x01; 0xAA; 0xBB; 0xCC; 0xDD; 0xEE; 0xFF; 0xC0; 0xA8; 0x01; 0x0A].
Definition kNonEthernet : list Z := [0x00; 0x06; 0x08; 0x00; 0x06; 0x04; 0x00; 0x01; 0xAA; 0xBB; 0xCC; 0xDD;
  0xEE; 0xFF; 0xC0; 0xA8; 0x01; 0x0A; 0x00; 0x00; 0x00; 0x00; 0x00; 0x00; 0xC0; 0xA8; 0x01; 0x01].
Definition kNonIPv4 : list Z := [0x00; 0x01; 0x86; 0xDD; 0x06; 0x04; 0x00; 0x01; 0xAA; 0xBB; 0xCC; 0xDD; 0xEE;
  0xFF; 0xC0; 0xA8; 0x01; 0x0A; 0x00; 0x00; 0x00; 0x00; 0x00; 0x00; 0xC0; 0xA8; 0x01; 0x01].
Definition kWrongHlen : list Z := [0x00; 0x01; 0x08; 0x00; 0x08; 0x04; 0x00; 0x01; 0xAA; 0xBB; 0xCC; 0xDD; 0xEE;
  0xFF; 0xC0; 0xA8; 0x01; 0x0A; 0x00; 0x00; 0x00; 0x00; 0x00; 0x00; 0xC0; 0xA8; 0x01; 0x01].

Definition arp_parser_tests : list (string * bool) := [
  ("ParsesRequestOperation",
   has_value (parseArpPacket kArpRequest (Ptr 0) 28) (λ r, (arp_oper r =? ARP_REQUEST) && negb (arp_is_reply
     r)));
  ("ParsesReplyOperation",
   has_value (parseArpPacket kArpReply (Ptr 0) 28) (λ r, (arp_oper r =? ARP_REPLY) && arp_is_reply r));
  ("ArpOperConstantsCorrect",
   (ARP_REQUEST =? 1) && (ARP_REPLY =? 2));
  ("ParsesSenderMacFromRequest",
   has_value (parseArpPacket kArpRequest (Ptr 0) 28) (λ r, mac_is (arp_pkt_sender_mac r) 0 0xAA && mac_is
     (arp_pkt_sender_mac r) 1 0xBB && mac_is (arp_pkt_sender_mac r) 2 0xCC && mac_is (arp_pkt_sender_mac r) 3
     0xDD && mac_is (arp_pkt_sender_mac r) 4 0xEE && mac_is (arp_pkt_sender_mac r) 5 0xFF));
  ("ParsesSenderMacFromReply",
   has_value (parseArpPacket kArpReply (Ptr 0) 28) (λ r, mac_is (arp_pkt_sender_mac r) 0 0x11 && mac_is
     (arp_pkt_sender_mac r) 5 0x66));
  ("SpoofedReplyHasDifferentSenderMac",
   has_value (parseArpPacket kArpReply (Ptr 0) 28) (λ legit, has_value (parseArpPacket kSpoofedReply (Ptr 0) 28)
     (λ spoof, (arp_pkt_sender_ip legit =? arp_pkt_sender_ip spoof) && negb (bool_decide (arp_pkt_sender_mac
     legit = arp_pkt_sender_mac spoof)))));
  ("ParsesSenderIpFromRequest",
   has_value (parseArpPacket kArpRequest (Ptr 0) 28) (λ r, arp_pkt_sender_ip r =? 0xC0A8010A));
  ("ParsesSenderIpFromReply",
   has_value (parseArpPacket kArpReply (Ptr 0) 28) (λ r, arp_pkt_sender_ip r =? 0xC0A80101));
  ("ParsesTargetIpFromRequest",
   has_value (parseArpPacket kArpRequest (Ptr 0) 28) (λ r, arp_pkt_target_ip r =? 0xC0A80101));
  ("ParsesTargetIpFromReply",
   has_value (parseArpPacket kArpReply (Ptr 0) 28) (λ r, arp_pkt_target_ip r =? 0xC0A8010A));
  ("TargetMacAllZeroesInRequest",
   has_value (parseArpPacket kArpRequest (Ptr 0) 28) (λ r, bool_decide (arp_pkt_target_mac r = replicate 6
     0x00)));
  ("ParsesTargetMacFromReply",
   has_value (parseArpPacket kArpReply (Ptr 0) 28) (λ r, mac_is (arp_pkt_target_mac r) 0 0xAA && mac_is
     (arp_pkt_target_mac r) 5 0xFF));
  ("RejectsNullPointer",
   rejected (parseArpPacket [] nullptr 28));
  ("RejectsBufferSmallerThan28Bytes",
   rejected (parseArpPacket kArpRequest (Ptr 0) 27));
  ("RejectsNonEthernetHtype",
   rejected (parseArpPacket kNonEthernet (Ptr 0) 28));
  ("RejectsNonIPv4Ptype",
   rejected (parseArpPacket kNonIPv4 (Ptr 0) 28));
  ("RejectsWrongHlen",
   rejected (parseArpPacket kWrongHlen (Ptr 0) 28));
  ("RejectsEmptyBuffer",
   rejected (parseArpPacket [0x00] (Ptr 0) 0))
].

Example test_arp_parser_pass : failures arp_parser_tests = [].
Proof. vm_compute. reflexivity. Qed.
End ArpParserTest.

(** *** tests/test_parsers_integration.cpp *)
Module ParserIntegration.
Definition kTcpSynFrame : list Z := [0xAA; 0xBB; 0xCC; 0xDD; 0xEE; 0xFF; 0x11; 0x22; 0x33; 0x44; 0x55; 0x66;
  0x08; 0x00; 0x45; 0x00; 0x00; 0x28; 0x00; 0x01; 0x00; 0x00; 0x40; 0x06; 0xAF; 0x18; 0xC0; 0xA8; 0x01; 0x0A;
  0x0A; 0x00; 0x00; 0x05; 0x30; 0x39; 0x00; 0x50; 0x00; 0x00; 0x00; 0x01; 0x00; 0x00; 0x00; 0x00; 0x50; 0x02;
  0xFF; 0xFF; 0x00; 0x00; 0x00; 0x00].
Definition kUdpDnsFrame : list Z := [0xAA; 0xBB; 0xCC; 0xDD; 0xEE; 0xFF; 0x11; 0x22; 0x33; 0x44; 0x55; 0x66;
  0x08; 0x00; 0x45; 0x00; 0x00; 0x28; 0x00; 0x02; 0x00; 0x00; 0x40; 0x11; 0x60; 0xAF; 0x0A; 0x00; 0x00; 0x05;
  0x08; 0x08; 0x08; 0x08; 0xD4; 0x31; 0x00; 0x35; 0x00; 0x14; 0x00; 0x00; 0x12; 0x34; 0x01; 0x00; 0x00; 0x01;
  0x00; 0x00; 0x00; 0x00; 0x00; 0x00].
Definition kIcmpEchoFrame : list Z := [0xAA; 0xBB; 0xCC; 0xDD; 0xEE; 0xFF; 0x11; 0x22; 0x33; 0x44; 0x55; 0x66;
  0x08; 0x00; 0x45; 0x00; 0x00; 0x20; 0x00; 0x03; 0x00; 0x00; 0x40; 0x01; 0xF7; 0x86; 0xC0; 0xA8; 0x01; 0x01;
  0xC0; 0xA8; 0x01; 0x02; 0x08; 0x00; 0xF7; 0xFD; 0x00; 0x01; 0x00; 0x01; 0xDE; 0xAD; 0xBE; 0xEF].
Definition kArpRequestFrame : list Z := [0xAA; 0xBB; 0xCC; 0xDD; 0xEE; 0xFF; 0x11; 0x22; 0x33; 0x44; 0x55; 0x66;
  0x08; 0x06; 0x00; 0x01; 0x08; 0x00; 0x06; 0x04; 0x00; 0x01; 0x11; 0x22; 0x33; 0x44; 0x55; 0x66; 0xC0; 0xA8;
  0x01; 0x0A; 0x00; 0x00; 0x00; 0x00; 0x00; 0x00; 0xC0; 0xA8; 0x01; 0x01].
Definition kTruncatedIpFrame : list Z := [0xAA; 0xBB; 0xCC; 0xDD; 0xEE; 0xFF; 0x11; 0x22; 0x33; 0x44; 0x55;
  0x66; 0x08; 0x00; 0x45; 0x00; 0x00; 0x28; 0x00; 0x01].
Definition kIpv6EtherFrame : list Z := [0xAA; 0xBB; 0xCC; 0xDD; 0xEE; 0xFF; 0x11; 0x22; 0x33; 0x44; 0x55; 0x66;
  0x86; 0xDD; 0x60; 0x00; 0x00; 0x00; 0x00; 0x00; 0x3A; 0x40; 0x00; 0x00; 0x00; 0x00; 0x00; 0x00; 0x00; 0x00;
  0x00; 0x00; 0x00; 0x00; 0x00; 0x00; 0x00; 0x01; 0x00; 0x00; 0x00; 0x00; 0x00; 0x00; 0x00; 0x00; 0x00; 0x00;
  0x00; 0x00; 0x00; 0x00; 0x00; 0x02; 0x80; 0x00; 0x00; 0x00; 0x00; 0x00].

Definition parsers_integration_tests : list (string * bool) := [
  ("TcpSynFrameEthernetLayer",
   expect (ethernet_parse kTcpSynFrame (Ptr 0) 54) (λ eth, eth_valid eth && (eth_ethertype eth =? 0x0800) &&
     mac_is (eth_dst_mac eth) 0 0xAA && mac_is (eth_src_mac eth) 0 0x11 && (eth_payload_size eth =? 40)));
  ("TcpSynFrameIpLayer",
   expect (ethernet_parse kTcpSynFrame (Ptr 0) 54) (λ eth, eth_valid eth && has_value (parseIpHeader
     kTcpSynFrame (eth_payload eth) (eth_payload_size eth) Inbound) (λ ip, (ip_protocol ip =? 6) && (ip_src_ip
     ip =? 0xC0A8010A) && (ip_dst_ip ip =? 0x0A000005) && (ip_total_length ip =? 40) && ip_checksum_ok ip &&
     bool_decide (ip_direction ip = Inbound))));
  ("TcpSynFrameTcpLayer",
   expect (ethernet_parse kTcpSynFrame (Ptr 0) 54) (λ eth, eth_valid eth && has_value (parseIpHeader
     kTcpSynFrame (eth_payload eth) (eth_payload_size eth) Unknown) (λ ip, has_value (parseTcpHeader
     kTcpSynFrame (ip_payload ip) (ip_payload_len ip)) (λ tcp, (tcp_src_port tcp =? 12345) && (tcp_dst_port tcp
     =? 80) && (tcp_seq_num tcp =? 1) && (Z.land (tcp_flags tcp) SYN =? SYN) && (Z.land (tcp_flags tcp) ACK =?
     0) && (tcp_payload_len tcp =? 0)))));
  ("TcpSynFramePayloadChainIsConsistent",
   expect (ethernet_parse kTcpSynFrame (Ptr 0) 54) (λ eth, eth_valid eth && has_value (parseIpHeader
     kTcpSynFrame (eth_payload eth) (eth_payload_size eth) Unknown) (λ ip, bool_decide (ip_payload ip = Ptr 34)
     && (ip_payload_len ip =? 20) && has_value (parseTcpHeader kTcpSynFrame (ip_payload ip) (ip_payload_len ip))
     (λ tcp, bool_decide (tcp_payload tcp = Ptr 54)))));
  ("UdpDnsFrameEthernetLayer",
   expect (ethernet_parse kUdpDnsFrame (Ptr 0) 54) (λ eth, eth_valid eth && (eth_ethertype eth =? 0x0800)));
  ("UdpDnsFrameIpLayer",
   expect (ethernet_parse kUdpDnsFrame (Ptr 0) 54) (λ eth, eth_valid eth && has_value (parseIpHeader
     kUdpDnsFrame (eth_payload eth) (eth_payload_size eth) Unknown) (λ ip, (ip_protocol ip =? 17) && (ip_src_ip
     ip =? 0x0A000005) && (ip_dst_ip ip =? 0x08080808) && ip_checksum_ok ip)));
  ("UdpDnsFrameUdpLayer",
   expect (ethernet_parse kUdpDnsFrame (Ptr 0) 54) (λ eth, eth_valid eth && has_value (parseIpHeader
     kUdpDnsFrame (eth_payload eth) (eth_payload_size eth) Unknown) (λ ip, has_value (parseUdpHeader
     kUdpDnsFrame (ip_payload ip) (ip_payload_len ip)) (λ udp, (udp_src_port udp =? 54321) && (udp_dst_port udp
     =? 53) && udp_is_dns udp && (udp_payload_len udp =? 12) && byte_is kUdpDnsFrame (udp_payload udp) 0
     0x12))));
  ("UdpDnsFramePayloadChainIsConsistent",
   expect (ethernet_parse kUdpDnsFrame (Ptr 0) 54) (λ eth, eth_valid eth && has_value (parseIpHeader
     kUdpDnsFrame (eth_payload eth) (eth_payload_size eth) Unknown) (λ ip, bool_decide (ip_payload ip = Ptr 34)
     && has_value (parseUdpHeader kUdpDnsFrame (ip_payload ip) (ip_payload_len ip)) (λ udp, bool_decide
     (udp_payload udp = Ptr 42)))));
  ("IcmpFrameIpLayer",
   expect (ethernet_parse kIcmpEchoFrame (Ptr 0) 46) (λ eth, eth_valid eth && has_value (parseIpHeader
     kIcmpEchoFrame (eth_payload eth) (eth_payload_size eth) Unknown) (λ ip, (ip_protocol ip =? 1) &&
     ip_checksum_ok ip && (ip_total_length ip =? 32))));
  ("IcmpFrameIcmpLayer",
   expect (ethernet_parse kIcmpEchoFrame (Ptr 0) 46) (λ eth, eth_valid eth && has_value (parseIpHeader
     kIcmpEchoFrame (eth_payload eth) (eth_payload_size eth) Unknown) (λ ip, has_value (parseIcmpHeader
     kIcmpEchoFrame (ip_payload ip) (ip_payload_len ip) (ip_total_length ip)) (λ icmp, (icmp_type icmp =?
     ECHO_REQUEST) && (icmp_code icmp =? 0) && (icmp_packet_size icmp =? 32) && negb (icmp_is_oversized icmp) &&
     (icmp_payload_len icmp =? 4) && byte_is kIcmpEchoFrame (icmp_payload icmp) 0 0xDE))));
  ("IcmpFramePayloadChainIsConsistent",
   expect (ethernet_parse kIcmpEchoFrame (Ptr 0) 46) (λ eth, eth_valid eth && has_value (parseIpHeader
     kIcmpEchoFrame (eth_payload eth) (eth_payload_size eth) Unknown) (λ ip, bool_decide (ip_payload ip = Ptr
     34) && has_value (parseIcmpHeader kIcmpEchoFrame (ip_payload ip) (ip_payload_len ip) (ip_total_length ip))
     (λ icmp, bool_decide (icmp_payload icmp = Ptr 42) && byte_is kIcmpEchoFrame (icmp_payload icmp) 0 0xDE &&
     byte_is kIcmpEchoFrame (icmp_payload icmp) 3 0xEF))));
  ("ArpFrameEthernetLayer",
   expect (ethernet_parse kArpRequestFrame (Ptr 0) 42) (λ eth, eth_valid eth && (eth_ethertype eth =? 0x0806) &&
     (eth_payload_size eth =? 28)));
  ("ArpFrameArpLayer",
   expect (ethernet_parse kArpRequestFrame (Ptr 0) 42) (λ eth, eth_valid eth && has_value (parseArpPacket
     kArpRequestFrame (eth_payload eth) (eth_payload_size eth)) (λ arp, (arp_oper arp =? ARP_REQUEST) && negb
     (arp_is_reply arp) && (arp_pkt_sender_ip arp =? 0xC0A8010A) && (arp_pkt_target_ip arp =? 0xC0A80101) &&
     mac_is (arp_pkt_sender_mac arp) 0 0x11 && mac_is (arp_pkt_sender_mac arp) 5 0x66)));
  ("ArpFramePayloadChainIsConsistent",
   expect (ethernet_parse kArpRequestFrame (Ptr 0) 42) (λ eth, eth_valid eth && bool_decide (eth_payload eth =
     Ptr 14) && has_value (parseArpPacket kArpRequestFrame (eth_payload eth) (eth_payload_size eth)) (λ arp,
     true)));
  ("TruncatedIpFrameRejectedByIpParser",
   expect (ethernet_parse kTruncatedIpFrame (Ptr 0) 20) (λ eth, eth_valid eth && (eth_ethertype eth =? 0x0800)
     && rejected (parseIpHeader kTruncatedIpFrame (eth_payload eth) (eth_payload_size eth) Unknown)));
  ("IPv6EtherTypeNotRoutedToIpParser",
   expect (ethernet_parse kIpv6EtherFrame (Ptr 0) 60) (λ eth, eth_valid eth && (eth_ethertype eth =? 0x86DD) &&
     rejected (parseIpHeader kIpv6EtherFrame (eth_payload eth) (eth_payload_size eth) Unknown)));
  ("NullFrameRejectedByEthernetParser",
   expect (ethernet_parse [] nullptr 0) (λ eth, negb (eth_valid eth)));
  ("IpTotalLengthPassedThroughToIcmpParser",
   expect (ethernet_parse kIcmpEchoFrame (Ptr 0) 46) (λ eth, eth_valid eth && has_value (parseIpHeader
     kIcmpEchoFrame (eth_payload eth) (eth_payload_size eth) Unknown) (λ ip, (ip_total_length ip =? 32) &&
     has_value (parseIcmpHeader kIcmpEchoFrame (ip_payload ip) (ip_payload_len ip) (ip_total_length ip)) (λ
     icmp, (icmp_packet_size icmp =? ip_total_length ip) && negb (icmp_is_oversized icmp)))));
  ("DirectionInjectedByDissectorNotParser",
   expect (ethernet_parse kTcpSynFrame (Ptr 0) 54) (λ eth, eth_valid eth && has_value (parseIpHeader
     kTcpSynFrame (eth_payload eth) (eth_payload_size eth) Unknown) (λ ip_unknown, bool_decide (ip_direction
     ip_unknown = Unknown) && has_value (parseIpHeader kTcpSynFrame (eth_payload eth) (eth_payload_size eth)
     Inbound) (λ ip_inbound, bool_decide (ip_direction ip_inbound = Inbound)))))
].

Example test_parsers_integration_pass : failures parsers_integration_tests = [].
Proof. vm_compute. reflexivity. Qed.
End ParserIntegration.

(** *** tests/test_full_pipeline.cpp *)
Module FullPipeline.
Definition kTcpSynFrame : list Z := [0xAA; 0xBB; 0xCC; 0xDD; 0xEE; 0xFF; 0x11; 0x22; 0x33; 0x44; 0x55; 0x66;
  0x08; 0x00; 0x45; 0x00; 0x00; 0x28; 0x00; 0x01; 0x00; 0x00; 0x40; 0x06; 0xAF; 0x18; 0xC0; 0xA8; 0x01; 0x0A;
  0x0A; 0x00; 0x00; 0x05; 0x30; 0x39; 0x00; 0x50; 0x00; 0x00; 0x00; 0x01; 0x00; 0x00; 0x00; 0x00; 0x50; 0x02;
  0xFF; 0xFF; 0x00; 0x00; 0x00; 0x00].
Definition kTcpSynAckFrame : list Z := [0x11; 0x22; 0x33; 0x44; 0x55; 0x66; 0xAA; 0xBB; 0xCC; 0xDD; 0xEE; 0xFF;
  0x08; 0x00; 0x45; 0x00; 0x00; 0x28; 0x00; 0x02; 0x00; 0x00; 0x40; 0x06; 0xAE; 0x15; 0x0A; 0x00; 0x00; 0x05;
  0xC0; 0xA8; 0x01; 0x0A; 0x00; 0x50; 0x30; 0x39; 0x00; 0x00; 0x00; 0x64; 0x00; 0x00; 0x00; 0x02; 0x50; 0x12;
  0xFF; 0xFF; 0x00; 0x00; 0x00; 0x00].
Definition kUdpDnsFrame : list Z := [0xAA; 0xBB; 0xCC; 0xDD; 0xEE; 0xFF; 0x11; 0x22; 0x33; 0x44; 0x55; 0x66;
  0x08; 0x00; 0x45; 0x00; 0x00; 0x28; 0x00; 0x02; 0x00; 0x00; 0x40; 0x11; 0x60; 0xAF; 0x0A; 0x00; 0x00; 0x05;
  0x08; 0x08; 0x08; 0x08; 0xD4; 0x31; 0x00; 0x35; 0x00; 0x14; 0x00; 0x00; 0x12; 0x34; 0x01; 0x00; 0x00; 0x01;
  0x00; 0x00; 0x00; 0x00; 0x00; 0x00].
Definition kIcmpFrame : list Z := [0xAA; 0xBB; 0xCC; 0xDD; 0xEE; 0xFF; 0x11; 0x22; 0x33; 0x44; 0x55; 0x66; 0x08;
  0x00; 0x45; 0x00; 0x00; 0x20; 0x00; 0x03; 0x00; 0x00; 0x40; 0x01; 0xF7; 0x86; 0xC0; 0xA8; 0x01; 0x01; 0xC0;
  0xA8; 0x01; 0x02; 0x08; 0x00; 0xF7; 0xFD; 0x00; 0x01; 0x00; 0x01; 0xDE; 0xAD; 0xBE; 0xEF].
Definition kArpFrame : list Z := [0xAA; 0xBB; 0xCC; 0xDD; 0xEE; 0xFF; 0x11; 0x22; 0x33; 0x44; 0x55; 0x66; 0x08;
  0x06; 0x00; 0x01; 0x08; 0x00; 0x06; 0x04; 0x00; 0x01; 0x11; 0x22; 0x33; 0x44; 0x55; 0x66; 0xC0; 0xA8; 0x01;
  0x0A; 0x00; 0x00; 0x00; 0x00; 0x00; 0x00; 0xC0; 0xA8; 0x01; 0x01].

(** [runPipeline]: what [filter_stage] does without the packet buffer, and the
    two stages behind it. *)
Definition runPipeline `{NativeEndian} (raw : list Z) (local_ips : gset Z) (ts_ms : Z)
    : outcome (option EnrichedFrame) :=
  eth ← ethernet_parse raw (Ptr 0) (Z.of_nat (length raw));
  if negb (eth_valid eth) then Ret None
  else
    '(dissected, _) ← dissector_stage raw (mkFilteredFrame eth ts_ms) local_ips;
    Ret (dissected ≫= stats_stage).

Definition full_pipeline_tests `{NativeEndian} : list (string * bool) := [
  ("TcpSynEnrichedFrameHasAllRequiredFields",
   has_value (runPipeline kTcpSynFrame ∅ 1000) (λ e, (e_src_ip e =? 0xC0A8010A) && (e_dst_ip e =? 0x0A000005) &&
     (e_protocol e =? 6) && (e_packet_size e =? 40) && (e_ttl e =? 64) && mac_is (e_src_mac e) 0 0x11 && mac_is
     (e_dst_mac e) 0 0xAA && (e_src_port e =? 12345) && (e_dst_port e =? 80) && (Z.land (e_flags e) SYN =? SYN)
     && (Z.land (e_flags e) ACK =? 0) && (e_seq_num e =? 1) && (e_icmp_type e =? 0) && (e_icmp_code e =? 0) &&
     (e_arp_sender_ip e =? 0) && (e_arp_target_ip e =? 0) && (e_arp_opcode e =? 0) && e_checksum_valid e && negb
     (e_is_retransmit e) && String.eqb (e_flow_key e) "192.168.1.10:12345->10.0.0.5:80" && (e_timestamp e =?
     1000)));
  ("UdpDnsEnrichedFrameHasAllRequiredFields",
   has_value (runPipeline kUdpDnsFrame ∅ 1000) (λ e, (e_protocol e =? 17) && (e_src_port e =? 54321) &&
     (e_dst_port e =? 53) && (e_flags e =? 0) && (e_seq_num e =? 0) && (e_icmp_type e =? 0) && (e_icmp_code e =?
     0) && (e_arp_sender_ip e =? 0) && (e_arp_target_ip e =? 0) && (e_arp_opcode e =? 0) && e_checksum_valid e
     && negb (e_is_retransmit e) && String.eqb (e_flow_key e) "10.0.0.5:54321->8.8.8.8:53"));
  ("IcmpEnrichedFrameHasAllRequiredFields",
   has_value (runPipeline kIcmpFrame ∅ 1000) (λ e, (e_protocol e =? 1) && (e_packet_size e =? 32) && (e_src_port
     e =? 0) && (e_dst_port e =? 0) && (e_flags e =? 0) && (e_seq_num e =? 0) && (e_icmp_type e =? 8) &&
     (e_icmp_code e =? 0) && (e_arp_sender_ip e =? 0) && (e_arp_target_ip e =? 0) && (e_arp_opcode e =? 0) &&
     e_checksum_valid e && negb (e_is_retransmit e)));
  ("ArpEnrichedFrameHasAllRequiredFields",
   has_value (runPipeline kArpFrame ∅ 1000) (λ e, (e_arp_sender_ip e =? 0xC0A8010A) && (e_arp_target_ip e =?
     0xC0A80101) && (e_arp_opcode e =? 1) && mac_is (e_arp_sender_mac e) 0 0x11 && mac_is (e_arp_sender_mac e) 5
     0x66 && String.eqb (e_flow_key e) "ARP:192.168.1.10"));
  ("FlowTrackerAccumulatesBytesAcrossPackets",
   has_value (runPipeline kTcpSynFrame ∅ 1000) (λ e1, let '(f1, retransmit, table) := flow_tracker e1
     empty_table in negb retransmit && (first_seen_ms f1 =? 1000) && (last_seen_ms f1 =? 1000) && (total_bytes
     f1 =? 40) && (inbound_bytes f1 =? 0) && (outbound_bytes f1 =? 0) && (syn_count f1 =? 1) && (syn_ack_count
     f1 =? 0) && (rst_count f1 =? 0) && (retransmit_count f1 =? 0) && has_value (runPipeline kTcpSynFrame ∅
     2000) (λ e2, let '(f2, retransmit, table') := flow_tracker e2 table in retransmit && (first_seen_ms f2 =?
     1000) && (last_seen_ms f2 =? 2000) && (total_bytes f2 =? 80) && (syn_count f2 =? 2) && (syn_ack_count f2 =?
     0) && (retransmit_count f2 =? 1))));
  ("FlowTrackerTracksSynAndSynAckSeparately",
   has_value (runPipeline kTcpSynFrame ∅ 1000) (λ syn, let '(_, retransmit, table) := flow_tracker syn
     empty_table in has_value (runPipeline kTcpSynAckFrame ∅ 1001) (λ synack, let '(f, retransmit, table') :=
     flow_tracker synack table in (syn_ack_count f =? 1) && (syn_count f =? 0) && (rst_count f =? 0))));
  ("FlowTrackerRetransmitSetGrowsOnNewSeqNums",
   has_value (runPipeline kTcpSynFrame ∅ 1000) (λ e1, let '(f1, retransmit, table) := flow_tracker e1
     empty_table in negb retransmit && (Z.of_nat (size (retransmit_set f1)) =? 1) && (retransmit_count f1 =? 0)
     && has_value (runPipeline kTcpSynFrame ∅ 1001) (λ e2, let '(f2, retransmit, table') := flow_tracker e2
     table in retransmit && (Z.of_nat (size (retransmit_set f2)) =? 1) && (retransmit_count f2 =? 1))));
  ("FlowTrackerTracksDistinctFlowsSeparately",
   has_value (runPipeline kTcpSynFrame ∅ 1000) (λ tcp, let '(_, retransmit, table) := flow_tracker tcp
     empty_table in has_value (runPipeline kUdpDnsFrame ∅ 1000) (λ udp, let '(_, retransmit, table') :=
     flow_tracker udp table in let tcp_rec := FlowTable_get table' "192.168.1.10:12345->10.0.0.5:80" in let
     udp_rec := FlowTable_get table' "10.0.0.5:54321->8.8.8.8:53" in (total_bytes tcp_rec =? 40) && (total_bytes
     udp_rec =? 40) && (syn_count tcp_rec =? 1) && (syn_count udp_rec =? 0) && (syn_ack_count tcp_rec =? 0) &&
     (syn_ack_count udp_rec =? 0))));
  ("DirectionInboundWhenDstIpIsLocal",
   has_value (runPipeline kTcpSynFrame {[ 0x0A000005 ]} 1000) (λ e, bool_decide (e_direction e = Inbound)));
  ("DirectionOutboundWhenSrcIpIsLocal",
   has_value (runPipeline kTcpSynFrame {[ 0xC0A8010A ]} 1000) (λ e, bool_decide (e_direction e = Outbound)));
  ("DirectionUnknownWhenNeitherIpIsLocal",
   has_value (runPipeline kTcpSynFrame ∅ 1000) (λ e, bool_decide (e_direction e = Unknown)));
  ("InboundBytesAccumulateCorrectly",
   has_value (runPipeline kTcpSynFrame {[ 0x0A000005 ]} 1000) (λ e, bool_decide (e_direction e = Inbound) && let
     '(f, retransmit, table) := flow_tracker e empty_table in (inbound_bytes f =? 40) && (outbound_bytes f =?
     0)))
].

Example test_full_pipeline_pass :
  failures (full_pipeline_tests (H := LittleEndian)) = [] ∧ failures (full_pipeline_tests (H := BigEndian)) = [].
Proof. split; vm_compute; reflexivity. Qed.
End FullPipeline.

(** ** Buffers

    The tests with a second thread that only waits are those of a call that is
    [Blocked] before the change the test makes and returns after it.  The stress
    test of two running threads (ConcurrentReadWriteCorrectness) is proved for
    every interleaving of their steps. *)

(** *** tests/test_ring_buffer.cpp *)
Module RingBufferTest.
Definition running : stop_loads := mkStop false false.
Definition stopped : stop_loads := mkStop true true.

Definition makeFrame (fill : Z) (size : nat) : list Z := replicate size fill.
Definition out : list Z := replicate 2048 0.

Definition make (capacity : Z) : outcome RingBuffer := RingBuffer_make (λ _, true) capacity.

(** [EXPECT_TRUE(rb.write(...))] for each frame. *)
Definition write_all (rb : RingBuffer) (frames : list (list Z)) : outcome RingBuffer :=
  foldl (λ o f, rb ← o; '(ok, rb') ← RingBuffer_write rb running f (Z.of_nat (length f));
                if ok : bool then Ret rb' else UB) (Ret rb) frames.

(** [n] reads that succeed: the bytes of each, up to its size. *)
Fixpoint read_all (n : nat) (rb : RingBuffer) : outcome (list (list Z) * RingBuffer) :=
  match n with
  | O => Ret ([], rb)
  | S n' =>
      r ← RingBuffer_read rb running out 0;
      if rr_ok r then
        '(fs, rb') ← read_all n' (rr_ring r);
        Ret (take (Z.to_nat (rr_size r)) (rr_data r) :: fs, rb')
      else UB
  end.

Definition blocks {A} (o : outcome A) : bool := match o with Blocked => true | _ => false end.

(** The frames are written, then read back equal; the test continues with the ring. *)
Definition through (rb : RingBuffer) (frames : list (list Z)) (k : RingBuffer → RingBuffer → bool) : bool :=
  expect (write_all rb frames) (λ written,
    expect (read_all (length frames) written) (λ '(fs, rb'), bool_decide (fs = frames) && k written rb')).

Definition ring_buffer_tests : list (string * bool) := [
  ("ConstructsWithCorrectCapacity",
   expect (make 8) (λ rb, (RingBuffer_capacity rb =? 8) && (RingBuffer_count rb =? 0) && isEmpty rb
     && negb (isFull rb)));
  ("ZeroCapacityThrows", match make 0 with Throw (Invalid_argument _) => true | _ => false end);
  ("WriteAndReadSingleFrame",
   expect (make 4) (λ rb, through rb [makeFrame 0xAB 74] (λ written rb',
     (RingBuffer_count written =? 1) && isEmpty rb')));
  ("WriteAndReadMultipleFrames",
   expect (make 4) (λ rb, through rb (flip makeFrame 64%nat <$> [0; 1; 2]) (λ written rb',
     (RingBuffer_count written =? 3) && isEmpty rb')));
  ("WrapAroundBehaviour",
   expect (make 4) (λ rb, through rb (flip makeFrame 42%nat <$> [0; 1; 2; 3]) (λ written rb',
     isFull written && isEmpty rb' && through rb' (flip makeFrame 42%nat <$> [10; 11; 12; 13]) (λ _ _, true))));
  ("FullBufferBlocksWriter",
   let frame := makeFrame 0xFF 64 in
   expect (make 2) (λ rb, expect (write_all rb [frame; frame]) (λ rb,
     isFull rb && blocks (RingBuffer_write rb running frame 64) &&
     expect (read_all 1 rb) (λ '(_, rb), expect (RingBuffer_write rb running frame 64) fst))));
  ("StopFlagUnblocksBlockedReader",
   expect (make 4) (λ rb, blocks (RingBuffer_read rb running out 0) &&
     expect (RingBuffer_read rb stopped out 0) (λ r, negb (rr_ok r))));
  ("StopFlagUnblocksBlockedWriter",
   let frame := makeFrame 0x01 64 in
   expect (make 1) (λ rb, expect (write_all rb [frame]) (λ rb,
     isFull rb && blocks (RingBuffer_write rb running frame 64) &&
     expect (RingBuffer_write rb stopped frame 64) (λ r, negb r.1))));
  ("VariableFrameSizes",
   expect (make 8) (λ rb, through rb ((λ n, makeFrame (Z.land (Z.of_nat n) 0xFF) n) <$> [42; 74; 98; 512; 1514]%nat)
     (λ _ _, true)))
].

Example test_ring_buffer_pass : failures ring_buffer_tests = [].
Proof. vm_compute. reflexivity. Qed.

(** The frames the writer of the stress test sends; the reader looks at the first
    byte of each. *)
Definition stress_frames : list (list Z) := (λ i, makeFrame (Z.of_nat i mod 256) 128) <$> seq 0 500.
Definition stress_received (taken : list (list Z)) : list (option Z) := head <$> taken.

(** ConcurrentReadWriteCorrectness: the two threads come to an end whatever the
    scheduler does, and then all frames have been received in order. *)
Example concurrent_read_write_correctness rb :
  make 32 = Ret rb →
  (∀ n s, nsteps thread_step n (initial rb stress_frames) s → (n ≤ 9004)%nat) ∧
  (∀ s, rtc thread_step (initial rb stress_frames) s → producer_next s = [] → consumer_next s = [] →
     length (taken s) = 500%nat ∧
     stress_received (taken s) = (λ i, Some (Z.of_nat i mod 256)) <$> seq 0 500).
Proof.
  intros Hrb. destruct (RingBuffer_make_spec (λ _, true) 32 ltac:(lia)) as [Hspec _].
  destruct (Hspec rb Hrb) as (Hok & Hc & _).
  pose proof (inv_initial rb stress_frames Hok Hc) as Hinv. split.
  - intros n s Hn. pose proof (run_bounded n _ s Hinv eq_refl Hn) as Hb.
    unfold work_left, initial in Hb. cbn [pending ring ppc cpc] in Hb. rewrite Hc in Hb. exact Hb.
  - intros s Hr Hp Hcn. destruct (run_delivers _ s Hinv eq_refl Hr Hp Hcn) as [-> _].
    unfold deliveries, initial. cbn [pending ring ppc taken in_hand app]. rewrite Hc.
    split; vm_compute; reflexivity.
Qed.
End RingBufferTest.

Module PacketBufferTest.
Import RingBufferTest.

(** A frame is written at each clock reading, then all are read: the time stamps
    and the frames. *)
Definition stamps `{NativeEndian} (capacity : Z) (frame : list Z) (clocks : list Z) : outcome (list (Z * list Z)) :=
  pb ← PacketBuffer_make (λ _, true) capacity;
  pb ← foldl (λ o clock, pb ← o;
    '(ok, pb') ← PacketBuffer_write pb running clock out frame (Z.of_nat (length frame));
    if ok : bool then Ret pb' else UB) (Ret pb) clocks;
  '(l, _) ← foldl (λ o _, '(l, pb) ← o;
    r ← PacketBuffer_read pb running out out 2048 0 0;
    if pr_ok r then Ret (l ++ [(pr_timestamp r, take (Z.to_nat (pr_size r)) (pr_data r))], pr_buf r) else UB)
    (Ret ([], pb)) clocks;
  Ret l.

Definition now : Z := 1753000000000.

Definition packet_buffer_tests `{NativeEndian} : list (string * bool) := [
  ("TimestampAttachedAtWriteTime",
   let frame := replicate 64 0xAB in expect (stamps 4 frame [now]) (λ l, bool_decide (l = [(now, frame)])));
  ("TimestampsAscending",
   let clocks := [now; now + 2; now + 4; now + 6; now + 8] in
   expect (stamps 8 (replicate 64 0x01) clocks) (λ l, bool_decide (l.*1 = clocks)));
  ("TimestampNonZero",
   expect (stamps 4 (replicate 74 0xFF) [now]) (λ l, forallb (λ p, (0 <? p.1) && (1577836800000 <? p.1)) l))
].

Example test_packet_buffer_pass :
  failures (packet_buffer_tests (H := LittleEndian)) = [] ∧ failures (packet_buffer_tests (H := BigEndian)) = [].
Proof. split; vm_compute; reflexivity. Qed.
End PacketBufferTest.

(** *** tests/test_capture_session.cpp *)
Module CaptureSessionTest.
Import RingBufferTest PacketBufferTest.

(** How many datagrams have been received, and whether a wait has timed out. *)
Definition datagrams (h : list event) : nat := length (received h).
Definition timed_out (h : list event) : bool :=
  existsb (λ e, match e with EpollWait _ _ n _ => n =? 0 | _ => false end) h.

(** The end of a socket pair to which the test has written [sent]: the datagrams
    come one by one, then the socket has none.  [signalStop] is called while the
    loop waits for more. *)
Definition socketpair (sent : list (list Z)) (signalled : bool) : Kernel := {|
  EINTR := 4; EAGAIN := 11; EWOULDBLOCK := 11;
  strerror _ := "error";
  epoll_create1 _ := (5, 0);
  epoll_ctl_add _ _ _ := (0, 0);
  epoll_wait h _ := (if (datagrams h <? length sent)%nat then 1 else 0, 0);
  recvfrom h _ := from_option RecvPacket (RecvError 11) (sent !! datagrams h);
  stop_flag_load h := signalled && timed_out h;
  clock_ms h := now + Z.of_nat (length h);
  stack_bytes _ := out;
  write_loads h := let stop := signalled && timed_out h in mkStop stop stop;
|}.

(** [runCapture], with the buffer it leaves. *)
Definition runCapture `{NativeEndian} (sent : list (list Z)) (signalled : bool) : outcome PacketBuffer :=
  pb ← PacketBuffer_make (λ _, true) 64;
  '(_, w) ← captureLoop (H := socketpair sent signalled) (λ _ pb, Ret pb) 20 7
    (mkWorld (mkCapture pb (replicate 2040 0)) [] []);
  Ret (packet_buf (obj w)).

(** The [n] reads of a test, which are made with the stop flag set. *)
Definition read_back `{NativeEndian} (n : nat) (pb : PacketBuffer) : outcome (list (Z * list Z)) :=
  '(l, _) ← foldl (λ o _, '(l, pb) ← o;
    r ← PacketBuffer_read pb stopped out out 2048 0 0;
    if pr_ok r then Ret (l ++ [(pr_timestamp r, take (Z.to_nat (pr_size r)) (pr_data r))], pr_buf r) else UB)
    (Ret ([], pb)) (replicate n ());
  Ret l.

Definition captured `{NativeEndian} (sent : list (list Z)) : outcome (list (Z * list Z)) :=
  pb ← runCapture sent true; read_back (length sent) pb.

Fixpoint non_decreasing (prev : Z) (l : list Z) : bool :=
  match l with [] => true | t :: l' => (prev <=? t) && non_decreasing t l' end.

Definition capture_session_tests `{NativeEndian} : list (string * bool) := [
  ("BytesLandInBufferWithCorrectTimestamp",
   let frame := makeFrame 0xAB 74 in
   expect (captured [frame]) (λ l, bool_decide (l.*2 = [frame]) &&
     forallb (λ t, (0 <? t) && (now <=? t) && (t <=? now + 100)) l.*1));
  ("MultipleFramesLandInFIFOOrder",
   let frames := flip makeFrame 64%nat <$> [1; 2; 3; 4; 5] in
   expect (captured frames) (λ l, bool_decide (l.*2 = frames)));
  ("StopFlagHaltsCaptureLoop",
   match runCapture [] false with OutOfFuel => true | _ => false end &&
   expect (runCapture [] true) (λ _, true));
  ("TimestampsAreNonDecreasing",
   let frames := flip makeFrame 74%nat <$> [1; 2; 3; 4] in
   expect (captured frames) (λ l, non_decreasing 0 l.*1 && (0 <? length l)%nat));
  ("FrameSizesPreservedCorrectly",
   let frames := [makeFrame 1 42; makeFrame 2 74; makeFrame 3 98; makeFrame 4 512] in
   expect (captured frames) (λ l, bool_decide (l.*2 = frames)))
].

Example test_capture_session_pass :
  failures (capture_session_tests (H := LittleEndian)) = [] ∧ failures (capture_session_tests (H := BigEndian)) = [].
Proof. split; vm_compute; reflexivity. Qed.
End CaptureSessionTest.
